(** * blk-mq dispatch core (block/blk-mq.c, block/blk-mq.h): a shallow embedding

    The multi-queue block layer is embedded as pure functions over explicit
    state.  Pointers to [struct request] are request identities ([rq_id]),
    pointers to software queues are CPU numbers, C arrays are lists read with
    [!!] and written with [<[_:=_]>], machine integers are [Z] with the
    wrap-around written out, and the driver callbacks of [struct blk_mq_ops]
    are functions carried in a record. *)

From Stdlib Require Import ZArith List Lia Bool.
From stdpp Require Import base list.
Import ListNotations.

Local Open Scope Z_scope.

(** ** Machine integers and bit operations *)

Definition UINT_MODULUS : Z := 2 ^ 32.
Definition ULONG_MODULUS : Z := 2 ^ 64.

(** Arithmetic on [unsigned int] wraps modulo 2^32. *)
Definition uint (x : Z) : Z := x mod UINT_MODULUS.

(** Arithmetic on [unsigned long] wraps modulo 2^64. *)
Definition ulong (x : Z) : Z := x mod ULONG_MODULUS.

(** The cast [(long)x] of an [unsigned long]. *)
Definition to_long (x : Z) : Z :=
  let y := ulong x in
  if y <? 2 ^ 63 then y else y - ULONG_MODULUS.

(** The cast [(int)x] of an [unsigned int], as in [rq->tag = blk_mq_get_tag()]. *)
Definition to_int (x : Z) : Z :=
  let y := uint x in
  if y <? 2 ^ 31 then y else y - UINT_MODULUS.

Definition test_bit (nr : Z) (word : Z) : bool := Z.testbit word nr.
Definition set_bit (nr : Z) (word : Z) : Z := Z.lor word (Z.shiftl 1 nr).
Definition clear_bit (nr : Z) (word : Z) : Z := Z.ldiff word (Z.shiftl 1 nr).

Arguments test_bit : simpl never.
Arguments set_bit : simpl never.
Arguments clear_bit : simpl never.

(** [test_and_set_bit] returns the old bit together with the new word. *)
Definition test_and_set_bit (nr : Z) (word : Z) : bool * Z :=
  (test_bit nr word, set_bit nr word).

Definition test_and_clear_bit (nr : Z) (word : Z) : bool * Z :=
  (test_bit nr word, clear_bit nr word).

(** [time_after(a, b)] and [time_after_eq(a, b)] of <linux/jiffies.h>:
    comparisons of wrapping [unsigned long] counters through a signed
    difference. *)
Definition time_after (a b : Z) : bool := to_long (b - a) <? 0.
Definition time_after_eq (a b : Z) : bool := 0 <=? to_long (a - b).

(** ** Requests *)

(** Bits of [rq->atomic_flags]: value 1 is COMPLETE, value 2 is STARTED. *)
Definition REQ_ATOM_COMPLETE : Z := 0.
Definition REQ_ATOM_STARTED : Z := 1.

Record request : Type := mk_request {
  rq_id : nat;             (* the address of the request *)
  mq_ctx : nat;            (* rq->mq_ctx, the CPU of its software queue *)
  tag : Z;                 (* rq->tag, -1 when no driver tag is held *)
  internal_tag : Z;        (* rq_aux(rq)->internal_tag, -1 without scheduler *)
  req_mq_inflight : bool;  (* rq->cmd_flags & REQ_MQ_INFLIGHT *)
  atomic_flags : Z;        (* rq->atomic_flags *)
  deadline : Z;            (* rq->deadline, in jiffies *)
  timeout : Z;             (* rq->timeout *)
  errors : Z               (* rq->errors *)
}.

Definition set_tag (v : Z) (rq : request) : request :=
  mk_request (rq_id rq) (mq_ctx rq) v (internal_tag rq) (req_mq_inflight rq)
             (atomic_flags rq) (deadline rq) (timeout rq) (errors rq).

Definition set_req_mq_inflight (v : bool) (rq : request) : request :=
  mk_request (rq_id rq) (mq_ctx rq) (tag rq) (internal_tag rq) v
             (atomic_flags rq) (deadline rq) (timeout rq) (errors rq).

Definition set_atomic_flags (v : Z) (rq : request) : request :=
  mk_request (rq_id rq) (mq_ctx rq) (tag rq) (internal_tag rq)
             (req_mq_inflight rq) v (deadline rq) (timeout rq) (errors rq).

Definition set_deadline (v : Z) (rq : request) : request :=
  mk_request (rq_id rq) (mq_ctx rq) (tag rq) (internal_tag rq)
             (req_mq_inflight rq) (atomic_flags rq) v (timeout rq) (errors rq).

Definition set_errors (v : Z) (rq : request) : request :=
  mk_request (rq_id rq) (mq_ctx rq) (tag rq) (internal_tag rq)
             (req_mq_inflight rq) (atomic_flags rq) (deadline rq) (timeout rq) v.

(** A pointer to a request as stored in [tags->rqs[]]. *)
Inductive rq_ptr : Type :=
| NULL
| RQ (id : nat).

(** ** Tag pool *)

(** [struct blk_mq_tags].  The busy bitmap follows the data model of the tag
    pool: one bitmap of [nr_tags] bits whose [nr_reserved_tags] lowest bits
    are the reserved range, and a rotating cursor where the next scan
    starts. *)
Record blk_mq_tags : Type := mk_tags {
  nr_tags : Z;
  nr_reserved_tags : Z;
  bitmap : Z;
  cursor : Z;
  rqs : list rq_ptr
}.

Definition set_bitmap (b c : Z) (t : blk_mq_tags) : blk_mq_tags :=
  mk_tags (nr_tags t) (nr_reserved_tags t) b c (rqs t).

Definition set_rqs (l : list rq_ptr) (t : blk_mq_tags) : blk_mq_tags :=
  mk_tags (nr_tags t) (nr_reserved_tags t) (bitmap t) (cursor t) l.

(** The outcome of a C array read: the element, or an access outside the
    allocation. *)
Inductive access (A : Type) : Type :=
| Fault
| Value (a : A).
Arguments Fault {A}.
Arguments Value {A} a.

Definition array_read {A : Type} (a : list A) (i : Z) : access A :=
  if i <? 0 then Fault
  else match a !! Z.to_nat i with
       | Some x => Value x
       | None => Fault
       end.

(** [blk_mq_tag_to_rq]: [tag] is an [unsigned int]. *)
Definition blk_mq_tag_to_rq (tags : blk_mq_tags) (tag : Z) : access rq_ptr :=
  if tag <? nr_tags tags then array_read (rqs tags) tag
  else Value NULL.

(** Modelled from the spec: [blk_mq_init_tags] (blk-mq-tag.c) is not part of
    the sources; it creates a pool of capacity [nr_tags] with a reserved
    sub-range and no bit set. *)
Definition blk_mq_init_tags (total_tags reserved_tags : Z) : blk_mq_tags :=
  mk_tags total_tags reserved_tags 0 reserved_tags [].

(** [blk_mq_alloc_rq_map]: [tags->rqs] is a zeroed array of [nr_tags]
    request pointers. *)
Definition blk_mq_alloc_rq_map (nr_tags reserved_tags : Z) : blk_mq_tags :=
  set_rqs (replicate (Z.to_nat nr_tags) NULL)
          (blk_mq_init_tags nr_tags reserved_tags).

Definition BLK_MQ_TAG_FAIL : Z := UINT_MODULUS - 1.

(** The positions probed by one acquisition in the range [lo, hi): from the
    cursor to the end of the range, then from its start to the cursor. *)
Definition probe_order (lo hi cur : Z) : list Z :=
  let c := if (lo <=? cur) && (cur <? hi) then cur else lo in
  map (fun k => c + Z.of_nat k) (seq 0 (Z.to_nat (hi - c))) ++
  map (fun k => lo + Z.of_nat k) (seq 0 (Z.to_nat (c - lo))).

(** Modelled from the spec: [blk_mq_get_tag] (blk-mq-tag.c) without blocking.
    Reserved requests probe only bits below [nr_reserved_tags], regular ones
    only bits from [nr_reserved_tags] up; the first clear bit found is set and
    returned, [BLK_MQ_TAG_FAIL] when there is none. *)
Definition blk_mq_get_tag (reserved : bool) (t : blk_mq_tags) : Z * blk_mq_tags :=
  let lo := if reserved then 0 else nr_reserved_tags t in
  let hi := if reserved then nr_reserved_tags t else nr_tags t in
  match find (fun b => negb (test_bit b (bitmap t))) (probe_order lo hi (cursor t)) with
  | Some b => (b, set_bitmap (set_bit b (bitmap t)) (b + 1) t)
  | None => (BLK_MQ_TAG_FAIL, t)
  end.

(** Modelled from the spec: [blk_mq_put_tag] (blk-mq-tag.c) clears the bit. *)
Definition blk_mq_put_tag (tag : Z) (t : blk_mq_tags) : blk_mq_tags :=
  set_bitmap (clear_bit tag (bitmap t)) (cursor t) t.

(** Modelled from the spec: [blk_mq_tag_is_reserved] (blk-mq-tag.h), the tag
    lies in the reserved range. *)
Definition blk_mq_tag_is_reserved (t : option blk_mq_tags) (tag : Z) : bool :=
  match t with
  | Some t => (0 <=? tag) && (tag <? nr_reserved_tags t)
  | None => false
  end.

(** ** Effects outside the dispatch core

    Calls that leave the dispatch core (driver callbacks, the end-I/O path,
    the timer and the kblockd work queue) are recorded, in program order, as
    events.  Tracing, statistics and I/O accounting calls do not act on the
    modelled state and are left out. *)
(** The values a driver's [queue_rq] returns; [BLK_MQ_RQ_QUEUE_BAD] stands
    for any value outside the enumeration (the [default:] label). *)
Inductive queue_rq_ret : Type :=
| BLK_MQ_RQ_QUEUE_OK
| BLK_MQ_RQ_QUEUE_BUSY
| BLK_MQ_RQ_QUEUE_ERROR
| BLK_MQ_RQ_QUEUE_DEV_BUSY
| BLK_MQ_RQ_QUEUE_BAD (code : Z).

Inductive event : Type :=
| Ev_queue_rq (rq : nat) (tag : Z) (last : bool) (ret : queue_rq_ret)
                  (* q->mq_ops->queue_rq(hctx, &bd) for a request with this tag *)
| Ev_sched_completed (rq : nat)           (* e->ops.mq.completed_request(rq) *)
| Ev_end_request (rq : nat) (error : Z)   (* blk_mq_end_request(rq, error) *)
| Ev_softirq_done (rq : nat) (cpu : nat)  (* q->softirq_done_fn(rq) on [cpu] *)
| Ev_add_timer (rq : nat) (expiry : Z)    (* blk_add_timer(rq) *)
| Ev_mod_timer (expiry : Z)               (* mod_timer(&q->timeout, ...) *)
| Ev_tag_idle (hctx : nat)                (* blk_mq_tag_idle(hctx) *)
| Ev_run_hw_queue (hctx : nat)            (* __blk_mq_run_hw_queue(hctx) *)
| Ev_run_work (hctx : nat) (msecs : Z).   (* kblockd_mod_delayed_work_on(run_work) *)

(** An event that finalizes request [id]: it is handed to the end-I/O path
    or to the driver's completion callback. *)
Definition is_finalization (id : nat) (e : event) : bool :=
  match e with
  | Ev_end_request rq _ => Nat.eqb rq id
  | Ev_softirq_done rq _ => Nat.eqb rq id
  | _ => false
  end.

Definition finalizations (id : nat) (tr : list event) : nat :=
  length (List.filter (is_finalization id) tr).

(** What the completion path and the timeout work read from the queue, from
    the executing CPU and from the timer code. *)
Record completion_env : Type := mk_completion_env {
  has_softirq_done_fn : bool;        (* q->softirq_done_fn != NULL *)
  queue_flag_same_comp : bool;       (* QUEUE_FLAG_SAME_COMP *)
  queue_flag_same_force : bool;      (* QUEUE_FLAG_SAME_FORCE *)
  this_cpu : nat;                    (* get_cpu() *)
  cpus_share_cache : nat -> nat -> bool;
  cpu_online : nat -> bool;
  has_completed_request : bool;      (* q->elevator && e->aux->ops.mq.completed_request *)
  round_jiffies_up : Z -> Z;         (* round_jiffies_up (kernel/timer.c) *)
  blk_rq_timeout : Z -> Z            (* blk_rq_timeout (blk-timeout.c) *)
}.

(** [blk_mq_ipi_complete_request]: the completion callback runs on the
    submitting CPU unless that is this CPU, shares its cache or is offline. *)
Definition blk_mq_ipi_complete_request (env : completion_env) (rq : request)
  : list event :=
  if negb (queue_flag_same_comp env) then [Ev_softirq_done (rq_id rq) (this_cpu env)]
  else
    let shared :=
      if negb (queue_flag_same_force env)
      then cpus_share_cache env (this_cpu env) (mq_ctx rq) else false in
    if negb (Nat.eqb (this_cpu env) (mq_ctx rq)) && negb shared
       && cpu_online env (mq_ctx rq)
    then [Ev_softirq_done (rq_id rq) (mq_ctx rq)]
    else [Ev_softirq_done (rq_id rq) (this_cpu env)].

(** [blk_mq_sched_completed_request]: the hook of the I/O scheduler is
    called if a scheduler is attached and defines it. *)
Definition blk_mq_sched_completed_request (env : completion_env) (rq : request)
  : list event :=
  if has_completed_request env then [Ev_sched_completed (rq_id rq)] else [].

(** [__blk_mq_complete_request]. *)
Definition __blk_mq_complete_request (env : completion_env) (rq : request)
    (sync : bool) : list event :=
  (if negb (internal_tag rq =? -1) then blk_mq_sched_completed_request env rq
   else []) ++
  (if negb (has_softirq_done_fn env) then [Ev_end_request (rq_id rq) (errors rq)]
   else if sync then [Ev_softirq_done (rq_id rq) (this_cpu env)]
   else blk_mq_ipi_complete_request env rq).

(** Modelled from the spec: [blk_mark_rq_complete] (blk.h) checks-and-sets
    COMPLETE atomically and returns the old value of the flag. *)
Definition blk_mark_rq_complete (rq : request) : bool * request :=
  let '(old, w) := test_and_set_bit REQ_ATOM_COMPLETE (atomic_flags rq) in
  (old, set_atomic_flags w rq).

(** Modelled from the spec: [blk_clear_rq_complete] (blk.h) clears COMPLETE. *)
Definition blk_clear_rq_complete (rq : request) : request :=
  set_atomic_flags (clear_bit REQ_ATOM_COMPLETE (atomic_flags rq)) rq.

(** [blk_mq_complete_request].  [fake_timeout] is the value of
    [blk_should_fake_timeout(q)], the fault-injection hook of blk-timeout.c,
    which is not part of the sources. *)
Definition blk_mq_complete_request (env : completion_env) (fake_timeout : bool)
    (rq : request) (error : Z) : request * list event :=
  if fake_timeout then (rq, [])
  else
    let '(was_complete, rq1) := blk_mark_rq_complete rq in
    if negb was_complete then
      let rq2 := set_errors error rq1 in
      (rq2, __blk_mq_complete_request env rq2 false)
    else (rq1, []).

(** [blk_mq_complete_request_sync]. *)
Definition blk_mq_complete_request_sync (env : completion_env)
    (rq : request) (error : Z) : request * list event :=
  let '(was_complete, rq1) := blk_mark_rq_complete rq in
  if negb was_complete then
    let rq2 := set_errors error rq1 in
    (rq2, __blk_mq_complete_request env rq2 true)
  else (rq1, []).

(** [blk_mq_request_started]. *)
Definition blk_mq_request_started (rq : request) : bool :=
  test_bit REQ_ATOM_STARTED (atomic_flags rq).

(** Modelled from the spec: [blk_add_timer] (blk-timeout.c) computes and
    stores [deadline = now + timeout] and arms the timeout scanner. *)
Definition blk_add_timer (jiffies : Z) (rq : request) : request * list event :=
  let d := ulong (jiffies + timeout rq) in
  (set_deadline d rq, [Ev_add_timer (rq_id rq) d]).

(** [blk_mq_start_request]: arm the timer, then set STARTED and clear
    COMPLETE. *)
Definition blk_mq_start_request (jiffies : Z) (rq : request)
  : request * list event :=
  let '(rq1, tr) := blk_add_timer jiffies rq in
  let f1 := if negb (test_bit REQ_ATOM_STARTED (atomic_flags rq1))
            then set_bit REQ_ATOM_STARTED (atomic_flags rq1)
            else atomic_flags rq1 in
  let f2 := if test_bit REQ_ATOM_COMPLETE f1
            then clear_bit REQ_ATOM_COMPLETE f1 else f1 in
  (set_atomic_flags f2 rq1, tr).

(** ** Timeout scan *)

(** [enum blk_eh_timer_return]; [BLK_EH_BAD] stands for any other value a
    handler returns (the [default:] label). *)
Inductive blk_eh_timer_return : Type :=
| BLK_EH_NOT_HANDLED
| BLK_EH_HANDLED
| BLK_EH_RESET_TIMER
| BLK_EH_BAD (code : Z).

(** [ops->timeout], [None] when the driver leaves the pointer NULL. *)
Definition timeout_fn : Type := option (request -> bool -> blk_eh_timer_return).

(** [blk_mq_rq_timed_out]. *)
Definition blk_mq_rq_timed_out (env : completion_env) (ops_timeout : timeout_fn)
    (jiffies : Z) (req : request) (reserved : bool) : request * list event :=
  if negb (test_bit REQ_ATOM_STARTED (atomic_flags req)) then (req, [])
  else
    let ret := match ops_timeout with
               | Some handler => handler req reserved
               | None => BLK_EH_RESET_TIMER
               end in
    match ret with
    | BLK_EH_HANDLED => (req, __blk_mq_complete_request env req false)
    | BLK_EH_RESET_TIMER =>
        let '(req1, tr) := blk_add_timer jiffies req in
        (blk_clear_rq_complete req1, tr)
    | BLK_EH_NOT_HANDLED => (req, [])
    | BLK_EH_BAD _ => (req, [])
    end.

(** [struct blk_mq_timeout_data]. *)
Record blk_mq_timeout_data : Type := mk_timeout_data {
  next : Z;
  next_set : bool
}.

(** [blk_mq_check_expired]. *)
Definition blk_mq_check_expired (env : completion_env) (ops_timeout : timeout_fn)
    (jiffies : Z) (rq : request) (reserved : bool) (data : blk_mq_timeout_data)
  : request * blk_mq_timeout_data * list event :=
  if negb (test_bit REQ_ATOM_STARTED (atomic_flags rq)) then (rq, data, [])
  else if time_after_eq jiffies (deadline rq) then
    let '(was_complete, rq1) := blk_mark_rq_complete rq in
    if negb was_complete then
      let '(rq2, tr) := blk_mq_rq_timed_out env ops_timeout jiffies rq1 reserved in
      (rq2, data, tr)
    else (rq1, data, [])
  else if negb (next_set data) || time_after (next data) (deadline rq) then
    (rq, mk_timeout_data (deadline rq) true, [])
  else (rq, data, []).

(** Modelled from the spec: [blk_mq_queue_tag_busy_iter] (blk-mq-tag.c) calls
    the function on every request that holds a tag; the requests come with
    their [reserved] bit. *)
Fixpoint blk_mq_queue_tag_busy_iter (env : completion_env)
    (ops_timeout : timeout_fn) (jiffies : Z) (busy : list (request * bool))
    (data : blk_mq_timeout_data)
  : list (request * bool) * blk_mq_timeout_data * list event :=
  match busy with
  | [] => ([], data, [])
  | (rq, reserved) :: rest =>
      let '(rq', data1, tr1) :=
        blk_mq_check_expired env ops_timeout jiffies rq reserved data in
      let '(rest', data2, tr2) :=
        blk_mq_queue_tag_busy_iter env ops_timeout jiffies rest data1 in
      ((rq', reserved) :: rest', data2, tr1 ++ tr2)
  end.

(** ** Software and hardware queues *)

(** Modelled from the spec: [struct sbitmap] (lib/sbitmap.c), the
    pending-bitmap of a hardware queue: [sb_depth] bits kept in [sb_word]. *)
Record sbitmap : Type := mk_sbitmap {
  sb_depth : nat;
  sb_word : Z
}.

Definition sbitmap_test_bit (sb : sbitmap) (bitnr : nat) : bool :=
  test_bit (Z.of_nat bitnr) (sb_word sb).
Definition sbitmap_set_bit (sb : sbitmap) (bitnr : nat) : sbitmap :=
  mk_sbitmap (sb_depth sb) (set_bit (Z.of_nat bitnr) (sb_word sb)).
Definition sbitmap_clear_bit (sb : sbitmap) (bitnr : nat) : sbitmap :=
  mk_sbitmap (sb_depth sb) (clear_bit (Z.of_nat bitnr) (sb_word sb)).
Definition sbitmap_any_bit_set (sb : sbitmap) : bool :=
  existsb (sbitmap_test_bit sb) (seq 0 (sb_depth sb)).

(** [struct blk_mq_ctx], the software queue of one CPU.  A pointer to it is
    the CPU number, its index in the per-CPU area [q->queue_ctx]. *)
Record blk_mq_ctx : Type := mk_ctx {
  rq_list : list request;
  index_hw : nat
}.

Definition set_rq_list (l : list request) (ctx : blk_mq_ctx) : blk_mq_ctx :=
  mk_ctx l (index_hw ctx).

(** [struct blk_mq_hw_ctx].  The bits of [hctx->flags] and [hctx->state] that
    the dispatch core reads are separate fields, [dispatched] is the
    histogram array of [BLK_MQ_MAX_DISPATCH_ORDER] counters and
    [sched_has_work] is the answer of the elevator's [has_work] hook. *)
Record blk_mq_hw_ctx : Type := mk_hctx {
  flag_tag_shared : bool;       (* hctx->flags & BLK_MQ_F_TAG_SHARED *)
  flag_blocking : bool;         (* hctx->flags & BLK_MQ_F_BLOCKING *)
  state_stopped : bool;         (* BLK_MQ_S_STOPPED *)
  state_sched_restart : bool;   (* BLK_MQ_S_SCHED_RESTART *)
  dispatch : list request;
  ctx_map : sbitmap;
  nr_ctx : nat;
  ctxs : list nat;
  tags : option blk_mq_tags;
  sched_tags : option blk_mq_tags;
  nr_active : Z;
  dispatch_busy : Z;
  dispatched : list Z;
  dispatch_wait_queued : bool;  (* !list_empty(&dispatch_wait.task_list) *)
  sched_has_work : bool
}.

Definition set_state_sched_restart (v : bool) (h : blk_mq_hw_ctx) : blk_mq_hw_ctx :=
  mk_hctx (flag_tag_shared h) (flag_blocking h) (state_stopped h) v
          (dispatch h) (ctx_map h) (nr_ctx h) (ctxs h) (tags h) (sched_tags h)
          (nr_active h) (dispatch_busy h) (dispatched h)
          (dispatch_wait_queued h) (sched_has_work h).

Definition set_dispatch (v : list request) (h : blk_mq_hw_ctx) : blk_mq_hw_ctx :=
  mk_hctx (flag_tag_shared h) (flag_blocking h) (state_stopped h)
          (state_sched_restart h) v (ctx_map h) (nr_ctx h) (ctxs h) (tags h)
          (sched_tags h) (nr_active h) (dispatch_busy h) (dispatched h)
          (dispatch_wait_queued h) (sched_has_work h).

Definition set_ctx_map (v : sbitmap) (h : blk_mq_hw_ctx) : blk_mq_hw_ctx :=
  mk_hctx (flag_tag_shared h) (flag_blocking h) (state_stopped h)
          (state_sched_restart h) (dispatch h) v (nr_ctx h) (ctxs h) (tags h)
          (sched_tags h) (nr_active h) (dispatch_busy h) (dispatched h)
          (dispatch_wait_queued h) (sched_has_work h).

Definition set_tags (v : option blk_mq_tags) (h : blk_mq_hw_ctx) : blk_mq_hw_ctx :=
  mk_hctx (flag_tag_shared h) (flag_blocking h) (state_stopped h)
          (state_sched_restart h) (dispatch h) (ctx_map h) (nr_ctx h) (ctxs h) v
          (sched_tags h) (nr_active h) (dispatch_busy h) (dispatched h)
          (dispatch_wait_queued h) (sched_has_work h).

Definition set_nr_active (v : Z) (h : blk_mq_hw_ctx) : blk_mq_hw_ctx :=
  mk_hctx (flag_tag_shared h) (flag_blocking h) (state_stopped h)
          (state_sched_restart h) (dispatch h) (ctx_map h) (nr_ctx h) (ctxs h)
          (tags h) (sched_tags h) v (dispatch_busy h) (dispatched h)
          (dispatch_wait_queued h) (sched_has_work h).

Definition set_dispatch_busy (v : Z) (h : blk_mq_hw_ctx) : blk_mq_hw_ctx :=
  mk_hctx (flag_tag_shared h) (flag_blocking h) (state_stopped h)
          (state_sched_restart h) (dispatch h) (ctx_map h) (nr_ctx h) (ctxs h)
          (tags h) (sched_tags h) (nr_active h) v (dispatched h)
          (dispatch_wait_queued h) (sched_has_work h).

Definition set_dispatched (v : list Z) (h : blk_mq_hw_ctx) : blk_mq_hw_ctx :=
  mk_hctx (flag_tag_shared h) (flag_blocking h) (state_stopped h)
          (state_sched_restart h) (dispatch h) (ctx_map h) (nr_ctx h) (ctxs h)
          (tags h) (sched_tags h) (nr_active h) (dispatch_busy h) v
          (dispatch_wait_queued h) (sched_has_work h).

Definition set_dispatch_wait_queued (v : bool) (h : blk_mq_hw_ctx) : blk_mq_hw_ctx :=
  mk_hctx (flag_tag_shared h) (flag_blocking h) (state_stopped h)
          (state_sched_restart h) (dispatch h) (ctx_map h) (nr_ctx h) (ctxs h)
          (tags h) (sched_tags h) (nr_active h) (dispatch_busy h) (dispatched h)
          v (sched_has_work h).

(** [blk_mq_hctx_mark_pending]: [ctx] is the software queue, read from the
    per-CPU area by the caller. *)
Definition blk_mq_hctx_mark_pending (hctx : blk_mq_hw_ctx) (ctx : blk_mq_ctx)
  : blk_mq_hw_ctx :=
  if negb (sbitmap_test_bit (ctx_map hctx) (index_hw ctx))
  then set_ctx_map (sbitmap_set_bit (ctx_map hctx) (index_hw ctx)) hctx
  else hctx.

(** [blk_mq_hctx_clear_pending]. *)
Definition blk_mq_hctx_clear_pending (hctx : blk_mq_hw_ctx) (ctx : blk_mq_ctx)
  : blk_mq_hw_ctx :=
  set_ctx_map (sbitmap_clear_bit (ctx_map hctx) (index_hw ctx)) hctx.

(** What a queue operation works on: the hardware queue it was handed and the
    per-CPU area holding every software queue of the request queue. *)
Record hw_sw : Type := mk_hw_sw {
  hw : blk_mq_hw_ctx;
  sw_queues : list blk_mq_ctx
}.

(** [list_add] puts the entry right after the head, [list_add_tail] right
    before it. *)
Definition list_add {A : Type} (x : A) (l : list A) : list A := x :: l.
Definition list_add_tail {A : Type} (x : A) (l : list A) : list A := l ++ [x].

(** [list_splice(list, head)] joins [list] at the front of [head],
    [list_splice_tail(list, head)] at its end. *)
Definition list_splice {A : Type} (l head : list A) : list A := l ++ head.
Definition list_splice_tail {A : Type} (l head : list A) : list A := head ++ l.

(** [__blk_mq_insert_req_list] followed by [blk_mq_hctx_mark_pending]:
    [__blk_mq_insert_request].  A request whose [mq_ctx] lies outside the
    per-CPU area cannot be formed in C; the state is then left as it is. *)
Definition __blk_mq_insert_request (s : hw_sw) (rq : request) (at_head : bool)
  : hw_sw :=
  match sw_queues s !! mq_ctx rq with
  | Some ctx =>
      let ctx' := set_rq_list (if at_head then list_add rq (rq_list ctx)
                               else list_add_tail rq (rq_list ctx)) ctx in
      mk_hw_sw (blk_mq_hctx_mark_pending (hw s) ctx')
               (<[mq_ctx rq := ctx']> (sw_queues s))
  | None => s
  end.

(** [blk_mq_insert_requests]: the whole [list] goes to the tail of the
    software queue of CPU [cpu].  [None] is the [BUG_ON] for a list that
    holds a request of another software queue, which is tested for every
    request before the list is spliced. *)
Definition blk_mq_insert_requests (s : hw_sw) (cpu : nat) (l : list request)
  : option hw_sw :=
  if forallb (fun rq => Nat.eqb (mq_ctx rq) cpu) l then
    match sw_queues s !! cpu with
    | Some ctx =>
        let ctx' := set_rq_list (list_splice_tail l (rq_list ctx)) ctx in
        Some (mk_hw_sw (blk_mq_hctx_mark_pending (hw s) ctx')
                       (<[cpu := ctx']> (sw_queues s)))
    | None => Some s
    end
  else None.

(** Modelled from the spec: the iteration of lib/sbitmap.c over the set bits.
    The bits are visited in the order [order]; a bit is tested when its turn
    comes, and the walk stops as soon as the callback returns [false]. *)
Fixpoint sbitmap_walk {S : Type} (sb_of : S -> sbitmap)
    (fn : nat -> S -> bool * S) (order : list nat) (s : S) : S :=
  match order with
  | [] => s
  | bitnr :: rest =>
      if sbitmap_test_bit (sb_of s) bitnr then
        let '(continue, s') := fn bitnr s in
        if continue then sbitmap_walk sb_of fn rest s' else s'
      else sbitmap_walk sb_of fn rest s
  end.

(** [sbitmap_for_each_set] starts at bit 0. *)
Definition sbitmap_for_each_set {S : Type} (sb_of : S -> sbitmap)
    (fn : nat -> S -> bool * S) (s : S) : S :=
  sbitmap_walk sb_of fn (seq 0 (sb_depth (sb_of s))) s.

(** [__sbitmap_for_each_set] starts at bit [start] and wraps around. *)
Definition __sbitmap_for_each_set {S : Type} (sb_of : S -> sbitmap)
    (start : nat) (fn : nat -> S -> bool * S) (s : S) : S :=
  let depth := sb_depth (sb_of s) in
  let start := if (depth <=? start)%nat then 0%nat else start in
  sbitmap_walk sb_of fn (seq start (depth - start) ++ seq 0 start) s.

(** [struct flush_busy_ctx_data]: the hardware queue with the software
    queues, and the output list. *)
Definition flush_busy_ctx_data : Type := (hw_sw * list request)%type.

(** [flush_busy_ctx].  A bit without an entry in [hctx->ctxs] would make the C
    code read outside the array; nothing is done for it. *)
Definition flush_busy_ctx (bitnr : nat) (data : flush_busy_ctx_data)
  : bool * flush_busy_ctx_data :=
  let '(s, l) := data in
  match ctxs (hw s) !! bitnr with
  | Some cpu =>
      match sw_queues s !! cpu with
      | Some ctx =>
          (true,
           (mk_hw_sw (set_ctx_map (sbitmap_clear_bit (ctx_map (hw s)) bitnr) (hw s))
                     (<[cpu := set_rq_list [] ctx]> (sw_queues s)),
            list_splice_tail (rq_list ctx) l))
      | None => (true, data)
      end
  | None => (true, data)
  end.

(** [blk_mq_flush_busy_ctxs]. *)
Definition blk_mq_flush_busy_ctxs (s : hw_sw) (l : list request)
  : hw_sw * list request :=
  sbitmap_for_each_set (fun d : flush_busy_ctx_data => ctx_map (hw (fst d)))
                       flush_busy_ctx (s, l).

(** [struct dispatch_rq_data]. *)
Definition dispatch_rq_data : Type := (hw_sw * option request)%type.

(** [dispatch_rq_from_ctx]. *)
Definition dispatch_rq_from_ctx (bitnr : nat) (data : dispatch_rq_data)
  : bool * dispatch_rq_data :=
  let '(s, rq) := data in
  match ctxs (hw s) !! bitnr with
  | Some cpu =>
      match sw_queues s !! cpu with
      | Some ctx =>
          match rq_list ctx with
          | first :: rest =>
              let hw' := if bool_decide (rest = [])
                         then set_ctx_map (sbitmap_clear_bit (ctx_map (hw s)) bitnr) (hw s)
                         else hw s in
              (false, (mk_hw_sw hw' (<[cpu := set_rq_list rest ctx]> (sw_queues s)),
                       Some first))
          | [] => (negb (bool_decide (is_Some rq)), data)
          end
      | None => (negb (bool_decide (is_Some rq)), data)
      end
  | None => (negb (bool_decide (is_Some rq)), data)
  end.

(** [blk_mq_dequeue_from_ctx]: [start] is the software queue to begin with,
    [None] for a NULL pointer. *)
Definition blk_mq_dequeue_from_ctx (s : hw_sw) (start : option nat)
  : hw_sw * option request :=
  let off := match start with
             | Some cpu => match sw_queues s !! cpu with
                           | Some ctx => index_hw ctx
                           | None => 0%nat
                           end
             | None => 0%nat
             end in
  __sbitmap_for_each_set (fun d : dispatch_rq_data => ctx_map (hw (fst d)))
                         off dispatch_rq_from_ctx (s, None).

(** [blk_mq_hctx_cpu_offline], up to the point where the hardware queue is
    run: the software queue of the dead CPU is emptied onto the dispatch
    list of [hctx].  The result says whether the queue has to be run. *)
Definition blk_mq_hctx_cpu_offline (s : hw_sw) (cpu : nat) : hw_sw * bool :=
  match sw_queues s !! cpu with
  | Some ctx =>
      match rq_list ctx with
      | [] => (s, false)
      | _ :: _ =>
          let tmp := list_splice (rq_list ctx) [] in
          let hw1 := blk_mq_hctx_clear_pending (hw s) ctx in
          (mk_hw_sw (set_dispatch (list_splice_tail tmp (dispatch hw1)) hw1)
                    (<[cpu := set_rq_list [] ctx]> (sw_queues s)),
           true)
      end
  | None => (s, false)
  end.

(** The hotplug actions a notifier is called with; [CPU_ACTION] stands for
    every action other than the two the notifier acts on. *)
Inductive cpu_action : Type :=
| CPU_DEAD
| CPU_DEAD_FROZEN
| CPU_ACTION (action : Z).

(** [blk_mq_hctx_notify], the notifier that [blk_mq_init_hctx] registers for
    each hardware queue: [s] holds the hardware queue it was registered
    with, [cpu] is the CPU the action is about.  The notifier returns
    [NOTIFY_OK] in every case; the result here is that of
    [blk_mq_hctx_cpu_offline]. *)
Definition blk_mq_hctx_notify (s : hw_sw) (action : cpu_action) (cpu : nat)
  : hw_sw * bool :=
  match action with
  | CPU_DEAD | CPU_DEAD_FROZEN => blk_mq_hctx_cpu_offline s cpu
  | CPU_ACTION _ => (s, false)
  end.

(** ** The request queue *)

(** Modelled from the spec: [struct percpu_ref] (lib/percpu-refcount.c), the
    usage counter of the request queue: the number of references held by
    requests in flight and by callers inside the queue, and whether the
    counter was killed, which stops new references. *)
Record percpu_ref : Type := mk_percpu_ref {
  ref_dead : bool;
  ref_count : Z
}.

(** [struct request_queue]: the hardware queues, the per-CPU software queues,
    the CPU to hardware-queue table, whether an I/O scheduler is attached,
    the quiesced flag, and the freeze state with the tasks sleeping on
    [mq_freeze_wq]. *)
Record request_queue : Type := mk_queue {
  queue_hw_ctx : list blk_mq_hw_ctx;
  queue_ctx : list blk_mq_ctx;
  mq_map : list nat;
  elevator : bool;
  queue_flag_quiesced : bool;
  mq_freeze_depth : Z;
  q_usage_counter : percpu_ref;
  mq_freeze_wq : list nat
}.

Definition set_queue_hw_ctx (v : list blk_mq_hw_ctx) (q : request_queue) : request_queue :=
  mk_queue v (queue_ctx q) (mq_map q) (elevator q) (queue_flag_quiesced q)
           (mq_freeze_depth q) (q_usage_counter q) (mq_freeze_wq q).

Definition set_queue_ctx (v : list blk_mq_ctx) (q : request_queue) : request_queue :=
  mk_queue (queue_hw_ctx q) v (mq_map q) (elevator q) (queue_flag_quiesced q)
           (mq_freeze_depth q) (q_usage_counter q) (mq_freeze_wq q).

Definition set_queue_flag_quiesced (v : bool) (q : request_queue) : request_queue :=
  mk_queue (queue_hw_ctx q) (queue_ctx q) (mq_map q) (elevator q) v
           (mq_freeze_depth q) (q_usage_counter q) (mq_freeze_wq q).

Definition set_freeze (depth : Z) (ref : percpu_ref) (wq : list nat)
    (q : request_queue) : request_queue :=
  mk_queue (queue_hw_ctx q) (queue_ctx q) (mq_map q) (elevator q)
           (queue_flag_quiesced q) depth ref wq.

(** A hardware queue without software queues and without tags: what a read
    outside [q->queue_hw_ctx] yields.  The C code performs no such read as
    long as [mq_map] holds indices of existing hardware queues. *)
Definition unmapped_hctx : blk_mq_hw_ctx :=
  mk_hctx false false false false [] (mk_sbitmap 0 0) 0 [] None None 0 0 []
          false false.

(** [q->queue_hw_ctx[h]]. *)
Definition hctx_at (q : request_queue) (h : nat) : blk_mq_hw_ctx :=
  default unmapped_hctx (queue_hw_ctx q !! h).

(** [*hctx = v] for the hardware queue of index [h]. *)
Definition store_hctx (h : nat) (v : blk_mq_hw_ctx) (q : request_queue)
  : request_queue :=
  set_queue_hw_ctx (<[h := v]> (queue_hw_ctx q)) q.

(** [blk_mq_map_queue]: the index of the hardware queue of [cpu]. *)
Definition blk_mq_map_queue (q : request_queue) (cpu : nat) : nat :=
  default 0%nat (mq_map q !! cpu).

(** A queue operation of the previous section applied to the hardware queue
    of index [h] of [q]. *)
Definition on_hctx {R : Type} (q : request_queue) (h : nat)
    (op : hw_sw -> hw_sw * R) : request_queue * R :=
  let '(s, r) := op (mk_hw_sw (hctx_at q h) (queue_ctx q)) in
  (set_queue_ctx (sw_queues s) (store_hctx h (hw s) q), r).

Definition blk_mq_hctx_stopped (hctx : blk_mq_hw_ctx) : bool := state_stopped hctx.

(** [blk_mq_hw_queue_mapped]. *)
Definition blk_mq_hw_queue_mapped (hctx : blk_mq_hw_ctx) : bool :=
  negb (Nat.eqb (nr_ctx hctx) 0) && bool_decide (is_Some (tags hctx)).

(** [blk_mq_hctx_has_pending]. *)
Definition blk_mq_hctx_has_pending (hctx : blk_mq_hw_ctx) : bool :=
  negb (bool_decide (dispatch hctx = [])) || sbitmap_any_bit_set (ctx_map hctx)
  || sched_has_work hctx.

(** [__blk_mq_delay_run_hw_queue].  [cpu] is the executing CPU; running the
    queue on the spot enters [__blk_mq_run_hw_queue]. *)
Definition __blk_mq_delay_run_hw_queue (hctx : blk_mq_hw_ctx) (h : nat)
    (cpu : nat) (async : bool) (msecs : Z) : list event :=
  if blk_mq_hctx_stopped hctx || negb (blk_mq_hw_queue_mapped hctx) then []
  else if negb async && negb (flag_blocking hctx)
          && bool_decide (cpu ∈ ctxs hctx)
       then [Ev_run_hw_queue h]
       else [Ev_run_work h msecs].

(** [blk_mq_delay_run_hw_queue]. *)
Definition blk_mq_delay_run_hw_queue (hctx : blk_mq_hw_ctx) (h : nat)
    (cpu : nat) (msecs : Z) : list event :=
  __blk_mq_delay_run_hw_queue hctx h cpu true msecs.

(** [blk_mq_run_hw_queue]. *)
Definition blk_mq_run_hw_queue (q : request_queue) (h : nat) (cpu : nat)
    (async : bool) : bool * list event :=
  let hctx := hctx_at q h in
  let need_run := negb (queue_flag_quiesced q) && blk_mq_hctx_has_pending hctx in
  if need_run then (true, __blk_mq_delay_run_hw_queue hctx h cpu async 0)
  else (false, []).

(** ** Driver tags *)

(** Modelled from the spec: [blk_mq_tag_busy] (blk-mq-tag.h), true if any bit
    beyond the reserved range is set. *)
Definition blk_mq_tag_busy (hctx : blk_mq_hw_ctx) : bool :=
  match tags hctx with
  | Some t => negb (Z.shiftr (bitmap t) (nr_reserved_tags t) =? 0)
  | None => false
  end.

(** [blk_mq_get_tag] on [hctx->tags]; without a tag pool no tag is found. *)
Definition hctx_get_tag (reserved : bool) (hctx : blk_mq_hw_ctx)
  : Z * blk_mq_hw_ctx :=
  match tags hctx with
  | Some t => let '(b, t') := blk_mq_get_tag reserved t in
              (b, set_tags (Some t') hctx)
  | None => (BLK_MQ_TAG_FAIL, hctx)
  end.

(** [data.hctx->tags->rqs[rq->tag] = rq]. *)
Definition hctx_set_rqs (tag : Z) (id : nat) (hctx : blk_mq_hw_ctx) : blk_mq_hw_ctx :=
  match tags hctx with
  | Some t => set_tags (Some (set_rqs (<[Z.to_nat tag := RQ id]> (rqs t)) t)) hctx
  | None => hctx
  end.

(** [blk_mq_get_driver_tag] with [wait = false]. *)
Definition blk_mq_get_driver_tag (q : request_queue) (rq : request)
  : bool * request * request_queue :=
  let h := blk_mq_map_queue q (mq_ctx rq) in
  if negb (tag rq =? -1) then (negb (tag rq =? -1), rq, q)
  else
    let hctx := hctx_at q h in
    let reserved := blk_mq_tag_is_reserved (sched_tags hctx) (internal_tag rq) in
    let '(t, hctx1) := hctx_get_tag reserved hctx in
    let rq1 := set_tag (to_int t) rq in
    if 0 <=? tag rq1 then
      let '(rq2, hctx2) :=
        if blk_mq_tag_busy hctx1
        then (set_req_mq_inflight true rq1, set_nr_active (nr_active hctx1 + 1) hctx1)
        else (rq1, hctx1) in
      let hctx3 := hctx_set_rqs (tag rq2) (rq_id rq2) hctx2 in
      (negb (tag rq2 =? -1), rq2, store_hctx h hctx3 q)
    else (negb (tag rq1 =? -1), rq1, store_hctx h hctx1 q).

(** [blk_mq_mark_tag_wait] for the hardware queue of index [h]. *)
Definition blk_mq_mark_tag_wait (q : request_queue) (h : nat) (rq : request)
  : bool * request * request_queue :=
  let this_hctx := hctx_at q h in
  if negb (flag_tag_shared this_hctx) then
    let q1 := if negb (state_sched_restart this_hctx)
              then store_hctx h (set_state_sched_restart true this_hctx) q
              else q in
    blk_mq_get_driver_tag q1 rq
  else if dispatch_wait_queued this_hctx then (false, rq, q)
  else
    let q1 := store_hctx h (set_dispatch_wait_queued true this_hctx) q in
    let '(ret, rq1, q2) := blk_mq_get_driver_tag q1 rq in
    if negb ret then (false, rq1, q2)
    else (true, rq1, store_hctx h (set_dispatch_wait_queued false (hctx_at q2 h)) q2).

(** [__blk_mq_put_driver_tag]. *)
Definition __blk_mq_put_driver_tag (hctx : blk_mq_hw_ctx) (rq : request)
  : blk_mq_hw_ctx * request :=
  let hctx1 := set_tags (option_map (blk_mq_put_tag (tag rq)) (tags hctx)) hctx in
  let rq1 := set_tag (-1) rq in
  if req_mq_inflight rq1
  then (set_nr_active (nr_active hctx1 - 1) hctx1, set_req_mq_inflight false rq1)
  else (hctx1, rq1).

(** [blk_mq_put_driver_tag]. *)
Definition blk_mq_put_driver_tag (q : request_queue) (rq : request)
  : request_queue * request :=
  if (tag rq =? -1) || (internal_tag rq =? -1) then (q, rq)
  else
    let h := blk_mq_map_queue q (mq_ctx rq) in
    let '(hctx', rq') := __blk_mq_put_driver_tag (hctx_at q h) rq in
    (store_hctx h hctx' q, rq').

(** [__blk_mq_requeue_request]. *)
Definition __blk_mq_requeue_request (q : request_queue) (rq : request)
  : request_queue * request :=
  let '(q1, rq1) := blk_mq_put_driver_tag q rq in
  let '(_, flags) := test_and_clear_bit REQ_ATOM_STARTED (atomic_flags rq1) in
  (q1, set_atomic_flags flags rq1).

(** ** Dispatch *)

Definition BLK_MQ_DISPATCH_BUSY_EWMA_WEIGHT : Z := 8.
Definition BLK_MQ_DISPATCH_BUSY_EWMA_FACTOR : Z := 4.

(** [blk_mq_update_dispatch_busy]; [has_elevator] is [hctx->queue->elevator]
    and [ewma] an [unsigned int]. *)
Definition blk_mq_update_dispatch_busy (has_elevator : bool)
    (hctx : blk_mq_hw_ctx) (busy : bool) : blk_mq_hw_ctx :=
  if has_elevator then hctx
  else
    let ewma := dispatch_busy hctx in
    if (ewma =? 0) && negb busy then hctx
    else
      let ewma := uint (ewma * (BLK_MQ_DISPATCH_BUSY_EWMA_WEIGHT - 1)) in
      let ewma := if busy
                  then uint (ewma + Z.shiftl 1 BLK_MQ_DISPATCH_BUSY_EWMA_FACTOR)
                  else ewma in
      let ewma := ewma / BLK_MQ_DISPATCH_BUSY_EWMA_WEIGHT in
      set_dispatch_busy ewma hctx.

Definition BLK_MQ_RESOURCE_DELAY : Z := 3.

(** [queued_to_index]; [max_order] is [BLK_MQ_MAX_DISPATCH_ORDER], the length
    of [hctx->dispatched]. *)
Definition queued_to_index (max_order : Z) (queued : Z) : Z :=
  if queued =? 0 then 0
  else Z.min (max_order - 1) (Z.log2 queued + 1).

(** [struct blk_mq_queue_data]; [bd_list] tells whether [bd.list] points to
    the driver list rather than being NULL. *)
Record blk_mq_queue_data : Type := mk_bd {
  bd_rq : request;
  bd_list : bool;
  bd_last : bool
}.

(** [struct blk_mq_ops] of a driver with private state [D].  [queue_rq]
    returns its status, whether the driver called [blk_mq_start_request] on
    the request, and its new state; the budget hooks of [aux_ops] are
    optional. *)
Record blk_mq_ops (D : Type) : Type := mk_ops {
  queue_rq : D -> nat -> blk_mq_queue_data -> queue_rq_ret * bool * D;
  get_budget : option (D -> nat -> bool * D);
  put_budget : option (D -> nat -> D);
  timeout_handler : timeout_fn
}.
Arguments mk_ops {D} _ _ _ _.
Arguments queue_rq {D} _ _ _ _.
Arguments get_budget {D} _.
Arguments put_budget {D} _.
Arguments timeout_handler {D} _.

(** [blk_mq_get_dispatch_budget]. *)
Definition blk_mq_get_dispatch_budget {D : Type} (ops : blk_mq_ops D)
    (drv : D) (h : nat) : bool * D :=
  match get_budget ops with
  | Some f => f drv h
  | None => (true, drv)
  end.

(** [blk_mq_put_dispatch_budget]. *)
Definition blk_mq_put_dispatch_budget {D : Type} (ops : blk_mq_ops D)
    (drv : D) (h : nat) : D :=
  match put_budget ops with
  | Some f => f drv h
  | None => drv
  end.

(** [ret == BLK_MQ_RQ_QUEUE_BUSY || ret == BLK_MQ_RQ_QUEUE_DEV_BUSY]. *)
Definition is_busy_ret (ret : queue_rq_ret) : bool :=
  match ret with
  | BLK_MQ_RQ_QUEUE_BUSY | BLK_MQ_RQ_QUEUE_DEV_BUSY => true
  | _ => false
  end.

(** [ret == BLK_MQ_RQ_QUEUE_BUSY]. *)
Definition is_queue_busy (ret : queue_rq_ret) : bool :=
  match ret with
  | BLK_MQ_RQ_QUEUE_BUSY => true
  | _ => false
  end.

Definition EIO : Z := 5.

(** The state a dispatch works on, and the local variables of
    [blk_mq_dispatch_rq_list] that live across loop iterations. *)
Record dispatch_state (D : Type) : Type := mk_ds {
  ds_queue : request_queue;
  ds_driver : D;
  ds_trace : list event;
  l_hctx : nat;
  l_no_tag : bool;
  l_errors : Z;
  l_queued : Z;
  l_ret : queue_rq_ret;
  l_dptr : bool
}.
Arguments mk_ds {D} _ _ _ _ _ _ _ _ _.
Arguments ds_queue {D} _.
Arguments ds_driver {D} _.
Arguments ds_trace {D} _.
Arguments l_hctx {D} _.
Arguments l_no_tag {D} _.
Arguments l_errors {D} _.
Arguments l_queued {D} _.
Arguments l_ret {D} _.
Arguments l_dptr {D} _.

Definition set_ds_core {D : Type} (q : request_queue) (drv : D)
    (tr : list event) (st : dispatch_state D) : dispatch_state D :=
  mk_ds q drv tr (l_hctx st) (l_no_tag st) (l_errors st) (l_queued st)
        (l_ret st) (l_dptr st).

(** How one pass through the body of the [do ... while] loop ends.  [Stop]
    is a [break]: the request is on the list again (or still), in front of
    its successor.  [Next] reaches the loop condition with the request off
    the list.  Both carry the successor as the pass left it. *)
Inductive pass_end : Type :=
| Stop (rq : request) (nxt : option request)
| Next (nxt : option request).

(** One pass through the loop body of [blk_mq_dispatch_rq_list] for the first
    request [rq] of the list; [nxt] is the request after it, if any, and
    [more] tells whether further requests follow [nxt]. *)
Definition dispatch_pass {D : Type} (ops : blk_mq_ops D) (jiffies : Z)
    (got_budget : bool) (st : dispatch_state D) (rq : request)
    (nxt : option request) (more : bool) : dispatch_state D * pass_end :=
  let q := ds_queue st in
  let h := blk_mq_map_queue q (mq_ctx rq) in
  let '(budget, drv1) :=
    if got_budget then (true, ds_driver st)
    else blk_mq_get_dispatch_budget ops (ds_driver st) h in
  if negb budget then
    (mk_ds q drv1 (ds_trace st) h (l_no_tag st) (l_errors st) (l_queued st)
           (l_ret st) (l_dptr st),
     Stop rq nxt)
  else
    let '(got, rq1, q1) := blk_mq_get_driver_tag q rq in
    let '(got, rq2, q2) :=
      if got then (true, rq1, q1) else blk_mq_mark_tag_wait q1 h rq1 in
    if negb got then
      let drv2 := blk_mq_put_dispatch_budget ops drv1 h in
      let no_tag := if flag_tag_shared (hctx_at q2 h) then true else l_no_tag st in
      (mk_ds q2 drv2 (ds_trace st) h no_tag (l_errors st) (l_queued st)
             (l_ret st) (l_dptr st),
       Stop rq2 nxt)
    else
      (* list_del_init(&rq->queuelist), then bd.last *)
      let '(last, nxt1, q3) :=
        match nxt with
        | None => (true, None, q2)
        | Some n => let '(g, n', q') := blk_mq_get_driver_tag q2 n in
                    (negb g, Some n', q')
        end in
      let bd := mk_bd rq2 (l_dptr st) last in
      let '(ret, started, drv2) := queue_rq ops drv1 h bd in
      let '(rq3, tr_start) :=
        if started then blk_mq_start_request jiffies rq2 else (rq2, []) in
      let tr1 := ds_trace st ++ tr_start
                 ++ [Ev_queue_rq (rq_id rq3) (tag rq3) last ret] in
      match ret with
      | BLK_MQ_RQ_QUEUE_OK =>
          let dptr := if negb (l_dptr st) && more then true else l_dptr st in
          (mk_ds q3 drv2 tr1 h (l_no_tag st) (l_errors st) (l_queued st + 1)
                 ret dptr,
           Next nxt1)
      | BLK_MQ_RQ_QUEUE_BUSY | BLK_MQ_RQ_QUEUE_DEV_BUSY =>
          let '(q4, nxt2) :=
            match nxt1 with
            | None => (q3, None)
            | Some n => let '(q', n') := blk_mq_put_driver_tag q3 n in (q', Some n')
            end in
          let '(q5, rq4) := __blk_mq_requeue_request q4 rq3 in
          (mk_ds q5 drv2 tr1 h (l_no_tag st) (l_errors st) (l_queued st)
                 ret (l_dptr st),
           Stop rq4 nxt2)
      | BLK_MQ_RQ_QUEUE_ERROR | BLK_MQ_RQ_QUEUE_BAD _ =>
          let rq4 := set_errors (- EIO) rq3 in
          let dptr := if negb (l_dptr st) && more then true else l_dptr st in
          (mk_ds q3 drv2 (tr1 ++ [Ev_end_request (rq_id rq4) (errors rq4)]) h
                 (l_no_tag st) (l_errors st + 1) (l_queued st) ret dptr,
           Next nxt1)
      end.

(** The [do ... while (!list_empty(list))] loop on the list [rq :: rest]; the
    result carries what is left on the list. *)
Fixpoint dispatch_loop {D : Type} (ops : blk_mq_ops D) (jiffies : Z)
    (got_budget : bool) (st : dispatch_state D) (rq : request)
    (rest : list request) {struct rest} : dispatch_state D * list request :=
  match rest with
  | [] =>
      match dispatch_pass ops jiffies got_budget st rq None false with
      | (st', Stop rq' _) => (st', [rq'])
      | (st', Next _) => (st', [])
      end
  | nxt :: tl =>
      match dispatch_pass ops jiffies got_budget st rq (Some nxt)
                          (negb (bool_decide (tl = []))) with
      | (st', Stop rq' nxt') => (st', rq' :: from_option (fun n => [n]) [] nxt' ++ tl)
      | (st', Next (Some nxt')) => dispatch_loop ops jiffies got_budget st' nxt' tl
      | (st', Next None) => (st', tl)
      end
  end.

(** [hctx->dispatched[queued_to_index(queued)]++]. *)
Definition count_dispatched (queued : Z) (hctx : blk_mq_hw_ctx) : blk_mq_hw_ctx :=
  let idx := queued_to_index (Z.of_nat (length (dispatched hctx))) queued in
  set_dispatched (alter (fun n => ulong (n + 1)) (Z.to_nat idx) (dispatched hctx)) hctx.

(** [blk_mq_dispatch_rq_list]: the queue, the driver state and the list
    [batch] come in, the return value, the state and the list go out; [cpu] is the
    executing CPU.  The events of the call are appended to [ds_trace]. *)
Definition blk_mq_dispatch_rq_list {D : Type} (ops : blk_mq_ops D)
    (jiffies : Z) (cpu : nat) (q : request_queue) (drv : D)
    (batch : list request) (got_budget : bool)
  : bool * dispatch_state D * list request :=
  let st0 := mk_ds q drv [] 0%nat false 0 0 BLK_MQ_RQ_QUEUE_OK false in
  match batch with
  | [] => (false, st0, [])
  | rq :: rest =>
      let '(st, list1) := dispatch_loop ops jiffies got_budget st0 rq rest in
      let h := l_hctx st in
      let q1 := store_hctx h (count_dispatched (l_queued st) (hctx_at (ds_queue st) h))
                           (ds_queue st) in
      if negb (bool_decide (list1 = [])) then
        let q2 := store_hctx h (set_dispatch (list_splice list1 (dispatch (hctx_at q1 h)))
                                             (hctx_at q1 h)) q1 in
        let needs_restart := state_sched_restart (hctx_at q2 h) in
        let tr :=
          if negb needs_restart
             || (l_no_tag st && negb (dispatch_wait_queued (hctx_at q2 h)))
          then snd (blk_mq_run_hw_queue q2 h cpu true)
          else if needs_restart
                  && is_queue_busy (l_ret st)
               then blk_mq_delay_run_hw_queue (hctx_at q2 h) h cpu BLK_MQ_RESOURCE_DELAY
               else [] in
        let q3 := store_hctx h (blk_mq_update_dispatch_busy (elevator q2)
                                                            (hctx_at q2 h) true) q2 in
        (false, set_ds_core q3 (ds_driver st) (ds_trace st ++ tr) st, [])
      else
        let q2 := store_hctx h (blk_mq_update_dispatch_busy (elevator q1)
                                                            (hctx_at q1 h) false) q1 in
        let st' := set_ds_core q2 (ds_driver st) (ds_trace st) st in
        if is_busy_ret (l_ret st) then (false, st', [])
        else (negb (l_queued st + l_errors st =? 0), st', [])
  end.

(** ** Freeze *)

(** Modelled from the spec: the operations of lib/percpu-refcount.c.  Killing
    the counter stops admission; it is zero once killed and drained. *)
Definition percpu_ref_kill (r : percpu_ref) : percpu_ref :=
  mk_percpu_ref true (ref_count r).
Definition percpu_ref_reinit (r : percpu_ref) : percpu_ref :=
  mk_percpu_ref false (ref_count r).
Definition percpu_ref_is_zero (r : percpu_ref) : bool :=
  ref_dead r && (ref_count r =? 0).
Definition percpu_ref_tryget_live (r : percpu_ref) : bool * percpu_ref :=
  if ref_dead r then (false, r) else (true, mk_percpu_ref false (ref_count r + 1)).
Definition percpu_ref_put (r : percpu_ref) : percpu_ref :=
  mk_percpu_ref (ref_dead r) (ref_count r - 1).

(** [wake_up_all(&q->mq_freeze_wq)]: every sleeper leaves the wait queue. *)
Definition wake_up_all (q : request_queue) : request_queue :=
  set_freeze (mq_freeze_depth q) (q_usage_counter q) [] q.

(** [blk_mq_run_hw_queues]. *)
Definition blk_mq_run_hw_queues (q : request_queue) (cpu : nat) (async : bool)
  : list event :=
  concat (imap (fun h hctx =>
                  if blk_mq_hctx_stopped hctx then []
                  else snd (blk_mq_run_hw_queue q h cpu async))
               (queue_hw_ctx q)).

(** [blk_freeze_queue_start] on a blk-mq queue ([q->mq_ops] is set). *)
Definition blk_freeze_queue_start (q : request_queue) (cpu : nat)
  : request_queue * list event :=
  let freeze_depth := mq_freeze_depth q + 1 in
  let q1 := set_freeze freeze_depth (q_usage_counter q) (mq_freeze_wq q) q in
  if freeze_depth =? 1 then
    let q2 := set_freeze freeze_depth (percpu_ref_kill (q_usage_counter q1))
                         (mq_freeze_wq q1) q1 in
    (q2, blk_mq_run_hw_queues q2 cpu false)
  else (q1, []).

(** [wait_event(q->mq_freeze_wq, cond)] as one attempt of task [task]: it
    goes on when the condition holds and sleeps on the wait queue otherwise,
    to try again when woken. *)
Definition wait_event (cond : request_queue -> bool) (task : nat)
    (q : request_queue) : bool * request_queue :=
  if cond q then (true, q)
  else (false, set_freeze (mq_freeze_depth q) (q_usage_counter q)
                          (mq_freeze_wq q ++ [task]) q).

(** [blk_mq_freeze_queue_wait]: [true] when the call returns. *)
Definition blk_mq_freeze_queue_wait (task : nat) (q : request_queue)
  : bool * request_queue :=
  wait_event (fun q => percpu_ref_is_zero (q_usage_counter q)) task q.

(** [blk_freeze_queue] on a blk-mq queue, and its alias
    [blk_mq_freeze_queue]. *)
Definition blk_freeze_queue (task : nat) (q : request_queue) (cpu : nat)
  : bool * request_queue * list event :=
  let '(q1, tr) := blk_freeze_queue_start q cpu in
  let '(returned, q2) := blk_mq_freeze_queue_wait task q1 in
  (returned, q2, tr).

Definition blk_mq_freeze_queue := blk_freeze_queue.

(** [blk_mq_unfreeze_queue]. *)
Definition blk_mq_unfreeze_queue (q : request_queue) : request_queue :=
  let freeze_depth := mq_freeze_depth q - 1 in
  let q1 := set_freeze freeze_depth (q_usage_counter q) (mq_freeze_wq q) q in
  if freeze_depth =? 0 then
    wake_up_all (set_freeze freeze_depth (percpu_ref_reinit (q_usage_counter q1))
                            (mq_freeze_wq q1) q1)
  else q1.

(** How an admission attempt ends. *)
Inductive enter_result : Type :=
| ENTERED        (* a reference on the usage counter was taken *)
| QUEUE_FROZEN   (* the caller declined to block *)
| BLOCKED.       (* the caller sleeps on [mq_freeze_wq] *)

(** Modelled from the spec: [blk_queue_enter] (blk-core.c), the admission
    step of [allocate()]: it takes a reference unless admission is stopped,
    and then fails for a caller that declined to block and blocks the
    others until the queue is unfrozen. *)
Definition blk_queue_enter (q : request_queue) (nowait : bool) (task : nat)
  : enter_result * request_queue :=
  let '(ok, ref) := percpu_ref_tryget_live (q_usage_counter q) in
  if ok then (ENTERED, set_freeze (mq_freeze_depth q) ref (mq_freeze_wq q) q)
  else if nowait then (QUEUE_FROZEN, q)
  else (BLOCKED, set_freeze (mq_freeze_depth q) (q_usage_counter q)
                            (mq_freeze_wq q ++ [task]) q).

(** Modelled from the spec: [blk_queue_exit] (blk-core.c) drops the reference
    of a request that left the queue; the last reference of a killed counter
    wakes the tasks waiting for the drain. *)
Definition blk_queue_exit (q : request_queue) : request_queue :=
  let ref := percpu_ref_put (q_usage_counter q) in
  let q1 := set_freeze (mq_freeze_depth q) ref (mq_freeze_wq q) q in
  if percpu_ref_is_zero ref then wake_up_all q1 else q1.

(** The calls that act on the freeze state, as they interleave on one
    queue. *)
Inductive freeze_op : Type :=
| Op_freeze_start
| Op_freeze_wait (task : nat)
| Op_unfreeze
| Op_enter (nowait : bool) (task : nat)
| Op_exit.

(** One call.  [None] marks a call its caller has no right to make: an
    unfreeze that no freeze precedes, an exit without a reference. *)
Definition freeze_step (cpu : nat) (op : freeze_op) (q : request_queue)
  : option request_queue :=
  match op with
  | Op_freeze_start => Some (fst (blk_freeze_queue_start q cpu))
  | Op_freeze_wait task => Some (snd (blk_mq_freeze_queue_wait task q))
  | Op_unfreeze =>
      if 0 <? mq_freeze_depth q then Some (blk_mq_unfreeze_queue q) else None
  | Op_enter nowait task => Some (snd (blk_queue_enter q nowait task))
  | Op_exit =>
      if 0 <? ref_count (q_usage_counter q) then Some (blk_queue_exit q) else None
  end.

Fixpoint freeze_run (cpu : nat) (ops : list freeze_op) (q : request_queue)
  : option request_queue :=
  match ops with
  | [] => Some q
  | op :: rest =>
      match freeze_step cpu op q with
      | Some q' => freeze_run cpu rest q'
      | None => None
      end
  end.

(** A queue as [blk_mq_init_allocated_queue] leaves the freeze state: not
    frozen, the usage counter live without references, nobody waiting. *)
Definition freeze_initial (q : request_queue) : Prop :=
  mq_freeze_depth q = 0 /\ q_usage_counter q = mk_percpu_ref false 0
  /\ mq_freeze_wq q = [].

(** ** The timeout work *)

(** Modelled from the spec: [percpu_ref_tryget] (lib/percpu-refcount.c) takes
    a reference unless the counter was killed and has reached zero: as the
    comment in [blk_mq_timeout_work] has it, a reference can still be had
    between the start of a freeze and the moment the counter reaches zero. *)
Definition percpu_ref_tryget (r : percpu_ref) : bool * percpu_ref :=
  if ref_dead r && (ref_count r =? 0) then (false, r)
  else (true, mk_percpu_ref (ref_dead r) (ref_count r + 1)).

(** [blk_mq_timeout_work].  [busy] are the requests that hold a tag, which
    [blk_mq_queue_tag_busy_iter] visits.  Without a reference on the usage
    counter nothing is done.  After the scan the timer is re-armed for the
    earliest pending deadline, rounded by [round_jiffies_up] and capped by
    [blk_rq_timeout], or, when no deadline is pending, [blk_mq_tag_idle] is
    called on every mapped hardware queue; the reference is dropped at the
    end. *)
Definition blk_mq_timeout_work (env : completion_env) (ops_timeout : timeout_fn)
    (jiffies : Z) (q : request_queue) (busy : list (request * bool))
  : request_queue * list (request * bool) * blk_mq_timeout_data * list event :=
  let data0 := mk_timeout_data 0 false in
  let '(ok, ref) := percpu_ref_tryget (q_usage_counter q) in
  if negb ok then (q, busy, data0, [])
  else
    let q1 := set_freeze (mq_freeze_depth q) ref (mq_freeze_wq q) q in
    let '(busy', data, tr) :=
      blk_mq_queue_tag_busy_iter env ops_timeout jiffies busy data0 in
    let '(data1, tr1) :=
      if next_set data then
        let next1 := blk_rq_timeout env (round_jiffies_up env (next data)) in
        (mk_timeout_data next1 true, [Ev_mod_timer next1])
      else
        (data,
         concat (imap (fun h hctx =>
                         if blk_mq_hw_queue_mapped hctx then [Ev_tag_idle h] else [])
                      (queue_hw_ctx q1))) in
    (blk_queue_exit q1, busy', data1, tr ++ tr1).

(** ** Quiesce *)

(** The read-side domains of the dispatch sections: RCU for the hardware
    queues that may not block, the SRCU structure [hctx->queue_rq_srcu] of
    hardware queue [h] for the others. *)
Inductive rcu_domain : Type :=
| RCU
| SRCU (h : nat).

#[global] Instance rcu_domain_eq_dec : EqDecision rcu_domain.
Proof. solve_decision. Defined.

(** [hctx_lock] and [hctx_unlock] enter and leave a read-side section of
    this domain. *)
Definition hctx_lock (hctx : blk_mq_hw_ctx) (h : nat) : rcu_domain :=
  if negb (flag_blocking hctx) then RCU else SRCU h.

(** [blk_mq_quiesce_queue_nowait]. *)
Definition blk_mq_quiesce_queue_nowait (q : request_queue) : request_queue :=
  set_queue_flag_quiesced true q.

(** [blk_mq_quiesce_queue]: the flag is set, then the grace periods are
    waited for in the order given: [synchronize_srcu] for every blocking
    hardware queue, and one [synchronize_rcu] at the end if some hardware
    queue does not block. *)
Definition blk_mq_quiesce_queue (q : request_queue)
  : request_queue * list rcu_domain :=
  let q1 := blk_mq_quiesce_queue_nowait q in
  let srcu := concat (imap (fun h hctx => if flag_blocking hctx then [SRCU h] else [])
                           (queue_hw_ctx q1)) in
  let rcu := existsb (fun hctx => negb (flag_blocking hctx)) (queue_hw_ctx q1) in
  (q1, srcu ++ (if rcu then [RCU] else [])).

(** [blk_mq_unquiesce_queue]. *)
Definition blk_mq_unquiesce_queue (q : request_queue) (cpu : nat)
  : request_queue * list event :=
  let q1 := set_queue_flag_quiesced false q in
  (q1, blk_mq_run_hw_queues q1 cpu true).

(** The test at the head of a dispatch section, as [__blk_mq_try_issue_directly]
    makes it inside the [hctx_lock] of its callers. *)
Definition dispatch_allowed (q : request_queue) (h : nat) : bool :=
  negb (blk_mq_hctx_stopped (hctx_at q h) || queue_flag_quiesced q).

(** Where a dispatching task stands: outside every section, or inside the
    [hctx_lock] section of hardware queue [h], where [checked] holds the
    result of the test once it was made. *)
Inductive task_pc : Type :=
| Outside
| In_section (h : nat) (checked : option bool).

(** Where the task calling [blk_mq_quiesce_queue] stands.  While it waits in
    [synchronize_rcu] or [synchronize_srcu] for domain [dom], [readers] are
    the tasks that were inside a section of [dom] when the wait began and
    have not left it yet; [rest] are the waits still to come. *)
Inductive quiescer_pc : Type :=
| Q_idle
| Q_waiting (dom : rcu_domain) (readers : list nat) (rest : list rcu_domain)
| Q_returned.

(** The system in which dispatch, quiesce, completion and the timeout scan
    interleave. *)
Record sys : Type := mk_sys {
  sys_queue : request_queue;
  sys_tasks : list task_pc;
  sys_quiescer : quiescer_pc;
  sys_inflight : list (request * bool);
  sys_dispatches : nat;           (* driver submissions made so far *)
  sys_trace : list event
}.

(** The tasks inside a read-side section of domain [dom]. *)
Definition readers_of (q : request_queue) (dom : rcu_domain)
    (tasks : list task_pc) : list nat :=
  concat (imap (fun t pc =>
                  match pc with
                  | In_section h _ =>
                      if bool_decide (hctx_lock (hctx_at q h) h = dom) then [t] else []
                  | Outside => []
                  end) tasks).

(** Modelled from the spec: [synchronize_rcu] and [synchronize_srcu] return
    once every read-side section of the domain that was running when they
    were called has ended.  The quiescer begins the next wait of [doms], or
    has returned when none is left. *)
Definition begin_wait (q : request_queue) (tasks : list task_pc)
    (doms : list rcu_domain) : quiescer_pc :=
  match doms with
  | [] => Q_returned
  | dom :: rest => Q_waiting dom (readers_of q dom tasks) rest
  end.

(** A task leaves its section: the wait in progress no longer counts it. *)
Definition reader_left (t : nat) (qp : quiescer_pc) : quiescer_pc :=
  match qp with
  | Q_waiting dom readers rest =>
      Q_waiting dom (filter (fun r => r <> t) readers) rest
  | _ => qp
  end.

Inductive label : Type :=
| L_lock (t h : nat)             (* hctx_lock(hctx) by task t *)
| L_check (t : nat)              (* the test of the quiesced flag *)
| L_dispatch (t : nat)           (* a request goes to the driver *)
| L_unlock (t : nat)             (* hctx_unlock(hctx) *)
| L_quiesce                      (* blk_mq_quiesce_queue sets the flag and starts waiting *)
| L_grace_period                 (* one synchronize_rcu/srcu call returns *)
| L_unquiesce                    (* blk_mq_unquiesce_queue *)
| L_complete (i : nat) (error : Z)   (* blk_mq_complete_request on a request in flight *)
| L_timeout_scan (jiffies : Z).  (* blk_mq_timeout_work *)

(** Modelled from the spec: a dispatch is one read-side section in which the
    dispatcher tests the flag before it pulls a batch, as
    [blk_mq_sched_dispatch_requests] (blk-mq-sched.c) does inside
    [__blk_mq_run_hw_queue].  [None] is a step that cannot be taken in this
    state. *)
Definition sys_step (env : completion_env) (ops_timeout : timeout_fn)
    (cpu : nat) (l : label) (s : sys) : option sys :=
  let q := sys_queue s in
  match l with
  | L_lock t h =>
      match sys_tasks s !! t with
      | Some Outside =>
          if bool_decide (h < length (queue_hw_ctx q))%nat
          then Some (mk_sys q (<[t := In_section h None]> (sys_tasks s))
                            (sys_quiescer s) (sys_inflight s)
                            (sys_dispatches s) (sys_trace s))
          else None
      | _ => None
      end
  | L_check t =>
      match sys_tasks s !! t with
      | Some (In_section h None) =>
          Some (mk_sys q (<[t := In_section h (Some (dispatch_allowed q h))]> (sys_tasks s))
                       (sys_quiescer s) (sys_inflight s)
                       (sys_dispatches s) (sys_trace s))
      | _ => None
      end
  | L_dispatch t =>
      match sys_tasks s !! t with
      | Some (In_section h (Some true)) =>
          Some (mk_sys q (sys_tasks s) (sys_quiescer s) (sys_inflight s)
                       (S (sys_dispatches s)) (sys_trace s))
      | _ => None
      end
  | L_unlock t =>
      match sys_tasks s !! t with
      | Some (In_section h _) =>
          Some (mk_sys q (<[t := Outside]> (sys_tasks s))
                       (reader_left t (sys_quiescer s)) (sys_inflight s)
                       (sys_dispatches s) (sys_trace s))
      | _ => None
      end
  | L_quiesce =>
      match sys_quiescer s with
      | Q_idle =>
          let '(q1, doms) := blk_mq_quiesce_queue q in
          Some (mk_sys q1 (sys_tasks s) (begin_wait q1 (sys_tasks s) doms)
                       (sys_inflight s) (sys_dispatches s) (sys_trace s))
      | _ => None
      end
  | L_grace_period =>
      match sys_quiescer s with
      | Q_waiting _ [] rest =>
          Some (mk_sys q (sys_tasks s) (begin_wait q (sys_tasks s) rest)
                       (sys_inflight s) (sys_dispatches s) (sys_trace s))
      | _ => None
      end
  | L_unquiesce =>
      match sys_quiescer s with
      | Q_returned =>
          let '(q1, tr) := blk_mq_unquiesce_queue q cpu in
          Some (mk_sys q1 (sys_tasks s) Q_idle (sys_inflight s)
                       (sys_dispatches s) (sys_trace s ++ tr))
      | _ => None
      end
  | L_complete i error =>
      match sys_inflight s !! i with
      | Some (rq, reserved) =>
          let '(rq', tr) := blk_mq_complete_request env false rq error in
          Some (mk_sys q (sys_tasks s) (sys_quiescer s)
                       (<[i := (rq', reserved)]> (sys_inflight s))
                       (sys_dispatches s) (sys_trace s ++ tr))
      | None => None
      end
  | L_timeout_scan jiffies =>
      let '(q1, busy', _, tr) :=
        blk_mq_timeout_work env ops_timeout jiffies q (sys_inflight s) in
      Some (mk_sys q1 (sys_tasks s) (sys_quiescer s) busy'
                   (sys_dispatches s) (sys_trace s ++ tr))
  end.

Fixpoint sys_run (env : completion_env) (ops_timeout : timeout_fn) (cpu : nat)
    (ls : list label) (s : sys) : option sys :=
  match ls with
  | [] => Some s
  | l :: rest =>
      match sys_step env ops_timeout cpu l s with
      | Some s' => sys_run env ops_timeout cpu rest s'
      | None => None
      end
  end.

(** The system starts with the queue not quiesced, nobody quiescing and no
    task inside a dispatch section. *)
Definition sys_initial (s : sys) : Prop :=
  queue_flag_quiesced (sys_queue s) = false /\ sys_quiescer s = Q_idle
  /\ Forall (fun pc => pc = Outside) (sys_tasks s).

(** ** Predicates of the statements *)

(** The array [tags->rqs] has [nr_tags] entries, as [blk_mq_alloc_rq_map]
    allocates it. *)
Definition rqs_allocated (t : blk_mq_tags) : Prop :=
  Z.of_nat (length (rqs t)) = nr_tags t.

(** A request the timeout scan has to wait for: it is started and its
    deadline has not passed at time [jiffies]. *)
Definition pending_timeout (jiffies : Z) (rq : request) : bool :=
  test_bit REQ_ATOM_STARTED (atomic_flags rq)
  && negb (time_after_eq jiffies (deadline rq)).

(** How far a deadline lies ahead of [jiffies] on the wrapping clock. *)
Definition ahead (jiffies : Z) (d : Z) : Z := ulong (d - jiffies).

(** What the device's timeout handler answers for a request, RESET_TIMER when
    the driver has none. *)
Definition timeout_answer (ops_timeout : timeout_fn) (rq : request)
    (reserved : bool) : blk_eh_timer_return :=
  match ops_timeout with
  | Some handler => handler rq reserved
  | None => BLK_EH_RESET_TIMER
  end.

(** The scan data after a request that is pending: its deadline replaces
    the one recorded when none is recorded yet or the recorded one is later. *)
Definition track_deadline (jiffies : Z) (rq : request)
    (data : blk_mq_timeout_data) : blk_mq_timeout_data :=
  if pending_timeout jiffies rq
  then if negb (next_set data) || time_after (next data) (deadline rq)
       then mk_timeout_data (deadline rq) true else data
  else data.

(** The scan data either is still unset, or names the deadline of a pending
    request that no pending request seen so far precedes. *)
Definition earliest_of (jiffies : Z) (seen : list (request * bool))
    (data : blk_mq_timeout_data) : Prop :=
  if next_set data then
    (exists rr, In rr seen /\ pending_timeout jiffies (fst rr) = true
                /\ next data = deadline (fst rr)) /\
    (forall rr, In rr seen -> pending_timeout jiffies (fst rr) = true ->
                ahead jiffies (next data) <= ahead jiffies (deadline (fst rr)))
  else forall rr, In rr seen -> pending_timeout jiffies (fst rr) = false.

(** The bookkeeping [blk_mq_map_swqueue] sets up between a hardware queue
    and its software queues: [ctxs] has [nr_ctx] distinct entries, the
    pending-bitmap has one bit for each, and the software queue stored at
    index [i] carries [index_hw = i]. *)
Definition hw_sw_wf (s : hw_sw) : Prop :=
  length (ctxs (hw s)) = nr_ctx (hw s) /\
  sb_depth (ctx_map (hw s)) = nr_ctx (hw s) /\
  NoDup (ctxs (hw s)) /\
  forall i cpu, ctxs (hw s) !! i = Some cpu ->
                exists ctx, sw_queues s !! cpu = Some ctx /\ index_hw ctx = i.

(** The FIFO of the software queue at index [i] of the hardware queue. *)
Definition fifo_at (s : hw_sw) (i : nat) : list request :=
  match ctxs (hw s) !! i with
  | Some cpu => match sw_queues s !! cpu with
                | Some ctx => rq_list ctx
                | None => []
                end
  | None => []
  end.



(** The pending-bitmap invariant of one hardware queue: the bit of each of
    its software queues is set exactly when the FIFO of that queue holds a
    request. *)
Definition hw_pending_inv (s : hw_sw) : Prop :=
  forall i, (i < nr_ctx (hw s))%nat ->
            (sbitmap_test_bit (ctx_map (hw s)) i = true <-> fifo_at s i <> []).

(** The hardware queue owns the software queue of [cpu]: the entry of
    [hctx->ctxs] at the [index_hw] of that queue points to it. *)
Definition owns (s : hw_sw) (cpu : nat) : Prop :=
  exists ctx, sw_queues s !! cpu = Some ctx /\
              ctxs (hw s) !! index_hw ctx = Some cpu.

(** [s] comes from [s0] by work on the software queues of the hardware
    queue itself: the mapping is the same and the software queues of other
    hardware queues are untouched. *)
Definition sw_frame (s0 s : hw_sw) : Prop :=
  nr_ctx (hw s) = nr_ctx (hw s0) /\
  ctxs (hw s) = ctxs (hw s0) /\
  length (sw_queues s) = length (sw_queues s0) /\
  forall cpu, ~ In cpu (ctxs (hw s0)) -> sw_queues s !! cpu = sw_queues s0 !! cpu.

(** A hardware queue in order: well-formed, with the pending-bitmap
    invariant, reached from [s0] by work on its own software queues. *)
Definition hw_sw_ok (s0 s : hw_sw) : Prop :=
  hw_sw_wf s /\ hw_pending_inv s /\ sw_frame s0 s.

(** The request queue is well-formed: every hardware queue is, and [mq_map]
    sends each CPU mapped to a hardware queue to that queue. *)
Definition queue_wf (q : request_queue) : Prop :=
  forall h hctx, queue_hw_ctx q !! h = Some hctx ->
    hw_sw_wf (mk_hw_sw hctx (queue_ctx q)) /\
    forall i cpu, ctxs hctx !! i = Some cpu -> mq_map q !! cpu = Some h.

(** The pending-bitmap invariant: for every software queue, the bit of its
    owning hardware queue at the index of the software queue is set if and
    only if its FIFO is not empty. *)
Definition pending_invariant (q : request_queue) : Prop :=
  forall h hctx i cpu ctx,
    queue_hw_ctx q !! h = Some hctx -> ctxs hctx !! i = Some cpu ->
    queue_ctx q !! cpu = Some ctx ->
    (sbitmap_test_bit (ctx_map hctx) i = true <-> rq_list ctx <> []).

(** Hardware queue [h] of [q] owns the software queue of [cpu]. *)
Definition queue_owns (q : request_queue) (h cpu : nat) : Prop :=
  exists hctx, queue_hw_ctx q !! h = Some hctx /\
               owns (mk_hw_sw hctx (queue_ctx q)) cpu.

(** Every CPU is mapped to an existing hardware queue. *)
Definition map_wf (q : request_queue) : Prop :=
  forall cpu, (blk_mq_map_queue q cpu < length (queue_hw_ctx q))%nat.

(** The fields of a hardware queue that only the end of a dispatch writes. *)
Definition hctx_core (hctx : blk_mq_hw_ctx)
  : list request * Z * list Z * bool * bool * bool :=
  (dispatch hctx, dispatch_busy hctx, dispatched hctx, flag_tag_shared hctx,
   flag_blocking hctx, state_stopped hctx).

(** [q'] has the hardware queues of [q] with the same dispatch lists, busy
    estimates and histograms, the same CPU map and the same scheduler. *)
Definition core_same (q q' : request_queue) : Prop :=
  length (queue_hw_ctx q') = length (queue_hw_ctx q) /\
  mq_map q' = mq_map q /\ elevator q' = elevator q /\
  queue_flag_quiesced q' = queue_flag_quiesced q /\
  forall h, hctx_core (hctx_at q' h) = hctx_core (hctx_at q h).

(** The driver accepted a request. *)
Definition is_accept (e : event) : bool :=
  match e with
  | Ev_queue_rq _ _ _ BLK_MQ_RQ_QUEUE_OK => true
  | _ => false
  end.

(** A request was finalized through [blk_mq_end_request]. *)
Definition is_end_request (e : event) : bool :=
  match e with
  | Ev_end_request _ _ => true
  | _ => false
  end.

(** The number of requests the driver accepted, and the number finalized
    with an error, in a trace. *)
Definition accepted (tr : list event) : nat := length (List.filter is_accept tr).
Definition errored (tr : list event) : nat := length (List.filter is_end_request tr).

(** The counters [queued] and [errors] of a dispatch agree with its trace. *)
Definition counters_agree {D : Type} (st : dispatch_state D) : Prop :=
  l_queued st = Z.of_nat (accepted (ds_trace st)) /\
  l_errors st = Z.of_nat (errored (ds_trace st)).

(** Tag [t] is free in the driver tag pool of hardware queue [h]. *)
Definition tag_released (q : request_queue) (h : nat) (t : Z) : Prop :=
  forall pool, tags (hctx_at q h) = Some pool -> test_bit t (bitmap pool) = false.

(** The request went through [__blk_mq_requeue_request] on a queue that is
    now [q]: it is not STARTED, and if it holds a scheduler tag it holds no
    driver tag any more and the tag [t] it was submitted with is free in the
    pool of its hardware queue. *)
Definition requeued (q : request_queue) (t : Z) (rq : request) : Prop :=
  test_bit REQ_ATOM_STARTED (atomic_flags rq) = false /\
  (internal_tag rq <> -1 ->
   tag rq = -1 /\ tag_released q (blk_mq_map_queue q (mq_ctx rq)) t).

(** The trace ends with the driver's answer [ret] for request [id], which
    was submitted with tag [t]. *)
Definition ends_with_queue_rq (tr : list event) (id : nat) (t : Z)
    (ret : queue_rq_ret) : Prop :=
  exists tr0 last, tr = tr0 ++ [Ev_queue_rq id t last ret].

(** No event of the trace is a call of the driver's [queue_rq]. *)
Definition no_queue_rq (tr : list event) : Prop :=
  Forall (fun e => match e with Ev_queue_rq _ _ _ _ => False | _ => True end) tr.

(** No call of the driver's [queue_rq] in the trace was answered with busy. *)
Definition no_busy_answer (tr : list event) : Prop :=
  Forall (fun e => match e with
                   | Ev_queue_rq _ _ _ ret => is_busy_ret ret = false
                   | _ => True
                   end) tr.

(** The answer [ret] is the last the driver gave, and no answer before it was
    busy. *)
Definition busy_answer_last (tr : list event) (ret : queue_rq_ret) : Prop :=
  exists tr0 id t last tr_run,
    tr = tr0 ++ [Ev_queue_rq id t last ret] ++ tr_run /\
    no_busy_answer tr0 /\ no_queue_rq tr_run.

(** The values the busy estimate of a hardware queue takes: zero when the
    queue is set up, and whatever [blk_mq_update_dispatch_busy] makes of a
    value it can take. *)
Inductive busy_estimate : Z -> Prop :=
| busy_estimate_init : busy_estimate 0
| busy_estimate_step (hctx : blk_mq_hw_ctx) (busy : bool) :
    busy_estimate (dispatch_busy hctx) ->
    busy_estimate (dispatch_busy (blk_mq_update_dispatch_busy false hctx busy)).

(** The freeze state is consistent: the depth and the usage count are not
    negative, and the usage counter is killed exactly while the depth is
    above zero. *)
Definition freeze_inv (q : request_queue) : Prop :=
  0 <= mq_freeze_depth q /\ 0 <= ref_count (q_usage_counter q) /\
  (ref_dead (q_usage_counter q) = true <-> 0 < mq_freeze_depth q).

(** What an admission attempt that finds admission stopped comes to. *)
Definition refused (nowait : bool) : enter_result :=
  if nowait then QUEUE_FROZEN else BLOCKED.

(** The dispatch section of task [t] on hardware queue [h] is accounted for
    by the quiescer: nobody is quiescing, or the wait in progress counts the
    task among its readers, or a wait for the domain of the section is still
    to come.  A quiescer that has returned accounts for no section. *)
Definition section_covered (q : request_queue) (qp : quiescer_pc) (t h : nat)
  : Prop :=
  match qp with
  | Q_idle => True
  | Q_waiting dom readers rest =>
      (hctx_lock (hctx_at q h) h = dom /\ t ∈ readers)
      \/ hctx_lock (hctx_at q h) h ∈ rest
  | Q_returned => False
  end.

(** What holds in every state of the system: the flag is set from the moment
    [blk_mq_quiesce_queue] is called until the queue is unquiesced, sections
    are sections of existing hardware queues, and every section that passed
    the test with leave to dispatch is accounted for by the quiescer. *)
Definition sys_inv (s : sys) : Prop :=
  (sys_quiescer s <> Q_idle -> queue_flag_quiesced (sys_queue s) = true) /\
  (forall t h c, sys_tasks s !! t = Some (In_section h c) ->
                 (h < length (queue_hw_ctx (sys_queue s)))%nat) /\
  (forall t h, sys_tasks s !! t = Some (In_section h (Some true)) ->
               section_covered (sys_queue s) (sys_quiescer s) t h).

(** ** Examples *)

Definition example_env : completion_env :=
  mk_completion_env false false false 0 (fun _ _ => false) (fun _ => true)
                    false (fun t => t) (fun t => t).

(** A started request of CPU 0 that holds driver tag 3. *)
Definition example_rq : request := mk_request 1 0 3 (-1) false 2 100 30 0.

(** One hardware queue fed by the software queue of CPU 0, without I/O
    scheduler; its pool of four driver tags has tags 0 to 2 handed out. *)
Definition example_tags : blk_mq_tags :=
  mk_tags 4 0 7 3 [RQ 1; RQ 2; RQ 3; NULL].

Definition example_hctx : blk_mq_hw_ctx :=
  mk_hctx false false false false [] (mk_sbitmap 1 0) 1 [0%nat]
          (Some example_tags) None 0 0 [0; 0; 0; 0; 0; 0; 0] false false.

Definition example_queue : request_queue :=
  mk_queue [example_hctx] [mk_ctx [] 0] [0%nat] false false 0
           (mk_percpu_ref false 3) [].

(** The same queue with no request in flight. *)
Definition example_idle_queue : request_queue :=
  mk_queue [example_hctx] [mk_ctx [] 0] [0%nat] false false 0
           (mk_percpu_ref false 0) [].

(** Two dispatching tasks on the example queue, with the example request in
    flight. *)
Definition example_sys : sys :=
  mk_sys example_queue [Outside; Outside] Q_idle [(example_rq, false)] 0 [].

(** One hardware queue fed by the software queues of CPUs 0, 1 and 2, each
    holding two requests, with the three pending bits set. *)
Definition example_pending_hctx : blk_mq_hw_ctx :=
  mk_hctx false false false false [] (mk_sbitmap 3 7) 3 [0%nat; 1%nat; 2%nat]
          (Some example_tags) None 0 0 [0; 0; 0; 0; 0; 0; 0] false false.

Definition example_pending_ctxs : list blk_mq_ctx :=
  [mk_ctx [mk_request 1 0 (-1) (-1) false 0 0 30 0;
           mk_request 2 0 (-1) (-1) false 0 0 30 0] 0;
   mk_ctx [mk_request 3 1 (-1) (-1) false 0 0 30 0;
           mk_request 4 1 (-1) (-1) false 0 0 30 0] 1;
   mk_ctx [mk_request 5 2 (-1) (-1) false 0 0 30 0;
           mk_request 6 2 (-1) (-1) false 0 0 30 0] 2].

Definition example_pending : hw_sw :=
  mk_hw_sw example_pending_hctx example_pending_ctxs.

Definition example_pending_queue : request_queue :=
  mk_queue [example_pending_hctx] example_pending_ctxs
           [0%nat; 0%nat; 0%nat] false false 0 (mk_percpu_ref false 6) [].

(** Two hardware queues, the first fed by the software queue of CPU 0 and
    the second by that of CPU 1; each software queue holds one request and
    has its pending bit set. *)
Definition example_offline_queue : request_queue :=
  mk_queue [mk_hctx false false false false [] (mk_sbitmap 1 1) 1 [0%nat]
                    (Some example_tags) None 0 0 [0; 0; 0; 0; 0; 0; 0] false false;
            mk_hctx false false false false [] (mk_sbitmap 1 1) 1 [1%nat]
                    (Some example_tags) None 0 0 [0; 0; 0; 0; 0; 0; 0] false false]
           [mk_ctx [mk_request 1 0 (-1) (-1) false 0 0 30 0] 0;
            mk_ctx [mk_request 2 1 (-1) (-1) false 0 0 30 0] 0]
           [0%nat; 1%nat] false false 0 (mk_percpu_ref false 2) [].

(** Three requests of CPU 0 holding the driver tags 0, 1 and 2. *)
Definition example_batch : list request :=
  [mk_request 1 0 0 (-1) false 0 0 30 0;
   mk_request 2 0 1 (-1) false 0 0 30 0;
   mk_request 3 0 2 (-1) false 0 0 30 0].

(** The same hardware queue under an I/O scheduler: the requests hold the
    scheduler tags 0, 1 and 2 and no driver tag, and the pool of four driver
    tags is free. *)
Definition example_sched_queue : request_queue :=
  mk_queue [mk_hctx false false false false [] (mk_sbitmap 1 0) 1 [0%nat]
                    (Some (mk_tags 4 0 0 0 [NULL; NULL; NULL; NULL]))
                    (Some (mk_tags 4 0 7 3 [RQ 1; RQ 2; RQ 3; NULL]))
                    0 0 [0; 0; 0; 0; 0; 0; 0] false false]
           [mk_ctx [] 0] [0%nat] true false 0 (mk_percpu_ref false 3) [].

Definition example_sched_batch : list request :=
  [mk_request 1 0 (-1) 0 false 0 0 30 0;
   mk_request 2 0 (-1) 1 false 0 0 30 0;
   mk_request 3 0 (-1) 2 false 0 0 30 0].

(** The first request of that batch. *)
Definition example_sched_rq : request := mk_request 1 0 (-1) 0 false 0 0 30 0.

(** A driver that starts every request, accepts the first and reports busy
    from the second on; its state counts the calls. *)
Definition busy_on_second : blk_mq_ops nat :=
  mk_ops (fun n _ _ => (if (n =? 0)%nat then BLK_MQ_RQ_QUEUE_OK
                        else BLK_MQ_RQ_QUEUE_BUSY, true, S n))
         None None None.

(** ** Stopping and starting hardware queues *)

Definition set_state_stopped (v : bool) (h : blk_mq_hw_ctx) : blk_mq_hw_ctx :=
  mk_hctx (flag_tag_shared h) (flag_blocking h) v (state_sched_restart h)
          (dispatch h) (ctx_map h) (nr_ctx h) (ctxs h) (tags h) (sched_tags h)
          (nr_active h) (dispatch_busy h) (dispatched h)
          (dispatch_wait_queued h) (sched_has_work h).

(** The calls on the kblockd work items of a hardware queue that the stop
    functions make, next to the events of the dispatch core. *)
Inductive work_event : Type :=
| W_cancel_run_work (hctx : nat)     (* cancel_delayed_work(&hctx->run_work) *)
| W_cancel_delay_work (hctx : nat)   (* cancel_delayed_work(&hctx->delay_work) *)
| W_core (e : event).

(** [queue_for_each_hw_ctx(q, hctx, i) body], on the hardware queues with
    the indices [hs]; the traces of the passes are joined in order. *)
Fixpoint queue_for_each_hw_ctx {E : Type}
    (body : nat -> request_queue -> request_queue * list E) (hs : list nat)
    (q : request_queue) : request_queue * list E :=
  match hs with
  | [] => (q, [])
  | h :: rest =>
      let '(q1, tr1) := body h q in
      let '(q2, tr2) := queue_for_each_hw_ctx body rest q1 in
      (q2, tr1 ++ tr2)
  end.

(** The indices of the hardware queues of [q], in the order of the loop. *)
Definition hw_queues (q : request_queue) : list nat :=
  seq 0 (length (queue_hw_ctx q)).

(** [blk_mq_queue_stopped]. *)
Definition blk_mq_queue_stopped (q : request_queue) : bool :=
  existsb blk_mq_hctx_stopped (queue_hw_ctx q).

(** [blk_mq_stop_hw_queue]. *)
Definition blk_mq_stop_hw_queue (h : nat) (q : request_queue)
  : request_queue * list work_event :=
  (store_hctx h (set_state_stopped true (hctx_at q h)) q,
   [W_cancel_run_work h; W_cancel_delay_work h]).

(** [blk_mq_stop_hw_queues]. *)
Definition blk_mq_stop_hw_queues (q : request_queue)
  : request_queue * list work_event :=
  queue_for_each_hw_ctx blk_mq_stop_hw_queue (hw_queues q) q.

(** [blk_mq_start_hw_queue]; [cpu] is the executing CPU. *)
Definition blk_mq_start_hw_queue (cpu : nat) (h : nat) (q : request_queue)
  : request_queue * list event :=
  let q1 := store_hctx h (set_state_stopped false (hctx_at q h)) q in
  (q1, snd (blk_mq_run_hw_queue q1 h cpu false)).

(** [blk_mq_start_hw_queues]. *)
Definition blk_mq_start_hw_queues (cpu : nat) (q : request_queue)
  : request_queue * list event :=
  queue_for_each_hw_ctx (blk_mq_start_hw_queue cpu) (hw_queues q) q.

(** [blk_mq_start_stopped_hw_queues]. *)
Definition blk_mq_start_stopped_hw_queues (cpu : nat) (async : bool)
    (q : request_queue) : request_queue * list event :=
  queue_for_each_hw_ctx
    (fun h q =>
       if negb (blk_mq_hctx_stopped (hctx_at q h)) then (q, [])
       else
         let q1 := store_hctx h (set_state_stopped false (hctx_at q h)) q in
         (q1, snd (blk_mq_run_hw_queue q1 h cpu async)))
    (hw_queues q) q.

(** [blk_mq_delay_work_fn], the work item of [hctx->delay_work]: a stopped
    queue is started and run on the spot. *)
Definition blk_mq_delay_work_fn (h : nat) (q : request_queue)
  : request_queue * list event :=
  if state_stopped (hctx_at q h)
  then (store_hctx h (set_state_stopped false (hctx_at q h)) q, [Ev_run_hw_queue h])
  else (q, []).

(** ** Direct issue *)

(** [blk_mq_request_bypass_insert]: the request goes to the end of the
    dispatch list of its hardware queue; [cpu] is the executing CPU. *)
Definition blk_mq_request_bypass_insert (cpu : nat) (q : request_queue)
    (rq : request) (run_queue : bool) : request_queue * list event :=
  let h := blk_mq_map_queue q (mq_ctx rq) in
  let hctx := hctx_at q h in
  let q1 := store_hctx h (set_dispatch (list_add_tail rq (dispatch hctx)) hctx) q in
  (q1, if run_queue then snd (blk_mq_run_hw_queue q1 h cpu false) else []).

(** [__blk_mq_issue_directly] for the hardware queue of index [h]. *)
Definition __blk_mq_issue_directly {D : Type} (ops : blk_mq_ops D) (jiffies : Z)
    (q : request_queue) (drv : D) (h : nat) (rq : request)
  : queue_rq_ret * request * request_queue * D * list event :=
  let bd := mk_bd rq false true in
  let '(ret, started, drv1) := queue_rq ops drv h bd in
  let '(rq1, tr_start) :=
    if started then blk_mq_start_request jiffies rq else (rq, []) in
  let tr := tr_start ++ [Ev_queue_rq (rq_id rq1) (tag rq1) true ret] in
  match ret with
  | BLK_MQ_RQ_QUEUE_OK =>
      (ret, rq1,
       store_hctx h (blk_mq_update_dispatch_busy (elevator q) (hctx_at q h) false) q,
       drv1, tr)
  | BLK_MQ_RQ_QUEUE_BUSY | BLK_MQ_RQ_QUEUE_DEV_BUSY =>
      let q1 := store_hctx h (blk_mq_update_dispatch_busy (elevator q)
                                                          (hctx_at q h) true) q in
      let '(q2, rq2) := __blk_mq_requeue_request q1 rq1 in
      (ret, rq2, q2, drv1, tr)
  | BLK_MQ_RQ_QUEUE_ERROR | BLK_MQ_RQ_QUEUE_BAD _ =>
      (ret, rq1,
       store_hctx h (blk_mq_update_dispatch_busy (elevator q) (hctx_at q h) false) q,
       drv1, tr)
  end.

(** The [insert:] label of [__blk_mq_try_issue_directly]. *)
Definition issue_insert {D : Type} (cpu : nat) (bypass_insert run_queue : bool)
    (q : request_queue) (drv : D) (rq : request)
  : queue_rq_ret * request * request_queue * D * list event :=
  if bypass_insert then (BLK_MQ_RQ_QUEUE_BUSY, rq, q, drv, [])
  else
    let '(q1, tr) := blk_mq_request_bypass_insert cpu q rq run_queue in
    (BLK_MQ_RQ_QUEUE_OK, rq, q1, drv, tr).

(** [__blk_mq_try_issue_directly]. *)
Definition __blk_mq_try_issue_directly {D : Type} (ops : blk_mq_ops D)
    (jiffies : Z) (cpu : nat) (q : request_queue) (drv : D) (h : nat)
    (rq : request) (bypass_insert : bool)
  : queue_rq_ret * request * request_queue * D * list event :=
  if blk_mq_hctx_stopped (hctx_at q h) || queue_flag_quiesced q
  then issue_insert cpu false false q drv rq
  else if elevator q && negb bypass_insert
  then issue_insert cpu bypass_insert true q drv rq
  else
    let '(budget, drv1) := blk_mq_get_dispatch_budget ops drv h in
    if negb budget then issue_insert cpu bypass_insert true q drv1 rq
    else
      let '(got, rq1, q1) := blk_mq_get_driver_tag q rq in
      if negb got
      then issue_insert cpu bypass_insert true q1
                        (blk_mq_put_dispatch_budget ops drv1 h) rq1
      else __blk_mq_issue_directly ops jiffies q1 drv1 h rq1.

(** [blk_mq_try_issue_directly].  [code_of] gives the integer values of the
    status enumeration, which include/linux/blk-mq.h declares. *)
Definition blk_mq_try_issue_directly {D : Type} (code_of : queue_rq_ret -> Z)
    (ops : blk_mq_ops D) (jiffies : Z) (cpu : nat) (q : request_queue) (drv : D)
    (h : nat) (rq : request) : request * request_queue * D * list event :=
  let '(ret, rq1, q1, drv1, tr) :=
    __blk_mq_try_issue_directly ops jiffies cpu q drv h rq false in
  match ret with
  | BLK_MQ_RQ_QUEUE_BUSY | BLK_MQ_RQ_QUEUE_DEV_BUSY =>
      let '(q2, tr2) := blk_mq_request_bypass_insert cpu q1 rq1 true in
      (rq1, q2, drv1, tr ++ tr2)
  | BLK_MQ_RQ_QUEUE_OK => (rq1, q1, drv1, tr)
  | BLK_MQ_RQ_QUEUE_ERROR | BLK_MQ_RQ_QUEUE_BAD _ =>
      (rq1, q1, drv1, tr ++ [Ev_end_request (rq_id rq1) (code_of ret)])
  end.

(** [blk_mq_request_issue_directly]. *)
Definition blk_mq_request_issue_directly {D : Type} (ops : blk_mq_ops D)
    (jiffies : Z) (cpu : nat) (q : request_queue) (drv : D) (rq : request)
  : queue_rq_ret * request * request_queue * D * list event :=
  __blk_mq_try_issue_directly ops jiffies cpu q drv
                              (blk_mq_map_queue q (mq_ctx rq)) rq true.

(** [blk_mq_try_issue_list_directly]: the result carries what is left on
    [list]. *)
Fixpoint blk_mq_try_issue_list_directly {D : Type} (code_of : queue_rq_ret -> Z)
    (ops : blk_mq_ops D) (jiffies : Z) (cpu : nat) (q : request_queue) (drv : D)
    (l : list request) : request_queue * D * list event * list request :=
  match l with
  | [] => (q, drv, [], [])
  | rq :: rest =>
      let '(ret, rq1, q1, drv1, tr1) :=
        blk_mq_request_issue_directly ops jiffies cpu q drv rq in
      match ret with
      | BLK_MQ_RQ_QUEUE_OK =>
          let '(q2, drv2, tr2, remaining) :=
            blk_mq_try_issue_list_directly code_of ops jiffies cpu q1 drv1 rest in
          (q2, drv2, tr1 ++ tr2, remaining)
      | BLK_MQ_RQ_QUEUE_BUSY | BLK_MQ_RQ_QUEUE_DEV_BUSY =>
          let '(q2, tr2) :=
            blk_mq_request_bypass_insert cpu q1 rq1 (bool_decide (rest = [])) in
          (q2, drv1, tr1 ++ tr2, rest)
      | BLK_MQ_RQ_QUEUE_ERROR | BLK_MQ_RQ_QUEUE_BAD _ =>
          let '(q2, drv2, tr2, remaining) :=
            blk_mq_try_issue_list_directly code_of ops jiffies cpu q1 drv1 rest in
          (q2, drv2,
           tr1 ++ [Ev_end_request (rq_id rq1) (code_of ret)] ++ tr2, remaining)
      end
  end.

(** ** Mapping software queues to hardware queues *)

Definition set_mq_map (v : list nat) (q : request_queue) : request_queue :=
  mk_queue (queue_hw_ctx q) (queue_ctx q) v (elevator q) (queue_flag_quiesced q)
           (mq_freeze_depth q) (q_usage_counter q) (mq_freeze_wq q).

Definition set_index_hw (v : nat) (ctx : blk_mq_ctx) : blk_mq_ctx :=
  mk_ctx (rq_list ctx) v.

(** [ctxs] lists the software queues of a hardware queue: the entries of
    [hctx->ctxs] below [nr_ctx], whose CPUs are the bits of [hctx->cpumask]. *)
Definition set_ctxs (l : list nat) (n : nat) (h : blk_mq_hw_ctx) : blk_mq_hw_ctx :=
  mk_hctx (flag_tag_shared h) (flag_blocking h) (state_stopped h)
          (state_sched_restart h) (dispatch h) (ctx_map h) n l (tags h)
          (sched_tags h) (nr_active h) (dispatch_busy h) (dispatched h)
          (dispatch_wait_queued h) (sched_has_work h).

(** [sbitmap_resize], used "to set the map size to the number of mapped
    software queues": the depth changes, the bits stay. *)
Definition sbitmap_resize (sb : sbitmap) (depth : nat) : sbitmap :=
  mk_sbitmap depth (sb_word sb).

(** [struct blk_mq_tag_set]: the fields that setting up the tag pools reads
    and writes; [ts_tags] is the array [set->tags] with one pool pointer for
    each hardware queue, [ts_has_queue_rq] says that [set->ops->queue_rq] is
    there. *)
Record blk_mq_tag_set : Type := mk_tag_set {
  ts_nr_hw_queues : Z;
  ts_queue_depth : Z;
  ts_reserved_tags : Z;
  ts_has_queue_rq : bool;
  ts_tags : list (option blk_mq_tags)
}.

Definition set_ts_tags (v : list (option blk_mq_tags)) (set : blk_mq_tag_set)
  : blk_mq_tag_set :=
  mk_tag_set (ts_nr_hw_queues set) (ts_queue_depth set) (ts_reserved_tags set)
             (ts_has_queue_rq set) v.

Definition set_ts_queue_depth (v : Z) (set : blk_mq_tag_set) : blk_mq_tag_set :=
  mk_tag_set (ts_nr_hw_queues set) v (ts_reserved_tags set)
             (ts_has_queue_rq set) (ts_tags set).

Definition set_ts_nr_hw_queues (v : Z) (set : blk_mq_tag_set) : blk_mq_tag_set :=
  mk_tag_set v (ts_queue_depth set) (ts_reserved_tags set)
             (ts_has_queue_rq set) (ts_tags set).

(** [set->tags[hctx_idx]]. *)
Definition tags_at (set : blk_mq_tag_set) (hctx_idx : nat) : option blk_mq_tags :=
  default None (ts_tags set !! hctx_idx).

(** [__blk_mq_alloc_rq_map].  [mem] says whether memory is there for both
    [blk_mq_alloc_rq_map] and [blk_mq_alloc_rqs]; when either fails,
    [set->tags[hctx_idx]] is left NULL. *)
Definition __blk_mq_alloc_rq_map (mem : bool) (set : blk_mq_tag_set)
    (hctx_idx : nat) : bool * blk_mq_tag_set :=
  if mem
  then (true,
        set_ts_tags (<[hctx_idx := Some (blk_mq_alloc_rq_map (ts_queue_depth set)
                                                            (ts_reserved_tags set))]>
                       (ts_tags set)) set)
  else (false, set_ts_tags (<[hctx_idx := None]> (ts_tags set)) set).

(** [blk_mq_free_map_and_requests]. *)
Definition blk_mq_free_map_and_requests (set : blk_mq_tag_set) (hctx_idx : nat)
  : blk_mq_tag_set :=
  if bool_decide (is_Some (tags_at set hctx_idx))
  then set_ts_tags (<[hctx_idx := None]> (ts_tags set)) set
  else set.

(** The first loop of [blk_mq_map_swqueue], for one hardware queue:
    [cpumask_clear(hctx->cpumask); hctx->nr_ctx = 0]. *)
Definition map_swqueue_clear (h : nat) (q : request_queue) : request_queue :=
  store_hctx h (set_ctxs [] 0 (hctx_at q h)) q.

(** The body of its loop over the possible CPUs, for CPU [i].  [mem i] says
    whether memory is there if a tag pool has to be allocated in this pass. *)
Definition map_swqueue_cpu (mem : nat -> bool) (online_mask : nat -> bool)
    (i : nat) (st : request_queue * blk_mq_tag_set)
  : request_queue * blk_mq_tag_set :=
  let '(q, set) := st in
  if negb (online_mask i) then st
  else
    let hctx_idx := blk_mq_map_queue q i in
    let '(q1, set1) :=
      if bool_decide (is_Some (tags_at set hctx_idx)) then (q, set)
      else
        let '(ok, set1) := __blk_mq_alloc_rq_map (mem i) set hctx_idx in
        if ok then (q, set1)
        else (set_mq_map (<[i := 0%nat]> (mq_map q)) q, set1) in
    let h := blk_mq_map_queue q1 i in
    let hctx := hctx_at q1 h in
    (set_queue_ctx (alter (set_index_hw (nr_ctx hctx)) i (queue_ctx q1))
       (store_hctx h (set_ctxs (take (nr_ctx hctx) (ctxs hctx) ++ [i])
                               (S (nr_ctx hctx)) hctx) q1),
     set1).

(** The body of its last loop, for the hardware queue of index [i]. *)
Definition map_swqueue_tags (i : nat) (st : request_queue * blk_mq_tag_set)
  : request_queue * blk_mq_tag_set :=
  let '(q, set) := st in
  let hctx := hctx_at q i in
  if Nat.eqb (nr_ctx hctx) 0 then
    let set1 := if negb (Nat.eqb i 0) && bool_decide (is_Some (tags_at set i))
                then blk_mq_free_map_and_requests set i else set in
    (store_hctx i (set_tags None hctx) q, set1)
  else
    let hctx1 := set_tags (tags_at set i) hctx in
    (store_hctx i (set_ctx_map (sbitmap_resize (ctx_map hctx1) (nr_ctx hctx1)) hctx1) q,
     set).

(** [blk_mq_map_swqueue].  The possible CPUs are those of the per-CPU area
    [q->queue_ctx]. *)
Definition blk_mq_map_swqueue (mem : nat -> bool) (online_mask : nat -> bool)
    (q : request_queue) (set : blk_mq_tag_set) : request_queue * blk_mq_tag_set :=
  let q1 := fold_left (fun q h => map_swqueue_clear h q) (hw_queues q) q in
  let st2 := fold_left (fun st i => map_swqueue_cpu mem online_mask i st)
                       (seq 0 (length (queue_ctx q))) (q1, set) in
  fold_left (fun st h => map_swqueue_tags h st) (hw_queues q) st2.

(** ** The requeue list *)

(** A request on its way through [q->requeue_list], with the bit of
    [rq->cmd_flags] that the list borrows to ask for insertion at the head. *)
Record requeue_rq : Type := mk_requeue_rq {
  rr_rq : request;
  req_softbarrier : bool   (* rq->cmd_flags & REQ_SOFTBARRIER *)
}.

Definition set_req_softbarrier (v : bool) (rq : requeue_rq) : requeue_rq :=
  mk_requeue_rq (rr_rq rq) v.

(** The calls that leave the requeue code. *)
Inductive requeue_event : Type :=
| R_sched_insert (rq : requeue_rq) (at_head : bool)
      (* blk_mq_sched_insert_request(rq, at_head, false, false) *)
| R_kick               (* kblockd_mod_delayed_work_on(.., &q->requeue_work, 0) *)
| R_run_hw_queues.     (* blk_mq_run_hw_queues(q, false) *)

(** [blk_mq_kick_requeue_list]. *)
Definition blk_mq_kick_requeue_list : list requeue_event := [R_kick].

(** [blk_mq_add_to_requeue_list]; [None] is the [BUG_ON] for a request that
    carries the bit already. *)
Definition blk_mq_add_to_requeue_list (requeue_list : list requeue_rq)
    (rq : requeue_rq) (at_head kick_requeue_list : bool)
  : option (list requeue_rq * list requeue_event) :=
  if req_softbarrier rq then None
  else
    let l := if at_head
             then list_add (set_req_softbarrier true rq) requeue_list
             else list_add_tail rq requeue_list in
    Some (l, if kick_requeue_list then blk_mq_kick_requeue_list else []).

(** The first loop of [blk_mq_requeue_work] over [rq_list]: the requests
    that carry the bit lose it, leave the list and are inserted at the head;
    the result holds what stays on the list. *)
Fixpoint requeue_heads (rq_list : list requeue_rq)
  : list requeue_rq * list requeue_event :=
  match rq_list with
  | [] => ([], [])
  | rq :: next =>
      if negb (req_softbarrier rq) then
        let '(remaining, tr) := requeue_heads next in
        (rq :: remaining, tr)
      else
        let '(remaining, tr) := requeue_heads next in
        (remaining, R_sched_insert (set_req_softbarrier false rq) true :: tr)
  end.

(** Its second loop: the list is emptied from the front. *)
Fixpoint requeue_tails (rq_list : list requeue_rq) : list requeue_event :=
  match rq_list with
  | [] => []
  | rq :: rest => R_sched_insert rq false :: requeue_tails rest
  end.

(** [blk_mq_requeue_work]: the requeue list it leaves, and its calls. *)
Definition blk_mq_requeue_work (requeue_list : list requeue_rq)
  : list requeue_rq * list requeue_event :=
  let rq_list := list_splice requeue_list [] in
  let '(rq_list1, tr1) := requeue_heads rq_list in
  ([], tr1 ++ requeue_tails rq_list1 ++ [R_run_hw_queues]).

(** A run of calls of [blk_mq_add_to_requeue_list], each with its request
    and its arguments [at_head] and [kick_requeue_list]. *)
Fixpoint add_all_to_requeue_list (calls : list (requeue_rq * bool * bool))
    (requeue_list : list requeue_rq) : option (list requeue_rq) :=
  match calls with
  | [] => Some requeue_list
  | (rq, at_head, kick) :: rest =>
      match blk_mq_add_to_requeue_list requeue_list rq at_head kick with
      | Some (l, _) => add_all_to_requeue_list rest l
      | None => None
      end
  end.

(** ** Allocating a tag set *)

Definition ENOMEM : Z := 12.
Definition EINVAL : Z := 22.

(** What [blk_mq_alloc_tag_set] takes from outside blk-mq.c: the limits of
    include/linux/blk-mq.h and blk-mq-tag.h, the number of CPU ids, whether
    a crash dump kernel runs, whether the two arrays of the set can be
    allocated, what [blk_mq_update_queue_map] returns, and whether memory is
    there for the pool of a hardware queue at a given depth. *)
Record alloc_env : Type := mk_alloc_env {
  BLK_MQ_TAG_MIN : Z;
  BLK_MQ_MAX_DEPTH : Z;
  nr_cpu_ids : Z;
  is_kdump_kernel : bool;
  tags_array_mem : bool;
  mq_map_mem : bool;
  update_queue_map_ret : Z;
  rq_map_mem : Z -> nat -> bool
}.

(** [__blk_mq_alloc_rq_maps]: the pools of the hardware queues [i], [i+1],
    ... below [set->nr_hw_queues], [n] of them.  When one cannot be had,
    the maps allocated before it are freed; their pointers stay in
    [set->tags]. *)
Fixpoint alloc_rq_maps_from (env : alloc_env) (n : nat) (i : nat)
    (set : blk_mq_tag_set) : Z * blk_mq_tag_set :=
  match n with
  | O => (0, set)
  | S n' =>
      let '(ok, set1) :=
        __blk_mq_alloc_rq_map (rq_map_mem env (ts_queue_depth set) i) set i in
      if ok then alloc_rq_maps_from env n' (S i) set1
      else (- ENOMEM, set1)
  end.

Definition __blk_mq_alloc_rq_maps (env : alloc_env) (set : blk_mq_tag_set)
  : Z * blk_mq_tag_set :=
  alloc_rq_maps_from env (Z.to_nat (ts_nr_hw_queues set)) 0 set.

(** The [do ... while] loop of [blk_mq_alloc_rq_maps], at most [fuel]
    passes. *)
Fixpoint alloc_rq_maps_loop (env : alloc_env) (fuel : nat) (set : blk_mq_tag_set)
  : option (Z * blk_mq_tag_set) :=
  match fuel with
  | O => None
  | S fuel' =>
      let '(err, set1) := __blk_mq_alloc_rq_maps env set in
      if err =? 0 then Some (err, set1)
      else
        let set2 := set_ts_queue_depth (Z.shiftr (ts_queue_depth set1) 1) set1 in
        if ts_queue_depth set2 <? uint (ts_reserved_tags set2 + BLK_MQ_TAG_MIN env)
        then Some (- ENOMEM, set2)
        else if ts_queue_depth set2 =? 0 then Some (err, set2)
             else alloc_rq_maps_loop env fuel' set2
  end.

(** [blk_mq_alloc_rq_maps]. *)
Definition blk_mq_alloc_rq_maps (env : alloc_env) (fuel : nat)
    (set : blk_mq_tag_set) : option (Z * blk_mq_tag_set) :=
  match alloc_rq_maps_loop env fuel set with
  | Some (err, set1) =>
      if (ts_queue_depth set1 =? 0) || negb (err =? 0)
      then Some (- ENOMEM, set1)
      else Some (0, set1)
  | None => None
  end.

(** [blk_mq_alloc_tag_set].  The array [set->tags] has [nr_cpu_ids] entries;
    it is gone again when the function fails after allocating it. *)
Definition blk_mq_alloc_tag_set (env : alloc_env) (fuel : nat)
    (set : blk_mq_tag_set) : option (Z * blk_mq_tag_set) :=
  if ts_nr_hw_queues set =? 0 then Some (- EINVAL, set)
  else if ts_queue_depth set =? 0 then Some (- EINVAL, set)
  else if ts_queue_depth set <? uint (ts_reserved_tags set + BLK_MQ_TAG_MIN env)
  then Some (- EINVAL, set)
  else if negb (ts_has_queue_rq set) then Some (- EINVAL, set)
  else
    let set1 := if BLK_MQ_MAX_DEPTH env <? ts_queue_depth set
                then set_ts_queue_depth (BLK_MQ_MAX_DEPTH env) set else set in
    let set2 := if is_kdump_kernel env
                then set_ts_queue_depth (Z.min 64 (ts_queue_depth set1))
                                        (set_ts_nr_hw_queues 1 set1)
                else set1 in
    let set3 := if nr_cpu_ids env <? ts_nr_hw_queues set2
                then set_ts_nr_hw_queues (nr_cpu_ids env) set2 else set2 in
    if negb (tags_array_mem env) then Some (- ENOMEM, set_ts_tags [] set3)
    else
      let set4 := set_ts_tags (replicate (Z.to_nat (nr_cpu_ids env)) None) set3 in
      if negb (mq_map_mem env) then Some (- ENOMEM, set_ts_tags [] set4)
      else if negb (update_queue_map_ret env =? 0)
      then Some (update_queue_map_ret env, set_ts_tags [] set4)
      else
        match blk_mq_alloc_rq_maps env fuel set4 with
        | Some (ret, set5) =>
            if negb (ret =? 0) then Some (ret, set_ts_tags [] set5)
            else Some (0, set5)
        | None => None
        end.

(** ** Allocating the requests of a pool *)

(** What [blk_mq_alloc_rqs] takes from outside: the page size, the size
    [rq_size] of a request with the driver payload, rounded to the cache
    line, the page allocator, whose answer to the call number [n] for a chunk
    of the given order is the address of the chunk or NULL, and the driver's
    [init_request] and [exit_request] if there are any. *)
Record rqs_env : Type := mk_rqs_env {
  PAGE_SIZE : Z;
  rq_size : Z;
  alloc_pages_node : nat -> nat -> option Z;
  init_request : option (Z -> Z);
  has_exit_request : bool
}.

(** [order_to_size]; the result is a [size_t]. *)
Definition order_to_size (env : rqs_env) (order : nat) : Z :=
  ulong (Z.shiftl (PAGE_SIZE env) (Z.of_nat order)).









(** ** Finishing a request *)

Definition set_sched_tags (v : option blk_mq_tags) (h : blk_mq_hw_ctx)
  : blk_mq_hw_ctx :=
  mk_hctx (flag_tag_shared h) (flag_blocking h) (state_stopped h)
          (state_sched_restart h) (dispatch h) (ctx_map h) (nr_ctx h) (ctxs h)
          (tags h) v (nr_active h) (dispatch_busy h) (dispatched h)
          (dispatch_wait_queued h) (sched_has_work h).

(** The call that leaves [__blk_mq_finish_request] for the scheduler. *)
Inductive finish_event : Type :=
| F_sched_restart (hctx : nat).   (* blk_mq_sched_restart(hctx) *)

(** [__blk_mq_finish_request] for the hardware queue of index [h]. *)
Definition __blk_mq_finish_request (q : request_queue) (h : nat) (rq : request)
  : request_queue * request * list finish_event :=
  let hctx := hctx_at q h in
  let sched_tag := internal_tag rq in
  let hctx1 := if req_mq_inflight rq
               then set_nr_active (nr_active hctx - 1) hctx else hctx in
  let rq1 := set_req_mq_inflight false rq in
  let rq2 := set_atomic_flags (clear_bit REQ_ATOM_STARTED (atomic_flags rq1)) rq1 in
  let hctx2 := if negb (tag rq2 =? -1)
               then set_tags (option_map (blk_mq_put_tag (tag rq2)) (tags hctx1)) hctx1
               else hctx1 in
  let hctx3 := if negb (sched_tag =? -1)
               then set_sched_tags (option_map (blk_mq_put_tag sched_tag)
                                               (sched_tags hctx2)) hctx2
               else hctx2 in
  (blk_queue_exit (store_hctx h hctx3 q), rq2, [F_sched_restart h]).

(** [blk_mq_finish_request], through [blk_mq_finish_hctx_request]; the
    counter [ctx->rq_completed] is statistics only and not kept. *)
Definition blk_mq_finish_request (q : request_queue) (rq : request)
  : request_queue * request * list finish_event :=
  __blk_mq_finish_request q (blk_mq_map_queue q (mq_ctx rq)) rq.

(** ** Predicates of the further properties *)

(** A tag pool in order: the reserved range lies within the pool, the tags
    fit the [int] field [rq->tag], and [tags->rqs] has [nr_tags] entries. *)
Definition pool_wf (t : blk_mq_tags) : Prop :=
  0 <= nr_reserved_tags t <= nr_tags t /\ nr_tags t < 2 ^ 31 /\ rqs_allocated t.

(** The fields of a hardware queue that say how it waits for a driver tag. *)
Definition hctx_wait_state (hctx : blk_mq_hw_ctx) : bool * bool * bool :=
  (flag_tag_shared hctx, state_sched_restart hctx, dispatch_wait_queued hctx).

(** [q'] comes from [q] by putting the requests [added], in this order,
    each at the end of the dispatch list of its hardware queue; the hardware
    queues and the CPU map are otherwise the same in number and mapping. *)
Definition dispatch_grows (q q' : request_queue) (added : list request) : Prop :=
  length (queue_hw_ctx q') = length (queue_hw_ctx q) /\
  mq_map q' = mq_map q /\
  forall h, dispatch (hctx_at q' h)
            = dispatch (hctx_at q h)
              ++ List.filter (fun rq => Nat.eqb (blk_mq_map_queue q (mq_ctx rq)) h)
                             added.

(** The calls of the driver's [queue_rq] in a trace. *)
Definition is_queue_rq (e : event) : bool :=
  match e with
  | Ev_queue_rq _ _ _ _ => true
  | _ => false
  end.

(** What [blk_mq_map_swqueue] has set up once the CPUs below [k] are
    done, starting from [q0]: the software queues and dispatch lists hold the
    same requests, every entry of [ctxs] is an online CPU below [k] that
    [mq_map] sends to this hardware queue and whose software queue carries
    the index of the entry, and every online CPU below [k] has an entry. *)
Definition swqueue_mapped (online_mask : nat -> bool) (k : nat)
    (q0 q : request_queue) : Prop :=
  length (queue_hw_ctx q) = length (queue_hw_ctx q0) /\
  length (queue_ctx q) = length (queue_ctx q0) /\
  length (mq_map q) = length (queue_ctx q0) /\
  map_wf q /\
  map rq_list (queue_ctx q) = map rq_list (queue_ctx q0) /\
  map dispatch (queue_hw_ctx q) = map dispatch (queue_hw_ctx q0) /\
  (forall h hctx, queue_hw_ctx q !! h = Some hctx ->
     nr_ctx hctx = length (ctxs hctx) /\ NoDup (ctxs hctx) /\
     forall j cpu, ctxs hctx !! j = Some cpu ->
       (cpu < k)%nat /\ online_mask cpu = true /\ mq_map q !! cpu = Some h /\
       exists ctx, queue_ctx q !! cpu = Some ctx /\ index_hw ctx = j) /\
  (forall cpu, (cpu < k)%nat -> online_mask cpu = true ->
     exists j, ctxs (hctx_at q (blk_mq_map_queue q cpu)) !! j = Some cpu).

(** The fields of a hardware queue that the last loop leaves alone. *)
Definition hctx_sw (hctx : blk_mq_hw_ctx) : list nat * nat * list request :=
  (ctxs hctx, nr_ctx hctx, dispatch hctx).

(** Two hardware queues and three CPUs, the first CPU mapped to the first
    hardware queue and the others to the second; only the first hardware
    queue has a tag pool. *)
Definition example_two_queues : request_queue :=
  mk_queue [example_hctx; example_hctx] [mk_ctx [] 0; mk_ctx [] 0; mk_ctx [] 0]
           [0%nat; 1%nat; 1%nat] false false 0 (mk_percpu_ref false 0) [].

Definition example_tag_set : blk_mq_tag_set :=
  mk_tag_set 2 4 0 true [Some example_tags; None].

(** The fields of a tag set that allocating the pools leaves alone. *)
Definition ts_frame (set : blk_mq_tag_set) : Z * Z * bool * nat :=
  (ts_nr_hw_queues set, ts_reserved_tags set, ts_has_queue_rq set,
   length (ts_tags set)).

(** Two requests put on the requeue list, the first at the head and the
    second at the tail with a kick. *)
Definition example_requeue_calls : list (requeue_rq * bool * bool) :=
  [(mk_requeue_rq (mk_request 1 0 (-1) (-1) false 0 0 30 0) false, true, false);
   (mk_requeue_rq (mk_request 2 0 (-1) (-1) false 0 0 30 0) false, false, true)].

(** A machine with four CPU ids where memory is there for pools of up to 64
    tags, and a tag set that asks for two hardware queues of depth 256 with
    one reserved tag. *)
Definition example_alloc_env : alloc_env :=
  mk_alloc_env 1 10240 4 false true true 0 (fun depth _ => depth <=? 64).

Definition example_wide_tag_set : blk_mq_tag_set :=
  mk_tag_set 2 256 1 true [None; None; None; None].







(** The sizes that keep the arithmetic of [blk_mq_alloc_rqs] within its
    integer types, with a request that fits the largest chunk. *)
Definition rqs_env_ok (env : rqs_env) : Prop :=
  0 < PAGE_SIZE env /\ PAGE_SIZE env * 16 < 2 ^ 31 /\
  0 < rq_size env <= PAGE_SIZE env * 16.



(** ** Tactics *)

(** Goals on the freeze state: the invariant unfolded, then arithmetic. *)
Ltac freeze_arith :=
  unfold freeze_inv in *; simpl in *;
  intuition (try lia; try discriminate; try congruence).

(** The two cases of a lookup in a list updated at one index. *)
Ltac insert_cases Hl :=
  apply list_lookup_insert_Some in Hl as [(-> & Hl & _)|(_ & Hl)].

(** * Properties *)

Lemma array_read_in_bounds {A : Type} (a : list A) (i : Z) :
  0 <= i < Z.of_nat (length a) ->
  exists x, a !! Z.to_nat i = Some x /\ array_read a i = Value x.
Proof.
  intros [Hlo Hhi]. unfold array_read.
  destruct (Z.ltb_spec i 0) as [Hneg|_]; [lia|].
  destruct (lookup_lt_is_Some_2 a (Z.to_nat i)) as [x Hx]; [lia|].
  exists x. now rewrite Hx.
Qed.

(** ** Bits *)

Lemma test_bit_set_bit_eq (n w : Z) : 0 <= n -> test_bit n (set_bit n w) = true.
Proof.
  intros Hn. unfold test_bit, set_bit.
  change (Z.lor w (Z.shiftl 1 n)) with (Z.setbit w n).
  now apply Z.setbit_eq.
Qed.

Lemma test_bit_set_bit_neq (n m w : Z) :
  0 <= n -> n <> m -> test_bit m (set_bit n w) = test_bit m w.
Proof.
  intros Hn Hnm. unfold test_bit, set_bit.
  change (Z.lor w (Z.shiftl 1 n)) with (Z.setbit w n).
  now apply Z.setbit_neq.
Qed.

Lemma test_bit_clear_bit_eq (n w : Z) : 0 <= n -> test_bit n (clear_bit n w) = false.
Proof.
  intros Hn. unfold test_bit, clear_bit.
  change (Z.ldiff w (Z.shiftl 1 n)) with (Z.clearbit w n).
  now apply Z.clearbit_eq.
Qed.

Lemma test_bit_clear_bit_neq (n m w : Z) :
  0 <= n -> n <> m -> test_bit m (clear_bit n w) = test_bit m w.
Proof.
  intros Hn Hnm. unfold test_bit, clear_bit.
  change (Z.ldiff w (Z.shiftl 1 n)) with (Z.clearbit w n).
  now apply Z.clearbit_neq.
Qed.

(** Setting a bit that is set changes nothing. *)
Lemma set_bit_idem (n w : Z) : 0 <= n -> test_bit n w = true -> set_bit n w = w.
Proof.
  intros Hn Hb. apply Z.bits_inj'. intros m Hm.
  fold (test_bit m (set_bit n w)). fold (test_bit m w).
  destruct (Z.eq_dec n m) as [->|Hne].
  - now rewrite test_bit_set_bit_eq, Hb.
  - now rewrite test_bit_set_bit_neq.
Qed.

(** Clearing a bit that is clear changes nothing. *)
Lemma clear_bit_idem (n w : Z) : 0 <= n -> test_bit n w = false -> clear_bit n w = w.
Proof.
  intros Hn Hb. apply Z.bits_inj'. intros m Hm.
  fold (test_bit m (clear_bit n w)). fold (test_bit m w).
  destruct (Z.eq_dec n m) as [->|Hne].
  - now rewrite test_bit_clear_bit_eq, Hb.
  - now rewrite test_bit_clear_bit_neq.
Qed.

(** ** Tag to request lookup *)

Lemma blk_mq_alloc_rq_map_allocated (n r : Z) :
  0 <= n -> rqs_allocated (blk_mq_alloc_rq_map n r).
Proof.
  intros Hn. unfold rqs_allocated, blk_mq_alloc_rq_map. simpl.
  rewrite length_replicate. lia.
Qed.

Lemma blk_mq_get_tag_allocated (reserved : bool) (t : blk_mq_tags) :
  rqs_allocated t -> rqs_allocated (snd (blk_mq_get_tag reserved t)).
Proof.
  intros H. unfold blk_mq_get_tag.
  destruct (find _ _); simpl; exact H.
Qed.

Lemma set_rqs_entry_allocated (t : blk_mq_tags) (i : nat) (p : rq_ptr) :
  rqs_allocated t -> rqs_allocated (set_rqs (<[i := p]> (rqs t)) t).
Proof.
  unfold rqs_allocated. simpl. now rewrite length_insert.
Qed.

(** C10: for every tag pool whose [rqs] array has [nr_tags] entries and every
    [unsigned int] tag, [blk_mq_tag_to_rq] returns NULL when the tag is not
    below [nr_tags] and the entry stored at that index otherwise, and it never
    reads outside the array. *)
Theorem blk_mq_tag_to_rq_bounds (t : blk_mq_tags) (tag : Z) :
  rqs_allocated t -> 0 <= tag < UINT_MODULUS ->
  (nr_tags t <= tag -> blk_mq_tag_to_rq t tag = Value NULL) /\
  (tag < nr_tags t ->
   exists p, rqs t !! Z.to_nat tag = Some p /\ blk_mq_tag_to_rq t tag = Value p) /\
  blk_mq_tag_to_rq t tag <> Fault.
Proof.
  intros Halloc [Hlo Hhi]. unfold blk_mq_tag_to_rq.
  destruct (Z.ltb_spec tag (nr_tags t)) as [Hlt|Hge].
  - destruct (array_read_in_bounds (rqs t) tag) as [p [Hp Hr]].
    { unfold rqs_allocated in Halloc. lia. }
    repeat split.
    + intros Hge. lia.
    + intros _. exists p. now split.
    + rewrite Hr. discriminate.
  - repeat split.
    + intros Hlt. lia.
    + discriminate.
Qed.

Lemma blk_mq_tag_to_rq_bounds_witness :
  rqs_allocated (blk_mq_alloc_rq_map 4 1) /\
  blk_mq_tag_to_rq (blk_mq_alloc_rq_map 4 1) 7 = Value NULL /\
  blk_mq_tag_to_rq (blk_mq_alloc_rq_map 4 1) 2 <> Fault.
Proof.
  assert (Ha : rqs_allocated (blk_mq_alloc_rq_map 4 1)) by reflexivity.
  assert (Hr7 : 0 <= 7 < UINT_MODULUS) by (unfold UINT_MODULUS; lia).
  assert (Hr2 : 0 <= 2 < UINT_MODULUS) by (unfold UINT_MODULUS; lia).
  split; [exact Ha|]. split.
  - apply (proj1 (blk_mq_tag_to_rq_bounds _ 7 Ha Hr7)). simpl. lia.
  - exact (proj2 (proj2 (blk_mq_tag_to_rq_bounds _ 2 Ha Hr2))).
Defined.

(** ** Completion *)

Lemma request_eta (rq : request) :
  mk_request (rq_id rq) (mq_ctx rq) (tag rq) (internal_tag rq)
             (req_mq_inflight rq) (atomic_flags rq) (deadline rq)
             (timeout rq) (errors rq) = rq.
Proof. now destruct rq. Qed.

Lemma blk_mark_rq_complete_set (rq : request) :
  test_bit REQ_ATOM_COMPLETE (atomic_flags rq) = true ->
  blk_mark_rq_complete rq = (true, rq).
Proof.
  intros H. unfold blk_mark_rq_complete, test_and_set_bit. rewrite H.
  rewrite set_bit_idem by (unfold REQ_ATOM_COMPLETE; lia || assumption).
  unfold set_atomic_flags. now rewrite request_eta.
Qed.

Lemma blk_mark_rq_complete_clear (rq : request) :
  test_bit REQ_ATOM_COMPLETE (atomic_flags rq) = false ->
  blk_mark_rq_complete rq =
    (false, set_atomic_flags (set_bit REQ_ATOM_COMPLETE (atomic_flags rq)) rq).
Proof.
  intros H. unfold blk_mark_rq_complete, test_and_set_bit. now rewrite H.
Qed.

(** Every path through [__blk_mq_complete_request] finalizes the request
    once. *)
Lemma __blk_mq_complete_request_finalizes (env : completion_env) (rq : request)
    (sync : bool) :
  finalizations (rq_id rq) (__blk_mq_complete_request env rq sync) = 1%nat.
Proof.
  unfold __blk_mq_complete_request, blk_mq_sched_completed_request,
    blk_mq_ipi_complete_request, finalizations.
  destruct (internal_tag rq =? -1), (has_completed_request env),
    (has_softirq_done_fn env), sync,
    (queue_flag_same_comp env), (queue_flag_same_force env);
    simpl; repeat (destruct (_ && _); simpl);
    rewrite ?Nat.eqb_refl; reflexivity.
Qed.

Lemma finalizations_app (id : nat) (tr1 tr2 : list event) :
  finalizations id (tr1 ++ tr2) = (finalizations id tr1 + finalizations id tr2)%nat.
Proof. unfold finalizations. now rewrite List.filter_app, List.length_app. Qed.

(** A call that finds COMPLETE set is a no-op, whatever the fault-injection
    hook answers. *)
Lemma blk_mq_complete_request_already_complete (env : completion_env)
    (fake : bool) (rq : request) (error : Z) :
  test_bit REQ_ATOM_COMPLETE (atomic_flags rq) = true ->
  blk_mq_complete_request env fake rq error = (rq, []).
Proof.
  intros H. unfold blk_mq_complete_request.
  destruct fake; [reflexivity|].
  now rewrite (blk_mark_rq_complete_set rq H).
Qed.

(** The call that finds COMPLETE clear sets it, records the status and
    finalizes. *)
Lemma blk_mq_complete_request_first (env : completion_env) (rq : request)
    (error : Z) :
  test_bit REQ_ATOM_COMPLETE (atomic_flags rq) = false ->
  let rq' := set_errors error
               (set_atomic_flags (set_bit REQ_ATOM_COMPLETE (atomic_flags rq)) rq) in
  blk_mq_complete_request env false rq error =
    (rq', __blk_mq_complete_request env rq' false).
Proof.
  intros H. unfold blk_mq_complete_request.
  now rewrite (blk_mark_rq_complete_clear rq H).
Qed.

(** C2: with the fault-injection hook off, [blk_mq_complete_request] first
    test-and-sets COMPLETE; on a request whose COMPLETE flag is clear the
    first call sets the flag, records the status and finalizes the request
    once, the second call finds the flag set, changes nothing and finalizes
    nothing, so that two calls finalize exactly once. *)
Theorem blk_mq_complete_request_twice (env : completion_env) (rq : request)
    (error1 error2 : Z) :
  test_bit REQ_ATOM_COMPLETE (atomic_flags rq) = false ->
  let '(rq1, tr1) := blk_mq_complete_request env false rq error1 in
  let '(rq2, tr2) := blk_mq_complete_request env false rq1 error2 in
  test_bit REQ_ATOM_COMPLETE (atomic_flags rq1) = true /\
  errors rq1 = error1 /\
  finalizations (rq_id rq) tr1 = 1%nat /\
  rq2 = rq1 /\ tr2 = [] /\
  finalizations (rq_id rq) (tr1 ++ tr2) = 1%nat.
Proof.
  intros Hclear.
  pose proof (blk_mq_complete_request_first env rq error1 Hclear) as H1.
  cbv zeta in H1. rewrite H1.
  set (rq1 := set_errors error1 _) in *.
  assert (Hset : test_bit REQ_ATOM_COMPLETE (atomic_flags rq1) = true).
  { subst rq1. simpl. apply test_bit_set_bit_eq. unfold REQ_ATOM_COMPLETE. lia. }
  rewrite (blk_mq_complete_request_already_complete env false rq1 error2 Hset).
  assert (Hfin : finalizations (rq_id rq) (__blk_mq_complete_request env rq1 false) = 1%nat).
  { change (rq_id rq) with (rq_id rq1). apply __blk_mq_complete_request_finalizes. }
  repeat split; try assumption; try reflexivity.
  now rewrite app_nil_r.
Qed.

Lemma blk_mq_complete_request_twice_witness :
  test_bit REQ_ATOM_COMPLETE (atomic_flags example_rq) = false /\
  let '(rq1, tr1) := blk_mq_complete_request example_env false example_rq 0 in
  let '(rq2, tr2) := blk_mq_complete_request example_env false rq1 (-5) in
  test_bit REQ_ATOM_COMPLETE (atomic_flags rq1) = true /\
  errors rq1 = 0 /\
  finalizations (rq_id example_rq) tr1 = 1%nat /\
  rq2 = rq1 /\ tr2 = [] /\
  finalizations (rq_id example_rq) (tr1 ++ tr2) = 1%nat.
Proof.
  split; [reflexivity|].
  exact (blk_mq_complete_request_twice example_env example_rq 0 (-5) eq_refl).
Defined.

(** ** Timeout scan *)

Lemma time_after_eq_ahead (jiffies d : Z) :
  time_after_eq jiffies d = false <-> 1 <= ahead jiffies d <= 2 ^ 63.
Proof.
  unfold time_after_eq, ahead, to_long, ulong, ULONG_MODULUS.
  change (2 ^ 64) with 18446744073709551616.
  change (2 ^ 63) with 9223372036854775808.
  destruct (Z.ltb_spec ((jiffies - d) mod 18446744073709551616) 9223372036854775808);
    destruct (Z.leb_spec 0 ((jiffies - d) mod 18446744073709551616));
    destruct (Z.leb_spec 0 ((jiffies - d) mod 18446744073709551616 - 18446744073709551616));
    split; intros; try discriminate; try reflexivity;
    Z.div_mod_to_equations; lia.
Qed.

Lemma time_after_ahead (jiffies a b : Z) :
  1 <= ahead jiffies a <= 2 ^ 63 -> 1 <= ahead jiffies b <= 2 ^ 63 ->
  (time_after a b = true <-> ahead jiffies b < ahead jiffies a).
Proof.
  unfold time_after, ahead, to_long, ulong, ULONG_MODULUS.
  change (2 ^ 64) with 18446744073709551616.
  change (2 ^ 63) with 9223372036854775808.
  intros Ha Hb.
  destruct (Z.ltb_spec ((b - a) mod 18446744073709551616) 9223372036854775808);
    match goal with |- (?x <? 0) = true <-> _ => destruct (Z.ltb_spec x 0) end;
    split; intros; try discriminate; try reflexivity;
    Z.div_mod_to_equations; lia.
Qed.

Lemma blk_mq_check_expired_data (env : completion_env) (ops_timeout : timeout_fn)
    (jiffies : Z) (rq : request) (reserved : bool) (data : blk_mq_timeout_data) :
  snd (fst (blk_mq_check_expired env ops_timeout jiffies rq reserved data)) =
    track_deadline jiffies rq data.
Proof.
  unfold blk_mq_check_expired, track_deadline, pending_timeout.
  destruct (test_bit REQ_ATOM_STARTED (atomic_flags rq)); simpl; [|reflexivity].
  destruct (time_after_eq jiffies (deadline rq)); simpl.
  - unfold blk_mark_rq_complete, test_and_set_bit.
    destruct (test_bit REQ_ATOM_COMPLETE (atomic_flags rq)); simpl; [reflexivity|].
    now destruct (blk_mq_rq_timed_out _ _ _ _ _).
  - now destruct (negb (next_set data) || time_after (next data) (deadline rq)).
Qed.

Lemma blk_mq_queue_tag_busy_iter_data (env : completion_env)
    (ops_timeout : timeout_fn) (jiffies : Z) (busy : list (request * bool))
    (data : blk_mq_timeout_data) :
  snd (fst (blk_mq_queue_tag_busy_iter env ops_timeout jiffies busy data)) =
    fold_left (fun d rr => track_deadline jiffies (fst rr) d) busy data.
Proof.
  revert data. induction busy as [|[rq reserved] rest IH]; intros data; [reflexivity|].
  simpl.
  pose proof (blk_mq_check_expired_data env ops_timeout jiffies rq reserved data) as Hd.
  destruct (blk_mq_check_expired env ops_timeout jiffies rq reserved data)
    as [[rq' data1] tr1]. simpl in Hd. subst data1.
  specialize (IH (track_deadline jiffies rq data)).
  destruct (blk_mq_queue_tag_busy_iter env ops_timeout jiffies rest _)
    as [[rest' data2] tr2]. exact IH.
Qed.

Lemma pending_timeout_ahead (jiffies : Z) (rq : request) :
  pending_timeout jiffies rq = true -> 1 <= ahead jiffies (deadline rq) <= 2 ^ 63.
Proof.
  unfold pending_timeout. intros H.
  apply andb_true_iff in H as [_ H]. apply negb_true_iff in H.
  now apply time_after_eq_ahead.
Qed.

Lemma track_deadline_earliest (jiffies : Z) (seen : list (request * bool))
    (rr : request * bool) (data : blk_mq_timeout_data) :
  earliest_of jiffies seen data ->
  earliest_of jiffies (seen ++ [rr]) (track_deadline jiffies (fst rr) data).
Proof.
  unfold earliest_of, track_deadline. intros H.
  destruct (pending_timeout jiffies (fst rr)) eqn:Hp.
  - destruct (next_set data) eqn:Hset; simpl.
    + destruct H as [[r0 [Hin0 [Hp0 Hn0]]] Hmin].
      pose proof (pending_timeout_ahead _ _ Hp) as Hrr.
      pose proof (pending_timeout_ahead _ _ Hp0) as Hr0. rewrite <- Hn0 in Hr0.
      pose proof (time_after_ahead jiffies (next data) (deadline (fst rr)) Hr0 Hrr) as Hta.
      destruct (time_after (next data) (deadline (fst rr))) eqn:Eta; simpl.
      * assert (Hlt : ahead jiffies (deadline (fst rr)) < ahead jiffies (next data))
          by now apply Hta.
        split.
        -- exists rr. split; [apply in_or_app; right; now left|]. now split.
        -- intros r Hin Hpr. apply in_app_or in Hin as [Hin|[<-|[]]]; [|lia].
           specialize (Hmin r Hin Hpr). lia.
      * rewrite Hset.
        assert (Hge : ~ ahead jiffies (deadline (fst rr)) < ahead jiffies (next data)).
        { intros Hlt. apply Hta in Hlt. discriminate. }
        split.
        -- exists r0. split; [apply in_or_app; now left|]. now split.
        -- intros r Hin Hpr. apply in_app_or in Hin as [Hin|[<-|[]]]; [|lia].
           now apply Hmin.
    + split.
      * exists rr. split; [apply in_or_app; right; now left|]. now split.
      * intros r Hin Hpr. apply in_app_or in Hin as [Hin|[<-|[]]]; [|lia].
        rewrite (H r Hin) in Hpr. discriminate.
  - destruct (next_set data) eqn:Hset.
    + destruct H as [[r0 [Hin0 [Hp0 Hn0]]] Hmin]. split.
      * exists r0. split; [apply in_or_app; now left|]. now split.
      * intros r Hin Hpr. apply in_app_or in Hin as [Hin|[<-|[]]].
        -- now apply Hmin.
        -- rewrite Hp in Hpr. discriminate.
    + intros r Hin. apply in_app_or in Hin as [Hin|[<-|[]]]; [now apply H|exact Hp].
Qed.

Lemma fold_track_deadline_earliest (jiffies : Z) (busy seen : list (request * bool))
    (data : blk_mq_timeout_data) :
  earliest_of jiffies seen data ->
  earliest_of jiffies (seen ++ busy)
    (fold_left (fun d rr => track_deadline jiffies (fst rr) d) busy data).
Proof.
  revert seen data. induction busy as [|rr rest IH]; intros seen data H; simpl.
  - now rewrite app_nil_r.
  - replace (seen ++ rr :: rest) with ((seen ++ [rr]) ++ rest)
      by now rewrite <- app_assoc.
    apply IH. now apply track_deadline_earliest.
Qed.

(** C7: the timeout scan.  For a request that is not STARTED nothing
    happens.  For a STARTED request whose deadline has passed, COMPLETE is
    test-and-set: a request already complete is skipped; otherwise the
    handler is asked and the request, now COMPLETE, is finalized once on
    HANDLED, gets a new deadline and COMPLETE cleared on RESET_TIMER, and is
    left as it is on NOT_HANDLED.  A STARTED request whose deadline has not
    passed is left alone and enters only the tracking of the deadline for the
    next scan, which after the scan of all requests is the earliest deadline
    among the pending ones. *)
Theorem blk_mq_check_expired_spec (env : completion_env)
    (ops_timeout : timeout_fn) (jiffies : Z) :
  (forall (rq : request) (reserved : bool) (data : blk_mq_timeout_data),
     let res := blk_mq_check_expired env ops_timeout jiffies rq reserved data in
     let rqc := set_atomic_flags (set_bit REQ_ATOM_COMPLETE (atomic_flags rq)) rq in
     (test_bit REQ_ATOM_STARTED (atomic_flags rq) = false -> res = (rq, data, [])) /\
     (test_bit REQ_ATOM_STARTED (atomic_flags rq) = true ->
      time_after_eq jiffies (deadline rq) = true ->
      (test_bit REQ_ATOM_COMPLETE (atomic_flags rq) = true -> res = (rq, data, [])) /\
      (test_bit REQ_ATOM_COMPLETE (atomic_flags rq) = false ->
       match timeout_answer ops_timeout rqc reserved with
       | BLK_EH_HANDLED =>
           res = (rqc, data, __blk_mq_complete_request env rqc false) /\
           finalizations (rq_id rq) (snd res) = 1%nat
       | BLK_EH_RESET_TIMER =>
           let rq' := blk_clear_rq_complete
                        (set_deadline (ulong (jiffies + timeout rq)) rqc) in
           res = (rq', data, [Ev_add_timer (rq_id rq) (ulong (jiffies + timeout rq))]) /\
           test_bit REQ_ATOM_COMPLETE (atomic_flags rq') = false /\
           test_bit REQ_ATOM_STARTED (atomic_flags rq') = true
       | BLK_EH_NOT_HANDLED | BLK_EH_BAD _ => res = (rqc, data, [])
       end)) /\
     (test_bit REQ_ATOM_STARTED (atomic_flags rq) = true ->
      time_after_eq jiffies (deadline rq) = false ->
      res = (rq, track_deadline jiffies rq data, []))) /\
  (forall busy : list (request * bool),
     earliest_of jiffies busy
       (snd (fst (blk_mq_queue_tag_busy_iter env ops_timeout jiffies busy
                                             (mk_timeout_data 0 false))))).
Proof.
  split.
  - intros rq reserved data res rqc. subst res.
    unfold blk_mq_check_expired. split; [|split].
    + intros Hs. now rewrite Hs.
    + intros Hs Hexp. rewrite Hs, Hexp. cbn [negb].
      split; intros Hc.
      * now rewrite (blk_mark_rq_complete_set rq Hc).
      * rewrite (blk_mark_rq_complete_clear rq Hc). cbn [negb]. fold rqc.
        assert (Hsc : test_bit REQ_ATOM_STARTED (atomic_flags rqc) = true).
        { subst rqc. cbn [atomic_flags set_atomic_flags].
          rewrite test_bit_set_bit_neq; [exact Hs| |];
            unfold REQ_ATOM_COMPLETE, REQ_ATOM_STARTED; lia. }
        unfold blk_mq_rq_timed_out. rewrite Hsc. cbn [negb].
        unfold timeout_answer.
        destruct (match ops_timeout with Some handler => handler rqc reserved
                                    | None => BLK_EH_RESET_TIMER end) eqn:Hret.
        -- reflexivity.
        -- split; [reflexivity|]. cbn [snd].
           change (rq_id rq) with (rq_id rqc).
           apply __blk_mq_complete_request_finalizes.
        -- cbv zeta. unfold blk_add_timer.
           split; [reflexivity|].
           unfold blk_clear_rq_complete, set_deadline, set_atomic_flags.
           cbn [atomic_flags]. split.
           ++ apply test_bit_clear_bit_eq. unfold REQ_ATOM_COMPLETE. lia.
           ++ rewrite test_bit_clear_bit_neq; [exact Hsc| |];
                unfold REQ_ATOM_COMPLETE, REQ_ATOM_STARTED; lia.
        -- reflexivity.
    + intros Hs Hne. rewrite Hs, Hne. cbn [negb].
      unfold track_deadline, pending_timeout. rewrite Hs, Hne. cbn [negb andb].
      now destruct (negb (next_set data) || time_after (next data) (deadline rq)).
  - intros busy. rewrite blk_mq_queue_tag_busy_iter_data.
    apply (fold_track_deadline_earliest jiffies busy [] (mk_timeout_data 0 false)).
    simpl. intros rr [].
Qed.

(** ** Pending bitmap *)

Lemma sbitmap_test_set_eq (sb : sbitmap) (i : nat) :
  sbitmap_test_bit (sbitmap_set_bit sb i) i = true.
Proof. unfold sbitmap_test_bit, sbitmap_set_bit. simpl. apply test_bit_set_bit_eq. lia. Qed.

Lemma sbitmap_test_set_neq (sb : sbitmap) (i j : nat) :
  i <> j -> sbitmap_test_bit (sbitmap_set_bit sb i) j = sbitmap_test_bit sb j.
Proof.
  intros H. unfold sbitmap_test_bit, sbitmap_set_bit. simpl.
  apply test_bit_set_bit_neq; lia.
Qed.

Lemma sbitmap_test_clear_eq (sb : sbitmap) (i : nat) :
  sbitmap_test_bit (sbitmap_clear_bit sb i) i = false.
Proof. unfold sbitmap_test_bit, sbitmap_clear_bit. simpl. apply test_bit_clear_bit_eq. lia. Qed.

Lemma sbitmap_test_clear_neq (sb : sbitmap) (i j : nat) :
  i <> j -> sbitmap_test_bit (sbitmap_clear_bit sb i) j = sbitmap_test_bit sb j.
Proof.
  intros H. unfold sbitmap_test_bit, sbitmap_clear_bit. simpl.
  apply test_bit_clear_bit_neq; lia.
Qed.

(** Two indices of a well-formed hardware queue that name the same software
    queue are the same index. *)
Lemma hw_sw_wf_inj (s : hw_sw) (i j cpu : nat) :
  hw_sw_wf s -> ctxs (hw s) !! i = Some cpu -> ctxs (hw s) !! j = Some cpu -> i = j.
Proof.
  intros (_ & _ & Hnd & _) Hi Hj.
  exact (NoDup_lookup _ _ _ _ Hnd Hi Hj).
Qed.







(** What [__blk_mq_insert_request] does on the hardware queue that owns the
    software queue of the request. *)
Lemma __blk_mq_insert_request_spec (s : hw_sw) (rq : request) (at_head : bool) :
  hw_sw_wf s -> owns s (mq_ctx rq) ->
  exists i,
    let s' := __blk_mq_insert_request s rq at_head in
    ctxs (hw s) !! i = Some (mq_ctx rq) /\
    hw_sw_wf s' /\
    nr_ctx (hw s') = nr_ctx (hw s) /\
    ctxs (hw s') = ctxs (hw s) /\
    dispatch (hw s') = dispatch (hw s) /\
    sbitmap_test_bit (ctx_map (hw s')) i = true /\
    fifo_at s' i = (if at_head then rq :: fifo_at s i else fifo_at s i ++ [rq]) /\
    (forall j, j <> i -> sbitmap_test_bit (ctx_map (hw s')) j
                         = sbitmap_test_bit (ctx_map (hw s)) j) /\
    (forall j, j <> i -> fifo_at s' j = fifo_at s j).
Proof.
  intros Hwf (ctx & Hsw & Hown). pose proof Hwf as (Hlen & Hdepth & Hnd & Hctx).
  exists (index_hw ctx). cbv zeta. unfold __blk_mq_insert_request. rewrite Hsw.
  set (ctx' := set_rq_list _ ctx).
  assert (Hcpu_lt : (mq_ctx rq < length (sw_queues s))%nat) by (eapply lookup_lt_Some; eauto).
  assert (Hmark : ctxs (blk_mq_hctx_mark_pending (hw s) ctx') = ctxs (hw s) /\
                  nr_ctx (blk_mq_hctx_mark_pending (hw s) ctx') = nr_ctx (hw s) /\
                  dispatch (blk_mq_hctx_mark_pending (hw s) ctx') = dispatch (hw s) /\
                  sb_depth (ctx_map (blk_mq_hctx_mark_pending (hw s) ctx'))
                    = sb_depth (ctx_map (hw s)) /\
                  sbitmap_test_bit (ctx_map (blk_mq_hctx_mark_pending (hw s) ctx'))
                                   (index_hw ctx) = true /\
                  forall j, j <> index_hw ctx ->
                    sbitmap_test_bit (ctx_map (blk_mq_hctx_mark_pending (hw s) ctx')) j
                    = sbitmap_test_bit (ctx_map (hw s)) j).
  { unfold blk_mq_hctx_mark_pending. subst ctx'. cbn [index_hw set_rq_list].
    destruct (sbitmap_test_bit (ctx_map (hw s)) (index_hw ctx)) eqn:Hb; simpl.
    - repeat split; auto.
    - repeat split; auto using sbitmap_test_set_eq, sbitmap_test_set_neq. }
  destruct Hmark as (Hc & Hn & Hd & Hdp & Hb & Hbo).
  split; [exact Hown|]. split.
  { unfold hw_sw_wf. cbn [hw sw_queues]. rewrite Hc, Hn, Hdp.
    repeat split; try assumption.
    intros j c Hj. destruct (Hctx j c Hj) as [ctx0 [Hsw0 Hidx0]].
    destruct (Nat.eq_dec c (mq_ctx rq)) as [->|Hne].
    - rewrite list_lookup_insert_eq by assumption.
      eexists; split; [reflexivity|]. subst ctx'. simpl. congruence.
    - rewrite list_lookup_insert_ne by congruence. eauto. }
  cbn [hw sw_queues]. repeat split; try assumption.
  - unfold fifo_at. cbn [hw sw_queues]. rewrite Hc, Hown, Hsw.
    rewrite list_lookup_insert_eq by assumption. subst ctx'. simpl.
    now destruct at_head.
  - intros j Hj. unfold fifo_at. cbn [hw sw_queues]. rewrite Hc.
    destruct (ctxs (hw s) !! j) as [c|] eqn:Hcj; [|reflexivity].
    rewrite list_lookup_insert_ne; [reflexivity|].
    intros <-. apply Hj. eapply (hw_sw_wf_inj s); eauto.
Qed.




(** ** The pending-bitmap invariant *)

(** A property that every call of the callback keeps is kept by the walk. *)
Lemma sbitmap_walk_invariant {S : Type} (sb_of : S -> sbitmap)
    (fn : nat -> S -> bool * S) (P : S -> Prop) :
  (forall i s, P s -> P (snd (fn i s))) ->
  forall order s, P s -> P (sbitmap_walk sb_of fn order s).
Proof.
  intros Hfn order. induction order as [|i rest IH]; intros s Hs; [exact Hs|].
  simpl. destruct (sbitmap_test_bit (sb_of s) i); [|now apply IH].
  pose proof (Hfn i s Hs) as Hs'. destruct (fn i s) as [[] s']; simpl in Hs'.
  - now apply IH.
  - exact Hs'.
Qed.

Lemma sw_frame_refl (s : hw_sw) : sw_frame s s.
Proof. now repeat split. Qed.

Lemma fifo_at_lookup (s : hw_sw) (i cpu : nat) (ctx : blk_mq_ctx) :
  ctxs (hw s) !! i = Some cpu -> sw_queues s !! cpu = Some ctx ->
  fifo_at s i = rq_list ctx.
Proof. intros Hi Hc. unfold fifo_at. now rewrite Hi, Hc. Qed.

(** Replacing the FIFO of the software queue at index [i] and giving its bit
    the matching value keeps a hardware queue in order. *)
Lemma hw_sw_ok_update (s0 s : hw_sw) (i cpu : nat) (ctx : blk_mq_ctx)
    (fifo : list request) (sb : sbitmap) (d : list request) :
  hw_sw_ok s0 s ->
  ctxs (hw s) !! i = Some cpu -> sw_queues s !! cpu = Some ctx ->
  sb_depth sb = sb_depth (ctx_map (hw s)) ->
  (sbitmap_test_bit sb i = true <-> fifo <> []) ->
  (forall j, j <> i -> sbitmap_test_bit sb j = sbitmap_test_bit (ctx_map (hw s)) j) ->
  hw_sw_ok s0 (mk_hw_sw (set_dispatch d (set_ctx_map sb (hw s)))
                        (<[cpu := set_rq_list fifo ctx]> (sw_queues s))).
Proof.
  intros (Hwf & Hinv & Hnr & Hctxs & Hlen & Hframe) Hi Hsw Hdepth Hbit Hbits.
  pose proof Hwf as (Hl & Hd & Hnd & Hctx).
  assert (Hcpu_lt : (cpu < length (sw_queues s))%nat) by (eapply lookup_lt_Some; eauto).
  assert (Hfifo_i : fifo_at (mk_hw_sw (set_dispatch d (set_ctx_map sb (hw s)))
                                     (<[cpu := set_rq_list fifo ctx]> (sw_queues s))) i
                    = fifo).
  { unfold fifo_at. simpl. rewrite Hi. now rewrite list_lookup_insert_eq. }
  assert (Hfifo_j : forall j, j <> i ->
            fifo_at (mk_hw_sw (set_dispatch d (set_ctx_map sb (hw s)))
                              (<[cpu := set_rq_list fifo ctx]> (sw_queues s))) j
            = fifo_at s j).
  { intros j Hj. unfold fifo_at. simpl.
    destruct (ctxs (hw s) !! j) as [c|] eqn:Hc; [|reflexivity].
    rewrite list_lookup_insert_ne; [reflexivity|].
    intros ->. apply Hj. symmetry. eapply (hw_sw_wf_inj s); eauto. }
  split; [|split].
  - unfold hw_sw_wf. simpl. repeat split; try assumption; try congruence.
    intros j c Hj. destruct (Hctx j c Hj) as [ctx' [Hsw' Hidx']].
    destruct (Nat.eq_dec c cpu) as [->|Hne].
    + rewrite list_lookup_insert_eq by assumption.
      eexists; split; [reflexivity|]. simpl. congruence.
    + rewrite list_lookup_insert_ne by congruence. eauto.
  - intros j Hj. simpl in Hj. cbn [hw ctx_map set_dispatch set_ctx_map].
    destruct (Nat.eq_dec j i) as [->|Hne].
    + now rewrite Hfifo_i.
    + rewrite Hfifo_j, Hbits by assumption. now apply Hinv.
  - repeat split; simpl; try assumption.
    + now rewrite length_insert.
    + intros c Hc. rewrite list_lookup_insert_ne; [now apply Hframe|].
      intros <-. apply Hc. rewrite <- Hctxs.
      eapply list_elem_of_In, list_elem_of_lookup_2; eauto.
Qed.

Lemma set_dispatch_ctx_map_eta (h : blk_mq_hw_ctx) :
  set_dispatch (dispatch h) (set_ctx_map (ctx_map h) h) = h.
Proof. now destruct h. Qed.

Lemma set_dispatch_same (sb : sbitmap) (h : blk_mq_hw_ctx) :
  set_dispatch (dispatch h) (set_ctx_map sb h) = set_ctx_map sb h.
Proof. now destruct h. Qed.

Lemma flush_busy_ctx_ok (s0 : hw_sw) (i : nat) (d : flush_busy_ctx_data) :
  hw_sw_ok s0 (fst d) -> hw_sw_ok s0 (fst (snd (flush_busy_ctx i d))).
Proof.
  destruct d as [s l]. cbn [fst]. intros Hok. unfold flush_busy_ctx.
  destruct (ctxs (hw s) !! i) as [cpu|] eqn:Hi; [|exact Hok].
  destruct (sw_queues s !! cpu) as [ctx|] eqn:Hsw; [|exact Hok].
  cbn [fst snd]. rewrite <- set_dispatch_same.
  apply (hw_sw_ok_update s0 s i cpu ctx); try assumption.
  - reflexivity.
  - rewrite sbitmap_test_clear_eq. split; [discriminate|congruence].
  - intros j Hj. now apply sbitmap_test_clear_neq.
Qed.

Lemma dispatch_rq_from_ctx_ok (s0 : hw_sw) (i : nat) (d : dispatch_rq_data) :
  hw_sw_ok s0 (fst d) -> hw_sw_ok s0 (fst (snd (dispatch_rq_from_ctx i d))).
Proof.
  destruct d as [s r]. cbn [fst]. intros Hok. unfold dispatch_rq_from_ctx.
  destruct (ctxs (hw s) !! i) as [cpu|] eqn:Hi; [|exact Hok].
  destruct (sw_queues s !! cpu) as [ctx|] eqn:Hsw; [|exact Hok].
  destruct (rq_list ctx) as [|first rest] eqn:Hfifo; [exact Hok|].
  cbn [fst snd].
  assert (Hbit : sbitmap_test_bit (ctx_map (hw s)) i = true).
  { destruct Hok as (Hwf & Hinv & _). apply Hinv.
    - destruct Hwf as (Hlen & _). rewrite <- Hlen. eapply lookup_lt_Some; eauto.
    - rewrite (fifo_at_lookup s i cpu ctx Hi Hsw), Hfifo. discriminate. }
  destruct (bool_decide (rest = [])) eqn:Hrest.
  - apply bool_decide_eq_true in Hrest. rewrite <- set_dispatch_same.
    apply (hw_sw_ok_update s0 s i cpu ctx); try assumption.
    + reflexivity.
    + rewrite sbitmap_test_clear_eq. split; [discriminate|congruence].
    + intros j Hj. now apply sbitmap_test_clear_neq.
  - apply bool_decide_eq_false in Hrest.
    rewrite <- (set_dispatch_ctx_map_eta (hw s)).
    apply (hw_sw_ok_update s0 s i cpu ctx); try assumption.
    + reflexivity.
    + now rewrite Hbit.
    + reflexivity.
Qed.

Lemma __blk_mq_insert_request_ok (s0 s : hw_sw) (rq : request) (at_head : bool) :
  hw_sw_ok s0 s -> owns s (mq_ctx rq) ->
  hw_sw_ok s0 (__blk_mq_insert_request s rq at_head).
Proof.
  intros Hok (ctx & Hsw & Hown). unfold __blk_mq_insert_request. rewrite Hsw.
  set (fifo := if at_head then _ else _).
  assert (Hne : fifo <> []).
  { subst fifo. unfold list_add, list_add_tail. destruct at_head; [discriminate|].
    intros H. apply app_eq_nil in H as [_ H]. discriminate. }
  unfold blk_mq_hctx_mark_pending. cbn [index_hw set_rq_list].
  destruct (sbitmap_test_bit (ctx_map (hw s)) (index_hw ctx)) eqn:Hbit; cbn [negb].
  - rewrite <- (set_dispatch_ctx_map_eta (hw s)).
    apply (hw_sw_ok_update s0 s (index_hw ctx) (mq_ctx rq) ctx); try assumption.
    + reflexivity.
    + now rewrite Hbit.
    + reflexivity.
  - rewrite <- set_dispatch_same.
    apply (hw_sw_ok_update s0 s (index_hw ctx) (mq_ctx rq) ctx); try assumption.
    + reflexivity.
    + now rewrite sbitmap_test_set_eq.
    + intros j Hj. now apply sbitmap_test_set_neq.
Qed.

Lemma blk_mq_hctx_cpu_offline_ok (s0 s : hw_sw) (cpu : nat) :
  hw_sw_ok s0 s -> owns s cpu -> hw_sw_ok s0 (fst (blk_mq_hctx_cpu_offline s cpu)).
Proof.
  intros Hok (ctx & Hsw & Hown). unfold blk_mq_hctx_cpu_offline. rewrite Hsw.
  destruct (rq_list ctx) as [|first rest] eqn:Hfifo; [exact Hok|].
  cbn [fst]. unfold blk_mq_hctx_clear_pending.
  apply (hw_sw_ok_update s0 s (index_hw ctx) cpu ctx); try assumption.
  - reflexivity.
  - rewrite sbitmap_test_clear_eq. split; [discriminate|congruence].
  - intros j Hj. now apply sbitmap_test_clear_neq.
Qed.

Lemma blk_mq_flush_busy_ctxs_ok (s : hw_sw) (l : list request) :
  hw_sw_wf s -> hw_pending_inv s -> hw_sw_ok s (fst (blk_mq_flush_busy_ctxs s l)).
Proof.
  intros Hwf Hinv. unfold blk_mq_flush_busy_ctxs, sbitmap_for_each_set.
  apply (sbitmap_walk_invariant _ flush_busy_ctx (fun d => hw_sw_ok s (fst d))).
  - intros i d. apply flush_busy_ctx_ok.
  - split; [assumption|]. split; [assumption|apply sw_frame_refl].
Qed.

Lemma blk_mq_dequeue_from_ctx_ok (s : hw_sw) (start : option nat) :
  hw_sw_wf s -> hw_pending_inv s -> hw_sw_ok s (fst (blk_mq_dequeue_from_ctx s start)).
Proof.
  intros Hwf Hinv. unfold blk_mq_dequeue_from_ctx, __sbitmap_for_each_set.
  apply (sbitmap_walk_invariant _ dispatch_rq_from_ctx (fun d => hw_sw_ok s (fst d))).
  - intros i d. apply dispatch_rq_from_ctx_ok.
  - split; [assumption|]. split; [assumption|apply sw_frame_refl].
Qed.

Lemma hw_sw_eta (s : hw_sw) : mk_hw_sw (hw s) (sw_queues s) = s.
Proof. now destruct s. Qed.

Lemma hctx_at_lookup (q : request_queue) (h : nat) (hctx : blk_mq_hw_ctx) :
  queue_hw_ctx q !! h = Some hctx -> hctx_at q h = hctx.
Proof. unfold hctx_at. now intros ->. Qed.

(** An operation that keeps the hardware queue it works on in order keeps
    the whole request queue in order. *)
Lemma on_hctx_ok {R : Type} (q : request_queue) (h : nat) (hctx : blk_mq_hw_ctx)
    (op : hw_sw -> hw_sw * R) :
  queue_wf q -> pending_invariant q -> queue_hw_ctx q !! h = Some hctx ->
  hw_sw_ok (mk_hw_sw hctx (queue_ctx q)) (fst (op (mk_hw_sw hctx (queue_ctx q)))) ->
  queue_wf (fst (on_hctx q h op)) /\ pending_invariant (fst (on_hctx q h op)).
Proof.
  intros Hqwf Hinv Hh Hok. unfold on_hctx. rewrite (hctx_at_lookup q h hctx Hh).
  destruct (op (mk_hw_sw hctx (queue_ctx q))) as [s' r]. cbn [fst] in *.
  destruct Hok as (Hwf' & Hinv' & Hnr & Hctxs & Hlen & Hframe). cbn [hw sw_queues] in *.
  assert (Hh_lt : (h < length (queue_hw_ctx q))%nat) by (eapply lookup_lt_Some; eauto).
  assert (Hother : forall h' hctx' i cpu,
            h' <> h -> queue_hw_ctx q !! h' = Some hctx' ->
            ctxs hctx' !! i = Some cpu -> sw_queues s' !! cpu = queue_ctx q !! cpu).
  { intros h' hctx' i cpu Hne Hh' Hi. apply Hframe. intros Hin.
    apply list_elem_of_In, list_elem_of_lookup_1 in Hin as [j Hj].
    destruct (Hqwf h hctx Hh) as [_ Hmap]. destruct (Hqwf h' hctx' Hh') as [_ Hmap'].
    specialize (Hmap j cpu Hj). specialize (Hmap' i cpu Hi). congruence. }
  split.
  - intros h' hctx' Hh'. cbn [queue_hw_ctx set_queue_ctx store_hctx set_queue_hw_ctx
                               queue_ctx mq_map] in *.
    destruct (Nat.eq_dec h' h) as [->|Hne].
    + rewrite list_lookup_insert_eq in Hh' by assumption.
      injection Hh' as <-. rewrite hw_sw_eta. split; [exact Hwf'|].
      intros i cpu Hi. rewrite Hctxs in Hi.
      exact (proj2 (Hqwf h hctx Hh) i cpu Hi).
    + rewrite list_lookup_insert_ne in Hh' by congruence.
      destruct (Hqwf h' hctx' Hh') as [(Hl & Hd & Hnd & Hctx) Hmap].
      split; [|exact Hmap]. unfold hw_sw_wf. cbn [hw sw_queues] in *.
      repeat split; try assumption.
      intros i cpu Hi. rewrite (Hother h' hctx' i cpu Hne Hh' Hi). now apply Hctx.
  - intros h' hctx' i cpu ctx Hh' Hi Hc.
    cbn [queue_hw_ctx set_queue_ctx store_hctx set_queue_hw_ctx queue_ctx] in *.
    destruct (Nat.eq_dec h' h) as [->|Hne].
    + rewrite list_lookup_insert_eq in Hh' by assumption. injection Hh' as <-.
      rewrite <- (fifo_at_lookup s' i cpu ctx Hi Hc). apply Hinv'.
      destruct Hwf' as (Hl & _). rewrite <- Hl. eapply lookup_lt_Some; eauto.
    + rewrite list_lookup_insert_ne in Hh' by congruence.
      rewrite (Hother h' hctx' i cpu Hne Hh' Hi) in Hc.
      now apply (Hinv h' hctx' i cpu ctx).
Qed.

Lemma queue_hw_pending_inv (q : request_queue) (h : nat) (hctx : blk_mq_hw_ctx) :
  queue_wf q -> pending_invariant q -> queue_hw_ctx q !! h = Some hctx ->
  hw_pending_inv (mk_hw_sw hctx (queue_ctx q)).
Proof.
  intros Hqwf Hinv Hh i Hi. cbn [hw] in *.
  destruct (Hqwf h hctx Hh) as [(Hl & Hd & Hnd & Hctx) _]. cbn [hw sw_queues] in *.
  destruct (lookup_lt_is_Some_2 (ctxs hctx) i) as [cpu Hcpu]; [lia|].
  destruct (Hctx i cpu Hcpu) as [ctx [Hsw _]].
  rewrite (fifo_at_lookup (mk_hw_sw hctx (queue_ctx q)) i cpu ctx Hcpu Hsw).
  now apply (Hinv h hctx i cpu ctx).
Qed.

(** C9: the code does not keep the pending-bitmap invariant in the
    CPU-offline drain.  [blk_mq_hctx_notify] is called for a dead CPU on the
    hardware queue it was registered with, whether or not that hardware
    queue owns the software queue of the CPU, and
    [blk_mq_hctx_cpu_offline] clears the bit [index_hw] in the bitmap of the
    hardware queue it was handed.  On a queue in order, with CPU 0 on
    hardware queue 0 and CPU 1 on hardware queue 1, the notifier of hardware
    queue 0 called for CPU 1 moves the request of CPU 1 to the dispatch list
    of hardware queue 0; afterwards the software queue of CPU 1 is empty
    with its bit in hardware queue 1 still set, and the software queue of
    CPU 0 holds a request with its bit in hardware queue 0 cleared: the
    pending-bitmap invariant is lost. *)
Lemma blk_mq_hctx_cpu_offline_not_owner :
  let q := example_offline_queue in
  let q' := fst (on_hctx q 0 (fun s => blk_mq_hctx_notify s CPU_DEAD 1)) in
  queue_wf q /\ pending_invariant q /\
  queue_owns q 1 1 /\ ~ queue_owns q 0 1 /\
  map rq_id (dispatch (hctx_at q' 0)) = [2%nat] /\
  (exists ctx, queue_ctx q' !! 1%nat = Some ctx /\ rq_list ctx = [] /\
               sbitmap_test_bit (ctx_map (hctx_at q' 1)) (index_hw ctx) = true) /\
  (exists ctx, queue_ctx q' !! 0%nat = Some ctx /\ rq_list ctx <> [] /\
               sbitmap_test_bit (ctx_map (hctx_at q' 0)) (index_hw ctx) = false) /\
  ~ pending_invariant q'.
Proof.
  cbv zeta. split_and!.
  - intros h hctx Hh.
    destruct h as [|[|h]]; simpl in Hh; try discriminate; injection Hh as <-.
    + split.
      * unfold hw_sw_wf. split_and!; try reflexivity.
        -- apply NoDup_ListNoDup. repeat constructor; simpl; intuition discriminate.
        -- intros i cpu Hi. destruct i as [|i]; simpl in Hi; [|discriminate].
           injection Hi as <-. eexists. split; reflexivity.
      * intros i cpu Hi. destruct i as [|i]; simpl in Hi; [|discriminate].
        injection Hi as <-. reflexivity.
    + split.
      * unfold hw_sw_wf. split_and!; try reflexivity.
        -- apply NoDup_ListNoDup. repeat constructor; simpl; intuition discriminate.
        -- intros i cpu Hi. destruct i as [|i]; simpl in Hi; [|discriminate].
           injection Hi as <-. eexists. split; reflexivity.
      * intros i cpu Hi. destruct i as [|i]; simpl in Hi; [|discriminate].
        injection Hi as <-. reflexivity.
  - intros h hctx i cpu ctx Hh Hi Hc.
    destruct h as [|[|h]]; simpl in Hh; try discriminate; injection Hh as <-;
      (destruct i as [|i]; simpl in Hi; [|discriminate]);
      injection Hi as <-; simpl in Hc; injection Hc as <-;
      (split; intros _; [discriminate|reflexivity]).
  - eexists. split; [reflexivity|]. eexists. split; reflexivity.
  - intros (hctx & Hh & ctx & Hc & Hi).
    simpl in Hh. injection Hh as <-. simpl in Hc. injection Hc as <-.
    discriminate.
  - reflexivity.
  - eexists. split; [reflexivity|]. split; reflexivity.
  - eexists. split; [reflexivity|]. split; [discriminate|reflexivity].
  - intros H.
    destruct (H 1%nat _ 0%nat 1%nat _ eq_refl eq_refl eq_refl) as [Hbit _].
    now apply Hbit.
Qed.

(** ** Dispatch: what the loop leaves alone *)

Lemma hctx_at_store_eq (q : request_queue) (h : nat) (v : blk_mq_hw_ctx) :
  (h < length (queue_hw_ctx q))%nat -> hctx_at (store_hctx h v q) h = v.
Proof.
  intros Hh. unfold hctx_at, store_hctx. simpl.
  now rewrite list_lookup_insert_eq.
Qed.

Lemma hctx_at_store_ne (q : request_queue) (h h' : nat) (v : blk_mq_hw_ctx) :
  h <> h' -> hctx_at (store_hctx h v q) h' = hctx_at q h'.
Proof.
  intros Hh. unfold hctx_at, store_hctx. simpl.
  now rewrite list_lookup_insert_ne.
Qed.

Lemma hctx_at_store_ge (q : request_queue) (h h' : nat) (v : blk_mq_hw_ctx) :
  (length (queue_hw_ctx q) <= h)%nat -> hctx_at (store_hctx h v q) h' = hctx_at q h'.
Proof.
  intros Hh. unfold hctx_at, store_hctx. simpl.
  now rewrite list_insert_ge.
Qed.

Lemma store_hctx_length (q : request_queue) (h : nat) (v : blk_mq_hw_ctx) :
  length (queue_hw_ctx (store_hctx h v q)) = length (queue_hw_ctx q).
Proof. unfold store_hctx. simpl. apply length_insert. Qed.

Lemma core_same_refl (q : request_queue) : core_same q q.
Proof. now repeat split. Qed.

Lemma core_same_trans (q1 q2 q3 : request_queue) :
  core_same q1 q2 -> core_same q2 q3 -> core_same q1 q3.
Proof.
  intros (Hl & Hm & He & Hq & Hc) (Hl' & Hm' & He' & Hq' & Hc').
  repeat split; try congruence; intros h; now rewrite Hc', Hc.
Qed.

Lemma store_hctx_core_same (q : request_queue) (h : nat) (v : blk_mq_hw_ctx) :
  hctx_core v = hctx_core (hctx_at q h) -> core_same q (store_hctx h v q).
Proof.
  intros Hv. repeat split.
  - unfold store_hctx. simpl. apply length_insert.
  - intros h'. destruct (Nat.eq_dec h h') as [<-|Hne].
    + destruct (Nat.lt_ge_cases h (length (queue_hw_ctx q))) as [Hlt|Hge].
      * now rewrite hctx_at_store_eq.
      * now rewrite hctx_at_store_ge.
    + now rewrite hctx_at_store_ne.
Qed.

Lemma hctx_get_tag_core (reserved : bool) (hctx : blk_mq_hw_ctx) :
  hctx_core (snd (hctx_get_tag reserved hctx)) = hctx_core hctx.
Proof.
  unfold hctx_get_tag. destruct (tags hctx) as [t|]; [|reflexivity].
  now destruct (blk_mq_get_tag reserved t).
Qed.

Lemma hctx_set_rqs_core (t : Z) (id : nat) (hctx : blk_mq_hw_ctx) :
  hctx_core (hctx_set_rqs t id hctx) = hctx_core hctx.
Proof. unfold hctx_set_rqs. now destruct (tags hctx). Qed.

Lemma blk_mq_get_driver_tag_core (q : request_queue) (rq : request) :
  core_same q (snd (blk_mq_get_driver_tag q rq)).
Proof.
  unfold blk_mq_get_driver_tag.
  destruct (negb (tag rq =? -1)); [apply core_same_refl|].
  pose proof (hctx_get_tag_core
                (blk_mq_tag_is_reserved
                   (sched_tags (hctx_at q (blk_mq_map_queue q (mq_ctx rq))))
                   (internal_tag rq))
                (hctx_at q (blk_mq_map_queue q (mq_ctx rq)))) as Hg.
  destruct (hctx_get_tag _ _) as [t hctx1]. cbn [snd] in Hg.
  destruct (0 <=? tag (set_tag (to_int t) rq)).
  - destruct (blk_mq_tag_busy hctx1); cbn [snd];
      apply store_hctx_core_same; now rewrite hctx_set_rqs_core.
  - cbn [snd]. now apply store_hctx_core_same.
Qed.

Lemma blk_mq_mark_tag_wait_core (q : request_queue) (h : nat) (rq : request) :
  core_same q (snd (blk_mq_mark_tag_wait q h rq)).
Proof.
  unfold blk_mq_mark_tag_wait.
  destruct (negb (flag_tag_shared (hctx_at q h))).
  - eapply core_same_trans; [|apply blk_mq_get_driver_tag_core].
    destruct (negb (state_sched_restart (hctx_at q h))); [|apply core_same_refl].
    now apply store_hctx_core_same.
  - destruct (dispatch_wait_queued (hctx_at q h)); [apply core_same_refl|].
    set (q1 := store_hctx h _ q).
    assert (H1 : core_same q q1) by now apply store_hctx_core_same.
    pose proof (blk_mq_get_driver_tag_core q1 rq) as H2.
    destruct (blk_mq_get_driver_tag q1 rq) as [[ret rq1] q2]. cbn [snd] in H2.
    destruct (negb ret); cbn [snd].
    + eapply core_same_trans; eauto.
    + eapply core_same_trans; [eapply core_same_trans; eauto|].
      now apply store_hctx_core_same.
Qed.

Lemma __blk_mq_put_driver_tag_core (hctx : blk_mq_hw_ctx) (rq : request) :
  hctx_core (fst (__blk_mq_put_driver_tag hctx rq)) = hctx_core hctx.
Proof.
  unfold __blk_mq_put_driver_tag. cbn [req_mq_inflight set_tag].
  now destruct (req_mq_inflight rq).
Qed.

Lemma blk_mq_put_driver_tag_core (q : request_queue) (rq : request) :
  core_same q (fst (blk_mq_put_driver_tag q rq)).
Proof.
  unfold blk_mq_put_driver_tag.
  destruct ((tag rq =? -1) || (internal_tag rq =? -1)); [apply core_same_refl|].
  pose proof (__blk_mq_put_driver_tag_core
                (hctx_at q (blk_mq_map_queue q (mq_ctx rq))) rq) as Hp.
  destruct (__blk_mq_put_driver_tag _ rq) as [hctx' rq']. cbn [fst] in *.
  now apply store_hctx_core_same.
Qed.

Lemma __blk_mq_requeue_request_core (q : request_queue) (rq : request) :
  core_same q (fst (__blk_mq_requeue_request q rq)).
Proof.
  unfold __blk_mq_requeue_request.
  pose proof (blk_mq_put_driver_tag_core q rq) as Hp.
  destruct (blk_mq_put_driver_tag q rq) as [q1 rq1]. exact Hp.
Qed.

(** ** Dispatch: one pass of the loop *)

Lemma accepted_app (tr1 tr2 : list event) :
  accepted (tr1 ++ tr2) = (accepted tr1 + accepted tr2)%nat.
Proof. unfold accepted. now rewrite List.filter_app, List.length_app. Qed.

Lemma errored_app (tr1 tr2 : list event) :
  errored (tr1 ++ tr2) = (errored tr1 + errored tr2)%nat.
Proof. unfold errored. now rewrite List.filter_app, List.length_app. Qed.

Lemma blk_mq_start_request_trace (jiffies : Z) (rq : request) :
  rq_id (fst (blk_mq_start_request jiffies rq)) = rq_id rq /\
  accepted (snd (blk_mq_start_request jiffies rq)) = 0%nat /\
  errored (snd (blk_mq_start_request jiffies rq)) = 0%nat.
Proof. now unfold blk_mq_start_request. Qed.

Lemma blk_mq_get_driver_tag_id (q : request_queue) (rq : request) :
  rq_id (snd (fst (blk_mq_get_driver_tag q rq))) = rq_id rq.
Proof.
  unfold blk_mq_get_driver_tag.
  destruct (negb (tag rq =? -1)); [reflexivity|].
  destruct (hctx_get_tag _ _) as [t hctx1].
  destruct (0 <=? tag (set_tag (to_int t) rq)); [|reflexivity].
  now destruct (blk_mq_tag_busy hctx1).
Qed.

Lemma blk_mq_mark_tag_wait_id (q : request_queue) (h : nat) (rq : request) :
  rq_id (snd (fst (blk_mq_mark_tag_wait q h rq))) = rq_id rq.
Proof.
  unfold blk_mq_mark_tag_wait.
  destruct (negb (flag_tag_shared (hctx_at q h))); [apply blk_mq_get_driver_tag_id|].
  destruct (dispatch_wait_queued (hctx_at q h)); [reflexivity|].
  set (q1 := store_hctx h _ q).
  pose proof (blk_mq_get_driver_tag_id q1 rq) as Hid.
  destruct (blk_mq_get_driver_tag q1 rq) as [[ret rq1] q2].
  now destruct (negb ret).
Qed.

Lemma map_wf_core_same (q q' : request_queue) :
  core_same q q' -> map_wf q -> map_wf q'.
Proof.
  intros (Hl & Hm & _) Hwf cpu. unfold blk_mq_map_queue. rewrite Hl, Hm.
  apply Hwf.
Qed.

Lemma blk_mq_map_queue_core_same (q q' : request_queue) (cpu : nat) :
  core_same q q' -> blk_mq_map_queue q' cpu = blk_mq_map_queue q cpu.
Proof. intros (_ & Hm & _). unfold blk_mq_map_queue. now rewrite Hm. Qed.

Lemma test_bit_clear_bit_same (n w : Z) : test_bit n (clear_bit n w) = false.
Proof.
  destruct (Z.lt_ge_cases n 0) as [Hneg|Hpos].
  - unfold test_bit. now apply Z.testbit_neg_r.
  - now apply test_bit_clear_bit_eq.
Qed.

Lemma blk_mq_get_driver_tag_mq_ctx (q : request_queue) (rq : request) :
  mq_ctx (snd (fst (blk_mq_get_driver_tag q rq))) = mq_ctx rq.
Proof.
  unfold blk_mq_get_driver_tag.
  destruct (negb (tag rq =? -1)); [reflexivity|].
  destruct (hctx_get_tag _ _) as [t hctx1].
  destruct (0 <=? tag (set_tag (to_int t) rq)); [|reflexivity].
  now destruct (blk_mq_tag_busy hctx1).
Qed.

Lemma blk_mq_mark_tag_wait_mq_ctx (q : request_queue) (h : nat) (rq : request) :
  mq_ctx (snd (fst (blk_mq_mark_tag_wait q h rq))) = mq_ctx rq.
Proof.
  unfold blk_mq_mark_tag_wait.
  destruct (negb (flag_tag_shared (hctx_at q h))); [apply blk_mq_get_driver_tag_mq_ctx|].
  destruct (dispatch_wait_queued (hctx_at q h)); [reflexivity|].
  set (q1 := store_hctx h _ q).
  pose proof (blk_mq_get_driver_tag_mq_ctx q1 rq) as Hid.
  destruct (blk_mq_get_driver_tag q1 rq) as [[ret rq1] q2].
  now destruct (negb ret).
Qed.

(** [__blk_mq_put_driver_tag] clears the bit of the tag in the pool. *)
Lemma __blk_mq_put_driver_tag_pool (hctx : blk_mq_hw_ctx) (rq : request) :
  forall pool, tags (fst (__blk_mq_put_driver_tag hctx rq)) = Some pool ->
               test_bit (tag rq) (bitmap pool) = false.
Proof.
  intros pool. unfold __blk_mq_put_driver_tag. cbn [req_mq_inflight set_tag].
  destruct (req_mq_inflight rq); cbn [fst tags set_nr_active set_tags];
    destruct (tags hctx) as [t|]; cbn [option_map]; intros H; try discriminate;
    injection H as <-; apply test_bit_clear_bit_same.
Qed.

(** [blk_mq_put_driver_tag]: a request that holds a driver tag next to a
    scheduler tag gives the driver tag back; any other request is left as it
    is. *)
Lemma blk_mq_put_driver_tag_spec (q : request_queue) (rq : request) :
  let '(q', rq') := blk_mq_put_driver_tag q rq in
  rq_id rq' = rq_id rq /\ mq_ctx rq' = mq_ctx rq /\
  internal_tag rq' = internal_tag rq /\
  atomic_flags rq' = atomic_flags rq /\
  (internal_tag rq = -1 -> q' = q /\ rq' = rq) /\
  (internal_tag rq <> -1 ->
   tag rq' = -1 /\ tag_released q' (blk_mq_map_queue q (mq_ctx rq)) (tag rq)).
Proof.
  unfold blk_mq_put_driver_tag.
  destruct (Z.eqb_spec (tag rq) (-1)) as [Ht|Ht]; cbn [orb].
  - split_and!; try reflexivity; try (now split).
    intros _. split; [assumption|]. intros pool _. rewrite Ht.
    unfold test_bit. now apply Z.testbit_neg_r.
  - destruct (Z.eqb_spec (internal_tag rq) (-1)) as [Hi|Hi].
    + split_and!; try reflexivity; try (now split).
    + set (h := blk_mq_map_queue q (mq_ctx rq)).
      pose proof (__blk_mq_put_driver_tag_pool (hctx_at q h) rq) as Hpool.
      assert (Hfields : let rq' := snd (__blk_mq_put_driver_tag (hctx_at q h) rq) in
                rq_id rq' = rq_id rq /\ mq_ctx rq' = mq_ctx rq /\
                internal_tag rq' = internal_tag rq /\
                atomic_flags rq' = atomic_flags rq /\ tag rq' = -1).
      { cbv zeta. unfold __blk_mq_put_driver_tag. cbn [req_mq_inflight set_tag].
        now destruct (req_mq_inflight rq). }
      cbv zeta in Hfields.
      destruct (__blk_mq_put_driver_tag (hctx_at q h) rq) as [hctx' rq'].
      cbn [fst snd] in *. destruct Hfields as (H1 & H2 & H3 & H4 & H5).
      split_and!; try assumption.
      * intros H. contradiction.
      * intros _. split; [assumption|]. intros pool Hp.
        destruct (Nat.lt_ge_cases h (length (queue_hw_ctx q))) as [Hlt|Hge].
        -- rewrite hctx_at_store_eq in Hp by assumption. now apply Hpool.
        -- rewrite hctx_at_store_ge in Hp by assumption.
           unfold hctx_at in Hp. rewrite lookup_ge_None_2 in Hp by assumption.
           discriminate.
Qed.

Lemma __blk_mq_requeue_request_spec (q : request_queue) (rq : request) :
  let '(q', rq') := __blk_mq_requeue_request q rq in
  rq_id rq' = rq_id rq /\ mq_ctx rq' = mq_ctx rq /\ requeued q' (tag rq) rq'.
Proof.
  unfold __blk_mq_requeue_request.
  pose proof (blk_mq_put_driver_tag_spec q rq) as Hp.
  pose proof (blk_mq_put_driver_tag_core q rq) as Hc.
  destruct (blk_mq_put_driver_tag q rq) as [q1 rq1]. cbn [fst] in Hc.
  destruct Hp as (Hid & Hmq & Hit & Hfl & _ & Hrel).
  unfold test_and_clear_bit. split; [exact Hid|]. split; [exact Hmq|]. split.
  - cbn [atomic_flags set_atomic_flags]. apply test_bit_clear_bit_same.
  - cbn [internal_tag tag mq_ctx set_atomic_flags]. intros Hne.
    rewrite Hit in Hne. destruct (Hrel Hne) as [Ht Hr]. split; [exact Ht|].
    now rewrite (blk_mq_map_queue_core_same q q1 _ Hc), Hmq.
Qed.

Lemma dispatch_pass_spec {D : Type} (ops : blk_mq_ops D) (jiffies : Z)
    (got_budget : bool) (st : dispatch_state D) (rq : request)
    (nxt : option request) (more : bool) :
  counters_agree st -> is_busy_ret (l_ret st) = false ->
  let '(st', e) := dispatch_pass ops jiffies got_budget st rq nxt more in
  core_same (ds_queue st) (ds_queue st') /\
  counters_agree st' /\
  l_hctx st' = blk_mq_map_queue (ds_queue st) (mq_ctx rq) /\
  match e with
  | Next nxt' =>
      is_busy_ret (l_ret st') = false /\
      l_queued st' + l_errors st' = l_queued st + l_errors st + 1 /\
      option_map rq_id nxt' = option_map rq_id nxt
  | Stop rq' nxt' =>
      l_queued st' + l_errors st' = l_queued st + l_errors st /\
      rq_id rq' = rq_id rq /\ option_map rq_id nxt' = option_map rq_id nxt /\
      (is_busy_ret (l_ret st') = true ->
       exists t, requeued (ds_queue st') t rq' /\
                 ends_with_queue_rq (ds_trace st') (rq_id rq') t (l_ret st'))
  end.
Proof.
  intros [Hq He] Hret. unfold dispatch_pass.
  set (q := ds_queue st). set (h := blk_mq_map_queue q (mq_ctx rq)).
  destruct (if got_budget then (true, ds_driver st)
            else blk_mq_get_dispatch_budget ops (ds_driver st) h) as [budget drv1].
  destruct budget; cbn [negb].
  2: { cbn [ds_queue ds_trace l_hctx l_queued l_errors l_ret].
       split_and!; try assumption; try reflexivity; try apply core_same_refl;
         try (now split).
       intros Hb. congruence. }
  pose proof (blk_mq_get_driver_tag_core q rq) as Hc1.
  pose proof (blk_mq_get_driver_tag_id q rq) as Hid1.
  destruct (blk_mq_get_driver_tag q rq) as [[got rq1] q1]. cbn [fst snd] in Hc1, Hid1.
  assert (Hwait : forall got2 rq2 q2,
            (if got then (true, rq1, q1) else blk_mq_mark_tag_wait q1 h rq1)
              = (got2, rq2, q2) ->
            core_same q q2 /\ rq_id rq2 = rq_id rq).
  { intros got2 rq2 q2 Heq. destruct got.
    - injection Heq as <- <- <-. now split.
    - pose proof (blk_mq_mark_tag_wait_core q1 h rq1) as Hc2.
      pose proof (blk_mq_mark_tag_wait_id q1 h rq1) as Hid2.
      rewrite Heq in Hc2, Hid2. cbn [fst snd] in Hc2, Hid2.
      split; [eapply core_same_trans; eauto|congruence]. }
  destruct (if got then (true, rq1, q1) else blk_mq_mark_tag_wait q1 h rq1)
    as [[got2 rq2] q2].
  destruct (Hwait got2 rq2 q2 eq_refl) as [Hc2 Hid2]. clear Hwait.
  destruct got2; cbn [negb].
  2: { cbn [ds_queue ds_trace l_hctx l_queued l_errors l_ret].
       split_and!; try assumption; try reflexivity; try (now split).
       intros Hb. congruence. }
  assert (Hnxt : forall last nxt1 q3,
            match nxt with
            | None => (true, None, q2)
            | Some n => let '(g, n', q') := blk_mq_get_driver_tag q2 n in
                        (negb g, Some n', q')
            end = (last, nxt1, q3) ->
            core_same q q3 /\ option_map rq_id nxt1 = option_map rq_id nxt).
  { intros last nxt1 q3 Heq. destruct nxt as [n|].
    - pose proof (blk_mq_get_driver_tag_core q2 n) as Hc3.
      pose proof (blk_mq_get_driver_tag_id q2 n) as Hid3.
      destruct (blk_mq_get_driver_tag q2 n) as [[g n'] q']. cbn [fst snd] in Hc3, Hid3.
      injection Heq as <- <- <-. split; [eapply core_same_trans; eauto|].
      simpl. now rewrite Hid3.
    - injection Heq as <- <- <-. now split. }
  destruct (match nxt with
            | None => (true, None, q2)
            | Some n => let '(g, n', q') := blk_mq_get_driver_tag q2 n in
                        (negb g, Some n', q')
            end) as [[last nxt1] q3].
  destruct (Hnxt last nxt1 q3 eq_refl) as [Hc3 Hid3]. clear Hnxt.
  destruct (queue_rq ops drv1 h (mk_bd rq2 (l_dptr st) last)) as [[ret started] drv2].
  assert (Hstart : forall rq3 tr_start,
            (if started then blk_mq_start_request jiffies rq2 else (rq2, []))
              = (rq3, tr_start) ->
            rq_id rq3 = rq_id rq /\ accepted tr_start = 0%nat /\ errored tr_start = 0%nat).
  { intros rq3 tr_start Heq. destruct started.
    - destruct (blk_mq_start_request_trace jiffies rq2) as (Hi & Ha & Hb).
      rewrite Heq in Hi, Ha, Hb. cbn [fst snd] in *. repeat split; congruence.
    - injection Heq as <- <-. now repeat split. }
  destruct (if started then blk_mq_start_request jiffies rq2 else (rq2, []))
    as [rq3 tr_start].
  destruct (Hstart rq3 tr_start eq_refl) as (Hid4 & Hacc & Herr). clear Hstart.
  assert (Hbusy : forall r, is_busy_ret r = true ->
    let '(q4, nxt2) :=
      match nxt1 with
      | None => (q3, None)
      | Some n => let '(q', n') := blk_mq_put_driver_tag q3 n in (q', Some n')
      end in
    let '(q5, rq4) := __blk_mq_requeue_request q4 rq3 in
    let st' := mk_ds q5 drv2
                     (ds_trace st ++ tr_start
                      ++ [Ev_queue_rq (rq_id rq3) (tag rq3) last r])
                     h (l_no_tag st) (l_errors st) (l_queued st) r (l_dptr st) in
    core_same (ds_queue st) (ds_queue st') /\
    counters_agree st' /\
    l_hctx st' = h /\
    l_queued st' + l_errors st' = l_queued st + l_errors st /\
    rq_id rq4 = rq_id rq /\ option_map rq_id nxt2 = option_map rq_id nxt /\
    (is_busy_ret (l_ret st') = true ->
     exists t, requeued (ds_queue st') t rq4 /\
               ends_with_queue_rq (ds_trace st') (rq_id rq4) t (l_ret st'))).
  { intros r Hr.
    assert (Hput : forall q4 nxt2,
              match nxt1 with
              | None => (q3, None)
              | Some n => let '(q', n') := blk_mq_put_driver_tag q3 n in (q', Some n')
              end = (q4, nxt2) ->
              core_same q q4 /\ option_map rq_id nxt2 = option_map rq_id nxt).
    { intros q4 nxt2 Heq. destruct nxt1 as [n|].
      - pose proof (blk_mq_put_driver_tag_core q3 n) as Hc4.
        pose proof (blk_mq_put_driver_tag_spec q3 n) as Hs4.
        destruct (blk_mq_put_driver_tag q3 n) as [q' n']. cbn [fst snd] in Hc4.
        injection Heq as <- <-. split; [eapply core_same_trans; eauto|].
        rewrite <- Hid3. simpl. f_equal. apply Hs4.
      - injection Heq as <- <-. now split. }
    destruct (match nxt1 with
              | None => (q3, None)
              | Some n => let '(q', n') := blk_mq_put_driver_tag q3 n in (q', Some n')
              end) as [q4 nxt2].
    destruct (Hput q4 nxt2 eq_refl) as [Hc4 Hid5]. clear Hput.
    pose proof (__blk_mq_requeue_request_core q4 rq3) as Hc5.
    pose proof (__blk_mq_requeue_request_spec q4 rq3) as Hs5.
    destruct (__blk_mq_requeue_request q4 rq3) as [q5 rq4]. cbn [fst snd] in Hc5.
    destruct Hs5 as (Hid6 & _ & Hreq).
    cbv zeta. cbn [ds_queue ds_trace l_hctx l_queued l_errors l_ret].
    split; [eapply core_same_trans; eauto|].
    split.
    { unfold counters_agree. cbn [ds_trace l_queued l_errors].
      rewrite !accepted_app, !errored_app, Hacc, Herr.
      destruct r; try discriminate; cbn; lia. }
    split_and!; try assumption; try reflexivity; try congruence.
    intros _. exists (tag rq3). split; [assumption|].
    exists (ds_trace st ++ tr_start), last. rewrite Hid6. now rewrite <- app_assoc. }
  destruct ret.
  - (* accepted *)
    cbn [ds_queue ds_trace l_hctx l_queued l_errors l_ret].
    split; [assumption|]. split.
    { unfold counters_agree. cbn [ds_trace l_queued l_errors].
      rewrite !accepted_app, !errored_app, Hacc, Herr. cbn. lia. }
    split_and!; try assumption; try reflexivity. lia.
  - specialize (Hbusy BLK_MQ_RQ_QUEUE_BUSY eq_refl).
    destruct (match nxt1 with
              | None => (q3, None)
              | Some n => let '(q', n') := blk_mq_put_driver_tag q3 n in (q', Some n')
              end) as [q4 nxt2].
    destruct (__blk_mq_requeue_request q4 rq3) as [q5 rq4]. exact Hbusy.
  - (* error *)
    cbn [ds_queue ds_trace l_hctx l_queued l_errors l_ret].
    split; [assumption|]. split.
    { unfold counters_agree. cbn [ds_trace l_queued l_errors].
      rewrite !accepted_app, !errored_app, Hacc, Herr. cbn. lia. }
    split_and!; try assumption; try reflexivity. lia.
  - specialize (Hbusy BLK_MQ_RQ_QUEUE_DEV_BUSY eq_refl).
    destruct (match nxt1 with
              | None => (q3, None)
              | Some n => let '(q', n') := blk_mq_put_driver_tag q3 n in (q', Some n')
              end) as [q4 nxt2].
    destruct (__blk_mq_requeue_request q4 rq3) as [q5 rq4]. exact Hbusy.
  - (* a value outside the enumeration counts as an error *)
    cbn [ds_queue ds_trace l_hctx l_queued l_errors l_ret].
    split; [assumption|]. split.
    { unfold counters_agree. cbn [ds_trace l_queued l_errors].
      rewrite !accepted_app, !errored_app, Hacc, Herr. cbn. lia. }
    split_and!; try assumption; try reflexivity. lia.
Qed.

(** ** Dispatch: the loop *)

Lemma dispatch_loop_spec {D : Type} (ops : blk_mq_ops D) (jiffies : Z)
    (got_budget : bool) (rest : list request) :
  forall (st : dispatch_state D) (rq : request),
  counters_agree st -> is_busy_ret (l_ret st) = false -> map_wf (ds_queue st) ->
  let '(st', rem) := dispatch_loop ops jiffies got_budget st rq rest in
  core_same (ds_queue st) (ds_queue st') /\
  counters_agree st' /\
  l_queued st' + l_errors st' + Z.of_nat (length rem)
    = l_queued st + l_errors st + Z.of_nat (length (rq :: rest)) /\
  (exists k, map rq_id rem = drop k (map rq_id (rq :: rest))) /\
  (rem = [] -> is_busy_ret (l_ret st') = false) /\
  (is_busy_ret (l_ret st') = true ->
   exists r' tl t, rem = r' :: tl /\ requeued (ds_queue st') t r' /\
                   ends_with_queue_rq (ds_trace st') (rq_id r') t (l_ret st')) /\
  (l_hctx st' < length (queue_hw_ctx (ds_queue st')))%nat.
Proof.
  induction rest as [|nxt tl IH]; intros st rq Hagree Hret Hmap.
  - cbn [dispatch_loop].
    pose proof (dispatch_pass_spec ops jiffies got_budget st rq None false Hagree Hret)
      as Hpass.
    destruct (dispatch_pass ops jiffies got_budget st rq None false) as [st' [rq' nxt'|nxt']].
    + destruct Hpass as (Hc & Ha & Hh & Hcnt & Hid & _ & Hbusy).
      split_and!; try assumption.
      * cbn [length]. lia.
      * exists 0%nat. simpl. now rewrite Hid.
      * discriminate.
      * intros Hb. destruct (Hbusy Hb) as (t & Hreq & Hend). now exists rq', [], t.
      * rewrite Hh. destruct Hc as (Hl & _). rewrite Hl. apply Hmap.
    + destruct Hpass as (Hc & Ha & Hh & Hnb & Hcnt & _).
      split_and!; try assumption.
      * cbn [length]. lia.
      * exists 1%nat. reflexivity.
      * intros _. exact Hnb.
      * intros Hb. congruence.
      * rewrite Hh. destruct Hc as (Hl & _). rewrite Hl. apply Hmap.
  - cbn [dispatch_loop].
    pose proof (dispatch_pass_spec ops jiffies got_budget st rq (Some nxt)
                  (negb (bool_decide (tl = []))) Hagree Hret) as Hpass.
    destruct (dispatch_pass ops jiffies got_budget st rq (Some nxt)
                (negb (bool_decide (tl = [])))) as [st' [rq' nxt'|nxt']].
    + destruct Hpass as (Hc & Ha & Hh & Hcnt & Hid & Hidn & Hbusy).
      destruct nxt' as [n'|]; [|discriminate]. injection Hidn as Hidn.
      split_and!; try assumption.
      * cbn [length from_option app]. cbn [length] in *. lia.
      * exists 0%nat. simpl. now rewrite Hid, Hidn.
      * discriminate.
      * intros Hb. destruct (Hbusy Hb) as (t & Hreq & Hend).
        now exists rq', (from_option (fun n => [n]) [] (Some n') ++ tl), t.
      * rewrite Hh. destruct Hc as (Hl & _). rewrite Hl. apply Hmap.
    + destruct Hpass as (Hc & Ha & Hh & Hnb & Hcnt & Hidn).
      destruct nxt' as [n'|]; [|discriminate]. injection Hidn as Hidn.
      specialize (IH st' n' Ha Hnb (map_wf_core_same _ _ Hc Hmap)).
      destruct (dispatch_loop ops jiffies got_budget st' n' tl) as [st'' rem].
      destruct IH as (Hc' & Ha' & Hcnt' & [k Hk] & Hnil & Hbusy' & Hh').
      split_and!; try assumption.
      * eapply core_same_trans; eauto.
      * cbn [length] in *. lia.
      * exists (S k). simpl. simpl in Hk. now rewrite Hk, Hidn.
Qed.

(** ** Dispatch: the busy answer ends the loop *)

Lemma no_queue_rq_no_busy_answer (tr : list event) :
  no_queue_rq tr -> no_busy_answer tr.
Proof.
  unfold no_queue_rq, no_busy_answer. intros H.
  eapply Forall_impl; [exact H|]. intros e. now destruct e.
Qed.

Lemma no_busy_answer_app (tr1 tr2 : list event) :
  no_busy_answer tr1 -> no_busy_answer tr2 -> no_busy_answer (tr1 ++ tr2).
Proof. unfold no_busy_answer. intros H1 H2. apply Forall_app. now split. Qed.

Lemma busy_answer_last_app (tr tr' : list event) (ret : queue_rq_ret) :
  busy_answer_last tr ret -> no_queue_rq tr' -> busy_answer_last (tr ++ tr') ret.
Proof.
  intros (tr0 & id & t & last & tr_run & -> & Hnb & Hnq) Hnq'.
  exists tr0, id, t, last, (tr_run ++ tr'). split_and!; try assumption.
  - now rewrite <- !app_assoc.
  - apply Forall_app. now split.
Qed.

(** The last call of [queue_rq] in a trace is found in one way only. *)
Lemma last_queue_rq_unique (a a' b b' : list event) (id id' : nat) (t t' : Z)
    (last last' : bool) (ret ret' : queue_rq_ret) :
  a ++ [Ev_queue_rq id t last ret] ++ b = a' ++ [Ev_queue_rq id' t' last' ret'] ++ b' ->
  no_queue_rq b -> no_queue_rq b' ->
  a = a' /\ Ev_queue_rq id t last ret = Ev_queue_rq id' t' last' ret' /\ b = b'.
Proof.
  intros Heq Hb Hb'. revert a' Heq.
  assert (Hin : forall (l1 l2 : list event) i x y z,
            no_queue_rq (l1 ++ Ev_queue_rq i x y z :: l2) -> False).
  { intros l1 l2 i x y z H. apply Forall_app in H as [_ H].
    apply Forall_cons in H as [H _]. exact H. }
  induction a as [|x a IH]; intros [|y a'] Heq; cbn [app] in Heq.
  - injection Heq as -> -> -> -> ->. now split_and!.
  - injection Heq as <- ->. exfalso. exact (Hin _ _ _ _ _ _ Hb).
  - injection Heq as -> <-. exfalso. exact (Hin _ _ _ _ _ _ Hb').
  - injection Heq as -> Heq. destruct (IH a' Heq) as (-> & He & ->).
    now split_and!.
Qed.

(** A pass that reaches the loop condition got no busy answer; a pass that
    breaks out either got one, which [ret] holds, or did not call the
    driver. *)
Lemma dispatch_pass_busy_answer {D : Type} (ops : blk_mq_ops D) (jiffies : Z)
    (got_budget : bool) (st : dispatch_state D) (rq : request)
    (nxt : option request) (more : bool) :
  no_busy_answer (ds_trace st) ->
  let '(st', e) := dispatch_pass ops jiffies got_budget st rq nxt more in
  match e with
  | Next _ => no_busy_answer (ds_trace st')
  | Stop _ _ =>
      (is_busy_ret (l_ret st') = true /\ busy_answer_last (ds_trace st') (l_ret st'))
      \/ no_busy_answer (ds_trace st')
  end.
Proof.
  intros Hnb. unfold dispatch_pass.
  destruct (if got_budget then (true, ds_driver st)
            else blk_mq_get_dispatch_budget ops (ds_driver st) _) as [budget drv1].
  destruct budget; cbn [negb]; [|now right].
  destruct (blk_mq_get_driver_tag (ds_queue st) rq) as [[got rq1] q1].
  destruct (if got then (true, rq1, q1) else blk_mq_mark_tag_wait q1 _ rq1)
    as [[got2 rq2] q2].
  destruct got2; cbn [negb]; [|now right].
  destruct (match nxt with
            | None => (true, None, q2)
            | Some n => let '(g, n', q') := blk_mq_get_driver_tag q2 n in
                        (negb g, Some n', q')
            end) as [[last nxt1] q3].
  destruct (queue_rq ops drv1 _ (mk_bd rq2 (l_dptr st) last)) as [[ret started] drv2].
  assert (Hstart : no_busy_answer
                     (snd (if started then blk_mq_start_request jiffies rq2
                           else (rq2, [])))).
  { destruct started; [|constructor]. unfold blk_mq_start_request, blk_add_timer.
    cbn [snd]. repeat constructor. }
  destruct (if started then blk_mq_start_request jiffies rq2 else (rq2, []))
    as [rq3 tr_start]. cbn [snd] in Hstart.
  assert (Hbusy : forall r,
            busy_answer_last
              (ds_trace st ++ tr_start ++ [Ev_queue_rq (rq_id rq3) (tag rq3) last r]) r).
  { intros r. exists (ds_trace st ++ tr_start), (rq_id rq3), (tag rq3), last, [].
    split_and!.
    - now rewrite app_nil_r, <- app_assoc.
    - now apply no_busy_answer_app.
    - constructor. }
  destruct ret.
  - cbn [ds_trace]. repeat apply no_busy_answer_app; try assumption.
    repeat constructor.
  - destruct (match nxt1 with
              | None => (q3, None)
              | Some n => let '(q', n') := blk_mq_put_driver_tag q3 n in (q', Some n')
              end) as [q4 nxt2].
    destruct (__blk_mq_requeue_request q4 rq3) as [q5 rq4]. left.
    cbn [l_ret ds_trace]. split; [reflexivity|apply Hbusy].
  - cbn [ds_trace]. repeat apply no_busy_answer_app; try assumption;
      repeat constructor.
  - destruct (match nxt1 with
              | None => (q3, None)
              | Some n => let '(q', n') := blk_mq_put_driver_tag q3 n in (q', Some n')
              end) as [q4 nxt2].
    destruct (__blk_mq_requeue_request q4 rq3) as [q5 rq4]. left.
    cbn [l_ret ds_trace]. split; [reflexivity|apply Hbusy].
  - cbn [ds_trace]. repeat apply no_busy_answer_app; try assumption;
      repeat constructor.
Qed.

Lemma dispatch_loop_busy_answer {D : Type} (ops : blk_mq_ops D) (jiffies : Z)
    (got_budget : bool) (rest : list request) :
  forall (st : dispatch_state D) (rq : request),
  no_busy_answer (ds_trace st) ->
  let '(st', _) := dispatch_loop ops jiffies got_budget st rq rest in
  (is_busy_ret (l_ret st') = true /\ busy_answer_last (ds_trace st') (l_ret st'))
  \/ no_busy_answer (ds_trace st').
Proof.
  induction rest as [|nxt tl IH]; intros st rq Hnb; cbn [dispatch_loop].
  - pose proof (dispatch_pass_busy_answer ops jiffies got_budget st rq None false Hnb)
      as Hpass.
    destruct (dispatch_pass ops jiffies got_budget st rq None false)
      as [st' [rq' nxt'|nxt']]; [exact Hpass|now right].
  - pose proof (dispatch_pass_busy_answer ops jiffies got_budget st rq (Some nxt)
                  (negb (bool_decide (tl = []))) Hnb) as Hpass.
    destruct (dispatch_pass ops jiffies got_budget st rq (Some nxt)
                (negb (bool_decide (tl = [])))) as [st' [rq' nxt'|[n'|]]].
    + exact Hpass.
    + now apply IH.
    + now right.
Qed.

(** ** Dispatch: the whole call *)

Lemma __blk_mq_delay_run_hw_queue_trace (hctx : blk_mq_hw_ctx) (h cpu : nat)
    (async : bool) (msecs : Z) :
  let tr := __blk_mq_delay_run_hw_queue hctx h cpu async msecs in
  accepted tr = 0%nat /\ errored tr = 0%nat /\ no_queue_rq tr.
Proof.
  cbv zeta. unfold __blk_mq_delay_run_hw_queue, no_queue_rq.
  destruct (blk_mq_hctx_stopped hctx || negb (blk_mq_hw_queue_mapped hctx)).
  - split_and!; try reflexivity. constructor.
  - destruct (negb async && negb (flag_blocking hctx) && bool_decide (cpu ∈ ctxs hctx));
      split_and!; try reflexivity; repeat constructor.
Qed.

Lemma blk_mq_run_hw_queue_trace (q : request_queue) (h cpu : nat) (async : bool) :
  let tr := snd (blk_mq_run_hw_queue q h cpu async) in
  accepted tr = 0%nat /\ errored tr = 0%nat /\ no_queue_rq tr.
Proof.
  cbv zeta. unfold blk_mq_run_hw_queue.
  destruct (negb (queue_flag_quiesced q) && blk_mq_hctx_has_pending (hctx_at q h)).
  - apply __blk_mq_delay_run_hw_queue_trace.
  - cbn [snd]. split_and!; try reflexivity. constructor.
Qed.

Lemma blk_mq_update_dispatch_busy_core (e : bool) (hctx : blk_mq_hw_ctx) (busy : bool) :
  dispatch (blk_mq_update_dispatch_busy e hctx busy) = dispatch hctx /\
  dispatched (blk_mq_update_dispatch_busy e hctx busy) = dispatched hctx /\
  tags (blk_mq_update_dispatch_busy e hctx busy) = tags hctx.
Proof.
  unfold blk_mq_update_dispatch_busy. destruct e; [now split|].
  destruct ((dispatch_busy hctx =? 0) && negb busy); now split.
Qed.

(** The new busy estimate depends on the old estimate only. *)
Lemma blk_mq_update_dispatch_busy_value (e : bool) (hctx hctx' : blk_mq_hw_ctx)
    (busy : bool) :
  dispatch_busy hctx = dispatch_busy hctx' ->
  dispatch_busy (blk_mq_update_dispatch_busy e hctx busy)
  = dispatch_busy (blk_mq_update_dispatch_busy e hctx' busy).
Proof.
  intros H. unfold blk_mq_update_dispatch_busy. destruct e; [exact H|].
  rewrite H. destruct ((dispatch_busy hctx' =? 0) && negb busy); [exact H|reflexivity].
Qed.

Lemma hctx_core_fields (a b : blk_mq_hw_ctx) :
  hctx_core a = hctx_core b ->
  dispatch a = dispatch b /\ dispatch_busy a = dispatch_busy b /\
  dispatched a = dispatched b.
Proof. unfold hctx_core. intros H. injection H. auto. Qed.

Lemma requeued_ext (q q' : request_queue) (t : Z) (rq : request) :
  mq_map q' = mq_map q -> (forall h, tags (hctx_at q' h) = tags (hctx_at q h)) ->
  requeued q t rq -> requeued q' t rq.
Proof.
  intros Hm Ht [Hs Hr]. split; [exact Hs|]. intros Hi.
  destruct (Hr Hi) as [Htag Hrel]. split; [exact Htag|].
  intros pool Hp. apply Hrel. rewrite <- Ht.
  unfold blk_mq_map_queue in *. now rewrite <- Hm.
Qed.

Lemma store_hctx_tags (q : request_queue) (h : nat) (v : blk_mq_hw_ctx) :
  tags v = tags (hctx_at q h) ->
  forall h', tags (hctx_at (store_hctx h v q) h') = tags (hctx_at q h').
Proof.
  intros Hv h'. destruct (Nat.eq_dec h h') as [<-|Hne].
  - destruct (Nat.lt_ge_cases h (length (queue_hw_ctx q))) as [Hlt|Hge].
    + now rewrite hctx_at_store_eq.
    + now rewrite hctx_at_store_ge.
  - now rewrite hctx_at_store_ne.
Qed.

(** What a call of [blk_mq_dispatch_rq_list] on a non-empty batch leaves
    behind.  [rem] are the requests it did not dispatch. *)
Lemma blk_mq_dispatch_rq_list_spec {D : Type} (ops : blk_mq_ops D) (jiffies : Z)
    (cpu : nat) (q : request_queue) (drv : D) (batch : list request)
    (got_budget : bool) :
  map_wf q -> batch <> [] ->
  let '(ret, st, out) :=
    blk_mq_dispatch_rq_list ops jiffies cpu q drv batch got_budget in
  let h := l_hctx st in
  exists rem k,
    out = [] /\
    map rq_id rem = drop k (map rq_id batch) /\
    (accepted (ds_trace st) + errored (ds_trace st) + length rem = length batch)%nat /\
    (h < length (queue_hw_ctx q))%nat /\
    dispatch (hctx_at (ds_queue st) h) = rem ++ dispatch (hctx_at q h) /\
    (forall h', h' <> h ->
       dispatch (hctx_at (ds_queue st) h') = dispatch (hctx_at q h')) /\
    dispatch_busy (hctx_at (ds_queue st) h)
      = dispatch_busy (blk_mq_update_dispatch_busy (elevator q) (hctx_at q h)
                                                   (negb (bool_decide (rem = [])))) /\
    (ret = true <-> rem = []) /\
    (is_busy_ret (l_ret st) = true ->
     exists r' tl t tr0 last tr_run,
       rem = r' :: tl /\ requeued (ds_queue st) t r' /\
       ds_trace st = tr0 ++ [Ev_queue_rq (rq_id r') t last (l_ret st)] ++ tr_run /\
       no_queue_rq tr_run).
Proof.
  intros Hmap Hne. destruct batch as [|rq rest]; [congruence|]. clear Hne.
  unfold blk_mq_dispatch_rq_list.
  set (st0 := mk_ds q drv [] 0%nat false 0 0 BLK_MQ_RQ_QUEUE_OK false).
  pose proof (dispatch_loop_spec ops jiffies got_budget rest st0 rq) as Hloop.
  destruct (dispatch_loop ops jiffies got_budget st0 rq rest) as [st rem].
  destruct Hloop as (Hc & [Haq Hae] & Hcnt & [k Hk] & Hnil & Hbusy & Hh);
    [now split|reflexivity|exact Hmap|].
  cbn [ds_queue ds_trace l_queued l_errors st0] in Hc, Hcnt.
  set (h := l_hctx st) in *. set (ql := ds_queue st) in *.
  pose proof Hc as (Hlen & Hmm & Hel & Hqq & Hcore).
  assert (Hh0 : (h < length (queue_hw_ctx q))%nat) by lia.
  set (q1 := store_hctx h (count_dispatched (l_queued st) (hctx_at ql h)) ql).
  assert (Hq1 : hctx_at q1 h = count_dispatched (l_queued st) (hctx_at ql h))
    by (apply hctx_at_store_eq; assumption).
  assert (Ht1 : forall h', tags (hctx_at q1 h') = tags (hctx_at ql h'))
    by (apply store_hctx_tags; reflexivity).
  destruct (hctx_core_fields _ _ (Hcore h)) as (Hd & Hb & _).
  assert (Hother : forall (v : blk_mq_hw_ctx) (q' : request_queue) h',
            h' <> h -> hctx_at q' h' = hctx_at ql h' ->
            dispatch (hctx_at (store_hctx h v q') h') = dispatch (hctx_at q h')).
  { intros v q' h' Hh' Hq'. rewrite hctx_at_store_ne by congruence. rewrite Hq'.
    now destruct (hctx_core_fields _ _ (Hcore h')). }
  destruct rem as [|r rem'].
  - (* everything went to the driver *)
    replace (negb (bool_decide (@nil request = []))) with false by reflexivity.
    cbn iota.
    assert (Hnb : is_busy_ret (l_ret st) = false) by now apply Hnil.
    rewrite Hnb.
    exists [], k. cbn [set_ds_core ds_queue ds_trace l_hctx l_ret length].
    fold h.
    assert (Hq2 : (h < length (queue_hw_ctx q1))%nat)
      by (unfold q1; rewrite store_hctx_length; lia).
    rewrite hctx_at_store_eq by assumption.
    destruct (blk_mq_update_dispatch_busy_core (elevator q1) (hctx_at q1 h) false)
      as (Hud & _).
    split_and!; try assumption; try reflexivity.
    + cbn [length] in Hcnt. lia.
    + rewrite Hud, Hq1. unfold count_dispatched. simpl. exact Hd.
    + intros h' Hh'. apply Hother; [assumption|].
      unfold q1. now rewrite hctx_at_store_ne by congruence.
    + replace (elevator q1) with (elevator q) by (unfold q1; simpl; congruence).
      apply blk_mq_update_dispatch_busy_value. rewrite Hq1. exact Hb.
    + split; [reflexivity|]. intros _.
      apply negb_true_iff. apply Z.eqb_neq. cbn [length] in Hcnt. lia.
    + intros Hbz. congruence.
  - (* requests are left: they go to the dispatch list *)
    replace (negb (bool_decide (r :: rem' = []))) with true by reflexivity.
    cbn iota.
    set (q2 := store_hctx h (set_dispatch (list_splice (r :: rem') (dispatch (hctx_at q1 h)))
                                          (hctx_at q1 h)) q1).
    set (tr := if negb (state_sched_restart (hctx_at q2 h))
                  || (l_no_tag st && negb (dispatch_wait_queued (hctx_at q2 h)))
               then snd (blk_mq_run_hw_queue q2 h cpu true)
               else if state_sched_restart (hctx_at q2 h) && is_queue_busy (l_ret st)
                    then blk_mq_delay_run_hw_queue (hctx_at q2 h) h cpu BLK_MQ_RESOURCE_DELAY
                    else []).
    assert (Htr : accepted tr = 0%nat /\ errored tr = 0%nat /\ no_queue_rq tr).
    { subst tr. destruct (negb _ || _).
      - apply blk_mq_run_hw_queue_trace.
      - destruct (_ && _).
        + apply __blk_mq_delay_run_hw_queue_trace.
        + split_and!; try reflexivity. constructor. }
    destruct Htr as (Hta & Hte & Htq).
    exists (r :: rem'), k. cbn [set_ds_core ds_queue ds_trace l_hctx l_ret].
    fold h.
    assert (Hl1 : (h < length (queue_hw_ctx q1))%nat)
      by (unfold q1; rewrite store_hctx_length; lia).
    assert (Hl2 : (h < length (queue_hw_ctx q2))%nat)
      by (unfold q2, q1; rewrite !store_hctx_length; lia).
    assert (Hq2 : hctx_at q2 h
                  = set_dispatch (list_splice (r :: rem') (dispatch (hctx_at q1 h)))
                                 (hctx_at q1 h))
      by (apply hctx_at_store_eq; assumption).
    assert (Ht2 : forall h', tags (hctx_at q2 h') = tags (hctx_at ql h')).
    { intros h'. unfold q2. rewrite store_hctx_tags by reflexivity. apply Ht1. }
    destruct (blk_mq_update_dispatch_busy_core (elevator q2) (hctx_at q2 h) true)
      as (Hud & _ & Hut).
    assert (Ht3 : forall h', tags (hctx_at (store_hctx h (blk_mq_update_dispatch_busy
                                 (elevator q2) (hctx_at q2 h) true) q2) h')
                             = tags (hctx_at ql h')).
    { intros h'. rewrite store_hctx_tags by exact Hut. apply Ht2. }
    rewrite hctx_at_store_eq by assumption.
    split_and!; try assumption; try reflexivity.
    + rewrite accepted_app, errored_app, Hta, Hte. cbn [length] in *. lia.
    + rewrite Hud, Hq2, Hq1. unfold count_dispatched, list_splice. simpl.
      now rewrite Hd.
    + intros h' Hh'. apply Hother; [assumption|].
      unfold q2, q1. now rewrite !hctx_at_store_ne by congruence.
    + replace (elevator q2) with (elevator q) by (unfold q2, q1; simpl; congruence).
      apply blk_mq_update_dispatch_busy_value. rewrite Hq2, Hq1. exact Hb.
    + split; discriminate.
    + intros Hbz. destruct (Hbusy Hbz) as (r' & tl & t & Hrem & Hreq & tr0 & last & Hend).
      exists r', tl, t, tr0, last, tr. split_and!; try assumption.
      * apply (requeued_ext ql); [reflexivity|exact Ht3|exact Hreq].
      * rewrite Hend. now rewrite <- app_assoc.
Qed.

(** If the driver answered busy to a request, this was its last answer and
    its only busy one, and it is what [ret] holds when
    [blk_mq_dispatch_rq_list] returns. *)
Lemma blk_mq_dispatch_rq_list_busy_answer {D : Type} (ops : blk_mq_ops D)
    (jiffies : Z) (cpu : nat) (q : request_queue) (drv : D)
    (batch : list request) (got_budget : bool) :
  let '(_, st, _) :=
    blk_mq_dispatch_rq_list ops jiffies cpu q drv batch got_budget in
  (is_busy_ret (l_ret st) = true /\ busy_answer_last (ds_trace st) (l_ret st))
  \/ no_busy_answer (ds_trace st).
Proof.
  destruct batch as [|rq rest]; [right; constructor|].
  unfold blk_mq_dispatch_rq_list.
  set (st0 := mk_ds q drv [] 0%nat false 0 0 BLK_MQ_RQ_QUEUE_OK false).
  pose proof (dispatch_loop_busy_answer ops jiffies got_budget rest st0 rq) as Hloop.
  destruct (dispatch_loop ops jiffies got_budget st0 rq rest) as [st rem].
  specialize (Hloop ltac:(constructor)).
  destruct (negb (bool_decide (rem = []))).
  - cbn [set_ds_core l_ret ds_trace].
    match goal with
    | |- context [ds_trace st ++ ?tr] => assert (Htr : no_queue_rq tr)
    end.
    { destruct (negb _ || _).
      - apply blk_mq_run_hw_queue_trace.
      - destruct (_ && _); [apply __blk_mq_delay_run_hw_queue_trace|constructor]. }
    destruct Hloop as [[Hb Hlast]|Hnb]; [left|right].
    + split; [exact Hb|]. now apply busy_answer_last_app.
    + apply no_busy_answer_app; [exact Hnb|].
      now apply no_queue_rq_no_busy_answer.
  - destruct (is_busy_ret (l_ret st)) in |- *; cbn [set_ds_core l_ret ds_trace];
      exact Hloop.
Qed.

Lemma example_queue_map_wf : map_wf example_queue.
Proof.
  intros cpu. unfold blk_mq_map_queue. simpl.
  destruct cpu as [|cpu]; simpl; lia.
Qed.

(** ** Dispatch: progress, busy and the busy estimate *)

(** C1, as stated, fails: the driver accepts the first of three requests and
    reports busy for the second; one request was accepted, requests 2 and 3
    are back on the dispatch list with request 2 first, and the dispatcher
    returns false. *)
Lemma blk_mq_dispatch_rq_list_progress_counterexample :
  let '(ret, st, _) :=
    blk_mq_dispatch_rq_list busy_on_second 1000 0 example_queue 0%nat
                            example_batch false in
  accepted (ds_trace st) = 1%nat /\
  map rq_id (dispatch (hctx_at (ds_queue st) 0)) = [2%nat; 3%nat] /\
  ~ (ret = true <-> (1 <= accepted (ds_trace st) + errored (ds_trace st))%nat).
Proof.
  vm_compute. split; [reflexivity|]. split; [reflexivity|].
  intros [_ H]. specialize (H (le_n 1)). discriminate.
Qed.

(** C1, amended: [blk_mq_dispatch_rq_list] returns true if and only if the
    batch is not empty and every request of it was accepted by the driver or
    finalized with an error, none being left for the dispatch list.  In
    particular, when the driver reports busy for a request, also after it
    accepted earlier ones, the dispatcher returns false; the busy answer is
    the last answer the driver gave and its only busy one; and the request
    it refused and the requests of the batch after it, that is the batch
    without the requests accepted or finalized with an error before, are
    back at the front of the dispatch list of the hardware queue, in their
    order, the refused request first. *)
Theorem blk_mq_dispatch_rq_list_progress {D : Type} (ops : blk_mq_ops D)
    (jiffies : Z) (cpu : nat) (q : request_queue) (drv : D)
    (batch : list request) (got_budget : bool) :
  map_wf q ->
  let '(ret, st, _) :=
    blk_mq_dispatch_rq_list ops jiffies cpu q drv batch got_budget in
  (ret = true <->
   batch <> [] /\
   (accepted (ds_trace st) + errored (ds_trace st))%nat = length batch) /\
  (forall id t last answer,
     In (Ev_queue_rq id t last answer) (ds_trace st) ->
     is_busy_ret answer = true ->
     exists r' tl tr0 tr_run,
       ret = false /\
       rq_id r' = id /\
       ds_trace st = tr0 ++ [Ev_queue_rq id t last answer] ++ tr_run /\
       no_busy_answer tr0 /\ no_queue_rq tr_run /\
       map rq_id (r' :: tl)
         = drop (accepted (ds_trace st) + errored (ds_trace st)) (map rq_id batch) /\
       dispatch (hctx_at (ds_queue st) (l_hctx st))
         = (r' :: tl) ++ dispatch (hctx_at q (l_hctx st))).
Proof.
  intros Hmap. destruct batch as [|rq rest].
  - simpl. split; [|intros id t last answer []].
    split; [discriminate|]. intros [H _]. congruence.
  - pose proof (blk_mq_dispatch_rq_list_spec ops jiffies cpu q drv (rq :: rest)
                  got_budget Hmap) as Hspec.
    pose proof (blk_mq_dispatch_rq_list_busy_answer ops jiffies cpu q drv (rq :: rest)
                  got_budget) as Hlast.
    destruct (blk_mq_dispatch_rq_list ops jiffies cpu q drv (rq :: rest) got_budget)
      as [[ret st] out].
    destruct Hspec as (rem & k & _ & Hk & Hcnt & _ & Hdisp & _ & _ & Hret & Hbusy);
      [discriminate|].
    split.
    + rewrite Hret. split.
      * intros ->. split; [discriminate|]. simpl in *. lia.
      * intros [_ Heq]. destruct rem; [reflexivity|]. simpl in *. lia.
    + intros id t last answer Hin Hanswer.
      destruct Hlast as [[Hb (tr0 & id1 & t1 & last1 & tr_run & Htr & Hnb & Hnq)]|Hnb].
      2: { exfalso. unfold no_busy_answer in Hnb.
           rewrite List.Forall_forall in Hnb. specialize (Hnb _ Hin).
           cbn in Hnb. congruence. }
      assert (Hev : Ev_queue_rq id1 t1 last1 (l_ret st) = Ev_queue_rq id t last answer).
      { rewrite Htr in Hin. apply in_app_or in Hin as [Hin|[Heq|Hin]].
        - exfalso. unfold no_busy_answer in Hnb.
          rewrite List.Forall_forall in Hnb. specialize (Hnb _ Hin).
          cbn in Hnb. congruence.
        - exact Heq.
        - exfalso. unfold no_queue_rq in Hnq.
          rewrite List.Forall_forall in Hnq. exact (Hnq _ Hin). }
      injection Hev as -> -> -> Hl.
      destruct (Hbusy Hb) as (r' & tl & t' & tr0' & last' & tr_run' & Hrem & _ & Htr' & Hnq').
      rewrite Htr in Htr'.
      apply last_queue_rq_unique in Htr' as (_ & [= Hid _ _] & _);
        [|assumption|assumption].
      subst rem. exists r', tl, tr0, tr_run.
      assert (Hlen : length (r' :: tl) = (length (rq :: rest) - k)%nat).
      { rewrite <- (length_map rq_id (r' :: tl)), Hk, length_drop.
        now rewrite length_map. }
      assert (Hkeq : (accepted (ds_trace st) + errored (ds_trace st))%nat = k).
      { cbn [length] in Hlen, Hcnt. lia. }
      rewrite Hkeq, <- Hl. split_and!; try assumption.
      * destruct ret; [|reflexivity].
        assert (H : r' :: tl = []) by now apply Hret. discriminate.
      * now symmetry.
Qed.

Lemma blk_mq_dispatch_rq_list_progress_witness :
  map_wf example_queue /\
  In (Ev_queue_rq 2 1 false BLK_MQ_RQ_QUEUE_BUSY)
     (ds_trace (snd (fst (blk_mq_dispatch_rq_list
                            busy_on_second 1000 0 example_queue 0%nat
                            example_batch false)))) /\
  fst (fst (blk_mq_dispatch_rq_list busy_on_second 1000 0 example_queue 0%nat
                                    example_batch false)) = false /\
  exists r' tl,
    map rq_id (r' :: tl) = [2%nat; 3%nat] /\
    dispatch (hctx_at (ds_queue (snd (fst (blk_mq_dispatch_rq_list
                                             busy_on_second 1000 0 example_queue
                                             0%nat example_batch false)))) 0)
    = (r' :: tl) ++ dispatch (hctx_at example_queue 0).
Proof.
  split; [exact example_queue_map_wf|].
  assert (Hin : In (Ev_queue_rq 2 1 false BLK_MQ_RQ_QUEUE_BUSY)
                   (ds_trace (snd (fst (blk_mq_dispatch_rq_list
                                          busy_on_second 1000 0 example_queue 0%nat
                                          example_batch false)))))
    by (vm_compute; tauto).
  split; [exact Hin|].
  generalize (blk_mq_dispatch_rq_list_progress busy_on_second 1000 0 example_queue
                0%nat example_batch false example_queue_map_wf) Hin.
  destruct (blk_mq_dispatch_rq_list busy_on_second 1000 0 example_queue 0%nat
              example_batch false) as [[ret st] out] eqn:E.
  vm_compute in E. injection E as <- <- <-. intros [_ H] Hin'.
  destruct (H _ _ _ _ Hin' eq_refl)
    as (r' & tl & tr0 & tr_run & _ & _ & _ & _ & _ & Hids & Hd).
  split; [reflexivity|]. exists r', tl. split; [exact Hids|exact Hd].
Defined.

(** C3: when the driver returns busy, [blk_mq_dispatch_rq_list] stops the
    loop (no request goes to the driver after the busy answer) and returns
    false; the request the driver refused went through
    [__blk_mq_requeue_request], which for a request holding a scheduler tag
    gives back the driver tag acquired for it (the request holds none any
    more and the tag it was submitted with is free in the pool of its
    hardware queue); the refused request is first among the undispatched
    requests, which are the rest of the batch in their order, and all of
    them are spliced onto the front of the dispatch list of the hardware
    queue. *)
Theorem blk_mq_dispatch_rq_list_busy {D : Type} (ops : blk_mq_ops D)
    (jiffies : Z) (cpu : nat) (q : request_queue) (drv : D)
    (batch : list request) (got_budget : bool) :
  map_wf q ->
  let '(ret, st, out) :=
    blk_mq_dispatch_rq_list ops jiffies cpu q drv batch got_budget in
  is_busy_ret (l_ret st) = true ->
  exists r' tl t k tr0 last tr_run,
    ret = false /\ out = [] /\
    ds_trace st = tr0 ++ [Ev_queue_rq (rq_id r') t last (l_ret st)] ++ tr_run /\
    no_queue_rq tr_run /\
    test_bit REQ_ATOM_STARTED (atomic_flags r') = false /\
    (internal_tag r' <> -1 ->
     tag r' = -1 /\
     tag_released (ds_queue st) (blk_mq_map_queue (ds_queue st) (mq_ctx r')) t) /\
    map rq_id (r' :: tl) = drop k (map rq_id batch) /\
    (accepted (ds_trace st) + errored (ds_trace st) + length (r' :: tl)
     = length batch)%nat /\
    dispatch (hctx_at (ds_queue st) (l_hctx st))
      = (r' :: tl) ++ dispatch (hctx_at q (l_hctx st)).
Proof.
  intros Hmap. destruct batch as [|rq rest].
  - simpl. discriminate.
  - pose proof (blk_mq_dispatch_rq_list_spec ops jiffies cpu q drv (rq :: rest)
                  got_budget Hmap) as Hspec.
    destruct (blk_mq_dispatch_rq_list ops jiffies cpu q drv (rq :: rest) got_budget)
      as [[ret st] out].
    destruct Hspec as (rem & k & Hout & Hk & Hcnt & _ & Hdisp & _ & _ & Hret & Hbusy);
      [discriminate|].
    intros Hb.
    destruct (Hbusy Hb) as (r' & tl & t & tr0 & last & tr_run & Hrem & [Hs Hrel] & Htr & Hnq).
    subst rem. exists r', tl, t, k, tr0, last, tr_run.
    split_and!; try assumption.
    destruct ret; [|reflexivity].
    assert (H : r' :: tl = []) by now apply Hret. discriminate.
Qed.

Lemma example_sched_queue_map_wf : map_wf example_sched_queue.
Proof.
  intros cpu. unfold blk_mq_map_queue. simpl.
  destruct cpu as [|cpu]; simpl; [lia|]. destruct cpu; simpl; lia.
Qed.

Lemma blk_mq_dispatch_rq_list_busy_witness :
  map_wf example_sched_queue /\
  is_busy_ret (l_ret (snd (fst (blk_mq_dispatch_rq_list
                                  busy_on_second 1000 0 example_sched_queue 0%nat
                                  example_sched_batch false)))) = true /\
  exists r' tl t,
    dispatch (hctx_at (ds_queue (snd (fst (blk_mq_dispatch_rq_list
                                             busy_on_second 1000 0
                                             example_sched_queue 0%nat
                                             example_sched_batch false)))) 0)
    = (r' :: tl) ++ dispatch (hctx_at example_sched_queue 0) /\
    rq_id r' = 2%nat /\ tag r' = -1 /\
    tag_released (ds_queue (snd (fst (blk_mq_dispatch_rq_list
                                        busy_on_second 1000 0
                                        example_sched_queue 0%nat
                                        example_sched_batch false))))
                 0 t.
Proof.
  split; [exact example_sched_queue_map_wf|]. split; [reflexivity|].
  generalize (blk_mq_dispatch_rq_list_busy busy_on_second 1000 0
                example_sched_queue 0%nat example_sched_batch false
                example_sched_queue_map_wf).
  destruct (blk_mq_dispatch_rq_list busy_on_second 1000 0 example_sched_queue
              0%nat example_sched_batch false) as [[ret st] out] eqn:E.
  vm_compute in E. injection E as <- <- <-. intros H.
  destruct (H eq_refl) as (r' & tl & t & k & tr0 & last & tr_run & _ & _ & _ & _ & _
                           & Hrel & _ & _ & Hd).
  exists r', tl, t. split; [exact Hd|].
  injection Hd as Hr _. subst r'.
  destruct Hrel as (Htag & Hfree); [discriminate|].
  split; [reflexivity|]. split; [reflexivity|]. exact Hfree.
Defined.

(** ** The busy estimate *)

Lemma busy_estimate_bound (e : Z) : busy_estimate e -> 0 <= e <= 16.
Proof.
  induction 1 as [|hctx busy _ IH]; [lia|].
  unfold blk_mq_update_dispatch_busy.
  destruct ((dispatch_busy hctx =? 0) && negb busy); [exact IH|].
  cbn [dispatch_busy set_dispatch_busy].
  unfold uint, UINT_MODULUS, BLK_MQ_DISPATCH_BUSY_EWMA_WEIGHT,
    BLK_MQ_DISPATCH_BUSY_EWMA_FACTOR.
  change (2 ^ 32) with 4294967296. change (Z.shiftl 1 4) with 16.
  destruct busy; Z.div_mod_to_equations; lia.
Qed.

Lemma blk_mq_update_dispatch_busy_ewma (hctx : blk_mq_hw_ctx) (busy : bool) :
  0 <= dispatch_busy hctx <= 16 ->
  dispatch_busy (blk_mq_update_dispatch_busy false hctx busy)
  = (dispatch_busy hctx * (8 - 1) + (if busy then 16 else 0)) / 8.
Proof.
  intros Hb. unfold blk_mq_update_dispatch_busy.
  destruct (Z.eqb_spec (dispatch_busy hctx) 0) as [H0|H0]; destruct busy; cbn [andb negb].
  4: { cbn [dispatch_busy set_dispatch_busy].
       unfold uint, UINT_MODULUS, BLK_MQ_DISPATCH_BUSY_EWMA_WEIGHT.
       change (2 ^ 32) with 4294967296.
       Z.div_mod_to_equations; lia. }
  3: { cbn [dispatch_busy set_dispatch_busy].
       unfold uint, UINT_MODULUS, BLK_MQ_DISPATCH_BUSY_EWMA_WEIGHT,
         BLK_MQ_DISPATCH_BUSY_EWMA_FACTOR.
       change (2 ^ 32) with 4294967296. change (Z.shiftl 1 4) with 16.
       Z.div_mod_to_equations; lia. }
  2: { rewrite H0. reflexivity. }
  cbn [dispatch_busy set_dispatch_busy]. rewrite H0. reflexivity.
Qed.

(** C8: on a queue without I/O scheduler, whenever
    [blk_mq_update_dispatch_busy] is applied to a value the busy estimate can
    take, the new estimate is (old * (8 - 1) + (busy ? 16 : 0)) / 8; and after
    a dispatch of a non-empty batch the estimate of the hardware queue is that
    value with busy = true exactly when requests were left undispatched. *)
Theorem dispatch_busy_ewma :
  (forall (hctx : blk_mq_hw_ctx) (busy : bool),
     busy_estimate (dispatch_busy hctx) ->
     dispatch_busy (blk_mq_update_dispatch_busy false hctx busy)
     = (dispatch_busy hctx * (8 - 1) + (if busy then 16 else 0)) / 8) /\
  (forall (D : Type) (ops : blk_mq_ops D) (jiffies : Z) (cpu : nat)
          (q : request_queue) (drv : D) (batch : list request) (got_budget : bool),
     map_wf q -> batch <> [] -> elevator q = false ->
     let '(ret, st, _) :=
       blk_mq_dispatch_rq_list ops jiffies cpu q drv batch got_budget in
     let h := l_hctx st in
     busy_estimate (dispatch_busy (hctx_at q h)) ->
     exists rem,
       dispatch (hctx_at (ds_queue st) h) = rem ++ dispatch (hctx_at q h) /\
       dispatch_busy (hctx_at (ds_queue st) h)
       = (dispatch_busy (hctx_at q h) * (8 - 1)
          + (if bool_decide (rem = []) then 0 else 16)) / 8).
Proof.
  split.
  - intros hctx busy Hb. apply blk_mq_update_dispatch_busy_ewma.
    now apply busy_estimate_bound.
  - intros D ops jiffies cpu q drv batch got_budget Hmap Hne Hel.
    pose proof (blk_mq_dispatch_rq_list_spec ops jiffies cpu q drv batch
                  got_budget Hmap Hne) as Hspec.
    destruct (blk_mq_dispatch_rq_list ops jiffies cpu q drv batch got_budget)
      as [[ret st] out].
    cbv zeta in *. intros Hb.
    destruct Hspec as (rem & k & _ & _ & _ & _ & Hdisp & _ & Hbusy & _).
    exists rem. split; [exact Hdisp|].
    rewrite Hbusy, Hel.
    rewrite blk_mq_update_dispatch_busy_ewma by now apply busy_estimate_bound.
    now destruct (bool_decide (rem = [])).
Qed.

Lemma dispatch_busy_ewma_witness :
  busy_estimate (dispatch_busy example_hctx) /\
  dispatch_busy (blk_mq_update_dispatch_busy false example_hctx true)
  = (dispatch_busy example_hctx * (8 - 1) + 16) / 8.
Proof.
  split; [exact busy_estimate_init|].
  exact (proj1 dispatch_busy_ewma example_hctx true busy_estimate_init).
Defined.

(** ** Freeze *)

Lemma freeze_initial_inv (q : request_queue) : freeze_initial q -> freeze_inv q.
Proof.
  intros (Hd & Hc & _). unfold freeze_inv. rewrite Hd, Hc. freeze_arith.
Qed.

Lemma blk_freeze_queue_start_inv (q : request_queue) (cpu : nat) :
  freeze_inv q ->
  let q' := fst (blk_freeze_queue_start q cpu) in
  freeze_inv q' /\ mq_freeze_depth q' = mq_freeze_depth q + 1 /\
  ref_dead (q_usage_counter q') = true /\
  ref_count (q_usage_counter q') = ref_count (q_usage_counter q) /\
  mq_freeze_wq q' = mq_freeze_wq q.
Proof.
  intros (Hd & Hc & Hk). unfold blk_freeze_queue_start.
  destruct (Z.eqb_spec (mq_freeze_depth q + 1) 1) as [H1|H1].
  - freeze_arith.
  - assert (Hdead : ref_dead (q_usage_counter q) = true) by (apply Hk; lia).
    freeze_arith.
Qed.

Lemma blk_mq_freeze_queue_wait_spec (task : nat) (q : request_queue) :
  let '(returned, q') := blk_mq_freeze_queue_wait task q in
  mq_freeze_depth q' = mq_freeze_depth q /\
  q_usage_counter q' = q_usage_counter q /\
  (returned = true <-> percpu_ref_is_zero (q_usage_counter q) = true) /\
  (returned = true -> q' = q) /\
  (returned = false -> mq_freeze_wq q' = mq_freeze_wq q ++ [task]).
Proof.
  unfold blk_mq_freeze_queue_wait, wait_event.
  destruct (percpu_ref_is_zero (q_usage_counter q)); freeze_arith.
Qed.

Lemma blk_mq_unfreeze_queue_inv (q : request_queue) :
  freeze_inv q -> 0 < mq_freeze_depth q -> freeze_inv (blk_mq_unfreeze_queue q).
Proof.
  intros (Hd & Hc & Hk) Hpos. unfold blk_mq_unfreeze_queue.
  assert (Hdead : ref_dead (q_usage_counter q) = true) by now apply Hk.
  destruct (Z.eqb_spec (mq_freeze_depth q - 1) 0) as [H0|H0]; freeze_arith.
Qed.

Lemma blk_queue_enter_inv (q : request_queue) (nowait : bool) (task : nat) :
  freeze_inv q -> freeze_inv (snd (blk_queue_enter q nowait task)).
Proof.
  intros Hinv. unfold blk_queue_enter, percpu_ref_tryget_live.
  destruct (ref_dead (q_usage_counter q)) eqn:Hdead; [destruct nowait|];
    simpl; unfold freeze_inv in *; simpl; rewrite ?Hdead; freeze_arith.
Qed.

Lemma blk_queue_exit_inv (q : request_queue) :
  freeze_inv q -> 0 < ref_count (q_usage_counter q) -> freeze_inv (blk_queue_exit q).
Proof.
  intros Hinv Hpos. unfold blk_queue_exit.
  destruct (percpu_ref_is_zero (percpu_ref_put (q_usage_counter q)));
    freeze_arith.
Qed.

Lemma freeze_step_inv (cpu : nat) (op : freeze_op) (q q' : request_queue) :
  freeze_inv q -> freeze_step cpu op q = Some q' -> freeze_inv q'.
Proof.
  intros Hinv. destruct op as [|task| |nowait task|]; simpl.
  - intros [= <-]. now apply blk_freeze_queue_start_inv.
  - intros [= <-]. pose proof (blk_mq_freeze_queue_wait_spec task q) as H.
    destruct (blk_mq_freeze_queue_wait task q) as [returned q1].
    destruct H as (Hd & Hc & _). unfold freeze_inv. simpl. rewrite Hd, Hc.
    exact Hinv.
  - destruct (Z.ltb_spec 0 (mq_freeze_depth q)); [|discriminate].
    intros [= <-]. now apply blk_mq_unfreeze_queue_inv.
  - intros [= <-]. now apply blk_queue_enter_inv.
  - destruct (Z.ltb_spec 0 (ref_count (q_usage_counter q))); [|discriminate].
    intros [= <-]. now apply blk_queue_exit_inv.
Qed.

Lemma freeze_run_inv (cpu : nat) (ops : list freeze_op) (q q' : request_queue) :
  freeze_inv q -> freeze_run cpu ops q = Some q' -> freeze_inv q'.
Proof.
  revert q. induction ops as [|op rest IH]; intros q Hinv; simpl.
  - now intros [= <-].
  - destruct (freeze_step cpu op q) as [q1|] eqn:Hstep; [|discriminate].
    apply IH. now apply (freeze_step_inv cpu op q).
Qed.

Lemma blk_queue_enter_frozen (q : request_queue) (nowait : bool) (task : nat) :
  ref_dead (q_usage_counter q) = true ->
  let '(res, q') := blk_queue_enter q nowait task in
  res = refused nowait /\ q_usage_counter q' = q_usage_counter q /\
  mq_freeze_depth q' = mq_freeze_depth q /\
  (nowait = false -> mq_freeze_wq q' = mq_freeze_wq q ++ [task]).
Proof.
  intros Hdead. unfold blk_queue_enter, percpu_ref_tryget_live. rewrite Hdead.
  destruct nowait; freeze_arith.
Qed.

Lemma blk_queue_enter_live (q : request_queue) (nowait : bool) (task : nat) :
  ref_dead (q_usage_counter q) = false ->
  let '(res, q') := blk_queue_enter q nowait task in
  res = ENTERED /\
  ref_count (q_usage_counter q') = ref_count (q_usage_counter q) + 1.
Proof.
  intros Hlive. unfold blk_queue_enter, percpu_ref_tryget_live. rewrite Hlive.
  simpl. now split.
Qed.

(** C4: in every state the freeze calls, admissions and exits reach from a
    freshly set-up queue, the freeze depth is a counter: while it is above
    zero an admission attempt takes no reference (it fails for a caller that
    declined to block and puts the others to sleep on the wait queue), and at
    depth zero it succeeds; [blk_mq_freeze_queue] raises the depth by one and
    returns exactly when the count of references in flight is zero, sleeping
    on the wait queue otherwise; [blk_mq_unfreeze_queue] lowers the depth by
    one, and when the depth reaches zero admission succeeds again and every
    sleeper has been woken, while at a depth still above zero admission stays
    stopped. *)
Theorem blk_mq_freeze_queue_counter (cpu : nat) (ops : list freeze_op)
    (q0 q : request_queue) :
  freeze_initial q0 -> freeze_run cpu ops q0 = Some q ->
  (0 < mq_freeze_depth q ->
   forall nowait task,
     let '(res, q') := blk_queue_enter q nowait task in
     res = refused nowait /\ q_usage_counter q' = q_usage_counter q /\
     (nowait = false -> mq_freeze_wq q' = mq_freeze_wq q ++ [task])) /\
  (mq_freeze_depth q = 0 ->
   forall nowait task, fst (blk_queue_enter q nowait task) = ENTERED) /\
  (forall task cpu',
     let '(returned, q', _) := blk_mq_freeze_queue task q cpu' in
     mq_freeze_depth q' = mq_freeze_depth q + 1 /\
     (returned = true <-> ref_count (q_usage_counter q) = 0) /\
     (returned = true -> ref_count (q_usage_counter q') = 0) /\
     (returned = false -> In task (mq_freeze_wq q'))) /\
  (0 < mq_freeze_depth q ->
   let q' := blk_mq_unfreeze_queue q in
   mq_freeze_depth q' = mq_freeze_depth q - 1 /\
   (mq_freeze_depth q' = 0 ->
    mq_freeze_wq q' = [] /\
    forall nowait task, fst (blk_queue_enter q' nowait task) = ENTERED) /\
   (0 < mq_freeze_depth q' ->
    mq_freeze_wq q' = mq_freeze_wq q /\
    forall nowait task, fst (blk_queue_enter q' nowait task) = refused nowait)).
Proof.
  intros Hinit Hrun.
  pose proof (freeze_run_inv cpu ops q0 q (freeze_initial_inv q0 Hinit) Hrun)
    as Hinv.
  pose proof Hinv as (Hd & Hc & Hk).
  split; [|split; [|split]].
  - intros Hpos nowait task.
    pose proof (blk_queue_enter_frozen q nowait task (proj2 Hk Hpos)) as H.
    destruct (blk_queue_enter q nowait task) as [res q'].
    destruct H as (Hres & Hcnt & _ & Hwq). now split_and!.
  - intros Hzero nowait task.
    assert (Hlive : ref_dead (q_usage_counter q) = false).
    { destruct (ref_dead (q_usage_counter q)); [|reflexivity].
      assert (0 < mq_freeze_depth q) by now apply Hk. lia. }
    pose proof (blk_queue_enter_live q nowait task Hlive) as H.
    destruct (blk_queue_enter q nowait task) as [res q']. now destruct H.
  - intros task cpu'. unfold blk_mq_freeze_queue, blk_freeze_queue.
    pose proof (blk_freeze_queue_start_inv q cpu' Hinv) as Hstart.
    destruct (blk_freeze_queue_start q cpu') as [q1 tr]. simpl in Hstart.
    destruct Hstart as (_ & Hd1 & Hdead1 & Hc1 & _).
    pose proof (blk_mq_freeze_queue_wait_spec task q1) as Hwait.
    destruct (blk_mq_freeze_queue_wait task q1) as [returned q2].
    destruct Hwait as (Hd2 & Hc2 & Hret & _ & Hsleep).
    unfold percpu_ref_is_zero in Hret. rewrite Hdead1 in Hret. simpl in Hret.
    rewrite Z.eqb_eq, Hc1 in Hret.
    split_and!.
    + now rewrite Hd2.
    + exact Hret.
    + intros Ht. rewrite Hc2, Hc1. now apply Hret.
    + intros Hf. rewrite (Hsleep Hf). apply in_or_app. right. now left.
  - intros Hpos. cbv zeta.
    assert (Hdead : ref_dead (q_usage_counter q) = true) by now apply Hk.
    unfold blk_mq_unfreeze_queue.
    destruct (Z.eqb_spec (mq_freeze_depth q - 1) 0) as [H0|H0].
    + split_and!; [reflexivity| |simpl; lia].
      intros _. split; [reflexivity|]. intros nowait task.
      unfold blk_queue_enter, percpu_ref_tryget_live. reflexivity.
    + split_and!; [reflexivity|simpl; lia|].
      intros _. split; [reflexivity|]. intros nowait task.
      unfold blk_queue_enter, percpu_ref_tryget_live. simpl. rewrite Hdead.
      now destruct nowait.
Qed.

Lemma blk_mq_freeze_queue_counter_witness :
  freeze_initial example_idle_queue /\
  fst (blk_queue_enter
         (default example_idle_queue
            (freeze_run 0%nat
               [Op_enter false 1%nat; Op_freeze_start; Op_freeze_wait 7%nat;
                Op_enter false 2%nat; Op_exit; Op_freeze_start; Op_unfreeze]
               example_idle_queue))
         true 5%nat) = QUEUE_FROZEN.
Proof.
  assert (Hinit : freeze_initial example_idle_queue) by (now split_and!).
  split; [exact Hinit|].
  pose proof (blk_mq_freeze_queue_counter 0%nat
                [Op_enter false 1%nat; Op_freeze_start; Op_freeze_wait 7%nat;
                 Op_enter false 2%nat; Op_exit; Op_freeze_start; Op_unfreeze]
                example_idle_queue _ Hinit eq_refl) as (Hstop & _).
  specialize (Hstop eq_refl true 5%nat).
  destruct (blk_queue_enter _ true 5%nat) as [res q'] eqn:E.
  destruct Hstop as (Hres & _). exact Hres.
Defined.

(** ** Quiesce *)

Lemma elem_of_concat_imap {A B : Type} (f : nat -> A -> list B) (l : list A)
    (x : B) :
  x ∈ concat (imap f l) <-> exists i y, l !! i = Some y /\ x ∈ f i y.
Proof.
  revert f. induction l as [|a l IH]; intros f.
  - simpl. split; [intros H; now apply elem_of_nil in H|].
    intros (i & y & Hl & _). discriminate.
  - rewrite imap_cons. simpl. rewrite elem_of_app, IH. split.
    + intros [H|(i & y & Hl & Hx)].
      * exists 0%nat, a. now split.
      * exists (S i), y. now split.
    + intros (i & y & Hl & Hx). destruct i as [|i].
      * left. simpl in Hl. injection Hl as <-. exact Hx.
      * right. exists i, y. now split.
Qed.

Lemma readers_of_spec (q : request_queue) (dom : rcu_domain)
    (tasks : list task_pc) (t : nat) :
  t ∈ readers_of q dom tasks <->
  exists h c, tasks !! t = Some (In_section h c)
              /\ hctx_lock (hctx_at q h) h = dom.
Proof.
  unfold readers_of. rewrite elem_of_concat_imap. split.
  - intros (i & pc & Hl & Hx). destruct pc as [|h c].
    + now apply elem_of_nil in Hx.
    + destruct (bool_decide_reflect (hctx_lock (hctx_at q h) h = dom)) as [Hd|Hd].
      * apply list_elem_of_singleton in Hx. subst i. now exists h, c.
      * now apply elem_of_nil in Hx.
  - intros (h & c & Hl & Hd). exists t, (In_section h c). split; [exact Hl|].
    rewrite bool_decide_eq_true_2 by exact Hd. now apply list_elem_of_singleton.
Qed.

Lemma blk_mq_quiesce_queue_domains (q : request_queue) (h : nat) :
  (h < length (queue_hw_ctx q))%nat ->
  hctx_lock (hctx_at q h) h ∈ snd (blk_mq_quiesce_queue q).
Proof.
  intros Hh. destruct (lookup_lt_is_Some_2 (queue_hw_ctx q) h Hh) as [hctx Hl].
  unfold blk_mq_quiesce_queue, hctx_lock, hctx_at. simpl. rewrite Hl. simpl.
  apply elem_of_app. destruct (flag_blocking hctx) eqn:Hb; simpl.
  - left. apply elem_of_concat_imap. exists h, hctx. split; [exact Hl|].
    rewrite Hb. now apply list_elem_of_singleton.
  - right.
    assert (He : existsb (fun hctx => negb (flag_blocking hctx)) (queue_hw_ctx q)
                 = true).
    { apply existsb_exists. exists hctx. split; [|now rewrite Hb].
      apply list_elem_of_In. now apply (list_elem_of_lookup_2 _ h). }
    rewrite He. now apply list_elem_of_singleton.
Qed.

Lemma begin_wait_covered (q : request_queue) (tasks : list task_pc)
    (doms : list rcu_domain) (t h : nat) (c : option bool) :
  tasks !! t = Some (In_section h c) ->
  hctx_lock (hctx_at q h) h ∈ doms ->
  section_covered q (begin_wait q tasks doms) t h.
Proof.
  intros Ht Hd. destruct doms as [|dom rest]; simpl.
  - now apply elem_of_nil in Hd.
  - apply elem_of_cons in Hd as [Hd|Hd]; [left|now right].
    split; [exact Hd|]. apply readers_of_spec. now exists h, c.
Qed.

Lemma sys_initial_inv (s : sys) : sys_initial s -> sys_inv s.
Proof.
  intros (Hflag & Hq & Hall). unfold sys_inv. rewrite Hq.
  assert (Hout : forall t h c, sys_tasks s !! t = Some (In_section h c) -> False).
  { intros t h c Hl. rewrite Forall_forall in Hall.
    specialize (Hall _ (list_elem_of_lookup_2 _ _ _ Hl)). discriminate. }
  split_and!.
  - intros H. now contradiction H.
  - intros t h c Hl. destruct (Hout t h c Hl).
  - intros t h Hl. exact I.
Qed.

Lemma blk_mq_quiesce_queue_fst (q : request_queue) :
  fst (blk_mq_quiesce_queue q) = blk_mq_quiesce_queue_nowait q.
Proof. reflexivity. Qed.

Lemma dispatch_allowed_quiesced (q : request_queue) (h : nat) :
  queue_flag_quiesced q = true -> dispatch_allowed q h = false.
Proof.
  intros Hq. unfold dispatch_allowed. rewrite Hq. now rewrite orb_true_r.
Qed.

(** The timeout work gives back the reference it took: the queue is as it
    found it. *)
Lemma blk_mq_timeout_work_queue (env : completion_env) (ops_timeout : timeout_fn)
    (jiffies : Z) (q : request_queue) (busy : list (request * bool)) :
  fst (fst (fst (blk_mq_timeout_work env ops_timeout jiffies q busy))) = q.
Proof.
  unfold blk_mq_timeout_work, percpu_ref_tryget.
  destruct (ref_dead (q_usage_counter q) && (ref_count (q_usage_counter q) =? 0))
    eqn:Hz; cbn [negb]; [reflexivity|].
  destruct (blk_mq_queue_tag_busy_iter env ops_timeout jiffies busy _)
    as [[busy' data] tr].
  destruct (next_set data); cbn [fst];
    unfold blk_queue_exit, percpu_ref_put, percpu_ref_is_zero, set_freeze;
    destruct q as [hw sw mp el qf depth [dead cnt] wq]; cbn in *;
    replace (cnt + 1 - 1) with cnt by lia; rewrite Hz; reflexivity.
Qed.

Lemma sys_step_inv (env : completion_env) (ops_timeout : timeout_fn) (cpu : nat)
    (l : label) (s s' : sys) :
  sys_inv s -> sys_step env ops_timeout cpu l s = Some s' -> sys_inv s'.
Proof.
  intros (Hflag & Hsec & Hcov). unfold sys_step.
  destruct l as [t h|t|t|t| | | |i error|jiffies].
  - destruct (sys_tasks s !! t) as [[|h0 c0]|] eqn:Ht; try discriminate.
    case_bool_decide as Hh; [|discriminate].
    intros [= <-]. unfold sys_inv; simpl. split_and!.
    + exact Hflag.
    + intros t' h' c' Hl. insert_cases Hl.
      * injection Hl as <- <-. exact Hh.
      * now apply (Hsec t' h' c').
    + intros t' h' Hl. insert_cases Hl; [discriminate|now apply Hcov].
  - destruct (sys_tasks s !! t) as [[|h0 [c0|]]|] eqn:Ht; try discriminate.
    intros [= <-]. unfold sys_inv; simpl. split_and!.
    + exact Hflag.
    + intros t' h' c' Hl. insert_cases Hl.
      * injection Hl as <- <-. now apply (Hsec t' h0 None).
      * now apply (Hsec t' h' c').
    + intros t' h' Hl. insert_cases Hl; [|now apply Hcov].
      injection Hl as <- Hallowed.
      destruct (sys_quiescer s) eqn:Hq; simpl; [exact I| |];
        rewrite dispatch_allowed_quiesced in Hallowed
          by (apply Hflag; discriminate); discriminate.
  - destruct (sys_tasks s !! t) as [[|h0 [[|]|]]|] eqn:Ht; try discriminate.
    intros [= <-]. unfold sys_inv; simpl. now split_and!.
  - destruct (sys_tasks s !! t) as [[|h0 c0]|] eqn:Ht; try discriminate.
    intros [= <-]. unfold sys_inv; simpl. split_and!.
    + intros Hq. apply Hflag. destruct (sys_quiescer s); simpl in *; congruence.
    + intros t' h' c' Hl.
      apply list_lookup_insert_Some in Hl as [(_ & Hl & _)|(_ & Hl)];
        [discriminate|now apply (Hsec t' h' c')].
    + intros t' h' Hl.
      apply list_lookup_insert_Some in Hl as [(_ & Hl & _)|(Hne & Hl)];
        [discriminate|].
      specialize (Hcov t' h' Hl).
      destruct (sys_quiescer s) as [|dom readers rest|]; simpl in *;
        [exact I| |exact Hcov].
      destruct Hcov as [[Hd Hin]|Hr]; [left|now right].
      split; [exact Hd|]. apply list_elem_of_filter. split; [congruence|exact Hin].
  - destruct (sys_quiescer s) eqn:Hq; try discriminate.
    pose proof (blk_mq_quiesce_queue_fst (sys_queue s)) as Hq1.
    pose proof (fun h => blk_mq_quiesce_queue_domains (sys_queue s) h) as Hdoms.
    destruct (blk_mq_quiesce_queue (sys_queue s)) as [q1 doms].
    simpl in Hq1, Hdoms. subst q1.
    intros [= <-]. unfold sys_inv; simpl. split_and!.
    + reflexivity.
    + exact Hsec.
    + intros t h Hl. apply (begin_wait_covered _ _ _ t h (Some true) Hl).
      exact (Hdoms h (Hsec t h (Some true) Hl)).
  - destruct (sys_quiescer s) as [|dom [|r readers] rest|] eqn:Hq; try discriminate.
    intros [= <-]. unfold sys_inv; simpl. split_and!.
    + intros _. apply Hflag. discriminate.
    + exact Hsec.
    + intros t h Hl. apply (begin_wait_covered _ _ _ t h (Some true) Hl).
      destruct (Hcov t h Hl) as [[_ Hin]|Hr]; [|exact Hr].
      now apply elem_of_nil in Hin.
  - destruct (sys_quiescer s) eqn:Hq; try discriminate.
    destruct (blk_mq_unquiesce_queue (sys_queue s) cpu) as [q1 tr] eqn:Hu.
    injection Hu as <- _.
    intros [= <-]. unfold sys_inv; simpl. split_and!.
    + intros H. now contradiction H.
    + exact Hsec.
    + intros t h Hl. exact I.
  - destruct (sys_inflight s !! i) as [[rq reserved]|]; [|discriminate].
    destruct (blk_mq_complete_request env false rq error) as [rq' tr].
    intros [= <-]. unfold sys_inv; simpl. now split_and!.
  - pose proof (blk_mq_timeout_work_queue env ops_timeout jiffies (sys_queue s)
                  (sys_inflight s)) as Hq1.
    destruct (blk_mq_timeout_work env ops_timeout jiffies (sys_queue s)
                (sys_inflight s)) as [[[q1 busy'] data] tr].
    cbn [fst] in Hq1. subst q1.
    intros [= <-]. unfold sys_inv; simpl. now split_and!.
Qed.

Lemma sys_run_inv (env : completion_env) (ops_timeout : timeout_fn) (cpu : nat)
    (ls : list label) (s s' : sys) :
  sys_inv s -> sys_run env ops_timeout cpu ls s = Some s' -> sys_inv s'.
Proof.
  revert s. induction ls as [|l rest IH]; intros s Hinv; simpl.
  - now intros [= <-].
  - destruct (sys_step env ops_timeout cpu l s) as [s1|] eqn:Hstep; [|discriminate].
    apply IH. now apply (sys_step_inv env ops_timeout cpu l s).
Qed.

Lemma blk_mq_run_hw_queue_quiesced (q : request_queue) (h cpu : nat)
    (async : bool) :
  queue_flag_quiesced q = true -> blk_mq_run_hw_queue q h cpu async = (false, []).
Proof. intros Hq. unfold blk_mq_run_hw_queue. now rewrite Hq. Qed.

Lemma sys_step_check_quiesced (env : completion_env) (ops_timeout : timeout_fn)
    (cpu : nat) (t : nat) (s s1 : sys) :
  queue_flag_quiesced (sys_queue s) = true ->
  sys_step env ops_timeout cpu (L_check t) s = Some s1 ->
  sys_step env ops_timeout cpu (L_dispatch t) s1 = None.
Proof.
  intros Hq. simpl.
  destruct (sys_tasks s !! t) as [[|h [c|]]|] eqn:Ht; try discriminate.
  intros [= <-]. simpl.
  rewrite list_lookup_insert_eq by now apply (lookup_lt_Some _ _ _ Ht).
  now rewrite dispatch_allowed_quiesced.
Qed.

(** C5: in every state that dispatch sections, quiesce and unquiesce calls,
    completions and timeout scans reach from a system that is not quiesced:
    while the quiesced flag is set [blk_mq_run_hw_queue] declines to run the
    queue and a dispatch section that makes its test is refused the driver;
    the flag is set from the call of [blk_mq_quiesce_queue] on; once
    [blk_mq_quiesce_queue] has returned no task is in a position to hand a
    request to the driver, so the sections that had passed the test have
    ended; setting the flag and waiting leave the requests in flight and the
    usage counter as they are; and a completion of a request in flight and a
    timeout scan take place as [blk_mq_complete_request] and
    [blk_mq_timeout_work] perform them, whatever the flag, the timeout scan
    leaving the queue as it found it. *)
Theorem blk_mq_quiesce_queue_spec (env : completion_env)
    (ops_timeout : timeout_fn) (cpu : nat) (ls : list label) (s0 s : sys) :
  sys_initial s0 -> sys_run env ops_timeout cpu ls s0 = Some s ->
  (queue_flag_quiesced (sys_queue s) = true ->
   (forall h cpu' async,
      blk_mq_run_hw_queue (sys_queue s) h cpu' async = (false, [])) /\
   (forall t s1,
      sys_step env ops_timeout cpu (L_check t) s = Some s1 ->
      sys_step env ops_timeout cpu (L_dispatch t) s1 = None)) /\
  (sys_quiescer s <> Q_idle -> queue_flag_quiesced (sys_queue s) = true) /\
  (sys_quiescer s = Q_returned ->
   forall t, sys_step env ops_timeout cpu (L_dispatch t) s = None) /\
  (forall l s1,
     l = L_quiesce \/ l = L_grace_period ->
     sys_step env ops_timeout cpu l s = Some s1 ->
     queue_flag_quiesced (sys_queue s1) = true /\
     sys_inflight s1 = sys_inflight s /\
     q_usage_counter (sys_queue s1) = q_usage_counter (sys_queue s) /\
     sys_dispatches s1 = sys_dispatches s) /\
  (forall i rq reserved error,
     sys_inflight s !! i = Some (rq, reserved) ->
     exists s1,
       sys_step env ops_timeout cpu (L_complete i error) s = Some s1 /\
       sys_inflight s1 !! i
         = Some (fst (blk_mq_complete_request env false rq error), reserved) /\
       sys_trace s1
         = sys_trace s ++ snd (blk_mq_complete_request env false rq error)) /\
  (forall jiffies,
     exists s1,
       sys_step env ops_timeout cpu (L_timeout_scan jiffies) s = Some s1 /\
       sys_queue s1 = sys_queue s /\
       sys_inflight s1
         = snd (fst (fst (blk_mq_timeout_work env ops_timeout jiffies (sys_queue s)
                                              (sys_inflight s)))) /\
       sys_trace s1
         = sys_trace s
           ++ snd (blk_mq_timeout_work env ops_timeout jiffies (sys_queue s)
                                       (sys_inflight s))).
Proof.
  intros Hinit Hrun.
  pose proof (sys_run_inv env ops_timeout cpu ls s0 s (sys_initial_inv s0 Hinit)
                Hrun) as (Hflag & Hsec & Hcov).
  split; [|split; [|split; [|split; [|split]]]].
  - intros Hq. split.
    + intros h cpu' async. now apply blk_mq_run_hw_queue_quiesced.
    + intros t s1. now apply sys_step_check_quiesced.
  - exact Hflag.
  - intros Hret t. simpl.
    destruct (sys_tasks s !! t) as [[|h [[|]|]]|] eqn:Ht; try reflexivity.
    specialize (Hcov t h Ht). rewrite Hret in Hcov. destruct Hcov.
  - intros l s1 [-> | ->]; simpl.
    + destruct (sys_quiescer s); try discriminate.
      intros [= <-]. simpl. now split_and!.
    + destruct (sys_quiescer s) as [|dom [|r readers] rest|] eqn:Hq;
        try discriminate.
      intros [= <-]. simpl. split_and!; try reflexivity.
      apply Hflag. discriminate.
  - intros i rq reserved error Hi. unfold sys_step. rewrite Hi.
    destruct (blk_mq_complete_request env false rq error) as [rq' tr].
    eexists. split; [reflexivity|]. simpl. split; [|reflexivity].
    apply list_lookup_insert_eq. now apply (lookup_lt_Some _ _ _ Hi).
  - intros jiffies. unfold sys_step.
    pose proof (blk_mq_timeout_work_queue env ops_timeout jiffies (sys_queue s)
                  (sys_inflight s)) as Hq1.
    destruct (blk_mq_timeout_work env ops_timeout jiffies (sys_queue s)
                (sys_inflight s)) as [[[q1 busy'] data] tr].
    cbn [fst] in Hq1. subst q1.
    eexists. split; [reflexivity|]. now split_and!.
Qed.

Lemma blk_mq_quiesce_queue_spec_witness :
  sys_initial example_sys /\
  exists s,
    sys_run example_env None 0%nat
            [L_lock 0%nat 0%nat; L_check 0%nat; L_quiesce; L_dispatch 0%nat;
             L_lock 1%nat 0%nat; L_check 1%nat; L_unlock 0%nat; L_grace_period]
            example_sys = Some s /\
    sys_quiescer s = Q_returned /\
    sys_dispatches s = 1%nat /\
    length (sys_inflight s) = 1%nat /\
    sys_step example_env None 0%nat (L_dispatch 1%nat) s = None.
Proof.
  assert (Hinit : sys_initial example_sys).
  { split_and!; try reflexivity. repeat constructor. }
  split; [exact Hinit|].
  eexists. split; [vm_compute; reflexivity|].
  split; [reflexivity|]. split; [reflexivity|]. split; [reflexivity|].
  refine (proj1 (proj2 (proj2
            (blk_mq_quiesce_queue_spec example_env None 0%nat
               [L_lock 0%nat 0%nat; L_check 0%nat; L_quiesce; L_dispatch 0%nat;
                L_lock 1%nat 0%nat; L_check 1%nat; L_unlock 0%nat; L_grace_period]
               example_sys _ Hinit _))) _ 1%nat);
    vm_compute; reflexivity.
Defined.

(** ** The examples at work *)

Lemma example_pending_wf : hw_sw_wf example_pending.
Proof.
  unfold hw_sw_wf. split_and!; try reflexivity.
  - apply NoDup_ListNoDup. repeat constructor; simpl; intuition discriminate.
  - intros i cpu Hi.
    destruct i as [|[|[|i]]]; simpl in Hi; try discriminate;
      injection Hi as <-; eexists; split; reflexivity.
Qed.

Lemma example_pending_queue_wf : queue_wf example_pending_queue.
Proof.
  intros h hctx Hh. destruct h as [|h]; [|destruct h; discriminate].
  simpl in Hh. injection Hh as <-. split; [exact example_pending_wf|].
  intros i cpu Hi.
  destruct i as [|[|[|i]]]; simpl in Hi; try discriminate;
    injection Hi as <-; reflexivity.
Qed.

Lemma example_pending_queue_inv : pending_invariant example_pending_queue.
Proof.
  intros h hctx i cpu ctx Hh Hi Hc.
  destruct h as [|h]; [|destruct h; discriminate].
  simpl in Hh. injection Hh as <-.
  destruct i as [|[|[|i]]]; simpl in Hi; try discriminate;
    injection Hi as <-; simpl in Hc; injection Hc as <-;
    (split; intros _; [discriminate|reflexivity]).
Qed.


Lemma blk_mq_check_expired_spec_witness :
  test_bit REQ_ATOM_STARTED (atomic_flags example_rq) = true /\
  time_after_eq 200 (deadline example_rq) = true /\
  test_bit REQ_ATOM_COMPLETE (atomic_flags example_rq) = false /\
  snd (blk_mq_check_expired example_env None 200 example_rq false
                            (mk_timeout_data 0 false))
  = [Ev_add_timer 1 230].
Proof.
  split; [reflexivity|]. split; [reflexivity|]. split; [reflexivity|].
  destruct (proj1 (blk_mq_check_expired_spec example_env None 200)
              example_rq false (mk_timeout_data 0 false)) as (_ & Hexp & _).
  destruct (Hexp eq_refl eq_refl) as (_ & Hclear).
  specialize (Hclear eq_refl).
  cbv beta iota zeta delta [timeout_answer] in Hclear.
  destruct Hclear as (Hres & _). rewrite Hres. reflexivity.
Defined.

(** * Further properties of the dispatch core *)

(** ** Start, completion and timeout *)

Lemma blk_mq_start_request_flags (jiffies : Z) (rq : request) :
  let rq1 := fst (blk_mq_start_request jiffies rq) in
  test_bit REQ_ATOM_STARTED (atomic_flags rq1) = true /\
  test_bit REQ_ATOM_COMPLETE (atomic_flags rq1) = false.
Proof.
  unfold blk_mq_start_request, blk_add_timer.
  cbn [fst atomic_flags set_atomic_flags set_deadline].
  set (f1 := if negb (test_bit REQ_ATOM_STARTED (atomic_flags rq))
             then set_bit REQ_ATOM_STARTED (atomic_flags rq)
             else atomic_flags rq).
  assert (Hs : test_bit REQ_ATOM_STARTED f1 = true).
  { subst f1. destruct (test_bit REQ_ATOM_STARTED (atomic_flags rq)) eqn:E;
      cbn [negb]; [exact E|].
    apply test_bit_set_bit_eq. unfold REQ_ATOM_STARTED. lia. }
  destruct (test_bit REQ_ATOM_COMPLETE f1) eqn:Hc.
  - split.
    + rewrite test_bit_clear_bit_neq; [exact Hs| |];
        unfold REQ_ATOM_COMPLETE, REQ_ATOM_STARTED; lia.
    + apply test_bit_clear_bit_eq. unfold REQ_ATOM_COMPLETE. lia.
  - now split.
Qed.

(** X1: [blk_mq_start_request] arms the timer for [jiffies + timeout] and
    leaves the request STARTED with COMPLETE clear, also when a stale COMPLETE
    flag was left by a timeout that raced with a requeue; a completion that
    follows is therefore never ignored: it records the status and finalizes
    the request once. *)
Theorem blk_mq_start_request_then_complete (env : completion_env)
    (jiffies : Z) (rq : request) (error : Z) :
  let '(rq1, tr1) := blk_mq_start_request jiffies rq in
  let '(rq2, tr2) := blk_mq_complete_request env false rq1 error in
  blk_mq_request_started rq1 = true /\
  test_bit REQ_ATOM_COMPLETE (atomic_flags rq1) = false /\
  deadline rq1 = ulong (jiffies + timeout rq) /\
  tr1 = [Ev_add_timer (rq_id rq) (ulong (jiffies + timeout rq))] /\
  errors rq2 = error /\
  test_bit REQ_ATOM_COMPLETE (atomic_flags rq2) = true /\
  finalizations (rq_id rq) tr2 = 1%nat.
Proof.
  pose proof (blk_mq_start_request_flags jiffies rq) as [Hs Hc].
  pose proof (blk_mq_start_request_trace jiffies rq) as [Hid _].
  assert (Hd : deadline (fst (blk_mq_start_request jiffies rq))
               = ulong (jiffies + timeout rq)) by reflexivity.
  assert (Ht : snd (blk_mq_start_request jiffies rq)
               = [Ev_add_timer (rq_id rq) (ulong (jiffies + timeout rq))])
    by reflexivity.
  destruct (blk_mq_start_request jiffies rq) as [rq1 tr1].
  cbn [fst snd] in *.
  pose proof (blk_mq_complete_request_first env rq1 error Hc) as H1.
  cbv zeta in H1. rewrite H1.
  split_and!; try assumption; try reflexivity.
  - cbn [atomic_flags set_errors set_atomic_flags].
    apply test_bit_set_bit_eq. unfold REQ_ATOM_COMPLETE. lia.
  - rewrite <- Hid.
    apply (__blk_mq_complete_request_finalizes env
             (set_errors error
                (set_atomic_flags (set_bit REQ_ATOM_COMPLETE (atomic_flags rq1)) rq1))).
Qed.

(** X2: a request that went through [__blk_mq_requeue_request] is no longer
    STARTED, so the timeout scan passes over it whatever its deadline: the
    request, the scan data and the trace stay as they are. *)
Theorem __blk_mq_requeue_request_not_timed_out (env : completion_env)
    (ops_timeout : timeout_fn) (jiffies : Z) (q : request_queue) (rq : request)
    (reserved : bool) (data : blk_mq_timeout_data) :
  let '(_, rq') := __blk_mq_requeue_request q rq in
  blk_mq_request_started rq' = false /\
  deadline rq' = deadline rq /\
  blk_mq_check_expired env ops_timeout jiffies rq' reserved data = (rq', data, []).
Proof.
  pose proof (__blk_mq_requeue_request_spec q rq) as H.
  assert (Hd : deadline (snd (__blk_mq_requeue_request q rq)) = deadline rq).
  { unfold __blk_mq_requeue_request, blk_mq_put_driver_tag.
    destruct ((tag rq =? -1) || (internal_tag rq =? -1)); [reflexivity|].
    unfold __blk_mq_put_driver_tag.
    now destruct (req_mq_inflight (set_tag (-1) rq)). }
  destruct (__blk_mq_requeue_request q rq) as [q' rq'].
  destruct H as (_ & _ & Hs & _). cbn [snd] in Hd.
  split; [exact Hs|]. split; [exact Hd|].
  unfold blk_mq_check_expired. now rewrite Hs.
Qed.

(** X3: the race between the timeout scan and a completion is decided by the
    COMPLETE flag.  When the scan finds a started request past its deadline
    with COMPLETE clear, it claims the request; a completion that arrives
    afterwards finalizes nothing if the timeout handler answered HANDLED
    (the scan has finalized the request once) or NOT_HANDLED (the request is
    left to the driver's error handling), and finalizes the request once if
    the handler answered RESET_TIMER.  In no case is the request finalized
    twice. *)
Theorem blk_mq_check_expired_then_complete (env : completion_env)
    (ops_timeout : timeout_fn) (jiffies : Z) (rq : request) (reserved : bool)
    (data : blk_mq_timeout_data) (error : Z) :
  blk_mq_request_started rq = true ->
  time_after_eq jiffies (deadline rq) = true ->
  test_bit REQ_ATOM_COMPLETE (atomic_flags rq) = false ->
  let '(rq1, _, tr1) :=
    blk_mq_check_expired env ops_timeout jiffies rq reserved data in
  let '(rq2, tr2) := blk_mq_complete_request env false rq1 error in
  (finalizations (rq_id rq) (tr1 ++ tr2) <= 1)%nat /\
  match timeout_answer ops_timeout
          (set_atomic_flags (set_bit REQ_ATOM_COMPLETE (atomic_flags rq)) rq)
          reserved with
  | BLK_EH_HANDLED =>
      finalizations (rq_id rq) tr1 = 1%nat /\ tr2 = [] /\ rq2 = rq1
  | BLK_EH_RESET_TIMER =>
      finalizations (rq_id rq) tr1 = 0%nat /\
      finalizations (rq_id rq) tr2 = 1%nat /\ errors rq2 = error
  | BLK_EH_NOT_HANDLED | BLK_EH_BAD _ =>
      tr1 = [] /\ tr2 = [] /\ rq2 = rq1
  end.
Proof.
  unfold blk_mq_request_started. intros Hs Hexp Hc.
  set (rqc := set_atomic_flags (set_bit REQ_ATOM_COMPLETE (atomic_flags rq)) rq).
  assert (Hsc : test_bit REQ_ATOM_STARTED (atomic_flags rqc) = true).
  { subst rqc. cbn [atomic_flags set_atomic_flags].
    rewrite test_bit_set_bit_neq; [exact Hs| |];
      unfold REQ_ATOM_COMPLETE, REQ_ATOM_STARTED; lia. }
  assert (Hcc : test_bit REQ_ATOM_COMPLETE (atomic_flags rqc) = true).
  { subst rqc. cbn [atomic_flags set_atomic_flags].
    apply test_bit_set_bit_eq. unfold REQ_ATOM_COMPLETE. lia. }
  unfold blk_mq_check_expired. rewrite Hs, Hexp. cbn [negb].
  rewrite (blk_mark_rq_complete_clear rq Hc). cbn [negb]. fold rqc.
  unfold blk_mq_rq_timed_out. rewrite Hsc. cbn [negb].
  unfold timeout_answer.
  destruct (match ops_timeout with Some handler => handler rqc reserved
                              | None => BLK_EH_RESET_TIMER end) eqn:Hret.
  - rewrite (blk_mq_complete_request_already_complete env false rqc error Hcc).
    split_and!; try reflexivity; unfold finalizations; simpl; lia.
  - rewrite (blk_mq_complete_request_already_complete env false rqc error Hcc).
    assert (Hfin : finalizations (rq_id rq) (__blk_mq_complete_request env rqc false)
                   = 1%nat)
      by apply (__blk_mq_complete_request_finalizes env rqc false).
    rewrite app_nil_r, Hfin. split_and!; reflexivity || lia.
  - unfold blk_add_timer.
    set (rq1 := blk_clear_rq_complete _).
    assert (Hc1 : test_bit REQ_ATOM_COMPLETE (atomic_flags rq1) = false).
    { subst rq1. unfold blk_clear_rq_complete.
      cbn [atomic_flags set_atomic_flags].
      apply test_bit_clear_bit_eq. unfold REQ_ATOM_COMPLETE. lia. }
    pose proof (blk_mq_complete_request_first env rq1 error Hc1) as H1.
    cbv zeta in H1. rewrite H1.
    assert (Hfin : forall r, rq_id r = rq_id rq ->
              finalizations (rq_id rq) (__blk_mq_complete_request env r false) = 1%nat).
    { intros r <-. apply __blk_mq_complete_request_finalizes. }
    rewrite finalizations_app, Hfin by reflexivity.
    split_and!; try reflexivity; unfold finalizations; simpl; lia.
  - rewrite (blk_mq_complete_request_already_complete env false rqc error Hcc).
    split_and!; try reflexivity; unfold finalizations; simpl; lia.
Qed.

Lemma blk_mq_check_expired_then_complete_witness :
  blk_mq_request_started example_rq = true /\
  time_after_eq 200 (deadline example_rq) = true /\
  test_bit REQ_ATOM_COMPLETE (atomic_flags example_rq) = false /\
  (finalizations 1
     (snd (blk_mq_check_expired example_env (Some (fun _ _ => BLK_EH_HANDLED)) 200
                                example_rq false (mk_timeout_data 0 false))
      ++ snd (blk_mq_complete_request example_env false
                (fst (fst (blk_mq_check_expired example_env
                             (Some (fun _ _ => BLK_EH_HANDLED)) 200 example_rq
                             false (mk_timeout_data 0 false)))) 0)) <= 1)%nat.
Proof.
  split; [reflexivity|]. split; [reflexivity|]. split; [reflexivity|].
  generalize (blk_mq_check_expired_then_complete example_env
                (Some (fun _ _ => BLK_EH_HANDLED)) 200 example_rq false
                (mk_timeout_data 0 false) 0 eq_refl eq_refl eq_refl).
  destruct (blk_mq_check_expired _ _ _ _ _ _) as [[rq1 d1] tr1]. cbn [fst snd].
  destruct (blk_mq_complete_request _ _ _ _) as [rq2 tr2]. cbn [fst snd].
  intros [H _]. exact H.
Defined.



(** ** Driver tags *)

Lemma probe_order_range (lo hi cur b : Z) :
  In b (probe_order lo hi cur) -> lo <= b < hi.
Proof.
  unfold probe_order. intros Hin.
  set (c := if (lo <=? cur) && (cur <? hi) then cur else lo) in *.
  assert (Hc : lo <= c /\ (c < hi \/ c = lo)).
  { subst c. destruct (Z.leb_spec lo cur), (Z.ltb_spec cur hi); simpl; lia. }
  apply in_app_or in Hin as [Hin|Hin]; apply in_map_iff in Hin as (k & <- & Hk);
    apply in_seq in Hk; lia.
Qed.

Lemma blk_mq_get_tag_spec (reserved : bool) (t : blk_mq_tags) :
  0 <= nr_reserved_tags t <= nr_tags t ->
  let '(b, t') := blk_mq_get_tag reserved t in
  (b = BLK_MQ_TAG_FAIL /\ t' = t) \/
  (0 <= b < nr_tags t /\ test_bit b (bitmap t) = false /\
   t' = set_bitmap (set_bit b (bitmap t)) (b + 1) t).
Proof.
  intros Hr. unfold blk_mq_get_tag.
  destruct (find _ _) as [b|] eqn:Hf; [right|now left].
  apply find_some in Hf as [Hin Hb]. apply probe_order_range in Hin.
  apply negb_true_iff in Hb. split_and!; try reflexivity; try assumption;
    destruct reserved; lia.
Qed.

Lemma to_int_small (b : Z) : 0 <= b < 2 ^ 31 -> to_int b = b.
Proof.
  intros Hb. unfold to_int, uint, UINT_MODULUS.
  change (2 ^ 31) with 2147483648 in *. change (2 ^ 32) with 4294967296.
  rewrite Z.mod_small by lia.
  destruct (Z.ltb_spec b 2147483648); lia.
Qed.

Lemma to_int_tag_fail : to_int BLK_MQ_TAG_FAIL = -1.
Proof. reflexivity. Qed.

Lemma clear_bit_set_bit (n w : Z) :
  0 <= n -> test_bit n w = false -> clear_bit n (set_bit n w) = w.
Proof.
  intros Hn Hb. apply Z.bits_inj'. intros m Hm.
  fold (test_bit m (clear_bit n (set_bit n w))). fold (test_bit m w).
  destruct (Z.eq_dec n m) as [->|Hne].
  - now rewrite test_bit_clear_bit_eq, Hb.
  - now rewrite test_bit_clear_bit_neq, test_bit_set_bit_neq.
Qed.

Lemma blk_mq_tag_to_rq_insert_eq (t : blk_mq_tags) (b : Z) (p : rq_ptr) :
  rqs_allocated t -> 0 <= b < nr_tags t ->
  blk_mq_tag_to_rq (set_rqs (<[Z.to_nat b := p]> (rqs t)) t) b = Value p.
Proof.
  unfold rqs_allocated. intros Ha Hb. unfold blk_mq_tag_to_rq, array_read.
  cbn [nr_tags rqs set_rqs].
  destruct (Z.ltb_spec b (nr_tags t)); [|lia].
  destruct (Z.ltb_spec b 0); [lia|].
  now rewrite list_lookup_insert_eq by lia.
Qed.

Lemma blk_mq_tag_to_rq_insert_ne (t : blk_mq_tags) (b b' : Z) (p : rq_ptr) :
  0 <= b -> b' <> b ->
  blk_mq_tag_to_rq (set_rqs (<[Z.to_nat b := p]> (rqs t)) t) b'
  = blk_mq_tag_to_rq t b'.
Proof.
  intros Hb Hne. unfold blk_mq_tag_to_rq, array_read. cbn [nr_tags rqs set_rqs].
  destruct (b' <? nr_tags t); [|reflexivity].
  destruct (Z.ltb_spec b' 0); [reflexivity|].
  now rewrite list_lookup_insert_ne by lia.
Qed.

(** X5: [blk_mq_get_driver_tag] on a request of a hardware queue with a tag
    pool in order.  A request that holds a driver tag keeps it and nothing
    changes.  For a request without one, success means that the request now
    holds a tag of the pool that was free before and is busy now, and that
    [blk_mq_tag_to_rq] finds the request under this tag while every other tag
    leads where it led before; failure leaves the request, the pool and the
    count of active requests as they were. *)
Theorem blk_mq_get_driver_tag_acquires (q : request_queue) (rq : request)
    (pool : blk_mq_tags) :
  let h := blk_mq_map_queue q (mq_ctx rq) in
  (h < length (queue_hw_ctx q))%nat ->
  tags (hctx_at q h) = Some pool -> pool_wf pool ->
  (tag rq <> -1 -> blk_mq_get_driver_tag q rq = (true, rq, q)) /\
  (tag rq = -1 ->
   let '(got, rq1, q1) := blk_mq_get_driver_tag q rq in
   (got = true ->
    exists pool1,
      tags (hctx_at q1 h) = Some pool1 /\
      0 <= tag rq1 < nr_tags pool /\
      test_bit (tag rq1) (bitmap pool) = false /\
      bitmap pool1 = set_bit (tag rq1) (bitmap pool) /\
      blk_mq_tag_to_rq pool1 (tag rq1) = Value (RQ (rq_id rq)) /\
      (forall t, t <> tag rq1 ->
                 blk_mq_tag_to_rq pool1 t = blk_mq_tag_to_rq pool t)) /\
   (got = false ->
    rq1 = rq /\ tags (hctx_at q1 h) = Some pool /\
    nr_active (hctx_at q1 h) = nr_active (hctx_at q h))).
Proof.
  intros h Hh Hpool (Hr & Hn & Ha). split.
  - intros Ht. unfold blk_mq_get_driver_tag.
    destruct (Z.eqb_spec (tag rq) (-1)); [contradiction|]. reflexivity.
  - intros Ht. unfold blk_mq_get_driver_tag. fold h.
    destruct (Z.eqb_spec (tag rq) (-1)) as [_|Hne]; [|contradiction].
    cbn [negb]. unfold hctx_get_tag. rewrite Hpool.
    pose proof (blk_mq_get_tag_spec
                  (blk_mq_tag_is_reserved (sched_tags (hctx_at q h))
                                          (internal_tag rq)) pool Hr) as Hg.
    destruct (blk_mq_get_tag _ pool) as [b t'].
    destruct Hg as [[-> ->]|(Hb & Hfree & ->)].
    + rewrite to_int_tag_fail. cbn [tag set_tag Z.leb Z.compare Z.eqb negb].
      split; [discriminate|]. intros _.
      rewrite hctx_at_store_eq by exact Hh. cbn [tags nr_active set_tags].
      split_and!; try reflexivity.
      unfold set_tag. rewrite <- Ht. apply request_eta.
    + rewrite to_int_small by lia. cbn [tag set_tag].
      destruct (Z.leb_spec 0 b) as [_|Hneg]; [|lia].
      assert (Hgot : negb (b =? -1) = true).
      { destruct (Z.eqb_spec b (-1)); [lia|reflexivity]. }
      set (hctx1 := set_tags _ (hctx_at q h)).
      destruct (blk_mq_tag_busy hctx1); cbn [tag rq_id set_req_mq_inflight set_tag];
        rewrite Hgot; (split; [|discriminate]); intros _;
        rewrite hctx_at_store_eq by exact Hh;
        unfold hctx_set_rqs; subst hctx1; cbn [tags set_tags set_nr_active];
        eexists; (split; [reflexivity|]);
        cbn [bitmap set_bitmap set_rqs rqs nr_tags];
        (split_and!; try assumption; try reflexivity; try lia).
      all: try (apply (blk_mq_tag_to_rq_insert_eq
                         (set_bitmap (set_bit b (bitmap pool)) (b + 1) pool) b);
                [exact Ha|cbn [nr_tags set_bitmap]; lia]).
      all: intros t Hne;
        apply (blk_mq_tag_to_rq_insert_ne
                 (set_bitmap (set_bit b (bitmap pool)) (b + 1) pool) b t);
        [lia|exact Hne].
Qed.

Lemma example_sched_pool_wf : pool_wf (mk_tags 4 0 0 0 [NULL; NULL; NULL; NULL]).
Proof. unfold pool_wf, rqs_allocated. simpl. lia. Qed.

Lemma blk_mq_get_driver_tag_acquires_witness :
  (blk_mq_map_queue example_sched_queue (mq_ctx example_sched_rq)
   < length (queue_hw_ctx example_sched_queue))%nat /\
  pool_wf (mk_tags 4 0 0 0 [NULL; NULL; NULL; NULL]) /\
  tag example_sched_rq = -1 /\
  exists pool1,
    tags (hctx_at (snd (blk_mq_get_driver_tag example_sched_queue example_sched_rq)) 0)
    = Some pool1 /\
    blk_mq_tag_to_rq pool1
      (tag (snd (fst (blk_mq_get_driver_tag example_sched_queue example_sched_rq))))
    = Value (RQ 1).
Proof.
  assert (Hh : (blk_mq_map_queue example_sched_queue (mq_ctx example_sched_rq)
                < length (queue_hw_ctx example_sched_queue))%nat)
    by (vm_compute; lia).
  split; [exact Hh|]. split; [exact example_sched_pool_wf|].
  split; [reflexivity|].
  generalize (proj2 (blk_mq_get_driver_tag_acquires example_sched_queue
                       example_sched_rq (mk_tags 4 0 0 0 [NULL; NULL; NULL; NULL])
                       Hh eq_refl example_sched_pool_wf) eq_refl).
  destruct (blk_mq_get_driver_tag example_sched_queue example_sched_rq)
    as [[got rq1] q1] eqn:E.
  vm_compute in E. injection E as <- <- <-. intros [Hok _].
  destruct (Hok eq_refl) as (pool1 & Ht & _ & _ & _ & Hlook & _).
  exists pool1. split; [exact Ht|exact Hlook].
Defined.

(** X6: taking a driver tag and giving it back undoes itself.  For a request
    that holds a scheduler tag and no driver tag, [blk_mq_get_driver_tag]
    followed by [blk_mq_put_driver_tag] leaves the request as it was, and the
    hardware queue with the same busy tags and the same count of active
    requests as before, whether the tag was obtained or not; other hardware
    queues are not touched. *)
Theorem blk_mq_get_put_driver_tag (q : request_queue) (rq : request)
    (pool : blk_mq_tags) :
  let h := blk_mq_map_queue q (mq_ctx rq) in
  (h < length (queue_hw_ctx q))%nat ->
  tags (hctx_at q h) = Some pool -> pool_wf pool ->
  tag rq = -1 -> internal_tag rq <> -1 -> req_mq_inflight rq = false ->
  let '(_, rq1, q1) := blk_mq_get_driver_tag q rq in
  let '(q2, rq2) := blk_mq_put_driver_tag q1 rq1 in
  rq2 = rq /\
  nr_active (hctx_at q2 h) = nr_active (hctx_at q h) /\
  (exists pool2, tags (hctx_at q2 h) = Some pool2 /\ bitmap pool2 = bitmap pool) /\
  (forall h', h' <> h -> hctx_at q2 h' = hctx_at q h').
Proof.
  intros h Hh Hpool (Hr & Hn & Ha) Ht Hi Hfl.
  unfold blk_mq_get_driver_tag. fold h.
  destruct (Z.eqb_spec (tag rq) (-1)) as [_|Hne]; [|contradiction].
  cbn [negb]. unfold hctx_get_tag. rewrite Hpool.
  pose proof (blk_mq_get_tag_spec
                (blk_mq_tag_is_reserved (sched_tags (hctx_at q h))
                                        (internal_tag rq)) pool Hr) as Hg.
  destruct (blk_mq_get_tag _ pool) as [b t'].
  destruct Hg as [[-> ->]|(Hb & Hfree & ->)].
  - rewrite to_int_tag_fail. cbn [tag set_tag Z.leb Z.compare].
    unfold blk_mq_put_driver_tag. cbn [tag set_tag Z.eqb Pos.eqb orb].
    rewrite !hctx_at_store_eq by exact Hh. cbn [tags nr_active set_tags].
    split_and!.
    + unfold set_tag. rewrite <- Ht. apply request_eta.
    + reflexivity.
    + now exists pool.
    + intros h' Hne. apply hctx_at_store_ne. congruence.
  - rewrite to_int_small by lia. cbn [tag set_tag].
    destruct (Z.leb_spec 0 b) as [_|Hneg]; [|lia].
    set (hctx1 := set_tags _ (hctx_at q h)).
    destruct (blk_mq_tag_busy hctx1);
      cbn [tag rq_id set_req_mq_inflight set_tag];
      unfold blk_mq_put_driver_tag;
      cbn [tag internal_tag mq_ctx set_req_mq_inflight set_tag];
      (destruct (Z.eqb_spec b (-1)) as [Hb1|_]; [lia|]);
      (destruct (Z.eqb_spec (internal_tag rq) (-1)) as [Hi1|_]; [contradiction|]);
      cbn [orb];
      change (blk_mq_map_queue (store_hctx h _ q) (mq_ctx rq)) with h;
      rewrite hctx_at_store_eq by exact Hh;
      unfold __blk_mq_put_driver_tag, hctx_set_rqs; subst hctx1;
      cbn [tags set_tags set_nr_active req_mq_inflight set_req_mq_inflight
           set_tag tag option_map nr_active];
      rewrite ?Hfl;
      (rewrite hctx_at_store_eq by (rewrite store_hctx_length; exact Hh));
      cbn [tags set_tags set_nr_active nr_active];
      (split_and!;
       [clear - Ht Hfl; destruct rq; cbn in *; subst; reflexivity
       |lia
       |eexists; split; [reflexivity|];
        unfold blk_mq_put_tag; cbn [bitmap set_bitmap set_rqs];
        apply clear_bit_set_bit; [lia|exact Hfree]
       |intros h' Hne; now rewrite !hctx_at_store_ne by congruence]).
Qed.

Lemma blk_mq_get_put_driver_tag_witness :
  (blk_mq_map_queue example_sched_queue (mq_ctx example_sched_rq)
   < length (queue_hw_ctx example_sched_queue))%nat /\
  pool_wf (mk_tags 4 0 0 0 [NULL; NULL; NULL; NULL]) /\
  tag example_sched_rq = -1 /\ internal_tag example_sched_rq <> -1 /\
  req_mq_inflight example_sched_rq = false /\
  snd (blk_mq_put_driver_tag
         (snd (blk_mq_get_driver_tag example_sched_queue example_sched_rq))
         (snd (fst (blk_mq_get_driver_tag example_sched_queue example_sched_rq))))
  = example_sched_rq.
Proof.
  assert (Hh : (blk_mq_map_queue example_sched_queue (mq_ctx example_sched_rq)
                < length (queue_hw_ctx example_sched_queue))%nat)
    by (vm_compute; lia).
  assert (Hi : internal_tag example_sched_rq <> -1) by discriminate.
  split; [exact Hh|]. split; [exact example_sched_pool_wf|].
  split; [reflexivity|]. split; [exact Hi|]. split; [reflexivity|].
  generalize (blk_mq_get_put_driver_tag example_sched_queue example_sched_rq
                (mk_tags 4 0 0 0 [NULL; NULL; NULL; NULL])
                Hh eq_refl example_sched_pool_wf eq_refl Hi eq_refl).
  destruct (blk_mq_get_driver_tag example_sched_queue example_sched_rq)
    as [[got rq1] q1].
  cbn [fst snd]. destruct (blk_mq_put_driver_tag q1 rq1) as [q2 rq2].
  intros [H _]. exact H.
Defined.

Lemma store_hctx_wait_state (q : request_queue) (h : nat) (v : blk_mq_hw_ctx) :
  hctx_wait_state v = hctx_wait_state (hctx_at q h) ->
  forall h', hctx_wait_state (hctx_at (store_hctx h v q) h')
             = hctx_wait_state (hctx_at q h').
Proof.
  intros Hv h'.
  destruct (Nat.lt_ge_cases h (length (queue_hw_ctx q))) as [Hlt|Hge].
  - destruct (Nat.eq_dec h h') as [<-|Hne].
    + now rewrite hctx_at_store_eq.
    + now rewrite hctx_at_store_ne.
  - now rewrite hctx_at_store_ge.
Qed.

Lemma blk_mq_get_driver_tag_wait_state (q : request_queue) (rq : request) (h' : nat) :
  hctx_wait_state (hctx_at (snd (blk_mq_get_driver_tag q rq)) h')
  = hctx_wait_state (hctx_at q h').
Proof.
  unfold blk_mq_get_driver_tag.
  destruct (negb (tag rq =? -1)); [reflexivity|].
  set (h := blk_mq_map_queue q (mq_ctx rq)).
  assert (Hg : hctx_wait_state
                 (snd (hctx_get_tag
                         (blk_mq_tag_is_reserved (sched_tags (hctx_at q h))
                                                 (internal_tag rq))
                         (hctx_at q h)))
               = hctx_wait_state (hctx_at q h)).
  { unfold hctx_get_tag. destruct (tags (hctx_at q h)); [|reflexivity].
    now destruct (blk_mq_get_tag _ _). }
  destruct (hctx_get_tag _ _) as [t hctx1]. cbn [snd] in Hg.
  destruct (0 <=? tag (set_tag (to_int t) rq)).
  - destruct (blk_mq_tag_busy hctx1); cbn [snd];
      apply store_hctx_wait_state; rewrite <- Hg; unfold hctx_set_rqs;
      cbn [tags set_nr_active]; now destruct (tags hctx1).
  - cbn [snd]. now apply store_hctx_wait_state.
Qed.

Lemma blk_mq_get_driver_tag_ret (q : request_queue) (rq : request) :
  fst (fst (blk_mq_get_driver_tag q rq))
  = negb (tag (snd (fst (blk_mq_get_driver_tag q rq))) =? -1).
Proof.
  unfold blk_mq_get_driver_tag.
  destruct (negb (tag rq =? -1)) eqn:E; [cbn [fst snd]; now rewrite E|].
  destruct (hctx_get_tag _ _) as [t hctx1].
  destruct (0 <=? tag (set_tag (to_int t) rq)); [|reflexivity].
  now destruct (blk_mq_tag_busy hctx1).
Qed.

(** X7: [blk_mq_mark_tag_wait], called for a request that failed to get a
    driver tag.  It returns true exactly when the request holds a driver tag
    afterwards.  On a hardware queue whose tags are not shared it leaves the
    RESTART bit set in either case.  On one whose tags are shared: if the
    queue is already hooked to the tag wakeups nothing is tried and nothing
    changes; otherwise the queue ends up hooked to the wakeups exactly when
    the request still has no tag.  The wait state of the other hardware
    queues is not touched. *)
Theorem blk_mq_mark_tag_wait_spec (q : request_queue) (h : nat) (rq : request) :
  (h < length (queue_hw_ctx q))%nat -> tag rq = -1 ->
  let '(ret, rq1, q1) := blk_mq_mark_tag_wait q h rq in
  (ret = true <-> tag rq1 <> -1) /\
  (flag_tag_shared (hctx_at q h) = false ->
   state_sched_restart (hctx_at q1 h) = true /\
   dispatch_wait_queued (hctx_at q1 h) = dispatch_wait_queued (hctx_at q h)) /\
  (flag_tag_shared (hctx_at q h) = true ->
   state_sched_restart (hctx_at q1 h) = state_sched_restart (hctx_at q h) /\
   (dispatch_wait_queued (hctx_at q h) = true ->
    ret = false /\ rq1 = rq /\ q1 = q) /\
   (dispatch_wait_queued (hctx_at q h) = false ->
    dispatch_wait_queued (hctx_at q1 h) = negb ret)) /\
  (forall h', h' <> h ->
     hctx_wait_state (hctx_at q1 h') = hctx_wait_state (hctx_at q h')).
Proof.
  intros Hh Ht. unfold blk_mq_mark_tag_wait.
  assert (Hret : forall q0, let '(ret, rq1, _) := blk_mq_get_driver_tag q0 rq in
                            ret = true <-> tag rq1 <> -1).
  { intros q0. pose proof (blk_mq_get_driver_tag_ret q0 rq) as H.
    destruct (blk_mq_get_driver_tag q0 rq) as [[ret rq1] q1]. cbn [fst snd] in H.
    rewrite H. destruct (Z.eqb_spec (tag rq1) (-1)); simpl; split; congruence. }
  destruct (flag_tag_shared (hctx_at q h)) eqn:Hshared; cbn [negb].
  - destruct (dispatch_wait_queued (hctx_at q h)) eqn:Hq.
    + split_and!; try discriminate; try reflexivity.
      * split; [discriminate|]. intros H. now contradiction H.
      * intros _. split_and!; try reflexivity; try discriminate. now intros _.
    + set (q1 := store_hctx h (set_dispatch_wait_queued true (hctx_at q h)) q).
      pose proof (fun h' => blk_mq_get_driver_tag_wait_state q1 rq h') as Hw.
      pose proof (blk_mq_get_driver_tag_core q1 rq) as (Hlen & _).
      specialize (Hret q1).
      destruct (blk_mq_get_driver_tag q1 rq) as [[ret rq1] q2].
      cbn [snd] in Hw, Hlen.
      assert (Hq1 : hctx_wait_state (hctx_at q2 h)
                    = (true, state_sched_restart (hctx_at q h), true)).
      { rewrite Hw. subst q1. rewrite hctx_at_store_eq by exact Hh.
        unfold hctx_wait_state. cbn. now rewrite Hshared. }
      assert (Hother : forall h', h' <> h ->
                hctx_wait_state (hctx_at q2 h') = hctx_wait_state (hctx_at q h')).
      { intros h' Hne. rewrite Hw. subst q1.
        rewrite hctx_at_store_ne by congruence. reflexivity. }
      assert (Hh2 : (h < length (queue_hw_ctx q2))%nat).
      { rewrite Hlen. subst q1. now rewrite store_hctx_length. }
      injection Hq1 as Hs2 Hr2 Hd2.
      destruct ret; cbn [negb].
      * rewrite hctx_at_store_eq by exact Hh2. cbn.
        split_and!; try discriminate; try reflexivity; try assumption.
        -- intros _. now split_and!.
        -- intros h' Hne. rewrite hctx_at_store_ne by congruence.
           now apply Hother.
      * split_and!; try discriminate; try assumption.
        intros _. split_and!; try discriminate; try assumption. now intros _.
  - set (q1 := if negb (state_sched_restart (hctx_at q h))
               then store_hctx h (set_state_sched_restart true (hctx_at q h)) q
               else q).
    assert (Hq1 : hctx_wait_state (hctx_at q1 h)
                  = (false, true, dispatch_wait_queued (hctx_at q h))).
    { subst q1. destruct (state_sched_restart (hctx_at q h)) eqn:Hr; cbn [negb].
      - unfold hctx_wait_state. now rewrite Hshared, Hr.
      - rewrite hctx_at_store_eq by exact Hh. unfold hctx_wait_state. cbn.
        now rewrite Hshared. }
    assert (Hother : forall h', h' <> h ->
              hctx_wait_state (hctx_at q1 h') = hctx_wait_state (hctx_at q h')).
    { intros h' Hne. subst q1.
      destruct (negb (state_sched_restart (hctx_at q h))); [|reflexivity].
      now rewrite hctx_at_store_ne by congruence. }
    pose proof (fun h' => blk_mq_get_driver_tag_wait_state q1 rq h') as Hw.
    specialize (Hret q1).
    destruct (blk_mq_get_driver_tag q1 rq) as [[ret rq1] q2]. cbn [snd] in Hw.
    rewrite <- Hw in Hq1. injection Hq1 as _ Hr2 Hd2.
    split_and!; try discriminate; try assumption.
    + intros _. now split.
    + intros h' Hne. rewrite Hw. now apply Hother.
Qed.

Lemma blk_mq_mark_tag_wait_spec_witness :
  (0 < length (queue_hw_ctx example_sched_queue))%nat /\
  tag example_sched_rq = -1 /\
  state_sched_restart
    (hctx_at (snd (blk_mq_mark_tag_wait example_sched_queue 0 example_sched_rq)) 0)
  = true.
Proof.
  assert (Hh : (0 < length (queue_hw_ctx example_sched_queue))%nat)
    by (simpl; lia).
  split; [exact Hh|]. split; [reflexivity|].
  generalize (blk_mq_mark_tag_wait_spec example_sched_queue 0 example_sched_rq
                Hh eq_refl).
  destruct (blk_mq_mark_tag_wait example_sched_queue 0 example_sched_rq)
    as [[ret rq1] q1].
  cbn [snd]. intros (_ & Hns & _). exact (proj1 (Hns eq_refl)).
Defined.

(** ** The dispatch histogram *)

Lemma queued_to_index_range (max_order queued : Z) :
  0 < max_order -> 0 <= queued ->
  0 <= queued_to_index max_order queued < max_order.
Proof.
  intros Hm Hq. unfold queued_to_index.
  destruct (Z.eqb_spec queued 0); [lia|].
  pose proof (Z.log2_nonneg queued). lia.
Qed.

Lemma queued_to_index_bucket (max_order queued k : Z) :
  0 < k -> 2 ^ (k - 1) <= queued < 2 ^ k ->
  queued_to_index max_order queued = Z.min (max_order - 1) k.
Proof.
  intros Hk Hq. unfold queued_to_index.
  assert (Hpos : 0 < 2 ^ (k - 1)) by (apply Z.pow_pos_nonneg; lia).
  destruct (Z.eqb_spec queued 0); [lia|].
  rewrite (Z.log2_unique queued (k - 1)); [f_equal; lia|lia|].
  replace (Z.succ (k - 1)) with k by lia. exact Hq.
Qed.

(** X8: the histogram update at the end of a dispatch,
    [hctx->dispatched[queued_to_index(queued)]++].  With a histogram of at
    least one bucket the index lies within the array; bucket 0 counts the
    dispatches that queued nothing, bucket [k] those that queued at least
    2^(k-1) and less than 2^k requests, and the last bucket everything
    beyond; the update adds one to that bucket and leaves the length of the
    array and every other bucket as they are. *)
Theorem count_dispatched_spec (queued : Z) (hctx : blk_mq_hw_ctx) :
  dispatched hctx <> [] -> 0 <= queued ->
  let max_order := Z.of_nat (length (dispatched hctx)) in
  let idx := Z.to_nat (queued_to_index max_order queued) in
  (idx < length (dispatched hctx))%nat /\
  (queued = 0 -> idx = 0%nat) /\
  (forall k, 0 < k -> 2 ^ (k - 1) <= queued < 2 ^ k ->
             Z.of_nat idx = Z.min (max_order - 1) k) /\
  length (dispatched (count_dispatched queued hctx)) = length (dispatched hctx) /\
  (exists n, dispatched hctx !! idx = Some n /\
             dispatched (count_dispatched queued hctx) !! idx = Some (ulong (n + 1))) /\
  (forall i, i <> idx ->
             dispatched (count_dispatched queued hctx) !! i = dispatched hctx !! i).
Proof.
  intros Hne Hq max_order idx.
  assert (Hm : 0 < max_order).
  { subst max_order. destruct (dispatched hctx); [contradiction|]. simpl. lia. }
  pose proof (queued_to_index_range max_order queued Hm Hq) as Hr.
  assert (Hidx : (idx < length (dispatched hctx))%nat) by (subst idx max_order; lia).
  split_and!.
  - exact Hidx.
  - intros ->. reflexivity.
  - intros k Hk Hb. subst idx. rewrite Z2Nat.id by lia.
    now apply queued_to_index_bucket.
  - unfold count_dispatched. cbn [dispatched set_dispatched]. apply length_alter.
  - destruct (lookup_lt_is_Some_2 (dispatched hctx) idx Hidx) as [n Hn].
    exists n. split; [exact Hn|].
    unfold count_dispatched. cbn [dispatched set_dispatched].
    fold max_order. fold idx. now rewrite list_lookup_alter_eq, Hn.
  - intros i Hi. unfold count_dispatched. cbn [dispatched set_dispatched].
    fold max_order. fold idx. apply list_lookup_alter_ne. congruence.
Qed.

Lemma count_dispatched_spec_witness :
  dispatched example_hctx <> [] /\ 0 <= 5 /\
  dispatched (count_dispatched 5 example_hctx) !! 3%nat = Some 1.
Proof.
  assert (Hne : dispatched example_hctx <> []) by discriminate.
  split; [exact Hne|]. split; [lia|].
  destruct (count_dispatched_spec 5 example_hctx Hne ltac:(lia))
    as (_ & _ & _ & _ & (n & Hn & Hc) & _).
  vm_compute in Hn. injection Hn as <-. exact Hc.
Defined.

(** ** Stopping and starting hardware queues *)

Lemma request_queue_eta (q : request_queue) :
  set_queue_hw_ctx (queue_hw_ctx q) q = q.
Proof. now destruct q. Qed.

(** A loop over the hardware queues whose body rewrites the hardware queue
    it visits, and reads nothing else that the loop changes, rewrites each of
    them in turn. *)
Lemma queue_for_each_hw_ctx_map {E : Type} (F : blk_mq_hw_ctx -> blk_mq_hw_ctx)
    (T : nat -> blk_mq_hw_ctx -> list E)
    (body : nat -> request_queue -> request_queue * list E) (q0 : request_queue) :
  (forall h l x, l !! h = Some x ->
     body h (set_queue_hw_ctx l q0)
     = (set_queue_hw_ctx (<[h := F x]> l) q0, T h x)) ->
  forall todo done,
    queue_for_each_hw_ctx body (seq (length done) (length todo))
                          (set_queue_hw_ctx (done ++ todo) q0)
    = (set_queue_hw_ctx (done ++ map F todo) q0,
       concat (imap (fun i => T (length done + i)%nat) todo)).
Proof.
  intros Hbody. induction todo as [|x todo IH]; intros done.
  - reflexivity.
  - cbn [length seq queue_for_each_hw_ctx].
    rewrite (Hbody (length done) (done ++ x :: todo) x)
      by now apply list_lookup_middle.
    rewrite insert_app_r_alt by lia. rewrite Nat.sub_diag.
    change (<[0%nat := F x]> (x :: todo)) with (F x :: todo).
    specialize (IH (done ++ [F x])).
    rewrite length_app, <- !app_assoc in IH. cbn [length app] in IH.
    rewrite Nat.add_1_r in IH. rewrite IH. cbn [map].
    rewrite imap_cons. cbn [concat]. rewrite Nat.add_0_r.
    do 3 f_equal. apply imap_ext. intros i y _. cbn. f_equal. lia.
Qed.

Lemma queue_for_each_hw_ctx_all {E : Type} (F : blk_mq_hw_ctx -> blk_mq_hw_ctx)
    (T : nat -> blk_mq_hw_ctx -> list E)
    (body : nat -> request_queue -> request_queue * list E) (q : request_queue) :
  (forall h l x, l !! h = Some x ->
     body h (set_queue_hw_ctx l q)
     = (set_queue_hw_ctx (<[h := F x]> l) q, T h x)) ->
  queue_for_each_hw_ctx body (hw_queues q) q
  = (set_queue_hw_ctx (map F (queue_hw_ctx q)) q, concat (imap T (queue_hw_ctx q))).
Proof.
  intros Hbody.
  pose proof (queue_for_each_hw_ctx_map F T body q Hbody (queue_hw_ctx q) [])
    as H.
  cbn [length app] in H. rewrite request_queue_eta in H. exact H.
Qed.

Lemma lookup_map_Some {A B : Type} (f : A -> B) (l : list A) (i : nat) (y : B) :
  map f l !! i = Some y <-> exists x, l !! i = Some x /\ y = f x.
Proof.
  revert i. induction l as [|a l IH]; intros i.
  - split; [discriminate|]. now intros (x & Hx & _).
  - destruct i as [|i]; simpl.
    + split.
      * intros [= <-]. now exists a.
      * intros (x & [= <-] & ->). reflexivity.
    + apply IH.
Qed.

Lemma concat_imap_nil {A B : Type} (f : nat -> A -> list B) (l : list A) :
  (forall i x, l !! i = Some x -> f i x = []) -> concat (imap f l) = [].
Proof.
  intros H. apply elem_of_nil_inv. intros y Hy.
  apply elem_of_concat_imap in Hy as (i & x & Hl & Hin).
  rewrite (H i x Hl) in Hin. now apply elem_of_nil in Hin.
Qed.

Lemma __blk_mq_delay_run_hw_queue_stopped (hctx : blk_mq_hw_ctx) (h cpu : nat)
    (async : bool) (msecs : Z) :
  blk_mq_hctx_stopped hctx = true \/ blk_mq_hw_queue_mapped hctx = false ->
  __blk_mq_delay_run_hw_queue hctx h cpu async msecs = [].
Proof.
  intros [H|H]; unfold __blk_mq_delay_run_hw_queue; rewrite H;
    [reflexivity|now rewrite orb_true_r].
Qed.

Lemma hctx_at_set_queue_hw_ctx_map (F : blk_mq_hw_ctx -> blk_mq_hw_ctx)
    (q : request_queue) (h : nat) :
  hctx_at (set_queue_hw_ctx (map F (queue_hw_ctx q)) q) h
  = match queue_hw_ctx q !! h with
    | Some x => F x
    | None => unmapped_hctx
    end.
Proof.
  unfold hctx_at. cbn [queue_hw_ctx set_queue_hw_ctx].
  destruct (queue_hw_ctx q !! h) as [x|] eqn:Hl.
  - assert (H : map F (queue_hw_ctx q) !! h = Some (F x))
      by (apply lookup_map_Some; now exists x).
    now rewrite H.
  - destruct (map F (queue_hw_ctx q) !! h) as [y|] eqn:Hm; [|reflexivity].
    apply lookup_map_Some in Hm as (x & Hx & _). congruence.
Qed.

(** X9: [blk_mq_stop_hw_queues] sets STOPPED on every hardware queue and
    cancels both work items of each, touching nothing else; afterwards
    [blk_mq_queue_stopped] answers true unless the queue has no hardware
    queue at all, and neither [blk_mq_run_hw_queues] nor [blk_mq_run_hw_queue]
    nor [blk_mq_delay_run_hw_queue] starts or schedules a run of any hardware
    queue. *)
Theorem blk_mq_stop_hw_queues_spec (q : request_queue) (cpu : nat) (async : bool) :
  let '(q', tr) := blk_mq_stop_hw_queues q in
  q' = set_queue_hw_ctx (map (set_state_stopped true) (queue_hw_ctx q)) q /\
  tr = concat (imap (fun h _ => [W_cancel_run_work h; W_cancel_delay_work h])
                    (queue_hw_ctx q)) /\
  blk_mq_queue_stopped q' = negb (bool_decide (queue_hw_ctx q = [])) /\
  blk_mq_run_hw_queues q' cpu async = [] /\
  (forall h msecs,
     snd (blk_mq_run_hw_queue q' h cpu async) = [] /\
     blk_mq_delay_run_hw_queue (hctx_at q' h) h cpu msecs = []).
Proof.
  unfold blk_mq_stop_hw_queues.
  rewrite (queue_for_each_hw_ctx_all (set_state_stopped true)
             (fun h _ => [W_cancel_run_work h; W_cancel_delay_work h])).
  2: { intros h l x Hl. unfold blk_mq_stop_hw_queue, store_hctx, hctx_at.
       cbn [queue_hw_ctx set_queue_hw_ctx]. now rewrite Hl. }
  set (q' := set_queue_hw_ctx _ q).
  assert (Hstop : forall h, blk_mq_hctx_stopped (hctx_at q' h) = true
                            \/ blk_mq_hw_queue_mapped (hctx_at q' h) = false).
  { intros h. subst q'. rewrite hctx_at_set_queue_hw_ctx_map.
    destruct (queue_hw_ctx q !! h); [now left|now right]. }
  split_and!; try reflexivity.
  - subst q'. unfold blk_mq_queue_stopped. cbn [queue_hw_ctx set_queue_hw_ctx].
    now destruct (queue_hw_ctx q).
  - unfold blk_mq_run_hw_queues. apply concat_imap_nil. intros i x Hi.
    destruct (blk_mq_hctx_stopped x) eqn:Hx; [reflexivity|].
    unfold blk_mq_run_hw_queue.
    destruct (negb (queue_flag_quiesced q') && _); [|reflexivity].
    cbn [snd]. apply __blk_mq_delay_run_hw_queue_stopped.
    destruct (Hstop i) as [H|H]; [|now right].
    unfold hctx_at in H. rewrite Hi in H. cbn in H. congruence.
  - intros h msecs. split.
    + unfold blk_mq_run_hw_queue.
      destruct (negb (queue_flag_quiesced q') && _); [|reflexivity].
      cbn [snd]. now apply __blk_mq_delay_run_hw_queue_stopped.
    + unfold blk_mq_delay_run_hw_queue.
      now apply __blk_mq_delay_run_hw_queue_stopped.
Qed.

Lemma set_state_stopped_id (x : blk_mq_hw_ctx) :
  state_stopped x = false -> set_state_stopped false x = x.
Proof. intros H. destruct x. cbn in *. now subst. Qed.

Lemma blk_mq_start_stopped_hw_queues_eq (cpu : nat) (async : bool)
    (q : request_queue) :
  blk_mq_start_stopped_hw_queues cpu async q
  = (set_queue_hw_ctx (map (set_state_stopped false) (queue_hw_ctx q)) q,
     concat (imap (fun h x =>
                     if negb (state_stopped x) then []
                     else if negb (queue_flag_quiesced q)
                             && blk_mq_hctx_has_pending x
                          then __blk_mq_delay_run_hw_queue
                                 (set_state_stopped false x) h cpu async 0
                          else [])
                  (queue_hw_ctx q))).
Proof.
  unfold blk_mq_start_stopped_hw_queues.
  apply (queue_for_each_hw_ctx_all (set_state_stopped false)).
  intros h l x Hl. unfold blk_mq_hctx_stopped, store_hctx, hctx_at.
  cbn [queue_hw_ctx set_queue_hw_ctx]. rewrite Hl. cbn [default from_option id].
  destruct (state_stopped x) eqn:Hx; cbn [negb].
  - unfold blk_mq_run_hw_queue, hctx_at. cbn [queue_hw_ctx set_queue_hw_ctx
      queue_flag_quiesced].
    rewrite list_lookup_insert_eq by now apply (lookup_lt_Some _ _ _ Hl).
    cbn [default from_option id].
    change (blk_mq_hctx_has_pending (set_state_stopped false x))
      with (blk_mq_hctx_has_pending x).
    now destruct (negb (queue_flag_quiesced q) && blk_mq_hctx_has_pending x).
  - rewrite set_state_stopped_id by exact Hx.
    now rewrite list_insert_id by exact Hl.
Qed.

(** X10: [blk_mq_start_stopped_hw_queues] clears STOPPED on every hardware
    queue and touches nothing else, so that [blk_mq_queue_stopped] answers
    false afterwards; only hardware queues that were stopped are run, and
    none when the queue is quiesced; and every hardware queue that was
    stopped, is mapped and has work pending gets its run, started on the spot
    or handed to kblockd, unless the queue is quiesced. *)
Theorem blk_mq_start_stopped_hw_queues_spec (cpu : nat) (async : bool)
    (q : request_queue) :
  let '(q', tr) := blk_mq_start_stopped_hw_queues cpu async q in
  q' = set_queue_hw_ctx (map (set_state_stopped false) (queue_hw_ctx q)) q /\
  blk_mq_queue_stopped q' = false /\
  (forall e, In e tr ->
     exists h hctx,
       (e = Ev_run_hw_queue h \/ e = Ev_run_work h 0) /\
       queue_hw_ctx q !! h = Some hctx /\ state_stopped hctx = true /\
       queue_flag_quiesced q = false) /\
  (forall h hctx,
     queue_hw_ctx q !! h = Some hctx -> state_stopped hctx = true ->
     queue_flag_quiesced q = false -> blk_mq_hctx_has_pending hctx = true ->
     blk_mq_hw_queue_mapped hctx = true ->
     In (Ev_run_hw_queue h) tr \/ In (Ev_run_work h 0) tr).
Proof.
  rewrite blk_mq_start_stopped_hw_queues_eq. split_and!.
  - reflexivity.
  - unfold blk_mq_queue_stopped. cbn [queue_hw_ctx set_queue_hw_ctx].
    induction (queue_hw_ctx q) as [|x l IH]; [reflexivity|]. exact IH.
  - intros e He. apply list_elem_of_In in He.
    apply elem_of_concat_imap in He as (h & x & Hl & Hin).
    destruct (state_stopped x) eqn:Hx; cbn [negb] in Hin;
      [|now apply elem_of_nil in Hin].
    destruct (queue_flag_quiesced q) eqn:Hq; cbn [negb andb] in Hin;
      [now apply elem_of_nil in Hin|].
    destruct (blk_mq_hctx_has_pending x); [|now apply elem_of_nil in Hin].
    exists h, x. split_and!; try assumption; try reflexivity.
    unfold __blk_mq_delay_run_hw_queue in Hin.
    destruct (_ || _); [now apply elem_of_nil in Hin|].
    destruct (_ && _); apply list_elem_of_singleton in Hin; subst e;
      [now left|now right].
  - intros h x Hl Hx Hq Hp Hm.
    assert (Hin : forall e,
              e ∈ __blk_mq_delay_run_hw_queue (set_state_stopped false x) h cpu async 0 ->
              In e (concat (imap (fun h x =>
                     if negb (state_stopped x) then []
                     else if negb (queue_flag_quiesced q)
                             && blk_mq_hctx_has_pending x
                          then __blk_mq_delay_run_hw_queue
                                 (set_state_stopped false x) h cpu async 0
                          else [])
                  (queue_hw_ctx q)))).
    { intros e He. apply list_elem_of_In. apply elem_of_concat_imap.
      exists h, x. split; [exact Hl|]. now rewrite Hx, Hq, Hp. }
    unfold __blk_mq_delay_run_hw_queue in Hin.
    change (blk_mq_hctx_stopped (set_state_stopped false x)) with false in Hin.
    change (blk_mq_hw_queue_mapped (set_state_stopped false x))
      with (blk_mq_hw_queue_mapped x) in Hin.
    rewrite Hm in Hin. cbn [negb orb] in Hin.
    destruct (_ && _); [left|right]; apply Hin; now apply list_elem_of_singleton.
Qed.

Lemma blk_mq_start_hw_queues_eq (cpu : nat) (q : request_queue) :
  blk_mq_start_hw_queues cpu q
  = (set_queue_hw_ctx (map (set_state_stopped false) (queue_hw_ctx q)) q,
     concat (imap (fun h x =>
                     if negb (queue_flag_quiesced q) && blk_mq_hctx_has_pending x
                     then __blk_mq_delay_run_hw_queue
                            (set_state_stopped false x) h cpu false 0
                     else [])
                  (queue_hw_ctx q))).
Proof.
  unfold blk_mq_start_hw_queues.
  apply (queue_for_each_hw_ctx_all (set_state_stopped false)).
  intros h l x Hl. unfold blk_mq_start_hw_queue, store_hctx, hctx_at.
  cbn [queue_hw_ctx set_queue_hw_ctx]. rewrite Hl. cbn [default from_option id].
  unfold blk_mq_run_hw_queue, hctx_at.
  cbn [queue_hw_ctx set_queue_hw_ctx queue_flag_quiesced].
  rewrite list_lookup_insert_eq by now apply (lookup_lt_Some _ _ _ Hl).
  cbn [default from_option id].
  change (blk_mq_hctx_has_pending (set_state_stopped false x))
    with (blk_mq_hctx_has_pending x).
  now destruct (negb (queue_flag_quiesced q) && blk_mq_hctx_has_pending x).
Qed.

(** X11: stopping and starting undo each other.  On a queue none of whose
    hardware queues is stopped, [blk_mq_stop_hw_queues] followed by
    [blk_mq_start_hw_queues] gives back the queue as it was, and the start
    runs every hardware queue that is mapped and has work pending, unless
    the queue is quiesced. *)
Theorem blk_mq_stop_start_hw_queues (cpu : nat) (q : request_queue) :
  blk_mq_queue_stopped q = false ->
  let '(q', tr) := blk_mq_start_hw_queues cpu (fst (blk_mq_stop_hw_queues q)) in
  q' = q /\
  (forall h hctx,
     queue_hw_ctx q !! h = Some hctx ->
     queue_flag_quiesced q = false -> blk_mq_hctx_has_pending hctx = true ->
     blk_mq_hw_queue_mapped hctx = true ->
     In (Ev_run_hw_queue h) tr \/ In (Ev_run_work h 0) tr).
Proof.
  intros Hns.
  assert (Hstop : fst (blk_mq_stop_hw_queues q)
                  = set_queue_hw_ctx (map (set_state_stopped true) (queue_hw_ctx q)) q).
  { unfold blk_mq_stop_hw_queues.
    rewrite (queue_for_each_hw_ctx_all (set_state_stopped true)
               (fun h _ => [W_cancel_run_work h; W_cancel_delay_work h]));
      [reflexivity|].
    intros h l x Hl. unfold blk_mq_stop_hw_queue, store_hctx, hctx_at.
    cbn [queue_hw_ctx set_queue_hw_ctx]. now rewrite Hl. }
  rewrite Hstop, blk_mq_start_hw_queues_eq.
  cbn [queue_hw_ctx set_queue_hw_ctx queue_flag_quiesced]. split.
  - assert (Hmap : map (set_state_stopped false)
                       (map (set_state_stopped true) (queue_hw_ctx q))
                   = queue_hw_ctx q).
    { unfold blk_mq_queue_stopped in Hns. clear Hstop.
      induction (queue_hw_ctx q) as [|x l IH]; [reflexivity|].
      cbn in Hns. apply orb_false_iff in Hns as [Hx Hl]. cbn.
      rewrite (IH Hl). f_equal.
      change (set_state_stopped false (set_state_stopped true x))
        with (set_state_stopped false x).
      now apply set_state_stopped_id. }
    unfold set_queue_hw_ctx. cbn. rewrite Hmap. now destruct q.
  - intros h x Hl Hq Hp Hm.
    assert (Hin : forall e,
              e ∈ __blk_mq_delay_run_hw_queue (set_state_stopped false x) h cpu false 0 ->
              In e (concat (imap (fun h x =>
                     if negb (queue_flag_quiesced q) && blk_mq_hctx_has_pending x
                     then __blk_mq_delay_run_hw_queue
                            (set_state_stopped false x) h cpu false 0
                     else [])
                  (map (set_state_stopped true) (queue_hw_ctx q))))).
    { intros e He. apply list_elem_of_In. apply elem_of_concat_imap.
      exists h, (set_state_stopped true x). split.
      - apply lookup_map_Some. now exists x.
      - change (blk_mq_hctx_has_pending (set_state_stopped true x))
          with (blk_mq_hctx_has_pending x).
        now rewrite Hq, Hp. }
    unfold __blk_mq_delay_run_hw_queue in Hin.
    change (blk_mq_hctx_stopped (set_state_stopped false x)) with false in Hin.
    change (blk_mq_hw_queue_mapped (set_state_stopped false x))
      with (blk_mq_hw_queue_mapped x) in Hin.
    rewrite Hm in Hin. cbn [negb orb] in Hin.
    destruct (_ && _); [left|right]; apply Hin; now apply list_elem_of_singleton.
Qed.

Lemma blk_mq_stop_start_hw_queues_witness :
  blk_mq_queue_stopped example_queue = false /\
  fst (blk_mq_start_hw_queues 0 (fst (blk_mq_stop_hw_queues example_queue)))
  = example_queue.
Proof.
  split; [reflexivity|].
  generalize (blk_mq_stop_start_hw_queues 0%nat example_queue eq_refl).
  destruct (blk_mq_start_hw_queues 0 (fst (blk_mq_stop_hw_queues example_queue)))
    as [q' tr].
  intros [H _]. exact H.
Defined.

(** ** Direct issue *)

Lemma dispatch_grows_refl (q : request_queue) : dispatch_grows q q [].
Proof. split_and!; try reflexivity. intros h. cbn. now rewrite app_nil_r. Qed.

Lemma dispatch_grows_trans (q q1 q2 : request_queue) (a1 a2 : list request) :
  dispatch_grows q q1 a1 -> dispatch_grows q1 q2 a2 ->
  dispatch_grows q q2 (a1 ++ a2).
Proof.
  intros (Hl1 & Hm1 & Hd1) (Hl2 & Hm2 & Hd2). split_and!; try congruence.
  intros h. rewrite Hd2, Hd1, List.filter_app, <- app_assoc. do 2 f_equal.
  apply List.filter_ext. intros rq. unfold blk_mq_map_queue. now rewrite Hm1.
Qed.

Lemma dispatch_grows_map_wf (q q' : request_queue) (added : list request) :
  dispatch_grows q q' added -> map_wf q -> map_wf q'.
Proof.
  intros (Hl & Hm & _) Hwf cpu. unfold blk_mq_map_queue. rewrite Hl, Hm.
  apply Hwf.
Qed.

Lemma dispatch_grows_map_queue (q q' : request_queue) (added : list request)
    (cpu : nat) :
  dispatch_grows q q' added -> blk_mq_map_queue q' cpu = blk_mq_map_queue q cpu.
Proof. intros (_ & Hm & _). unfold blk_mq_map_queue. now rewrite Hm. Qed.

Lemma core_same_dispatch_grows (q q' : request_queue) :
  core_same q q' -> dispatch_grows q q' [].
Proof.
  intros (Hl & Hm & _ & _ & Hc). split_and!; try assumption.
  intros h. cbn. rewrite app_nil_r.
  now destruct (hctx_core_fields _ _ (Hc h)) as (Hd & _).
Qed.

Lemma store_hctx_dispatch_grows (q : request_queue) (h : nat) (v : blk_mq_hw_ctx) :
  dispatch v = dispatch (hctx_at q h) -> dispatch_grows q (store_hctx h v q) [].
Proof.
  intros Hv. split_and!.
  - apply store_hctx_length.
  - reflexivity.
  - intros h'. cbn. rewrite app_nil_r.
    destruct (Nat.eq_dec h h') as [<-|Hne].
    + destruct (Nat.lt_ge_cases h (length (queue_hw_ctx q))) as [Hlt|Hge].
      * now rewrite hctx_at_store_eq.
      * now rewrite hctx_at_store_ge.
    + now rewrite hctx_at_store_ne.
Qed.

Lemma blk_mq_request_bypass_insert_spec (cpu : nat) (q : request_queue)
    (rq : request) (run_queue : bool) :
  map_wf q ->
  let '(q1, tr) := blk_mq_request_bypass_insert cpu q rq run_queue in
  dispatch_grows q q1 [rq] /\
  accepted tr = 0%nat /\ errored tr = 0%nat /\ no_queue_rq tr /\
  (run_queue = false -> tr = []).
Proof.
  intros Hwf. unfold blk_mq_request_bypass_insert.
  set (h := blk_mq_map_queue q (mq_ctx rq)).
  assert (Hh : (h < length (queue_hw_ctx q))%nat) by apply Hwf.
  split_and!.
  - split_and!; [apply store_hctx_length|reflexivity|].
    intros h'. cbn [List.filter]. fold h.
    destruct (Nat.eqb_spec h h') as [<-|Hne].
    + now rewrite hctx_at_store_eq.
    + rewrite hctx_at_store_ne by exact Hne. now rewrite app_nil_r.
  - destruct run_queue; [apply blk_mq_run_hw_queue_trace|reflexivity].
  - destruct run_queue; [apply blk_mq_run_hw_queue_trace|reflexivity].
  - destruct run_queue; [apply blk_mq_run_hw_queue_trace|constructor].
  - now intros ->.
Qed.

Lemma blk_mq_update_dispatch_busy_grows (q : request_queue) (h : nat) (busy : bool) :
  dispatch_grows q
    (store_hctx h (blk_mq_update_dispatch_busy (elevator q) (hctx_at q h) busy) q) [].
Proof.
  apply store_hctx_dispatch_grows.
  now destruct (blk_mq_update_dispatch_busy_core (elevator q) (hctx_at q h) busy).
Qed.

(** What the driver was asked in a trace: the calls of [queue_rq]. *)
Lemma __blk_mq_issue_directly_spec {D : Type} (ops : blk_mq_ops D) (jiffies : Z)
    (q : request_queue) (drv : D) (h : nat) (rq : request) :
  let '(ret, rq1, q1, _, tr) := __blk_mq_issue_directly ops jiffies q drv h rq in
  rq_id rq1 = rq_id rq /\ mq_ctx rq1 = mq_ctx rq /\
  dispatch_grows q q1 [] /\ errored tr = 0%nat /\
  accepted tr = (match ret with BLK_MQ_RQ_QUEUE_OK => 1 | _ => 0 end)%nat /\
  length (List.filter is_queue_rq tr) = 1%nat /\
  (is_busy_ret ret = true -> blk_mq_request_started rq1 = false).
Proof.
  unfold __blk_mq_issue_directly.
  destruct (queue_rq ops drv h (mk_bd rq false true)) as [[ret started] drv1].
  set (res := if started then blk_mq_start_request jiffies rq else (rq, [])).
  assert (Hres : rq_id (fst res) = rq_id rq /\ mq_ctx (fst res) = mq_ctx rq /\
                 accepted (snd res) = 0%nat /\ errored (snd res) = 0%nat /\
                 List.filter is_queue_rq (snd res) = []).
  { subst res. destruct started; now split_and!. }
  destruct res as [rq1 tr_start]. cbn [fst snd] in Hres.
  destruct Hres as (Hid & Hmq & Hacc & Herr & Hq).
  assert (Htr : forall r,
            errored (tr_start ++ [Ev_queue_rq (rq_id rq1) (tag rq1) true r]) = 0%nat /\
            accepted (tr_start ++ [Ev_queue_rq (rq_id rq1) (tag rq1) true r])
            = (match r with BLK_MQ_RQ_QUEUE_OK => 1 | _ => 0 end)%nat /\
            length (List.filter is_queue_rq
                      (tr_start ++ [Ev_queue_rq (rq_id rq1) (tag rq1) true r]))
            = 1%nat).
  { intros r. rewrite errored_app, accepted_app, List.filter_app, Herr, Hacc, Hq.
    now destruct r. }
  assert (Hbusy : forall r, is_busy_ret r = true ->
            let q1 := store_hctx h (blk_mq_update_dispatch_busy (elevator q)
                                      (hctx_at q h) true) q in
            let '(q2, rq2) := __blk_mq_requeue_request q1 rq1 in
            rq_id rq2 = rq_id rq /\ mq_ctx rq2 = mq_ctx rq /\
            dispatch_grows q q2 [] /\ blk_mq_request_started rq2 = false).
  { intros r _ q1.
    pose proof (__blk_mq_requeue_request_spec q1 rq1) as Hs.
    pose proof (__blk_mq_requeue_request_core q1 rq1) as Hc.
    destruct (__blk_mq_requeue_request q1 rq1) as [q2 rq2]. cbn [fst] in Hc.
    destruct Hs as (Hid2 & Hmq2 & Hst & _).
    split_and!; try congruence; [|exact Hst].
    apply (dispatch_grows_trans q q1 q2 [] []).
    - subst q1. apply blk_mq_update_dispatch_busy_grows.
    - now apply core_same_dispatch_grows. }
  destruct ret as [| | | |code].
  - destruct (Htr BLK_MQ_RQ_QUEUE_OK) as (He & Ha & Hn).
    split_and!; try assumption; try discriminate.
    apply blk_mq_update_dispatch_busy_grows.
  - specialize (Hbusy BLK_MQ_RQ_QUEUE_BUSY eq_refl). cbv zeta in Hbusy.
    destruct (__blk_mq_requeue_request _ rq1) as [q2 rq2].
    destruct Hbusy as (H1 & H2 & H3 & H4).
    destruct (Htr BLK_MQ_RQ_QUEUE_BUSY) as (He & Ha & Hn).
    now split_and!.
  - destruct (Htr BLK_MQ_RQ_QUEUE_ERROR) as (He & Ha & Hn).
    split_and!; try assumption; try discriminate.
    apply blk_mq_update_dispatch_busy_grows.
  - specialize (Hbusy BLK_MQ_RQ_QUEUE_DEV_BUSY eq_refl). cbv zeta in Hbusy.
    destruct (__blk_mq_requeue_request _ rq1) as [q2 rq2].
    destruct Hbusy as (H1 & H2 & H3 & H4).
    destruct (Htr BLK_MQ_RQ_QUEUE_DEV_BUSY) as (He & Ha & Hn).
    now split_and!.
  - destruct (Htr (BLK_MQ_RQ_QUEUE_BAD code)) as (He & Ha & Hn).
    split_and!; try assumption; try discriminate.
    apply blk_mq_update_dispatch_busy_grows.
Qed.

Lemma no_queue_rq_filter (tr : list event) :
  no_queue_rq tr -> List.filter is_queue_rq tr = [].
Proof.
  unfold no_queue_rq. induction 1 as [|e tr He _ IH]; [reflexivity|].
  cbn. destruct e; try exact IH. destruct He.
Qed.

Lemma issue_insert_spec {D : Type} (cpu : nat) (bypass_insert run_queue : bool)
    (q : request_queue) (drv : D) (rq : request) :
  map_wf q ->
  let '(ret, rq1, q1, drv1, tr) :=
    issue_insert cpu bypass_insert run_queue q drv rq in
  rq1 = rq /\ drv1 = drv /\ errored tr = 0%nat /\ accepted tr = 0%nat /\
  List.filter is_queue_rq tr = [] /\
  (bypass_insert = true -> ret = BLK_MQ_RQ_QUEUE_BUSY /\ q1 = q /\ tr = []) /\
  (bypass_insert = false ->
   ret = BLK_MQ_RQ_QUEUE_OK /\ dispatch_grows q q1 [rq] /\
   (run_queue = false -> tr = [])).
Proof.
  intros Hwf. unfold issue_insert. destruct bypass_insert.
  - split_and!; try reflexivity; try discriminate. now intros _.
  - pose proof (blk_mq_request_bypass_insert_spec cpu q rq run_queue Hwf) as H.
    destruct (blk_mq_request_bypass_insert cpu q rq run_queue) as [q1 tr].
    destruct H as (Hg & Ha & He & Hn & Hr).
    split_and!; try reflexivity; try assumption; try discriminate.
    + now apply no_queue_rq_filter.
    + intros _. now split_and!.
Qed.

Lemma __blk_mq_try_issue_directly_spec {D : Type} (ops : blk_mq_ops D)
    (jiffies : Z) (cpu : nat) (q : request_queue) (drv : D) (h : nat)
    (rq : request) (bypass_insert : bool) :
  map_wf q ->
  let '(ret, rq1, q1, drv1, tr) :=
    __blk_mq_try_issue_directly ops jiffies cpu q drv h rq bypass_insert in
  rq_id rq1 = rq_id rq /\ mq_ctx rq1 = mq_ctx rq /\ errored tr = 0%nat /\
  (length (List.filter is_queue_rq tr) <= 1)%nat /\
  exists added,
    dispatch_grows q q1 added /\ (added = [] \/ added = [rq1]) /\
    (accepted tr + length added
     = match ret with BLK_MQ_RQ_QUEUE_OK => 1 | _ => 0 end)%nat /\
    (blk_mq_hctx_stopped (hctx_at q h) || queue_flag_quiesced q = true ->
     ret = BLK_MQ_RQ_QUEUE_OK /\ added = [rq] /\ rq1 = rq /\ tr = [] /\ drv1 = drv) /\
    (blk_mq_hctx_stopped (hctx_at q h) || queue_flag_quiesced q = false ->
     bypass_insert = true -> added = []) /\
    (is_busy_ret ret = true -> added = []).
Proof.
  intros Hwf. unfold __blk_mq_try_issue_directly.
  destruct (blk_mq_hctx_stopped (hctx_at q h) || queue_flag_quiesced q) eqn:Hsq.
  { pose proof (issue_insert_spec cpu false false q drv rq Hwf) as H.
    destruct (issue_insert cpu false false q drv rq) as [[[[ret rq1] q1] drv1] tr].
    destruct H as (-> & -> & He & Ha & Hf & _ & Hins).
    destruct (Hins eq_refl) as (-> & Hg & Htr). rewrite (Htr eq_refl).
    split_and!; try reflexivity; [cbn; lia|].
    exists [rq]. split_and!; try assumption; try reflexivity;
      try discriminate; [now right|now intros _]. }
  assert (Hins : forall b q0 (drv0 : D) rq0 added0,
            dispatch_grows q q0 added0 -> added0 = [] ->
            rq_id rq0 = rq_id rq -> mq_ctx rq0 = mq_ctx rq -> b = bypass_insert ->
            let '(ret, rq1, q1, drv1, tr) := issue_insert cpu b true q0 drv0 rq0 in
            rq_id rq1 = rq_id rq /\ mq_ctx rq1 = mq_ctx rq /\ errored tr = 0%nat /\
            (length (List.filter is_queue_rq tr) <= 1)%nat /\
            exists added,
              dispatch_grows q q1 added /\ (added = [] \/ added = [rq1]) /\
              (accepted tr + length added
               = match ret with BLK_MQ_RQ_QUEUE_OK => 1 | _ => 0 end)%nat /\
              (false = true ->
               ret = BLK_MQ_RQ_QUEUE_OK /\ added = [rq] /\ rq1 = rq /\ tr = []
               /\ drv1 = drv) /\
              (false = false -> bypass_insert = true -> added = []) /\
              (is_busy_ret ret = true -> added = [])).
  { intros b q0 drv0 rq0 added0 Hg0 -> Hid0 Hmq0 ->.
    pose proof (issue_insert_spec cpu bypass_insert true q0 drv0 rq0
                  (dispatch_grows_map_wf _ _ _ Hg0 Hwf)) as H.
    destruct (issue_insert cpu bypass_insert true q0 drv0 rq0)
      as [[[[ret rq1] q1] drv1] tr].
    destruct H as (-> & -> & He & Ha & Hf & Hb & Hnb).
    rewrite Hf. split_and!; try assumption; [cbn; lia|].
    destruct bypass_insert.
    - destruct (Hb eq_refl) as (-> & -> & ->).
      exists []. split_and!; try assumption; try reflexivity; try discriminate.
      now left.
    - destruct (Hnb eq_refl) as (-> & Hg & _).
      exists [rq0]. split_and!; try discriminate.
      + apply (dispatch_grows_trans q q0 q1 [] [rq0]); assumption.
      + now right.
      + rewrite Ha. reflexivity. }
  destruct (elevator q && negb bypass_insert).
  { apply (Hins bypass_insert q drv rq []); try reflexivity.
    apply dispatch_grows_refl. }
  destruct (blk_mq_get_dispatch_budget ops drv h) as [budget drv1].
  destruct budget; cbn [negb].
  2: { apply (Hins bypass_insert q drv1 rq []); try reflexivity.
       apply dispatch_grows_refl. }
  pose proof (blk_mq_get_driver_tag_core q rq) as Hc.
  pose proof (blk_mq_get_driver_tag_id q rq) as Hid.
  pose proof (blk_mq_get_driver_tag_mq_ctx q rq) as Hmq.
  destruct (blk_mq_get_driver_tag q rq) as [[got rq1] q1]. cbn [fst snd] in *.
  apply core_same_dispatch_grows in Hc.
  destruct got; cbn [negb].
  2: { now apply (Hins bypass_insert q1 _ rq1 []). }
  pose proof (__blk_mq_issue_directly_spec ops jiffies q1 drv1 h rq1) as H.
  destruct (__blk_mq_issue_directly ops jiffies q1 drv1 h rq1)
    as [[[[ret rq2] q2] drv2] tr].
  destruct H as (Hid2 & Hmq2 & Hg & He & Ha & Hn & _).
  split_and!; try congruence; [lia|].
  exists []. split_and!; try discriminate; try reflexivity.
  - apply (dispatch_grows_trans q q1 q2 [] []); assumption.
  - now left.
  - rewrite Ha. cbn. lia.
Qed.

(** X12: [blk_mq_try_issue_directly] never loses a request and never hands
    it on twice.  On a queue whose CPU map is in order, after the call exactly
    one of three things has happened to the request: the driver accepted it,
    it was finalized through [blk_mq_end_request], or it stands at the end of
    the dispatch list of its hardware queue; the driver is asked at most
    once, and the dispatch lists are otherwise as before.  When the hardware
    queue is stopped or the queue quiesced, the driver is not asked at all:
    the request goes to the dispatch list and no queue run is started. *)
Theorem blk_mq_try_issue_directly_spec {D : Type} (code_of : queue_rq_ret -> Z)
    (ops : blk_mq_ops D) (jiffies : Z) (cpu : nat) (q : request_queue) (drv : D)
    (h : nat) (rq : request) :
  map_wf q ->
  let '(rq1, q1, drv1, tr) :=
    blk_mq_try_issue_directly code_of ops jiffies cpu q drv h rq in
  rq_id rq1 = rq_id rq /\
  (length (List.filter is_queue_rq tr) <= 1)%nat /\
  exists added,
    dispatch_grows q q1 added /\ (added = [] \/ added = [rq1]) /\
    (accepted tr + errored tr + length added = 1)%nat /\
    (blk_mq_hctx_stopped (hctx_at q h) || queue_flag_quiesced q = true ->
     added = [rq] /\ tr = [] /\ drv1 = drv).
Proof.
  intros Hwf. unfold blk_mq_try_issue_directly.
  pose proof (__blk_mq_try_issue_directly_spec ops jiffies cpu q drv h rq false
                Hwf) as H.
  destruct (__blk_mq_try_issue_directly ops jiffies cpu q drv h rq false)
    as [[[[ret rq1] q1] drv1] tr].
  destruct H as (Hid & Hmq & He & Hn & added & Hg & Hadd & Hsum & Hsq & _ & Hb).
  assert (Hins : is_busy_ret ret = true ->
            let '(q2, tr2) := blk_mq_request_bypass_insert cpu q1 rq1 true in
            rq_id rq1 = rq_id rq /\
            (length (List.filter is_queue_rq (tr ++ tr2)) <= 1)%nat /\
            exists added',
              dispatch_grows q q2 added' /\ (added' = [] \/ added' = [rq1]) /\
              (accepted (tr ++ tr2) + errored (tr ++ tr2) + length added' = 1)%nat /\
              (blk_mq_hctx_stopped (hctx_at q h) || queue_flag_quiesced q = true ->
               added' = [rq] /\ tr ++ tr2 = [] /\ drv1 = drv)).
  { intros Hbusy. specialize (Hb Hbusy). subst added.
    pose proof (blk_mq_request_bypass_insert_spec cpu q1 rq1 true
                  (dispatch_grows_map_wf _ _ _ Hg Hwf)) as Hi.
    destruct (blk_mq_request_bypass_insert cpu q1 rq1 true) as [q2 tr2].
    destruct Hi as (Hg2 & Ha2 & He2 & Hn2 & _).
    rewrite List.filter_app, (no_queue_rq_filter tr2 Hn2), app_nil_r,
      accepted_app, errored_app, Ha2, He2, He.
    split_and!; try assumption.
    exists [rq1]. split_and!.
    - apply (dispatch_grows_trans q q1 q2 [] [rq1]); assumption.
    - now right.
    - destruct ret; try discriminate; cbn in *; lia.
    - intros Hs. destruct (Hsq Hs) as (-> & _). discriminate. }
  destruct ret as [| | | |code].
  - split_and!; try assumption. exists added. split_and!; try assumption.
    + lia.
    + intros Hs. destruct (Hsq Hs) as (_ & -> & _ & -> & ->). now split_and!.
  - now apply Hins.
  - rewrite List.filter_app, accepted_app, errored_app, He. cbn.
    rewrite app_nil_r. split_and!; try assumption.
    exists added. split_and!; try assumption.
    + lia.
    + intros Hs. destruct (Hsq Hs) as (Hc & _). discriminate.
  - now apply Hins.
  - rewrite List.filter_app, accepted_app, errored_app, He. cbn.
    rewrite app_nil_r. split_and!; try assumption.
    exists added. split_and!; try assumption.
    + lia.
    + intros Hs. destruct (Hsq Hs) as (Hc & _). discriminate.
Qed.

Lemma blk_mq_try_issue_directly_spec_witness :
  map_wf example_queue /\
  let '(rq1, q1, drv1, tr) :=
    blk_mq_try_issue_directly (fun _ => 0) busy_on_second 0 0%nat example_queue
                              1%nat 0%nat (mk_request 1 0 0 (-1) false 0 0 30 0) in
  rq_id rq1 = 1%nat /\
  (length (List.filter is_queue_rq tr) <= 1)%nat /\
  exists added,
    dispatch_grows example_queue q1 added /\ (added = [] \/ added = [rq1]) /\
    (accepted tr + errored tr + length added = 1)%nat /\
    (blk_mq_hctx_stopped (hctx_at example_queue 0)
     || queue_flag_quiesced example_queue = true ->
     added = [mk_request 1 0 0 (-1) false 0 0 30 0] /\ tr = [] /\ drv1 = 1%nat).
Proof.
  split; [exact example_queue_map_wf|].
  exact (blk_mq_try_issue_directly_spec (fun _ => 0) busy_on_second 0 0%nat
           example_queue 1%nat 0%nat (mk_request 1 0 0 (-1) false 0 0 30 0)
           example_queue_map_wf).
Defined.

(** X13: [blk_mq_try_issue_list_directly] accounts for every request of the
    list.  On a queue whose CPU map is in order, the requests are taken from
    the front of the list in order; each one taken was accepted by the
    driver, finalized through [blk_mq_end_request], or put at the end of the
    dispatch list of its hardware queue; what is left on the list is a tail
    of it, untouched; and the number of requests accepted, finalized, put on
    a dispatch list and left adds up to the length of the list. *)
Theorem blk_mq_try_issue_list_directly_spec {D : Type}
    (code_of : queue_rq_ret -> Z) (ops : blk_mq_ops D) (jiffies : Z) (cpu : nat)
    (q : request_queue) (drv : D) (l : list request) :
  map_wf q ->
  let '(q', _, tr, remaining) :=
    blk_mq_try_issue_list_directly code_of ops jiffies cpu q drv l in
  exists added k,
    dispatch_grows q q' added /\ remaining = drop k l /\
    (accepted tr + errored tr + length added + length remaining = length l)%nat /\
    (forall r, In r added -> In (rq_id r) (map rq_id l)).
Proof.
  revert q drv. induction l as [|rq rest IH]; intros q drv Hwf.
  - cbn. exists [], 0%nat. split_and!; try reflexivity.
    + apply dispatch_grows_refl.
    + intros r [].
  - cbn [blk_mq_try_issue_list_directly]. unfold blk_mq_request_issue_directly.
    pose proof (__blk_mq_try_issue_directly_spec ops jiffies cpu q drv
                  (blk_mq_map_queue q (mq_ctx rq)) rq true Hwf) as H.
    destruct (__blk_mq_try_issue_directly ops jiffies cpu q drv _ rq true)
      as [[[[ret rq1] q1] drv1] tr1].
    destruct H as (Hid & Hmq & He & Hn & added & Hg & Hadd & Hsum & _ & _ & Hb).
    assert (Hwf1 : map_wf q1) by now apply (dispatch_grows_map_wf q q1 added).
    assert (Hin : forall r, In r added -> In (rq_id r) (map rq_id (rq :: rest))).
    { intros r Hr. left. destruct Hadd as [->| ->]; [destruct Hr|].
      destruct Hr as [<-|[]]. now symmetry. }
    assert (Hcont : forall extra,
              errored extra = length extra -> accepted extra = 0%nat ->
              (accepted tr1 + length extra + length added = 1)%nat ->
              let '(q2, _, tr2, remaining) :=
                blk_mq_try_issue_list_directly code_of ops jiffies cpu q1 drv1 rest in
              exists added' k,
                dispatch_grows q q2 added' /\ remaining = drop k (rq :: rest) /\
                (accepted (tr1 ++ extra ++ tr2) + errored (tr1 ++ extra ++ tr2)
                 + length added' + length remaining = length (rq :: rest))%nat /\
                (forall r, In r added' -> In (rq_id r) (map rq_id (rq :: rest)))).
    { intros extra Hee Hea Hs. specialize (IH q1 drv1 Hwf1).
      destruct (blk_mq_try_issue_list_directly code_of ops jiffies cpu q1 drv1 rest)
        as [[[q2 drv2] tr2] remaining].
      destruct IH as (added2 & k & Hg2 & Hrem & Hsum2 & Hin2).
      exists (added ++ added2), (S k). split_and!.
      - now apply (dispatch_grows_trans q q1 q2).
      - exact Hrem.
      - rewrite !accepted_app, !errored_app, He, Hee, Hea, length_app.
        cbn [length]. lia.
      - intros r Hr. apply in_app_or in Hr as [Hr|Hr]; [now apply Hin|].
        right. now apply Hin2. }
    destruct ret as [| | | |code].
    + specialize (Hcont [] eq_refl eq_refl). cbn [app length] in Hcont.
      rewrite Nat.add_0_r in Hcont. specialize (Hcont Hsum).
      destruct (blk_mq_try_issue_list_directly code_of ops jiffies cpu q1 drv1 rest)
        as [[[q2 drv2] tr2] remaining].
      exact Hcont.
    + specialize (Hb eq_refl). subst added.
      pose proof (blk_mq_request_bypass_insert_spec cpu q1 rq1
                    (bool_decide (rest = [])) Hwf1) as Hi.
      destruct (blk_mq_request_bypass_insert cpu q1 rq1 (bool_decide (rest = [])))
        as [q2 tr2].
      destruct Hi as (Hg2 & Ha2 & He2 & _).
      exists [rq1], 1%nat. split_and!.
      * now apply (dispatch_grows_trans q q1 q2 [] [rq1]).
      * reflexivity.
      * rewrite accepted_app, errored_app, Ha2, He2, He. cbn in *. lia.
      * intros r [<-|[]]. left. now symmetry.
    + specialize (Hcont [Ev_end_request (rq_id rq1) (code_of BLK_MQ_RQ_QUEUE_ERROR)]
                        eq_refl eq_refl).
      destruct (blk_mq_try_issue_list_directly code_of ops jiffies cpu q1 drv1 rest)
        as [[[q2 drv2] tr2] remaining].
      apply Hcont. cbn in *. lia.
    + specialize (Hb eq_refl). subst added.
      pose proof (blk_mq_request_bypass_insert_spec cpu q1 rq1
                    (bool_decide (rest = [])) Hwf1) as Hi.
      destruct (blk_mq_request_bypass_insert cpu q1 rq1 (bool_decide (rest = [])))
        as [q2 tr2].
      destruct Hi as (Hg2 & Ha2 & He2 & _).
      exists [rq1], 1%nat. split_and!.
      * now apply (dispatch_grows_trans q q1 q2 [] [rq1]).
      * reflexivity.
      * rewrite accepted_app, errored_app, Ha2, He2, He. cbn in *. lia.
      * intros r [<-|[]]. left. now symmetry.
    + specialize (Hcont [Ev_end_request (rq_id rq1)
                                        (code_of (BLK_MQ_RQ_QUEUE_BAD code))]
                        eq_refl eq_refl).
      destruct (blk_mq_try_issue_list_directly code_of ops jiffies cpu q1 drv1 rest)
        as [[[q2 drv2] tr2] remaining].
      apply Hcont. cbn in *. lia.
Qed.

Lemma blk_mq_try_issue_list_directly_spec_witness :
  map_wf example_queue /\
  let '(q', _, tr, remaining) :=
    blk_mq_try_issue_list_directly (fun _ => 0) busy_on_second 0 0%nat
                                   example_queue 0%nat example_batch in
  exists added k,
    dispatch_grows example_queue q' added /\ remaining = drop k example_batch /\
    (accepted tr + errored tr + length added + length remaining
     = length example_batch)%nat /\
    (forall r, In r added -> In (rq_id r) (map rq_id example_batch)).
Proof.
  split; [exact example_queue_map_wf|].
  exact (blk_mq_try_issue_list_directly_spec (fun _ => 0) busy_on_second 0 0%nat
           example_queue 0%nat example_batch example_queue_map_wf).
Defined.

(** ** Dispatch: no request is lost *)

(** X14: [blk_mq_dispatch_rq_list] accounts for every request of the batch,
    empty or not.  On a queue whose CPU map is in order the list handed in
    comes back empty; the requests fall into those the driver accepted,
    those finalized through [blk_mq_end_request] and those left over; the
    ones left over are a tail of the batch, in order, and stand in front of
    the dispatch list of the hardware queue of the batch; the dispatch
    lists of the other hardware queues are as before. *)
Theorem blk_mq_dispatch_rq_list_conserves {D : Type} (ops : blk_mq_ops D)
    (jiffies : Z) (cpu : nat) (q : request_queue) (drv : D)
    (batch : list request) (got_budget : bool) :
  map_wf q ->
  let '(_, st, out) :=
    blk_mq_dispatch_rq_list ops jiffies cpu q drv batch got_budget in
  out = [] /\
  exists rem k,
    map rq_id rem = drop k (map rq_id batch) /\
    (accepted (ds_trace st) + errored (ds_trace st) + length rem
     = length batch)%nat /\
    forall h, dispatch (hctx_at (ds_queue st) h)
              = (if Nat.eqb h (l_hctx st) then rem else [])
                ++ dispatch (hctx_at q h).
Proof.
  intros Hmap. destruct batch as [|rq rest].
  - cbn. split; [reflexivity|]. exists [], 0%nat. split_and!; try reflexivity.
    intros h. now destruct (Nat.eqb h 0).
  - pose proof (blk_mq_dispatch_rq_list_spec ops jiffies cpu q drv (rq :: rest)
                  got_budget Hmap ltac:(discriminate)) as H.
    destruct (blk_mq_dispatch_rq_list ops jiffies cpu q drv (rq :: rest) got_budget)
      as [[ret st] out].
    destruct H as (rem & k & Hout & Hrem & Hsum & _ & Hd & Hother & _).
    split; [exact Hout|]. exists rem, k. split_and!; try assumption.
    intros h. destruct (Nat.eqb_spec h (l_hctx st)) as [->|Hne].
    + exact Hd.
    + now apply Hother.
Qed.

Lemma blk_mq_dispatch_rq_list_conserves_witness :
  map_wf example_queue /\
  let '(_, st, out) :=
    blk_mq_dispatch_rq_list busy_on_second 0 0%nat example_queue 0%nat
                            example_batch false in
  out = [] /\
  exists rem k,
    map rq_id rem = drop k (map rq_id example_batch) /\
    (accepted (ds_trace st) + errored (ds_trace st) + length rem
     = length example_batch)%nat /\
    forall h, dispatch (hctx_at (ds_queue st) h)
              = (if Nat.eqb h (l_hctx st) then rem else [])
                ++ dispatch (hctx_at example_queue h).
Proof.
  split; [exact example_queue_map_wf|].
  exact (blk_mq_dispatch_rq_list_conserves busy_on_second 0 0%nat example_queue
           0%nat example_batch false example_queue_map_wf).
Defined.

(** ** The busy estimate over time *)

Lemma busy_estimate_range (e : Z) : busy_estimate e -> 0 <= e <= 9.
Proof.
  induction 1 as [|hctx busy _ IH]; [lia|].
  rewrite blk_mq_update_dispatch_busy_ewma by lia.
  destruct busy; Z.div_mod_to_equations; lia.
Qed.

Lemma blk_mq_update_dispatch_busy_iter (n : nat) (hctx : blk_mq_hw_ctx) :
  0 <= dispatch_busy hctx <= 16 ->
  0 <= dispatch_busy (Nat.iter n (fun h => blk_mq_update_dispatch_busy false h false)
                               hctx) <= 16 /\
  dispatch_busy (Nat.iter n (fun h => blk_mq_update_dispatch_busy false h false) hctx)
  = Nat.iter n (fun e => e * 7 / 8) (dispatch_busy hctx).
Proof.
  intros Hb. induction n as [|n [IHb IHe]]; [now split|].
  rewrite !Nat.iter_succ, blk_mq_update_dispatch_busy_ewma by exact IHb.
  rewrite <- IHe. change (8 - 1) with 7. rewrite Z.add_0_r.
  split; [|reflexivity]. Z.div_mod_to_equations; lia.
Qed.

(** X15: the busy estimate of a hardware queue without I/O scheduler stays
    between 0 and 9.  A busy outcome never lowers it and leaves it at 2 or
    more; an outcome that is not busy lowers an estimate above zero; and
    after eight outcomes in a row that are not busy the estimate is zero
    again, whatever it was. *)
Theorem dispatch_busy_decay (hctx : blk_mq_hw_ctx) :
  busy_estimate (dispatch_busy hctx) ->
  0 <= dispatch_busy hctx <= 9 /\
  2 <= dispatch_busy (blk_mq_update_dispatch_busy false hctx true) /\
  dispatch_busy hctx <= dispatch_busy (blk_mq_update_dispatch_busy false hctx true) /\
  (0 < dispatch_busy hctx ->
   dispatch_busy (blk_mq_update_dispatch_busy false hctx false) < dispatch_busy hctx) /\
  dispatch_busy (Nat.iter 8 (fun h => blk_mq_update_dispatch_busy false h false) hctx)
  = 0.
Proof.
  intros He. apply busy_estimate_range in He.
  rewrite !blk_mq_update_dispatch_busy_ewma by lia.
  split_and!; try lia; try (Z.div_mod_to_equations; lia).
  destruct (blk_mq_update_dispatch_busy_iter 8 hctx ltac:(lia)) as [_ ->].
  assert (Hc : dispatch_busy hctx = 0 \/ dispatch_busy hctx = 1 \/
               dispatch_busy hctx = 2 \/ dispatch_busy hctx = 3 \/
               dispatch_busy hctx = 4 \/ dispatch_busy hctx = 5 \/
               dispatch_busy hctx = 6 \/ dispatch_busy hctx = 7 \/
               dispatch_busy hctx = 8 \/ dispatch_busy hctx = 9) by lia.
  repeat (destruct Hc as [Hc|Hc]; [rewrite Hc; reflexivity|]).
  rewrite Hc. reflexivity.
Qed.

Lemma dispatch_busy_decay_witness :
  busy_estimate (dispatch_busy (blk_mq_update_dispatch_busy false example_hctx true)) /\
  dispatch_busy
    (Nat.iter 8 (fun h => blk_mq_update_dispatch_busy false h false)
              (blk_mq_update_dispatch_busy false example_hctx true)) = 0.
Proof.
  assert (H : busy_estimate
                (dispatch_busy (blk_mq_update_dispatch_busy false example_hctx true))).
  { apply busy_estimate_step. exact busy_estimate_init. }
  split; [exact H|].
  exact (proj2 (proj2 (proj2 (proj2
           (dispatch_busy_decay
              (blk_mq_update_dispatch_busy false example_hctx true) H))))).
Defined.

(** ** Taking one request from the software queues *)

Lemma hw_pending_inv_clear (s : hw_sw) (i : nat) :
  hw_pending_inv s -> (i < nr_ctx (hw s))%nat ->
  sbitmap_test_bit (ctx_map (hw s)) i = false -> fifo_at s i = [].
Proof.
  intros Hinv Hi Hbit. destruct (fifo_at s i) as [|r l] eqn:Hf; [reflexivity|].
  assert (H : sbitmap_test_bit (ctx_map (hw s)) i = true)
    by (apply Hinv; [assumption|now rewrite Hf]).
  congruence.
Qed.

(** The walk of [blk_mq_dequeue_from_ctx] over the bits of [order]. *)
Lemma dequeue_walk_spec (order : list nat) (s : hw_sw) :
  hw_sw_wf s -> hw_pending_inv s ->
  (forall i, In i order -> (i < nr_ctx (hw s))%nat) ->
  let '(s', r) := sbitmap_walk (fun d : dispatch_rq_data => ctx_map (hw (fst d)))
                               dispatch_rq_from_ctx order (s, None) in
  match r with
  | None => (forall i, In i order -> fifo_at s i = []) /\ s' = s
  | Some rq =>
      exists before i after rest,
        order = before ++ i :: after /\
        (forall j, In j before -> fifo_at s j = []) /\
        fifo_at s i = rq :: rest /\ fifo_at s' i = rest /\
        (forall j, j <> i -> fifo_at s' j = fifo_at s j) /\
        dispatch (hw s') = dispatch (hw s)
  end.
Proof.
  intros Hwf Hinv. induction order as [|i order IH]; intros Hlt.
  - cbn. split; [intros i []|reflexivity].
  - cbn [sbitmap_walk fst]. specialize (IH (fun j Hj => Hlt j (or_intror Hj))).
    pose proof (Hlt i (or_introl eq_refl)) as Hi.
    destruct (sbitmap_test_bit (ctx_map (hw s)) i) eqn:Hbit.
    + assert (Hne : fifo_at s i <> []) by now apply Hinv.
      unfold dispatch_rq_from_ctx. unfold fifo_at in Hne.
      destruct (ctxs (hw s) !! i) as [cpu|] eqn:Hc; [|congruence].
      destruct (sw_queues s !! cpu) as [ctx|] eqn:Hsw; [|congruence].
      destruct (rq_list ctx) as [|first rest] eqn:Hfifo; [congruence|].
      assert (Hcpu : (cpu < length (sw_queues s))%nat)
        by (eapply lookup_lt_Some; eauto).
      exists [], i, order, rest. split_and!.
      * reflexivity.
      * intros j [].
      * unfold fifo_at. now rewrite Hc, Hsw.
      * unfold fifo_at. cbn [hw sw_queues].
        assert (Hctxs : forall b : bool,
                  ctxs (if b then set_ctx_map (sbitmap_clear_bit (ctx_map (hw s)) i) (hw s)
                        else hw s) = ctxs (hw s)) by (now intros []).
        rewrite Hctxs, Hc. now rewrite list_lookup_insert_eq.
      * intros j Hj. unfold fifo_at. cbn [hw sw_queues].
        assert (Hctxs : forall b : bool,
                  ctxs (if b then set_ctx_map (sbitmap_clear_bit (ctx_map (hw s)) i) (hw s)
                        else hw s) = ctxs (hw s)) by (now intros []).
        rewrite Hctxs. destruct (ctxs (hw s) !! j) as [c|] eqn:Hcj; [|reflexivity].
        rewrite list_lookup_insert_ne; [reflexivity|].
        intros ->. apply Hj. symmetry. eapply (hw_sw_wf_inj s); eauto.
      * cbn [hw]. now destruct (bool_decide (rest = [])).
    + destruct (sbitmap_walk _ dispatch_rq_from_ctx order (s, None)) as [s' [rq|]].
      * destruct IH as (before & k & after & rest & -> & Hb & Hk & Hk' & Ho & Hd).
        exists (i :: before), k, after, rest. split_and!; try assumption.
        -- reflexivity.
        -- intros j [<-|Hj]; [now apply hw_pending_inv_clear|now apply Hb].
      * destruct IH as [He ->]. split; [|reflexivity].
        intros j [<-|Hj]; [now apply hw_pending_inv_clear|now apply He].
Qed.

(** X16: [blk_mq_dequeue_from_ctx] takes the software queues of a hardware
    queue in turn, beginning with the one handed in as [start] (the first
    when there is none) and wrapping around.  On a well-formed hardware
    queue with the pending-bitmap invariant, it returns no request exactly
    when every software queue is empty, and then changes nothing; otherwise
    it returns the first request of the first software queue in that order
    that is not empty, leaves the rest of that FIFO in place, and touches
    neither the other software queues nor the dispatch list. *)
Theorem blk_mq_dequeue_from_ctx_spec (s : hw_sw) (start : option nat) :
  hw_sw_wf s -> hw_pending_inv s ->
  let n := nr_ctx (hw s) in
  let off := match start with
             | Some cpu => match sw_queues s !! cpu with
                           | Some ctx => index_hw ctx
                           | None => 0%nat
                           end
             | None => 0%nat
             end in
  let first := if (n <=? off)%nat then 0%nat else off in
  let '(s', r) := blk_mq_dequeue_from_ctx s start in
  match r with
  | None => (forall i, (i < n)%nat -> fifo_at s i = []) /\ s' = s
  | Some rq =>
      exists before i after rest,
        seq first (n - first) ++ seq 0 first = before ++ i :: after /\
        (forall j, In j before -> fifo_at s j = []) /\
        fifo_at s i = rq :: rest /\ fifo_at s' i = rest /\
        (forall j, j <> i -> fifo_at s' j = fifo_at s j) /\
        dispatch (hw s') = dispatch (hw s)
  end.
Proof.
  intros Hwf Hinv n off first.
  unfold blk_mq_dequeue_from_ctx, __sbitmap_for_each_set. cbn [fst hw].
  destruct Hwf as (Hlen & Hdepth & Hrest). rewrite Hdepth.
  fold n. fold off. fold first.
  assert (Hfirst : (first <= n)%nat).
  { subst first. destruct (Nat.leb_spec n off); lia. }
  pose proof (dequeue_walk_spec (seq first (n - first) ++ seq 0 first) s
                (conj Hlen (conj Hdepth Hrest)) Hinv) as H.
  destruct (sbitmap_walk _ dispatch_rq_from_ctx _ (s, None)) as [s' [rq|]].
  - apply H. intros i Hi. apply in_app_or in Hi as [Hi|Hi]; apply in_seq in Hi; fold n; lia.
  - destruct H as [He ->].
    { intros i Hi. apply in_app_or in Hi as [Hi|Hi]; apply in_seq in Hi; fold n; lia. }
    split; [|reflexivity]. intros i Hi. apply He. apply in_or_app.
    destruct (Nat.lt_ge_cases i first); [right|left]; apply in_seq; lia.
Qed.

Lemma blk_mq_dequeue_from_ctx_spec_witness :
  hw_sw_wf example_pending /\ hw_pending_inv example_pending /\
  let '(s', r) := blk_mq_dequeue_from_ctx example_pending (Some 1%nat) in
  match r with
  | None => (forall i, (i < 3)%nat -> fifo_at example_pending i = []) /\
            s' = example_pending
  | Some rq =>
      exists before i after rest,
        [1; 2; 0]%nat = before ++ i :: after /\
        (forall j, In j before -> fifo_at example_pending j = []) /\
        fifo_at example_pending i = rq :: rest /\ fifo_at s' i = rest /\
        (forall j, j <> i -> fifo_at s' j = fifo_at example_pending j) /\
        dispatch (hw s') = dispatch (hw example_pending)
  end.
Proof.
  assert (Hwf : hw_sw_wf example_pending) by exact example_pending_wf.
  assert (Hinv : hw_pending_inv example_pending).
  { intros i Hi. cbn in Hi.
    destruct i as [|[|[|i]]]; [| | |lia]; (split; [discriminate|reflexivity]). }
  split; [exact Hwf|]. split; [exact Hinv|].
  exact (blk_mq_dequeue_from_ctx_spec example_pending (Some 1%nat) Hwf Hinv).
Defined.

(** ** Mapping software queues to hardware queues *)

Lemma fold_left_seq_ind {S : Type} (f : S -> nat -> S) (P : nat -> S -> Prop)
    (n : nat) (s : S) :
  P 0%nat s -> (forall k s, (k < n)%nat -> P k s -> P (Datatypes.S k) (f s k)) ->
  P n (fold_left f (seq 0 n) s).
Proof.
  intros H0 Hstep. induction n as [|n IH]; [exact H0|].
  rewrite seq_S, fold_left_app. cbn [fold_left plus].
  apply Hstep; [lia|]. apply IH. intros k s' Hk. apply Hstep. lia.
Qed.

Lemma map_insert_same {A B : Type} (f : A -> B) (l : list A) (i : nat) (x y : A) :
  l !! i = Some x -> f y = f x -> map f (<[i := y]> l) = map f l.
Proof.
  revert i. induction l as [|a l IH]; intros i Hi Hf; [reflexivity|].
  destruct i as [|i]; cbn in *.
  - injection Hi as ->. now rewrite Hf.
  - f_equal. now apply IH.
Qed.

Lemma store_hctx_map_same {B : Type} (f : blk_mq_hw_ctx -> B) (q : request_queue)
    (h : nat) (v : blk_mq_hw_ctx) :
  f v = f (hctx_at q h) ->
  map f (queue_hw_ctx (store_hctx h v q)) = map f (queue_hw_ctx q).
Proof.
  intros Hf. unfold store_hctx. cbn [queue_hw_ctx set_queue_hw_ctx].
  destruct (queue_hw_ctx q !! h) as [x|] eqn:Hx.
  - apply (map_insert_same f _ h x v Hx). rewrite Hf. unfold hctx_at. now rewrite Hx.
  - rewrite list_insert_ge; [reflexivity|]. now apply lookup_ge_None.
Qed.

Lemma store_hctx_lookup (q : request_queue) (h h' : nat) (v x : blk_mq_hw_ctx) :
  queue_hw_ctx (store_hctx h v q) !! h' = Some x ->
  (h' = h /\ x = v) \/ (h' <> h /\ queue_hw_ctx q !! h' = Some x).
Proof.
  unfold store_hctx. cbn [queue_hw_ctx set_queue_hw_ctx]. intros H.
  apply list_lookup_insert_Some in H as [(-> & -> & _)|[Hne H]]; [now left|].
  right. split; [congruence|exact H].
Qed.

(** The first loop leaves every hardware queue without software queue. *)
Lemma map_swqueue_clear_spec (online_mask : nat -> bool) (q : request_queue) :
  map_wf q -> length (mq_map q) = length (queue_ctx q) ->
  swqueue_mapped online_mask 0 q
    (fold_left (fun q h => map_swqueue_clear h q) (hw_queues q) q).
Proof.
  intros Hwf Hlen. unfold hw_queues.
  pose (P := fun (k : nat) (q1 : request_queue) =>
    length (queue_hw_ctx q1) = length (queue_hw_ctx q) /\
    queue_ctx q1 = queue_ctx q /\ mq_map q1 = mq_map q /\
    map dispatch (queue_hw_ctx q1) = map dispatch (queue_hw_ctx q) /\
    forall h hctx, queue_hw_ctx q1 !! h = Some hctx -> (h < k)%nat ->
                   ctxs hctx = [] /\ nr_ctx hctx = 0%nat).
  assert (HP : P (length (queue_hw_ctx q))
                 (fold_left (fun q h => map_swqueue_clear h q)
                            (seq 0 (length (queue_hw_ctx q))) q)).
  { apply fold_left_seq_ind.
    - unfold P. split_and!; try reflexivity. intros h hctx _ Hh. lia.
    - intros k q1 Hk (Hl & Hc & Hm & Hd & Hclr). unfold P, map_swqueue_clear.
      split_and!.
      + now rewrite store_hctx_length.
      + exact Hc.
      + exact Hm.
      + rewrite store_hctx_map_same; [exact Hd|reflexivity].
      + intros h hctx Hh Hlt. apply store_hctx_lookup in Hh as [[-> ->]|[Hne Hh]].
        * now split.
        * apply (Hclr h hctx Hh). lia. }
  destruct HP as (Hl & Hc & Hm & Hd & Hclr).
  set (q1 := fold_left _ _ q) in *.
  unfold swqueue_mapped. split_and!; try congruence.
  - intros cpu. unfold blk_mq_map_queue. rewrite Hm, Hl. apply Hwf.
  - intros h hctx Hh.
    destruct (Hclr h hctx Hh) as [-> ->].
    { rewrite <- Hl. eapply lookup_lt_Some; eauto. }
    split_and!; [reflexivity|constructor|]. intros j cpu Hj. discriminate.
  - intros cpu Hcpu. lia.
Qed.

Lemma map_alter_same {A B : Type} (f : A -> B) (g : A -> A) (l : list A) (i : nat) :
  (forall x, f (g x) = f x) -> map f (alter g i l) = map f l.
Proof.
  intros Hf. revert i. induction l as [|a l IH]; intros i; [reflexivity|].
  destruct i as [|i]; cbn.
  - now rewrite Hf.
  - f_equal. apply IH.
Qed.

Lemma swqueue_mapped_hw_nonempty (online_mask : nat -> bool) (k : nat)
    (q0 q : request_queue) :
  swqueue_mapped online_mask k q0 q -> (0 < length (queue_hw_ctx q))%nat.
Proof. intros (_ & _ & _ & Hwf & _). specialize (Hwf 0%nat). lia. Qed.

(** Writing [q->mq_map[k] = 0] before CPU [k] is mapped keeps what has been
    set up for the CPUs below [k]. *)
Lemma swqueue_mapped_remap (online_mask : nat -> bool) (k : nat)
    (q0 q : request_queue) :
  swqueue_mapped online_mask k q0 q ->
  swqueue_mapped online_mask k q0 (set_mq_map (<[k := 0%nat]> (mq_map q)) q).
Proof.
  intros H. pose proof (swqueue_mapped_hw_nonempty _ _ _ _ H) as Hne.
  destruct H as (Hl & Hc & Hm & Hwf & Hr & Hd & Hh & Hcpu).
  assert (Hmap : forall cpu, cpu <> k ->
            <[k := 0%nat]> (mq_map q) !! cpu = mq_map q !! cpu)
    by (intros cpu Hne'; now rewrite list_lookup_insert_ne by congruence).
  unfold swqueue_mapped. cbn [queue_hw_ctx queue_ctx mq_map set_mq_map].
  split_and!; try assumption.
  - now rewrite length_insert.
  - intros cpu. unfold blk_mq_map_queue. cbn [queue_hw_ctx mq_map set_mq_map].
    destruct (Nat.eq_dec cpu k) as [->|Hne'].
    + destruct (mq_map q !! k) as [x|] eqn:Hx.
      * rewrite list_lookup_insert_eq by (eapply lookup_lt_Some; eauto). exact Hne.
      * rewrite list_insert_ge by (now apply lookup_ge_None). rewrite Hx. exact Hne.
    + rewrite Hmap by assumption. apply Hwf.
  - intros h hctx Hhc. destruct (Hh h hctx Hhc) as (Hn & Hnd & He).
    split_and!; try assumption. intros j cpu Hj.
    destruct (He j cpu Hj) as (Hlt & Hon & Hmq & Hctx).
    split_and!; try assumption. rewrite Hmap by lia. exact Hmq.
  - intros cpu Hlt Hon. destruct (Hcpu cpu Hlt Hon) as [j Hj]. exists j.
    unfold blk_mq_map_queue, hctx_at in *.
    cbn [queue_hw_ctx mq_map set_mq_map]. rewrite Hmap by lia. exact Hj.
Qed.

(** Mapping CPU [k], which is online, to the hardware queue [mq_map] names. *)
Lemma swqueue_mapped_store (online_mask : nat -> bool) (k : nat)
    (q0 q : request_queue) :
  (k < length (queue_ctx q0))%nat -> online_mask k = true ->
  swqueue_mapped online_mask k q0 q ->
  let h := blk_mq_map_queue q k in
  let hctx := hctx_at q h in
  swqueue_mapped online_mask (S k) q0
    (set_queue_ctx (alter (set_index_hw (nr_ctx hctx)) k (queue_ctx q))
       (store_hctx h (set_ctxs (take (nr_ctx hctx) (ctxs hctx) ++ [k])
                               (S (nr_ctx hctx)) hctx) q)).
Proof.
  intros Hk Hon (Hl & Hc & Hm & Hwf & Hr & Hd & Hh & Hcpu) h hctx.
  assert (Hhlt : (h < length (queue_hw_ctx q))%nat) by apply Hwf.
  assert (Hhctx : queue_hw_ctx q !! h = Some hctx).
  { unfold hctx, hctx_at. destruct (lookup_lt_is_Some_2 _ _ Hhlt) as [x ->].
    reflexivity. }
  destruct (Hh h hctx Hhctx) as (Hn & Hnd & He).
  rewrite Hn, firstn_all.
  assert (Hmk : mq_map q !! k = Some h).
  { destruct (lookup_lt_is_Some_2 (mq_map q) k) as [x Hx]; [lia|].
    subst h. unfold blk_mq_map_queue. now rewrite Hx. }
  destruct (lookup_lt_is_Some_2 (queue_ctx q) k) as [ctxk Hctxk]; [lia|].
  set (hctx' := set_ctxs (ctxs hctx ++ [k]) (S (length (ctxs hctx))) hctx).
  assert (Hnotin : forall j, ctxs hctx !! j = Some k -> False).
  { intros j Hj. destruct (He j k Hj) as (Hlt & _). lia. }
  unfold swqueue_mapped.
  cbn [queue_hw_ctx queue_ctx mq_map set_queue_ctx].
  split_and!.
  - rewrite store_hctx_length. exact Hl.
  - rewrite length_alter. exact Hc.
  - exact Hm.
  - intros cpu. unfold blk_mq_map_queue. cbn [queue_hw_ctx mq_map set_queue_ctx].
    rewrite store_hctx_length. apply Hwf.
  - rewrite map_alter_same; [exact Hr|reflexivity].
  - rewrite store_hctx_map_same; [exact Hd|reflexivity].
  - intros h' x Hx. apply store_hctx_lookup in Hx as [[-> ->]|[Hne Hx]].
    + subst hctx'. cbn [nr_ctx ctxs set_ctxs]. split_and!.
      * rewrite length_app. cbn. lia.
      * apply NoDup_app. split_and!; [exact Hnd| |apply NoDup_singleton].
        intros c Hc1 Hc2. apply list_elem_of_singleton in Hc2 as ->.
        apply list_elem_of_lookup_1 in Hc1 as [j Hj]. exact (Hnotin j Hj).
      * intros j cpu Hj.
        destruct (Nat.lt_ge_cases j (length (ctxs hctx))) as [Hjl|Hjl].
        -- rewrite lookup_app_l in Hj by assumption.
           destruct (He j cpu Hj) as (Hlt & Hon' & Hmq & ctx & Hctx & Hidx).
           split_and!; [lia|assumption|assumption|].
           exists ctx. rewrite list_lookup_alter_ne by lia. now split.
        -- rewrite lookup_app_r in Hj by assumption.
           destruct (j - length (ctxs hctx))%nat as [|d] eqn:Hd'; [|destruct d; discriminate].
           injection Hj as <-. split_and!; [lia|assumption|assumption|].
           exists (set_index_hw (length (ctxs hctx)) ctxk). split.
           ++ rewrite list_lookup_alter_eq, Hctxk. reflexivity.
           ++ cbn. lia.
    + destruct (Hh h' x Hx) as (Hn' & Hnd' & He').
      split_and!; try assumption. intros j cpu Hj.
      destruct (He' j cpu Hj) as (Hlt & Hon' & Hmq & ctx & Hctx & Hidx).
      split_and!; [lia|assumption|assumption|].
      exists ctx. rewrite list_lookup_alter_ne by lia. now split.
  - intros cpu Hlt Hon'.
    change (blk_mq_map_queue (set_queue_ctx _ (store_hctx h hctx' q)) cpu)
      with (blk_mq_map_queue q cpu).
    change (hctx_at (set_queue_ctx ?l ?q') ?x) with (hctx_at q' x).
    destruct (Nat.eq_dec cpu k) as [->|Hne].
    + fold h. rewrite hctx_at_store_eq by assumption.
      exists (length (ctxs hctx)). subst hctx'. cbn [ctxs set_ctxs].
      rewrite lookup_app_r by lia. now rewrite Nat.sub_diag.
    + destruct (Hcpu cpu ltac:(lia) Hon') as [j Hj].
      destruct (Nat.eq_dec (blk_mq_map_queue q cpu) h) as [Heq|Hneq].
      * rewrite Heq in *. rewrite hctx_at_store_eq by assumption.
        exists j. subst hctx'. cbn [ctxs set_ctxs]. fold hctx in Hj.
        rewrite lookup_app_l; [exact Hj|]. eapply lookup_lt_Some; eauto.
      * rewrite hctx_at_store_ne by congruence. now exists j.
Qed.

Lemma swqueue_mapped_skip (online_mask : nat -> bool) (k : nat)
    (q0 q : request_queue) :
  online_mask k = false -> swqueue_mapped online_mask k q0 q ->
  swqueue_mapped online_mask (S k) q0 q.
Proof.
  intros Hoff (Hl & Hc & Hm & Hwf & Hr & Hd & Hh & Hcpu).
  unfold swqueue_mapped. split_and!; try assumption.
  - intros h hctx Hhc. destruct (Hh h hctx Hhc) as (Hn & Hnd & He).
    split_and!; try assumption. intros j cpu Hj.
    destruct (He j cpu Hj) as (Hlt & Hrest). split; [lia|exact Hrest].
  - intros cpu Hlt Hon. apply Hcpu; [|assumption].
    destruct (Nat.eq_dec cpu k) as [->|Hne]; [congruence|lia].
Qed.

Lemma map_swqueue_cpu_spec (mem online_mask : nat -> bool) (k : nat)
    (q0 q : request_queue) (set : blk_mq_tag_set) :
  (k < length (queue_ctx q0))%nat -> swqueue_mapped online_mask k q0 q ->
  swqueue_mapped online_mask (S k) q0
                 (fst (map_swqueue_cpu mem online_mask k (q, set))).
Proof.
  intros Hk H. unfold map_swqueue_cpu.
  destruct (online_mask k) eqn:Hon; cbn [negb].
  2: { now apply swqueue_mapped_skip. }
  destruct (bool_decide (is_Some (tags_at set (blk_mq_map_queue q k)))).
  - cbn [fst]. now apply swqueue_mapped_store.
  - unfold __blk_mq_alloc_rq_map. destruct (mem k); cbn [fst].
    + now apply swqueue_mapped_store.
    + apply swqueue_mapped_store; [assumption|assumption|].
      now apply swqueue_mapped_remap.
Qed.

Lemma map_swqueue_cpus_spec (mem online_mask : nat -> bool) (q0 q : request_queue)
    (set : blk_mq_tag_set) :
  swqueue_mapped online_mask 0 q0 q ->
  swqueue_mapped online_mask (length (queue_ctx q0)) q0
    (fst (fold_left (fun st i => map_swqueue_cpu mem online_mask i st)
                    (seq 0 (length (queue_ctx q0))) (q, set))).
Proof.
  intros H.
  apply (fold_left_seq_ind (fun st i => map_swqueue_cpu mem online_mask i st)
           (fun k st => swqueue_mapped online_mask k q0 (fst st))).
  - exact H.
  - intros k [q1 set1] Hk Hq. now apply map_swqueue_cpu_spec.
Qed.

Lemma tags_at_free_ne (set : blk_mq_tag_set) (i h : nat) :
  h <> i -> tags_at (blk_mq_free_map_and_requests set i) h = tags_at set h.
Proof.
  intros Hne. unfold blk_mq_free_map_and_requests.
  destruct (bool_decide (is_Some (tags_at set i))); [|reflexivity].
  unfold tags_at. cbn [ts_tags set_ts_tags].
  now rewrite list_lookup_insert_ne by congruence.
Qed.

Lemma map_swqueue_tags_loop (q2 : request_queue) (set2 : blk_mq_tag_set) :
  let '(q3, set3) := fold_left (fun st h => map_swqueue_tags h st)
                               (seq 0 (length (queue_hw_ctx q2))) (q2, set2) in
  queue_ctx q3 = queue_ctx q2 /\ mq_map q3 = mq_map q2 /\
  length (queue_hw_ctx q3) = length (queue_hw_ctx q2) /\
  map hctx_sw (queue_hw_ctx q3) = map hctx_sw (queue_hw_ctx q2) /\
  forall h hctx, queue_hw_ctx q3 !! h = Some hctx ->
    if Nat.eqb (nr_ctx hctx) 0 then tags hctx = None
    else sb_depth (ctx_map hctx) = nr_ctx hctx /\ tags hctx = tags_at set3 h.
Proof.
  pose (P := fun (k : nat) (st : request_queue * blk_mq_tag_set) =>
    queue_ctx (fst st) = queue_ctx q2 /\ mq_map (fst st) = mq_map q2 /\
    length (queue_hw_ctx (fst st)) = length (queue_hw_ctx q2) /\
    map hctx_sw (queue_hw_ctx (fst st)) = map hctx_sw (queue_hw_ctx q2) /\
    forall h hctx, queue_hw_ctx (fst st) !! h = Some hctx -> (h < k)%nat ->
      if Nat.eqb (nr_ctx hctx) 0 then tags hctx = None
      else sb_depth (ctx_map hctx) = nr_ctx hctx /\ tags hctx = tags_at (snd st) h).
  assert (HP : P (length (queue_hw_ctx q2))
                 (fold_left (fun st h => map_swqueue_tags h st)
                            (seq 0 (length (queue_hw_ctx q2))) (q2, set2))).
  { apply fold_left_seq_ind.
    - unfold P. cbn [fst snd]. split_and!; try reflexivity. intros h hctx _ Hh. lia.
    - intros k [q3 set3] Hk (Hc & Hm & Hl & Hsw & Hdone). cbn [fst snd] in *.
      unfold P, map_swqueue_tags.
      destruct (Nat.eqb (nr_ctx (hctx_at q3 k)) 0) eqn:Hz; cbn [fst snd].
      + split_and!; try assumption.
        * now rewrite store_hctx_length.
        * rewrite store_hctx_map_same; [exact Hsw|reflexivity].
        * intros h hctx Hh Hlt. apply store_hctx_lookup in Hh as [[-> ->]|[Hne Hh]].
          -- cbn [nr_ctx set_tags tags]. now rewrite Hz.
          -- specialize (Hdone h hctx Hh ltac:(lia)).
             destruct (Nat.eqb (nr_ctx hctx) 0); [exact Hdone|].
             destruct Hdone as [Hdep Ht]. split; [exact Hdep|]. rewrite Ht.
             destruct (negb (Nat.eqb k 0) && bool_decide (is_Some (tags_at set3 k)));
               [|reflexivity].
             symmetry. now apply tags_at_free_ne.
      + split_and!; try assumption.
        * now rewrite store_hctx_length.
        * rewrite store_hctx_map_same; [exact Hsw|reflexivity].
        * intros h hctx Hh Hlt. apply store_hctx_lookup in Hh as [[-> ->]|[Hne Hh]].
          -- cbn [nr_ctx set_tags tags set_ctx_map ctx_map sbitmap_resize sb_depth].
             rewrite Hz. now split.
          -- apply (Hdone h hctx Hh). lia. }
  destruct (fold_left _ _ (q2, set2)) as [q3 set3].
  destruct HP as (Hc & Hm & Hl & Hsw & Hdone). cbn [fst snd] in *.
  split_and!; try assumption.
  intros h hctx Hh. apply (Hdone h hctx Hh). rewrite <- Hl.
  eapply lookup_lt_Some; eauto.
Qed.

(** X17: [blk_mq_map_swqueue] sets up the bookkeeping between hardware and
    software queues that the queue operations rely on.  On a queue whose
    [mq_map] has an entry for every possible CPU, each naming an existing
    hardware queue, it moves no request; afterwards every online CPU is owned
    by the hardware queue that [blk_mq_map_queue] gives for it, also when a
    failed pool allocation sent the CPU to hardware queue 0; every entry of
    [ctxs] is an online CPU mapped to that hardware queue; a hardware queue
    that got no software queue has no tags, and every other one is
    well-formed and uses the pool of the tag set.  If every hardware queue
    got a software queue, the request queue is well-formed. *)
Theorem blk_mq_map_swqueue_spec (mem online_mask : nat -> bool)
    (q : request_queue) (set : blk_mq_tag_set) :
  map_wf q -> length (mq_map q) = length (queue_ctx q) ->
  let '(q', set') := blk_mq_map_swqueue mem online_mask q set in
  length (queue_hw_ctx q') = length (queue_hw_ctx q) /\
  map rq_list (queue_ctx q') = map rq_list (queue_ctx q) /\
  map dispatch (queue_hw_ctx q') = map dispatch (queue_hw_ctx q) /\
  map_wf q' /\
  (forall cpu, (cpu < length (queue_ctx q))%nat -> online_mask cpu = true ->
     queue_owns q' (blk_mq_map_queue q' cpu) cpu) /\
  (forall h hctx, queue_hw_ctx q' !! h = Some hctx ->
     (forall i cpu, ctxs hctx !! i = Some cpu ->
        online_mask cpu = true /\ mq_map q' !! cpu = Some h) /\
     if Nat.eqb (nr_ctx hctx) 0 then tags hctx = None /\ ctxs hctx = []
     else hw_sw_wf (mk_hw_sw hctx (queue_ctx q')) /\ tags hctx = tags_at set' h) /\
  ((forall h hctx, queue_hw_ctx q' !! h = Some hctx -> nr_ctx hctx <> 0%nat) ->
   queue_wf q').
Proof.
  intros Hwf Hlen. unfold blk_mq_map_swqueue.
  pose proof (map_swqueue_clear_spec online_mask q Hwf Hlen) as H1.
  set (q1 := fold_left (fun q h => map_swqueue_clear h q) (hw_queues q) q) in *.
  pose proof (map_swqueue_cpus_spec mem online_mask q q1 set H1) as H2.
  destruct (fold_left (fun st i => map_swqueue_cpu mem online_mask i st) _ (q1, set))
    as [q2 set2]. cbn [fst] in H2.
  destruct H2 as (Hl & Hc & Hm & Hwf2 & Hr & Hd & Hh & Hcpu).
  pose proof (map_swqueue_tags_loop q2 set2) as H3.
  unfold hw_queues. rewrite <- Hl.
  destruct (fold_left (fun st h => map_swqueue_tags h st) _ (q2, set2)) as [q3 set3].
  destruct H3 as (Hc3 & Hm3 & Hl3 & Hsw & Htags).
  assert (Hback : forall h hctx, queue_hw_ctx q3 !! h = Some hctx ->
            exists hctx2, queue_hw_ctx q2 !! h = Some hctx2 /\
                          ctxs hctx = ctxs hctx2 /\ nr_ctx hctx = nr_ctx hctx2 /\
                          dispatch hctx = dispatch hctx2).
  { intros h hctx Hhc.
    assert (Hx : map hctx_sw (queue_hw_ctx q3) !! h = Some (hctx_sw hctx))
      by (apply lookup_map_Some; now exists hctx).
    rewrite Hsw in Hx. apply lookup_map_Some in Hx as (hctx2 & Hh2 & Heq).
    exists hctx2. unfold hctx_sw in Heq. injection Heq as H1' H2' H3'. now split_and!. }
  assert (Hper : forall h hctx, queue_hw_ctx q3 !! h = Some hctx ->
            (forall i cpu, ctxs hctx !! i = Some cpu ->
               online_mask cpu = true /\ mq_map q3 !! cpu = Some h) /\
            if Nat.eqb (nr_ctx hctx) 0 then tags hctx = None /\ ctxs hctx = []
            else hw_sw_wf (mk_hw_sw hctx (queue_ctx q3)) /\ tags hctx = tags_at set3 h).
  { intros h hctx Hhc. destruct (Hback h hctx Hhc) as (hctx2 & Hh2 & Hcx & Hnr & _).
    destruct (Hh h hctx2 Hh2) as (Hn & Hnd & He). specialize (Htags h hctx Hhc).
    split.
    - intros i cpu Hi. rewrite Hcx in Hi. destruct (He i cpu Hi) as (_ & Hon & Hmq & _).
      split; [exact Hon|]. now rewrite Hm3.
    - destruct (Nat.eqb_spec (nr_ctx hctx) 0) as [Hz|Hnz].
      + split; [exact Htags|]. rewrite Hcx. apply length_zero_iff_nil. lia.
      + destruct Htags as [Hdep Ht]. split; [|exact Ht].
        unfold hw_sw_wf. cbn [hw sw_queues]. rewrite Hcx, Hnr, Hc3.
        split_and!; try assumption; try lia.
        intros i cpu Hi. destruct (He i cpu Hi) as (_ & _ & _ & Hctx). exact Hctx. }
  split_and!.
  - congruence.
  - now rewrite Hc3.
  - rewrite <- Hd.
    assert (Hx : map snd (map hctx_sw (queue_hw_ctx q3))
                 = map snd (map hctx_sw (queue_hw_ctx q2))) by now rewrite Hsw.
    now rewrite !List.map_map in Hx.
  - intros cpu. unfold blk_mq_map_queue. rewrite Hm3, Hl3. apply Hwf2.
  - intros cpu Hlt Hon. destruct (Hcpu cpu Hlt Hon) as [j Hj].
    assert (Hmq : blk_mq_map_queue q3 cpu = blk_mq_map_queue q2 cpu)
      by (unfold blk_mq_map_queue; now rewrite Hm3).
    rewrite Hmq. set (h := blk_mq_map_queue q2 cpu) in *.
    assert (Hhlt : (h < length (queue_hw_ctx q3))%nat) by (rewrite Hl3; apply Hwf2).
    destruct (lookup_lt_is_Some_2 _ _ Hhlt) as [hctx Hhc].
    destruct (Hback h hctx Hhc) as (hctx2 & Hh2 & Hcx & _).
    rewrite (hctx_at_lookup q2 h hctx2 Hh2) in Hj.
    destruct (Hh h hctx2 Hh2) as (_ & _ & He).
    destruct (He j cpu Hj) as (_ & _ & _ & ctx & Hctx & Hidx).
    exists hctx. split; [exact Hhc|]. exists ctx. cbn [hw sw_queues].
    rewrite Hc3, Hidx, Hcx. now split.
  - exact Hper.
  - intros Hall h hctx Hhc. destruct (Hper h hctx Hhc) as [He Hw].
    destruct (Nat.eqb_spec (nr_ctx hctx) 0) as [Hz|Hnz].
    + now destruct (Hall h hctx Hhc).
    + split; [exact (proj1 Hw)|]. intros i cpu Hi. exact (proj2 (He i cpu Hi)).
Qed.

Lemma example_two_queues_map_wf : map_wf example_two_queues.
Proof.
  intros cpu. unfold blk_mq_map_queue. cbn.
  destruct cpu as [|[|[|cpu]]]; cbn; try lia. destruct cpu; cbn; lia.
Qed.

Lemma blk_mq_map_swqueue_spec_witness :
  map_wf example_two_queues /\
  length (mq_map example_two_queues) = length (queue_ctx example_two_queues) /\
  let '(q', set') := blk_mq_map_swqueue (fun _ => false)
                                        (fun cpu => negb (Nat.eqb cpu 1))
                                        example_two_queues example_tag_set in
  length (queue_hw_ctx q') = 2%nat /\
  map rq_list (queue_ctx q') = map rq_list (queue_ctx example_two_queues) /\
  map dispatch (queue_hw_ctx q') = map dispatch (queue_hw_ctx example_two_queues) /\
  map_wf q' /\
  (forall cpu, (cpu < 3)%nat -> negb (Nat.eqb cpu 1) = true ->
     queue_owns q' (blk_mq_map_queue q' cpu) cpu) /\
  (forall h hctx, queue_hw_ctx q' !! h = Some hctx ->
     (forall i cpu, ctxs hctx !! i = Some cpu ->
        negb (Nat.eqb cpu 1) = true /\ mq_map q' !! cpu = Some h) /\
     if Nat.eqb (nr_ctx hctx) 0 then tags hctx = None /\ ctxs hctx = []
     else hw_sw_wf (mk_hw_sw hctx (queue_ctx q')) /\ tags hctx = tags_at set' h) /\
  ((forall h hctx, queue_hw_ctx q' !! h = Some hctx -> nr_ctx hctx <> 0%nat) ->
   queue_wf q').
Proof.
  split; [exact example_two_queues_map_wf|]. split; [reflexivity|].
  exact (blk_mq_map_swqueue_spec (fun _ => false) (fun cpu => negb (Nat.eqb cpu 1))
           example_two_queues example_tag_set example_two_queues_map_wf eq_refl).
Defined.

(** ** The requeue list *)

Lemma requeue_heads_spec (l : list requeue_rq) :
  requeue_heads l
  = (List.filter (fun rq => negb (req_softbarrier rq)) l,
     map (fun rq => R_sched_insert (set_req_softbarrier false rq) true)
         (List.filter req_softbarrier l)).
Proof.
  induction l as [|rq l IH]; [reflexivity|].
  cbn [requeue_heads List.filter]. rewrite IH.
  now destruct (req_softbarrier rq).
Qed.

Lemma requeue_tails_spec (l : list requeue_rq) :
  requeue_tails l = map (fun rq => R_sched_insert rq false) l.
Proof. induction l as [|rq l IH]; [reflexivity|]. cbn. now rewrite IH. Qed.

(** The requeue list after a run of calls, started from a list [l0]. *)
Lemma add_all_to_requeue_list_spec (calls : list (requeue_rq * bool * bool))
    (l0 : list requeue_rq) :
  Forall (fun c => req_softbarrier (fst (fst c)) = false) calls ->
  add_all_to_requeue_list calls l0
  = Some (map (fun c => set_req_softbarrier true (fst (fst c)))
              (rev (List.filter (fun c => snd (fst c)) calls))
          ++ l0
          ++ map (fun c => fst (fst c))
                 (List.filter (fun c => negb (snd (fst c))) calls)).
Proof.
  intros Hall. revert l0. induction Hall as [|[[rq at_head] kick] calls Hrq _ IH];
    intros l0.
  - cbn. now rewrite app_nil_r.
  - cbn [add_all_to_requeue_list]. unfold blk_mq_add_to_requeue_list.
    cbn [fst snd] in Hrq. rewrite Hrq. rewrite IH.
    cbn [List.filter fst snd]. destruct at_head; cbn [negb rev].
    + unfold list_add. rewrite map_app, <- app_assoc. reflexivity.
    + unfold list_add_tail. cbn [map]. rewrite <- !app_assoc. reflexivity.
Qed.

(** X18: the requeue list hands every request back once and as it came.
    After a run of calls of [blk_mq_add_to_requeue_list] on an empty list,
    for requests that do not carry REQ_SOFTBARRIER, the list holds one entry
    for each call, and [blk_mq_requeue_work] empties it: it inserts the
    requests added at the head, the latest first and each at the head, then
    the requests added at the tail, in the order of the calls, and then runs
    the hardware queues.  Each request is inserted once, with the bit clear
    as it was before. *)
Theorem blk_mq_requeue_work_round_trip (calls : list (requeue_rq * bool * bool)) :
  Forall (fun c => req_softbarrier (fst (fst c)) = false) calls ->
  exists requeue_list,
    add_all_to_requeue_list calls [] = Some requeue_list /\
    length requeue_list = length calls /\
    blk_mq_requeue_work requeue_list
    = ([],
       map (fun c => R_sched_insert (fst (fst c)) true)
           (rev (List.filter (fun c => snd (fst c)) calls))
       ++ map (fun c => R_sched_insert (fst (fst c)) false)
              (List.filter (fun c => negb (snd (fst c))) calls)
       ++ [R_run_hw_queues]).
Proof.
  intros Hall. eexists. split; [now apply add_all_to_requeue_list_spec|].
  cbn [app].
  set (heads := rev (List.filter (fun c => snd (fst c)) calls)).
  set (tails := List.filter (fun c => negb (snd (fst c))) calls).
  assert (Hh : Forall (fun c => req_softbarrier (fst (fst c)) = false) heads).
  { apply List.Forall_forall. intros c Hc. subst heads. apply in_rev in Hc.
    apply List.filter_In in Hc as [Hc _]. revert c Hc. now apply List.Forall_forall. }
  assert (Ht : Forall (fun c => req_softbarrier (fst (fst c)) = false) tails).
  { apply List.Forall_forall. intros c Hc. subst tails.
    apply List.filter_In in Hc as [Hc _]. revert c Hc. now apply List.Forall_forall. }
  split.
  - rewrite length_app, !length_map. subst heads tails. rewrite length_rev.
    clear. induction calls as [|[[rq a] k] calls IH]; [reflexivity|].
    cbn [List.filter fst snd length]. destruct a; cbn [negb length]; lia.
  - unfold blk_mq_requeue_work, list_splice. rewrite app_nil_r, requeue_heads_spec.
    rewrite requeue_tails_spec. f_equal.
    rewrite !List.filter_app, !map_app.
    assert (H1 : List.filter req_softbarrier
                   (map (fun c => set_req_softbarrier true (fst (fst c))) heads)
                 = map (fun c => set_req_softbarrier true (fst (fst c))) heads).
    { clear. induction heads as [|c l IH]; [reflexivity|]. cbn. now rewrite IH. }
    assert (H2 : List.filter (fun rq => negb (req_softbarrier rq))
                   (map (fun c => set_req_softbarrier true (fst (fst c))) heads) = []).
    { clear. induction heads as [|c l IH]; [reflexivity|]. cbn. exact IH. }
    assert (H3 : List.filter req_softbarrier (map (fun c => fst (fst c)) tails) = []).
    { clear - Ht. induction Ht as [|c l Hc _ IH]; [reflexivity|]. cbn.
      now rewrite Hc. }
    assert (H4 : List.filter (fun rq => negb (req_softbarrier rq))
                   (map (fun c => fst (fst c)) tails)
                 = map (fun c => fst (fst c)) tails).
    { clear - Ht. induction Ht as [|c l Hc _ IH]; [reflexivity|]. cbn.
      rewrite Hc. cbn. now rewrite IH. }
    rewrite H1, H2, H3, H4. cbn [app]. rewrite app_nil_r, !List.map_map. cbn [app].
    f_equal.
    + clear - Hh. induction Hh as [|c l Hc _ IH]; [reflexivity|]. cbn.
      rewrite IH. f_equal. f_equal. destruct (fst (fst c)) as [r b]. cbn in *.
      now subst b.
Qed.

Lemma blk_mq_requeue_work_round_trip_witness :
  Forall (fun c => req_softbarrier (fst (fst c)) = false) example_requeue_calls /\
  exists requeue_list,
    add_all_to_requeue_list example_requeue_calls [] = Some requeue_list /\
    length requeue_list = 2%nat /\
    blk_mq_requeue_work requeue_list
    = ([], [R_sched_insert
              (mk_requeue_rq (mk_request 1 0 (-1) (-1) false 0 0 30 0) false) true;
            R_sched_insert
              (mk_requeue_rq (mk_request 2 0 (-1) (-1) false 0 0 30 0) false) false;
            R_run_hw_queues]).
Proof.
  assert (H : Forall (fun c => req_softbarrier (fst (fst c)) = false)
                     example_requeue_calls)
    by (repeat constructor).
  split; [exact H|].
  exact (blk_mq_requeue_work_round_trip example_requeue_calls H).
Defined.

(** ** Allocating a tag set *)

Lemma tags_at_insert_eq (set : blk_mq_tag_set) (i : nat) (v : option blk_mq_tags) :
  (i < length (ts_tags set))%nat ->
  tags_at (set_ts_tags (<[i := v]> (ts_tags set)) set) i = v.
Proof.
  intros Hi. unfold tags_at. cbn [ts_tags set_ts_tags].
  now rewrite list_lookup_insert_eq.
Qed.

Lemma tags_at_insert_ne (set : blk_mq_tag_set) (i j : nat) (v : option blk_mq_tags) :
  i <> j -> tags_at (set_ts_tags (<[i := v]> (ts_tags set)) set) j = tags_at set j.
Proof.
  intros Hi. unfold tags_at. cbn [ts_tags set_ts_tags].
  now rewrite list_lookup_insert_ne.
Qed.

Lemma alloc_rq_maps_from_spec (env : alloc_env) (n i : nat) (set : blk_mq_tag_set) :
  let '(err, set') := alloc_rq_maps_from env n i set in
  ts_queue_depth set' = ts_queue_depth set /\ ts_frame set' = ts_frame set /\
  (forall j, (j < i \/ i + n <= j)%nat -> tags_at set' j = tags_at set j) /\
  ((err = 0 /\
    forall j, (i <= j < i + n)%nat ->
      rq_map_mem env (ts_queue_depth set) j = true /\
      ((j < length (ts_tags set))%nat ->
       tags_at set' j = Some (blk_mq_alloc_rq_map (ts_queue_depth set)
                                                    (ts_reserved_tags set)))) \/
   (err = - ENOMEM /\
    exists j, (i <= j < i + n)%nat /\ rq_map_mem env (ts_queue_depth set) j = false)).
Proof.
  revert i set. induction n as [|n IH]; intros i set.
  - cbn. split_and!; try reflexivity. left. split; [reflexivity|]. intros j Hj. lia.
  - cbn [alloc_rq_maps_from]. unfold __blk_mq_alloc_rq_map.
    destruct (rq_map_mem env (ts_queue_depth set) i) eqn:Hmem.
    + set (set1 := set_ts_tags _ set).
      specialize (IH (S i) set1).
      destruct (alloc_rq_maps_from env n (S i) set1) as [err set'].
      destruct IH as (Hd & Hf & Hbelow & Hres).
      assert (Hf1 : ts_frame set1 = ts_frame set).
      { unfold ts_frame, set1. cbn [ts_nr_hw_queues ts_reserved_tags
          ts_has_queue_rq ts_tags set_ts_tags]. now rewrite length_insert. }
      split_and!.
      * exact Hd.
      * congruence.
      * intros j Hj. rewrite Hbelow by lia. unfold set1.
        apply tags_at_insert_ne. lia.
      * destruct Hres as [[-> Hall]|[-> (j & Hj & Hjm)]].
        -- left. split; [reflexivity|]. intros j Hj.
           destruct (Nat.eq_dec j i) as [->|Hne].
           ++ split; [exact Hmem|]. intros Hlt. rewrite Hbelow by lia.
              unfold set1. now apply tags_at_insert_eq.
           ++ destruct (Hall j ltac:(lia)) as [Hm Ht]. split; [exact Hm|].
              intros Hlt. apply Ht. unfold set1. cbn [ts_tags set_ts_tags].
              now rewrite length_insert.
        -- right. split; [reflexivity|]. exists j. split; [lia|exact Hjm].
    + split_and!.
      * reflexivity.
      * unfold ts_frame. cbn [ts_nr_hw_queues ts_reserved_tags
          ts_has_queue_rq ts_tags set_ts_tags]. now rewrite length_insert.
      * intros j Hj. apply tags_at_insert_ne. lia.
      * right. split; [reflexivity|]. exists i. split; [lia|exact Hmem].
Qed.

Lemma shiftr_of_nat_0 (d : Z) : Z.shiftr d (Z.of_nat 0) = d.
Proof. apply Z.shiftr_0_r. Qed.

Lemma shiftr_shiftr_1 (d : Z) (k : nat) :
  Z.shiftr (Z.shiftr d 1) (Z.of_nat k) = Z.shiftr d (Z.of_nat (S k)).
Proof. rewrite Z.shiftr_shiftr by lia. f_equal. lia. Qed.

(** The loop of [blk_mq_alloc_rq_maps] ends within [fuel] passes when the
    depth is below [2 ^ fuel]; [k] is the number of halvings. *)
Lemma alloc_rq_maps_loop_spec (env : alloc_env) (fuel : nat) (set : blk_mq_tag_set) :
  (0 < fuel)%nat -> 0 <= ts_queue_depth set < 2 ^ Z.of_nat fuel ->
  exists err set' k,
    alloc_rq_maps_loop env fuel set = Some (err, set') /\
    ts_queue_depth set' = Z.shiftr (ts_queue_depth set) (Z.of_nat k) /\
    ts_frame set' = ts_frame set /\
    (forall j, (Z.to_nat (ts_nr_hw_queues set) <= j)%nat ->
       tags_at set' j = tags_at set j) /\
    (forall j, (j < k)%nat ->
       exists i, (i < Z.to_nat (ts_nr_hw_queues set))%nat /\
                 rq_map_mem env (Z.shiftr (ts_queue_depth set) (Z.of_nat j)) i = false) /\
    ((err = 0 /\
      ((0 < k)%nat -> uint (ts_reserved_tags set + BLK_MQ_TAG_MIN env)
                      <= ts_queue_depth set' /\ 0 < ts_queue_depth set') /\
      forall i, (i < Z.to_nat (ts_nr_hw_queues set))%nat ->
        rq_map_mem env (ts_queue_depth set') i = true /\
        ((i < length (ts_tags set))%nat ->
         tags_at set' i = Some (blk_mq_alloc_rq_map (ts_queue_depth set')
                                                      (ts_reserved_tags set)))) \/
     err = - ENOMEM).
Proof.
  revert set. induction fuel as [|fuel IH]; intros set Hf Hd; [lia|].
  cbn [alloc_rq_maps_loop]. unfold __blk_mq_alloc_rq_maps.
  pose proof (alloc_rq_maps_from_spec env (Z.to_nat (ts_nr_hw_queues set)) 0 set) as H.
  destruct (alloc_rq_maps_from env (Z.to_nat (ts_nr_hw_queues set)) 0 set)
    as [err set1].
  destruct H as (Hd1 & Hf1 & Hout1 & Hres).
  destruct Hres as [[-> Hall]|[-> (i & Hi & Him)]].
  - cbn [Z.eqb]. exists 0, set1, 0%nat. split_and!; try assumption.
    + reflexivity.
    + intros j Hj. apply Hout1. lia.
    + intros j Hj. lia.
    + left. split_and!; [reflexivity|lia|]. intros i Hi. rewrite Hd1.
      apply Hall. lia.
  - assert (Hne : (- ENOMEM =? 0) = false) by reflexivity. rewrite Hne.
    set (set2 := set_ts_queue_depth (Z.shiftr (ts_queue_depth set1) 1) set1).
    assert (Hd2 : ts_queue_depth set2 = Z.shiftr (ts_queue_depth set) 1)
      by (unfold set2; cbn; now rewrite Hd1).
    assert (Hf2 : ts_frame set2 = ts_frame set) by (rewrite <- Hf1; reflexivity).
    assert (Hr2 : ts_reserved_tags set2 = ts_reserved_tags set)
      by (unfold ts_frame in Hf2; congruence).
    assert (Hn2 : ts_nr_hw_queues set2 = ts_nr_hw_queues set)
      by (unfold ts_frame in Hf2; congruence).
    assert (Hl2 : length (ts_tags set2) = length (ts_tags set))
      by (unfold ts_frame in Hf2; congruence).
    assert (Hout2 : forall j, (Z.to_nat (ts_nr_hw_queues set) <= j)%nat ->
              tags_at set2 j = tags_at set j).
    { intros j Hj. rewrite <- Hout1 by lia. reflexivity. }
    assert (Hfail : forall j, (j < 1)%nat ->
              exists i, (i < Z.to_nat (ts_nr_hw_queues set))%nat /\
                rq_map_mem env (Z.shiftr (ts_queue_depth set) (Z.of_nat j)) i = false).
    { intros j Hj. assert (j = 0%nat) as -> by lia. exists i.
      split; [lia|]. now rewrite shiftr_of_nat_0. }
    destruct (Z.ltb_spec (ts_queue_depth set2)
                (uint (ts_reserved_tags set2 + BLK_MQ_TAG_MIN env))) as [Hlt|Hge].
    { exists (- ENOMEM), set2, 1%nat. split_and!; try assumption; try reflexivity.
      now right. }
    destruct (Z.eqb_spec (ts_queue_depth set2) 0) as [Hz|Hnz].
    { exists (- ENOMEM), set2, 1%nat. split_and!; try assumption; try reflexivity.
      now right. }
    assert (Hrange : 0 <= ts_queue_depth set2 < 2 ^ Z.of_nat fuel).
    { rewrite Hd2, Z.shiftr_div_pow2 by lia. change (2 ^ 1) with 2.
      rewrite Nat2Z.inj_succ, Z.pow_succ_r in Hd by lia.
      split; [apply Z.div_pos; lia|]. apply Z.div_lt_upper_bound; lia. }
    assert (Hfuel : (0 < fuel)%nat).
    { destruct fuel; [|lia]. change (2 ^ Z.of_nat 0) with 1 in Hrange. lia. }
    destruct (IH set2 Hfuel Hrange)
      as (err & set' & k & Hloop & Hdk & Hfk & Houtk & Hfails & Hres).
    exists err, set', (S k). split_and!.
    + exact Hloop.
    + rewrite Hdk, Hd2. apply shiftr_shiftr_1.
    + congruence.
    + intros j Hj. rewrite Houtk by (rewrite Hn2; exact Hj). now apply Hout2.
    + intros j Hj. destruct j as [|j]; [apply Hfail; lia|].
      destruct (Hfails j ltac:(lia)) as (i' & Hi' & Hm'). exists i'.
      rewrite Hn2 in Hi'. split; [exact Hi'|].
      rewrite Hd2, shiftr_shiftr_1 in Hm'. exact Hm'.
    + destruct Hres as [(-> & Hthr & Hall)| ->]; [left|now right].
      split_and!; [reflexivity| |].
      * intros _. destruct k as [|k].
        -- rewrite Hdk, shiftr_of_nat_0. rewrite Hr2 in Hge. split; [exact Hge|lia].
        -- rewrite Hr2 in Hthr. apply Hthr. lia.
      * intros i' Hi'. rewrite Hn2, Hr2, Hl2 in Hall. now apply Hall.
Qed.

Lemma shiftr_le (d : Z) (k : nat) : 0 <= d -> 0 <= Z.shiftr d (Z.of_nat k) <= d.
Proof.
  intros Hd. rewrite Z.shiftr_div_pow2 by lia.
  assert (Hp : 0 < 2 ^ Z.of_nat k) by (apply Z.pow_pos_nonneg; lia).
  split; [apply Z.div_pos; lia|]. apply Z.div_le_upper_bound; nia.
Qed.

(** X19: [blk_mq_alloc_rq_maps] looks for a depth at which the pools of all
    hardware queues can be allocated by halving [set->queue_depth] after each
    failed attempt.  For a depth below [2 ^ fuel] it ends within [fuel]
    passes and returns 0 or -ENOMEM; the depth it leaves is the depth asked
    for shifted right by the number [k] of failed attempts, each of which
    lacked memory for some hardware queue.  When it returns 0 the depth is
    above zero, not below [reserved_tags + BLK_MQ_TAG_MIN] if it was reduced,
    memory was there for every hardware queue at that depth, and every
    hardware queue has a pool of that depth. *)
Theorem blk_mq_alloc_rq_maps_spec (env : alloc_env) (fuel : nat)
    (set : blk_mq_tag_set) :
  (0 < fuel)%nat -> 0 <= ts_queue_depth set < 2 ^ Z.of_nat fuel ->
  exists ret set' k,
    blk_mq_alloc_rq_maps env fuel set = Some (ret, set') /\
    ts_queue_depth set' = Z.shiftr (ts_queue_depth set) (Z.of_nat k) /\
    ts_frame set' = ts_frame set /\
    (forall j, (j < k)%nat ->
       exists i, (i < Z.to_nat (ts_nr_hw_queues set))%nat /\
                 rq_map_mem env (Z.shiftr (ts_queue_depth set) (Z.of_nat j)) i = false) /\
    ((ret = 0 /\ 0 < ts_queue_depth set' /\
      ((0 < k)%nat -> uint (ts_reserved_tags set + BLK_MQ_TAG_MIN env)
                      <= ts_queue_depth set') /\
      forall i, (i < Z.to_nat (ts_nr_hw_queues set))%nat ->
        rq_map_mem env (ts_queue_depth set') i = true /\
        ((i < length (ts_tags set))%nat ->
         tags_at set' i = Some (blk_mq_alloc_rq_map (ts_queue_depth set')
                                                      (ts_reserved_tags set)))) \/
     ret = - ENOMEM).
Proof.
  intros Hf Hd.
  destruct (alloc_rq_maps_loop_spec env fuel set Hf Hd)
    as (err & set' & k & Hloop & Hdk & Hfk & _ & Hfails & Hres).
  unfold blk_mq_alloc_rq_maps. rewrite Hloop.
  destruct Hres as [(-> & Hthr & Hall)| ->].
  - destruct (Z.eqb_spec (ts_queue_depth set') 0) as [Hz|Hnz]; cbn [orb negb Z.eqb].
    + exists (- ENOMEM), set', k. split_and!; try assumption; try reflexivity.
      now right.
    + exists 0, set', k. split_and!; try assumption; try reflexivity. left.
      pose proof (shiftr_le (ts_queue_depth set) k ltac:(lia)) as Hle.
      split_and!; try assumption; try reflexivity; try lia.
      all: try (intros Hk; now apply Hthr).
  - assert (Hne : (- ENOMEM =? 0) = false) by reflexivity.
    rewrite Hne, orb_true_r.
    exists (- ENOMEM), set', k. split_and!; try assumption; try reflexivity.
    all: try now right.
Qed.

Lemma blk_mq_alloc_rq_maps_spec_witness :
  (0 < 32)%nat /\ 0 <= ts_queue_depth example_wide_tag_set < 2 ^ Z.of_nat 32 /\
  exists ret set' k,
    blk_mq_alloc_rq_maps example_alloc_env 32 example_wide_tag_set
    = Some (ret, set') /\
    ts_queue_depth set' = Z.shiftr 256 (Z.of_nat k) /\
    ts_frame set' = ts_frame example_wide_tag_set /\
    (forall j, (j < k)%nat ->
       exists i, (i < 2)%nat /\ (Z.shiftr 256 (Z.of_nat j) <=? 64) = false) /\
    ((ret = 0 /\ 0 < ts_queue_depth set' /\
      ((0 < k)%nat -> uint (1 + 1) <= ts_queue_depth set') /\
      forall i, (i < 2)%nat ->
        (ts_queue_depth set' <=? 64) = true /\
        ((i < 4)%nat ->
         tags_at set' i = Some (blk_mq_alloc_rq_map (ts_queue_depth set') 1))) \/
     ret = - ENOMEM).
Proof.
  assert (H1 : (0 < 32)%nat) by lia.
  assert (H2 : 0 <= ts_queue_depth example_wide_tag_set < 2 ^ Z.of_nat 32)
    by (vm_compute; split; [discriminate|reflexivity]).
  split; [exact H1|]. split; [exact H2|].
  exact (blk_mq_alloc_rq_maps_spec example_alloc_env 32 example_wide_tag_set H1 H2).
Defined.

Lemma tags_at_replicate_None (set : blk_mq_tag_set) (n i : nat) :
  tags_at (set_ts_tags (replicate n None) set) i = None.
Proof.
  unfold tags_at. cbn [ts_tags set_ts_tags].
  destruct (replicate n None !! i) as [x|] eqn:Hx; [|reflexivity].
  apply lookup_replicate in Hx as [-> _]. reflexivity.
Qed.

(** X20: [blk_mq_alloc_tag_set] on a tag set whose fields are unsigned
    integers, on a machine with at least one CPU id.  It returns -EINVAL and
    leaves the set alone when there is no hardware queue, no depth, a depth
    below [reserved_tags + BLK_MQ_TAG_MIN] or no [queue_rq].  Whenever it
    fails, either the set is untouched or [set->tags] is gone again.  When it
    returns 0, the number of hardware queues is at least 1 and at most the
    one asked for and the number of CPU ids, the depth is above zero and at
    most the one asked for and [BLK_MQ_MAX_DEPTH], a crash dump kernel has
    one hardware queue of depth at most 64, and [set->tags] has an entry for
    each CPU id: a pool of the final depth for each hardware queue and NULL
    beyond. *)
Theorem blk_mq_alloc_tag_set_spec (env : alloc_env) (fuel : nat)
    (set : blk_mq_tag_set) :
  (32 <= fuel)%nat ->
  0 <= ts_queue_depth set < 2 ^ 32 -> 0 <= ts_nr_hw_queues set ->
  0 < BLK_MQ_MAX_DEPTH env -> 0 < nr_cpu_ids env ->
  exists ret set',
    blk_mq_alloc_tag_set env fuel set = Some (ret, set') /\
    (ts_nr_hw_queues set = 0 \/ ts_queue_depth set = 0 \/
     ts_queue_depth set < uint (ts_reserved_tags set + BLK_MQ_TAG_MIN env) \/
     ts_has_queue_rq set = false -> ret = - EINVAL /\ set' = set) /\
    (ret <> 0 -> set' = set \/ ts_tags set' = []) /\
    (ret = 0 ->
       0 < ts_nr_hw_queues set' <= Z.min (ts_nr_hw_queues set) (nr_cpu_ids env) /\
       0 < ts_queue_depth set' <= Z.min (ts_queue_depth set) (BLK_MQ_MAX_DEPTH env) /\
       (is_kdump_kernel env = true ->
        ts_nr_hw_queues set' = 1 /\ ts_queue_depth set' <= 64) /\
       ts_reserved_tags set' = ts_reserved_tags set /\
       length (ts_tags set') = Z.to_nat (nr_cpu_ids env) /\
       forall i,
         tags_at set' i
         = if Z.of_nat i <? ts_nr_hw_queues set'
           then Some (blk_mq_alloc_rq_map (ts_queue_depth set')
                                          (ts_reserved_tags set))
           else None).
Proof.
  intros Hfuel Hd Hn Hmax Hcpu. unfold blk_mq_alloc_tag_set.
  destruct (Z.eqb_spec (ts_nr_hw_queues set) 0) as [Hn0|Hn0].
  { exists (- EINVAL), set. split_and!; try reflexivity; try discriminate.
    - now intros _.
    - now left. }
  destruct (Z.eqb_spec (ts_queue_depth set) 0) as [Hd0|Hd0].
  { exists (- EINVAL), set. split_and!; try reflexivity; try discriminate.
    - now intros _.
    - now left. }
  destruct (Z.ltb_spec (ts_queue_depth set)
              (uint (ts_reserved_tags set + BLK_MQ_TAG_MIN env))) as [Hthr|Hthr].
  { exists (- EINVAL), set. split_and!; try reflexivity; try discriminate.
    - now intros _.
    - now left. }
  destruct (ts_has_queue_rq set) eqn:Hq; cbn [negb].
  2: { exists (- EINVAL), set. split_and!; try reflexivity; try discriminate.
       - now intros _.
       - now left. }
  assert (Hval : ts_nr_hw_queues set = 0 \/ ts_queue_depth set = 0 \/
                 ts_queue_depth set < uint (ts_reserved_tags set + BLK_MQ_TAG_MIN env) \/
                 true = false -> False).
  { intros [H|[H|[H|H]]]; [lia|lia|lia|discriminate]. }
  set (set1 := if BLK_MQ_MAX_DEPTH env <? ts_queue_depth set
               then set_ts_queue_depth (BLK_MQ_MAX_DEPTH env) set else set).
  set (set2 := if is_kdump_kernel env
               then set_ts_queue_depth (Z.min 64 (ts_queue_depth set1))
                                       (set_ts_nr_hw_queues 1 set1)
               else set1).
  set (set3 := if nr_cpu_ids env <? ts_nr_hw_queues set2
               then set_ts_nr_hw_queues (nr_cpu_ids env) set2 else set2).
  assert (H3 : 0 < ts_nr_hw_queues set3 <= Z.min (ts_nr_hw_queues set) (nr_cpu_ids env) /\
               0 < ts_queue_depth set3
                 <= Z.min (ts_queue_depth set) (BLK_MQ_MAX_DEPTH env) /\
               (is_kdump_kernel env = true ->
                ts_nr_hw_queues set3 = 1 /\ ts_queue_depth set3 <= 64) /\
               ts_reserved_tags set3 = ts_reserved_tags set).
  { subst set3 set2 set1.
    destruct (Z.ltb_spec (BLK_MQ_MAX_DEPTH env) (ts_queue_depth set));
      destruct (is_kdump_kernel env);
      cbn [ts_nr_hw_queues ts_queue_depth ts_reserved_tags set_ts_queue_depth
           set_ts_nr_hw_queues];
      match goal with
      | |- context [nr_cpu_ids env <? ?x] => destruct (Z.ltb_spec (nr_cpu_ids env) x)
      end;
      cbn [ts_nr_hw_queues ts_queue_depth ts_reserved_tags set_ts_queue_depth
           set_ts_nr_hw_queues];
      split_and!; try reflexivity; try lia; try discriminate; intros _; lia. }
  destruct H3 as (Hn3 & Hd3 & Hk3 & Hr3).
  destruct (tags_array_mem env); cbn [negb].
  2: { exists (- ENOMEM), (set_ts_tags [] set3).
       split_and!; try reflexivity; try discriminate.
       - intros H. now destruct (Hval H).
       - intros _. now right. }
  set (set4 := set_ts_tags (replicate (Z.to_nat (nr_cpu_ids env)) None) set3).
  destruct (mq_map_mem env); cbn [negb].
  2: { exists (- ENOMEM), (set_ts_tags [] set4).
       split_and!; try reflexivity; try discriminate.
       - intros H. now destruct (Hval H).
       - intros _. now right. }
  destruct (Z.eqb_spec (update_queue_map_ret env) 0) as [Hu|Hu]; cbn [negb].
  2: { exists (update_queue_map_ret env), (set_ts_tags [] set4).
       split_and!; try reflexivity.
       - intros H. now destruct (Hval H).
       - intros _. now right.
       - intros H. congruence. }
  assert (Hd4 : 0 <= ts_queue_depth set4 < 2 ^ Z.of_nat fuel).
  { change (ts_queue_depth set4) with (ts_queue_depth set3). split; [lia|].
    apply Z.lt_le_trans with (2 ^ 32); [lia|].
    apply Z.pow_le_mono_r; lia. }
  destruct (alloc_rq_maps_loop_spec env fuel set4 ltac:(lia) Hd4)
    as (err & set5 & k & Hloop & Hdk & Hfk & Hout & _ & Hres).
  unfold blk_mq_alloc_rq_maps. rewrite Hloop.
  assert (Hfail : exists ret set',
            Some (- ENOMEM, set_ts_tags [] set5) = Some (ret, set') /\
            (ts_nr_hw_queues set = 0 \/ ts_queue_depth set = 0 \/
             ts_queue_depth set < uint (ts_reserved_tags set + BLK_MQ_TAG_MIN env) \/
             true = false -> ret = - EINVAL /\ set' = set) /\
            (ret <> 0 -> set' = set \/ ts_tags set' = []) /\
            (ret = 0 ->
             0 < ts_nr_hw_queues set' <= Z.min (ts_nr_hw_queues set) (nr_cpu_ids env) /\
             0 < ts_queue_depth set'
               <= Z.min (ts_queue_depth set) (BLK_MQ_MAX_DEPTH env) /\
             (is_kdump_kernel env = true ->
              ts_nr_hw_queues set' = 1 /\ ts_queue_depth set' <= 64) /\
             ts_reserved_tags set' = ts_reserved_tags set /\
             length (ts_tags set') = Z.to_nat (nr_cpu_ids env) /\
             forall i,
               tags_at set' i
               = if Z.of_nat i <? ts_nr_hw_queues set'
                 then Some (blk_mq_alloc_rq_map (ts_queue_depth set')
                                                (ts_reserved_tags set))
                 else None)).
  { exists (- ENOMEM), (set_ts_tags [] set5).
    split_and!; try reflexivity; try discriminate.
    - intros H. now destruct (Hval H).
    - intros _. now right. }
  destruct Hres as [(-> & Hthr' & Hall)| ->].
  2: { assert (Hne : (- ENOMEM =? 0) = false) by reflexivity.
       rewrite Hne, orb_true_r. cbn [negb Z.eqb]. rewrite Hne. exact Hfail. }
  destruct (Z.eqb_spec (ts_queue_depth set5) 0) as [Hz|Hnz]; cbn [orb negb Z.eqb].
  { assert (Hne : (- ENOMEM =? 0) = false) by reflexivity. rewrite Hne. exact Hfail. }
  exists 0, set5. unfold ts_frame in Hfk. injection Hfk as Hn5 Hr5 _ Hl5.
  change (ts_nr_hw_queues set4) with (ts_nr_hw_queues set3) in *.
  change (ts_reserved_tags set4) with (ts_reserved_tags set3) in *.
  change (ts_queue_depth set4) with (ts_queue_depth set3) in *.
  pose proof (shiftr_le (ts_queue_depth set3) k ltac:(lia)) as Hle.
  rewrite <- Hdk in Hle.
  split_and!; try reflexivity.
  - intros H. now destruct (Hval H).
  - intros H. congruence.
  - intros _. split_and!; try lia.
    + intros Hk. destruct (Hk3 Hk). split; lia.
    + rewrite Hl5. unfold set4. cbn [ts_tags set_ts_tags]. apply length_replicate.
    + intros i. rewrite Hn5.
      destruct (Z.ltb_spec (Z.of_nat i) (ts_nr_hw_queues set3)) as [Hi|Hi].
      * destruct (Hall i ltac:(lia)) as [_ Ht]. rewrite Ht, Hr3; [reflexivity|].
        unfold set4. cbn [ts_tags set_ts_tags]. rewrite length_replicate. lia.
      * rewrite Hout by lia. apply tags_at_replicate_None.
Qed.

Lemma blk_mq_alloc_tag_set_spec_witness :
  (32 <= 32)%nat /\
  0 <= ts_queue_depth example_wide_tag_set < 2 ^ 32 /\
  0 <= ts_nr_hw_queues example_wide_tag_set /\
  0 < BLK_MQ_MAX_DEPTH example_alloc_env /\ 0 < nr_cpu_ids example_alloc_env /\
  exists ret set',
    blk_mq_alloc_tag_set example_alloc_env 32 example_wide_tag_set
    = Some (ret, set') /\
    (2 = 0 \/ 256 = 0 \/ 256 < uint (1 + 1) \/ true = false ->
     ret = - EINVAL /\ set' = example_wide_tag_set) /\
    (ret <> 0 -> set' = example_wide_tag_set \/ ts_tags set' = []) /\
    (ret = 0 ->
       0 < ts_nr_hw_queues set' <= Z.min 2 4 /\
       0 < ts_queue_depth set' <= Z.min 256 10240 /\
       (false = true -> ts_nr_hw_queues set' = 1 /\ ts_queue_depth set' <= 64) /\
       ts_reserved_tags set' = 1 /\
       length (ts_tags set') = 4%nat /\
       forall i,
         tags_at set' i
         = if Z.of_nat i <? ts_nr_hw_queues set'
           then Some (blk_mq_alloc_rq_map (ts_queue_depth set') 1)
           else None).
Proof.
  assert (H1 : (32 <= 32)%nat) by lia.
  assert (H2 : 0 <= ts_queue_depth example_wide_tag_set < 2 ^ 32)
    by (vm_compute; split; [discriminate|reflexivity]).
  assert (H3 : 0 <= ts_nr_hw_queues example_wide_tag_set)
    by (vm_compute; discriminate).
  assert (H4 : 0 < BLK_MQ_MAX_DEPTH example_alloc_env) by reflexivity.
  assert (H5 : 0 < nr_cpu_ids example_alloc_env) by reflexivity.
  split_and!; try assumption.
  exact (blk_mq_alloc_tag_set_spec example_alloc_env 32 example_wide_tag_set
           H1 H2 H3 H4 H5).
Defined.

(** ** Inserting a list of requests *)

Lemma blk_mq_hctx_mark_pending_index (hctx : blk_mq_hw_ctx) (ctx ctx' : blk_mq_ctx) :
  index_hw ctx' = index_hw ctx ->
  blk_mq_hctx_mark_pending hctx ctx' = blk_mq_hctx_mark_pending hctx ctx.
Proof. intros H. unfold blk_mq_hctx_mark_pending. now rewrite H. Qed.

Lemma blk_mq_hctx_mark_pending_twice (hctx : blk_mq_hw_ctx) (ctx : blk_mq_ctx) :
  blk_mq_hctx_mark_pending (blk_mq_hctx_mark_pending hctx ctx) ctx
  = blk_mq_hctx_mark_pending hctx ctx.
Proof.
  unfold blk_mq_hctx_mark_pending.
  destruct (sbitmap_test_bit (ctx_map hctx) (index_hw ctx)) eqn:Hb; cbn [negb].
  - now rewrite Hb.
  - cbn [ctx_map set_ctx_map]. now rewrite sbitmap_test_set_eq.
Qed.

Lemma forallb_mq_ctx (cpu : nat) (l : list request) :
  forallb (fun rq => Nat.eqb (mq_ctx rq) cpu) l = true
  <-> Forall (fun rq => mq_ctx rq = cpu) l.
Proof.
  rewrite forallb_forall, List.Forall_forall.
  split; intros H rq Hin; apply Nat.eqb_eq; now apply H.
Qed.

(** Inserting the first request on its own and the others as a list is
    inserting the whole list. *)
Lemma blk_mq_insert_requests_cons (s : hw_sw) (cpu : nat) (rq : request)
    (l : list request) :
  mq_ctx rq = cpu -> (cpu < length (sw_queues s))%nat ->
  blk_mq_insert_requests (__blk_mq_insert_request s rq false) cpu l
  = blk_mq_insert_requests s cpu (rq :: l).
Proof.
  intros Hrq Hcpu. destruct (lookup_lt_is_Some_2 _ _ Hcpu) as [ctx Hctx].
  unfold __blk_mq_insert_request, blk_mq_insert_requests. rewrite Hrq, Hctx.
  cbn [forallb]. rewrite Hrq, Nat.eqb_refl. cbn [andb].
  destruct (forallb _ l); [|reflexivity]. f_equal.
  cbn [sw_queues hw]. rewrite list_lookup_insert_eq by assumption.
  rewrite list_insert_insert_eq.
  unfold list_splice_tail, list_add_tail. cbn [rq_list set_rq_list].
  rewrite <- app_assoc. cbn [app].
  rewrite (blk_mq_hctx_mark_pending_index _ (set_rq_list (rq_list ctx ++ [rq]) ctx)
             (set_rq_list (rq_list ctx ++ rq :: l)
                          (set_rq_list (rq_list ctx ++ [rq]) ctx)))
    by reflexivity.
  rewrite blk_mq_hctx_mark_pending_twice. reflexivity.
Qed.

Lemma __blk_mq_insert_request_length (s : hw_sw) (rq : request) (at_head : bool) :
  length (sw_queues (__blk_mq_insert_request s rq at_head)) = length (sw_queues s).
Proof.
  unfold __blk_mq_insert_request. destruct (sw_queues s !! mq_ctx rq); [|reflexivity].
  cbn [sw_queues]. apply length_insert.
Qed.

Lemma blk_mq_insert_requests_fold (s : hw_sw) (cpu : nat) (l : list request) :
  l <> [] -> Forall (fun rq => mq_ctx rq = cpu) l ->
  (cpu < length (sw_queues s))%nat ->
  blk_mq_insert_requests s cpu l
  = Some (fold_left (fun s rq => __blk_mq_insert_request s rq false) l s).
Proof.
  intros Hne Hall. revert s. induction Hall as [|rq l Hrq Hall IH]; [congruence|].
  intros s Hcpu. cbn [fold_left]. destruct l as [|rq' l].
  - cbn [fold_left]. unfold blk_mq_insert_requests, __blk_mq_insert_request.
    cbn [forallb]. rewrite Hrq, Nat.eqb_refl. cbn [andb].
    now destruct (sw_queues s !! cpu).
  - rewrite <- IH; [|discriminate|now rewrite __blk_mq_insert_request_length].
    symmetry. now apply blk_mq_insert_requests_cons.
Qed.

(** X21: [blk_mq_insert_requests] on the hardware queue that owns the
    software queue of the CPU.  The call stops at its [BUG_ON] exactly when
    the list holds a request of another software queue.  For requests of
    that CPU the list goes to the end of the FIFO of that software queue in
    order, its pending bit is set, and the other software queues, their bits
    and the dispatch list are as before; the hardware queue stays
    well-formed.  For a list that is not empty the result is that of
    inserting the requests one by one at the tail with
    [__blk_mq_insert_request].  The bit is set also for an empty list, so
    the pending-bitmap invariant holds afterwards exactly when the FIFO is
    not empty. *)
Theorem blk_mq_insert_requests_spec (s : hw_sw) (cpu : nat) (l : list request) :
  hw_sw_wf s -> hw_pending_inv s -> owns s cpu ->
  (blk_mq_insert_requests s cpu l = None
   <-> exists rq, In rq l /\ mq_ctx rq <> cpu) /\
  (Forall (fun rq => mq_ctx rq = cpu) l ->
   exists s',
     blk_mq_insert_requests s cpu l = Some s' /\
     (l <> [] -> s' = fold_left (fun s rq => __blk_mq_insert_request s rq false) l s) /\
     hw_sw_wf s' /\ dispatch (hw s') = dispatch (hw s) /\
     exists i,
       ctxs (hw s) !! i = Some cpu /\
       fifo_at s' i = fifo_at s i ++ l /\
       sbitmap_test_bit (ctx_map (hw s')) i = true /\
       (forall j, j <> i ->
          fifo_at s' j = fifo_at s j /\
          sbitmap_test_bit (ctx_map (hw s')) j = sbitmap_test_bit (ctx_map (hw s)) j) /\
       (hw_pending_inv s' <-> fifo_at s i ++ l <> [])).
Proof.
  intros Hwf Hinv (ctx & Hsw & Hown).
  split.
  { unfold blk_mq_insert_requests. rewrite Hsw.
    destruct (forallb (fun rq => Nat.eqb (mq_ctx rq) cpu) l) eqn:Hb.
    - split; [discriminate|]. intros (rq & Hin & Hne).
      rewrite forallb_forall in Hb. specialize (Hb rq Hin).
      apply Nat.eqb_eq in Hb. contradiction.
    - split; [intros _|reflexivity].
      assert (Hex : existsb (fun rq => negb (Nat.eqb (mq_ctx rq) cpu)) l = true).
      { clear -Hb. induction l as [|rq l IH]; [discriminate|].
        cbn [forallb existsb] in *.
        destruct (Nat.eqb (mq_ctx rq) cpu); cbn [negb andb orb] in *;
          [now apply IH|reflexivity]. }
      apply existsb_exists in Hex as (rq & Hin & Hne). exists rq.
      split; [exact Hin|]. apply negb_true_iff, Nat.eqb_neq in Hne. exact Hne. }
  intros Hall.
  pose proof Hwf as (Hlen & Hdepth & Hnd & Hctx).
  assert (Hcpu : (cpu < length (sw_queues s))%nat) by (eapply lookup_lt_Some; eauto).
  set (ctx' := set_rq_list (list_splice_tail l (rq_list ctx)) ctx).
  set (s' := mk_hw_sw (blk_mq_hctx_mark_pending (hw s) ctx')
                      (<[cpu := ctx']> (sw_queues s))).
  assert (Hs' : blk_mq_insert_requests s cpu l = Some s').
  { unfold blk_mq_insert_requests.
    rewrite (proj2 (forallb_mq_ctx cpu l) Hall), Hsw. reflexivity. }
  exists s'. split; [exact Hs'|].
  split.
  { intros Hne. pose proof (blk_mq_insert_requests_fold s cpu l Hne Hall Hcpu) as Hf.
    congruence. }
  assert (Hmark : ctxs (blk_mq_hctx_mark_pending (hw s) ctx') = ctxs (hw s) /\
                  nr_ctx (blk_mq_hctx_mark_pending (hw s) ctx') = nr_ctx (hw s) /\
                  dispatch (blk_mq_hctx_mark_pending (hw s) ctx') = dispatch (hw s) /\
                  sb_depth (ctx_map (blk_mq_hctx_mark_pending (hw s) ctx'))
                    = sb_depth (ctx_map (hw s)) /\
                  sbitmap_test_bit (ctx_map (blk_mq_hctx_mark_pending (hw s) ctx'))
                                   (index_hw ctx) = true /\
                  forall j, j <> index_hw ctx ->
                    sbitmap_test_bit (ctx_map (blk_mq_hctx_mark_pending (hw s) ctx')) j
                    = sbitmap_test_bit (ctx_map (hw s)) j).
  { unfold blk_mq_hctx_mark_pending. subst ctx'. cbn [index_hw set_rq_list].
    destruct (sbitmap_test_bit (ctx_map (hw s)) (index_hw ctx)) eqn:Hb; simpl.
    - repeat split; auto.
    - repeat split; auto using sbitmap_test_set_eq, sbitmap_test_set_neq. }
  destruct Hmark as (Hc & Hn & Hd & Hdp & Hb & Hbo).
  assert (Hfi : fifo_at s' (index_hw ctx) = fifo_at s (index_hw ctx) ++ l).
  { unfold fifo_at, s'. cbn [hw sw_queues]. rewrite Hc, Hown, Hsw.
    now rewrite list_lookup_insert_eq by assumption. }
  assert (Hfj : forall j, j <> index_hw ctx -> fifo_at s' j = fifo_at s j).
  { intros j Hj. unfold fifo_at, s'. cbn [hw sw_queues]. rewrite Hc.
    destruct (ctxs (hw s) !! j) as [c|] eqn:Hcj; [|reflexivity].
    rewrite list_lookup_insert_ne; [reflexivity|].
    intros <-. apply Hj. eapply (hw_sw_wf_inj s); eauto. }
  assert (Hilt : (index_hw ctx < nr_ctx (hw s))%nat).
  { rewrite <- Hlen. eapply lookup_lt_Some; eauto. }
  split; [|split; [exact Hd|]].
  { unfold hw_sw_wf, s'. cbn [hw sw_queues]. rewrite Hc, Hn, Hdp.
    repeat split; try assumption.
    intros j c Hj. destruct (Hctx j c Hj) as [ctx0 [Hsw0 Hidx0]].
    destruct (Nat.eq_dec c cpu) as [->|Hne].
    - rewrite list_lookup_insert_eq by assumption.
      eexists; split; [reflexivity|]. subst ctx'. simpl. congruence.
    - rewrite list_lookup_insert_ne by congruence. eauto. }
  exists (index_hw ctx). split_and!; try assumption.
  - intros j Hj. split; [now apply Hfj|now apply Hbo].
  - split.
    + intros Hinv'. rewrite <- Hfi. apply Hinv'; [|exact Hb].
      unfold s'. cbn [hw]. now rewrite Hn.
    + intros Hne j Hj. unfold s' in Hj. cbn [hw] in Hj. rewrite Hn in Hj.
      destruct (Nat.eq_dec j (index_hw ctx)) as [->|Hneq].
      * rewrite Hfi. cbn [hw]. fold s'. split; [now intros _|intros _; exact Hb].
      * rewrite Hfj by assumption. unfold s'. cbn [hw]. rewrite Hbo by assumption.
        now apply Hinv.
Qed.

Lemma example_pending_inv : hw_pending_inv example_pending.
Proof.
  intros i Hi. cbn in Hi.
  destruct i as [|[|[|i]]]; [| | |lia]; (split; [discriminate|reflexivity]).
Qed.

Lemma blk_mq_insert_requests_spec_witness :
  hw_sw_wf example_pending /\ hw_pending_inv example_pending /\
  owns example_pending 1 /\
  exists s',
    blk_mq_insert_requests example_pending 1
      [mk_request 7 1 (-1) (-1) false 0 0 30 0;
       mk_request 8 1 (-1) (-1) false 0 0 30 0] = Some s' /\
    fifo_at s' 1
    = fifo_at example_pending 1 ++ [mk_request 7 1 (-1) (-1) false 0 0 30 0;
                                    mk_request 8 1 (-1) (-1) false 0 0 30 0] /\
    hw_pending_inv s'.
Proof.
  assert (Hown : owns example_pending 1) by (eexists; split; reflexivity).
  assert (Hall : Forall (fun rq => mq_ctx rq = 1%nat)
                        [mk_request 7 1 (-1) (-1) false 0 0 30 0;
                         mk_request 8 1 (-1) (-1) false 0 0 30 0])
    by (repeat constructor).
  split_and!; [exact example_pending_wf|exact example_pending_inv|exact Hown|].
  destruct (proj2 (blk_mq_insert_requests_spec example_pending 1 _ example_pending_wf
                     example_pending_inv Hown) Hall)
    as (s' & Hs' & _ & _ & _ & i & Hi & Hf & _ & _ & Hinv).
  exists s'. split; [exact Hs'|].
  assert (Hi1 : i = 1%nat).
  { destruct i as [|[|i]]; [discriminate|reflexivity|].
    destruct i as [|i]; [discriminate|]. destruct i; discriminate. }
  subst i. split; [exact Hf|]. apply Hinv. discriminate.
Defined.

(** ** Allocating the requests of a pool *)

Lemma ulong_small (x : Z) : 0 <= x < 2 ^ 64 -> ulong x = x.
Proof. intros H. unfold ulong, ULONG_MODULUS. now apply Z.mod_small. Qed.



Lemma order_to_size_val (env : rqs_env) (o : nat) :
  rqs_env_ok env -> (o <= 4)%nat ->
  order_to_size env o = PAGE_SIZE env * 2 ^ Z.of_nat o /\
  0 < order_to_size env o <= PAGE_SIZE env * 16.
Proof.
  intros (Hp & Hp16 & _) Ho. unfold order_to_size.
  rewrite Z.shiftl_mul_pow2 by lia.
  assert (H2 : 1 <= 2 ^ Z.of_nat o <= 16).
  { change 16 with (2 ^ 4). split.
    - assert (0 < 2 ^ Z.of_nat o) by (apply Z.pow_pos_nonneg; lia). lia.
    - apply Z.pow_le_mono_r; lia. }
  rewrite ulong_small by nia. split; [reflexivity|nia].
Qed.

Lemma order_to_size_double (env : rqs_env) (o : nat) :
  rqs_env_ok env -> (S o <= 4)%nat ->
  order_to_size env (S o) = 2 * order_to_size env o.
Proof.
  intros Hok Ho.
  destruct (order_to_size_val env (S o) Hok Ho) as [-> _].
  destruct (order_to_size_val env o Hok ltac:(lia)) as [-> _].
  rewrite Nat2Z.inj_succ, Z.pow_succ_r by lia. lia.
Qed.





















(** ** Inserting a request and running the hardware queue *)

Lemma blk_mq_hctx_mark_pending_fields (hctx : blk_mq_hw_ctx) (ctx : blk_mq_ctx) :
  state_stopped (blk_mq_hctx_mark_pending hctx ctx) = state_stopped hctx /\
  tags (blk_mq_hctx_mark_pending hctx ctx) = tags hctx /\
  flag_blocking (blk_mq_hctx_mark_pending hctx ctx) = flag_blocking hctx.
Proof.
  unfold blk_mq_hctx_mark_pending.
  now destruct (negb (sbitmap_test_bit (ctx_map hctx) (index_hw ctx))).
Qed.

Lemma sbitmap_any_bit_set_intro (sb : sbitmap) (i : nat) :
  (i < sb_depth sb)%nat -> sbitmap_test_bit sb i = true ->
  sbitmap_any_bit_set sb = true.
Proof.
  intros Hi Hb. unfold sbitmap_any_bit_set. apply existsb_exists.
  exists i. split; [|exact Hb]. apply in_seq. lia.
Qed.

(** X23: a request inserted into a software queue is not left behind.  On
    a well-formed request queue, after [__blk_mq_insert_request] on the
    hardware queue that owns the software queue of the request, the hardware
    queue has pending work, and [blk_mq_run_hw_queue] answers true unless the
    queue is quiesced, in which case it does nothing; if the queue is not
    quiesced and the hardware queue is not stopped and has tags, the call
    runs the hardware queue on the spot or schedules its run without
    delay. *)
Theorem __blk_mq_insert_request_then_run (q : request_queue) (h cpu : nat)
    (rq : request) (at_head async : bool) :
  queue_wf q -> queue_owns q h (mq_ctx rq) ->
  let q' := fst (on_hctx q h (fun s => (__blk_mq_insert_request s rq at_head, tt))) in
  blk_mq_hctx_has_pending (hctx_at q' h) = true /\
  let '(ran, tr) := blk_mq_run_hw_queue q' h cpu async in
  ran = negb (queue_flag_quiesced q) /\
  (queue_flag_quiesced q = true -> tr = []) /\
  (queue_flag_quiesced q = false -> state_stopped (hctx_at q h) = false ->
   is_Some (tags (hctx_at q h)) ->
   tr = [Ev_run_hw_queue h] \/ tr = [Ev_run_work h 0]).
Proof.
  intros Hqwf (hctx & Hh & Hown) q'.
  pose proof (proj1 (Hqwf h hctx Hh)) as Hwf.
  destruct (__blk_mq_insert_request_spec (mk_hw_sw hctx (queue_ctx q)) rq at_head
              Hwf Hown) as (i & Hi & Hwf' & Hnr & Hctxs & _ & Hbit & _).
  cbv zeta in Hi, Hwf', Hnr, Hctxs, Hbit.
  set (s' := __blk_mq_insert_request (mk_hw_sw hctx (queue_ctx q)) rq at_head) in *.
  assert (Hhlt : (h < length (queue_hw_ctx q))%nat) by (eapply lookup_lt_Some; eauto).
  assert (Hq' : hctx_at q' h = hw s').
  { subst q'. unfold on_hctx. rewrite (hctx_at_lookup q h hctx Hh). fold s'.
    cbn [fst]. change (hctx_at (set_queue_ctx ?l ?x) h) with (hctx_at x h).
    now apply hctx_at_store_eq. }
  assert (Hqq : queue_flag_quiesced q' = queue_flag_quiesced q).
  { subst q'. unfold on_hctx. now destruct (__blk_mq_insert_request _ rq at_head). }
  assert (Hilt : (i < nr_ctx hctx)%nat).
  { destruct Hwf as (Hlen & _). cbn [hw] in *. rewrite <- Hlen.
    eapply lookup_lt_Some; eauto. }
  assert (Hpend : blk_mq_hctx_has_pending (hw s') = true).
  { unfold blk_mq_hctx_has_pending.
    rewrite (sbitmap_any_bit_set_intro (ctx_map (hw s')) i).
    - now rewrite orb_true_r.
    - destruct Hwf' as (_ & Hd & _). rewrite Hd, Hnr. exact Hilt.
    - exact Hbit. }
  split; [now rewrite Hq'|].
  unfold blk_mq_run_hw_queue. rewrite Hq', Hqq, Hpend, andb_true_r.
  destruct (queue_flag_quiesced q) eqn:Hquiesced; cbn [negb].
  - split_and!; [reflexivity|reflexivity|discriminate].
  - split_and!; [reflexivity|discriminate|]. intros _ Hstop Htags.
    rewrite (hctx_at_lookup q h hctx Hh) in Hstop, Htags.
    assert (Hf : state_stopped (hw s') = state_stopped hctx /\
                 tags (hw s') = tags hctx).
    { subst s'. unfold __blk_mq_insert_request. cbn [sw_queues hw].
      destruct (queue_ctx q !! mq_ctx rq) as [ctx|]; [|now split].
      cbn [hw]. destruct (blk_mq_hctx_mark_pending_fields hctx
        (set_rq_list (if at_head then list_add rq (rq_list ctx)
                      else list_add_tail rq (rq_list ctx)) ctx)) as (H1 & H2 & _).
      now split. }
    destruct Hf as [Hs Ht].
    unfold __blk_mq_delay_run_hw_queue, blk_mq_hctx_stopped, blk_mq_hw_queue_mapped.
    rewrite Hs, Hstop, Ht, Hnr. cbn [hw].
    destruct (Nat.eqb_spec (nr_ctx hctx) 0) as [Hz|Hnz]; [lia|].
    rewrite (bool_decide_eq_true_2 _ Htags). cbn [negb andb orb].
    destruct (negb async && negb (flag_blocking (hw s'))
              && bool_decide (cpu ∈ ctxs (hw s'))); [now left|now right].
Qed.

Lemma __blk_mq_insert_request_then_run_witness :
  queue_wf example_pending_queue /\
  queue_owns example_pending_queue 0 1 /\
  let q' := fst (on_hctx example_pending_queue 0
                   (fun s => (__blk_mq_insert_request
                                s (mk_request 9 1 (-1) (-1) false 0 0 30 0) false, tt))) in
  blk_mq_hctx_has_pending (hctx_at q' 0) = true /\
  let '(ran, tr) := blk_mq_run_hw_queue q' 0 1 false in
  ran = true /\
  (false = true -> tr = []) /\
  (false = false -> false = false -> is_Some (Some example_tags) ->
   tr = [Ev_run_hw_queue 0] \/ tr = [Ev_run_work 0 0]).
Proof.
  assert (Hown : queue_owns example_pending_queue 0 1).
  { eexists. split; [reflexivity|]. eexists. split; reflexivity. }
  split; [exact example_pending_queue_wf|]. split; [exact Hown|].
  exact (__blk_mq_insert_request_then_run example_pending_queue 0 1
           (mk_request 9 1 (-1) (-1) false 0 0 30 0) false false
           example_pending_queue_wf Hown).
Defined.

(** ** Finishing a request *)

Lemma hctx_at_blk_queue_exit (q : request_queue) (h : nat) :
  hctx_at (blk_queue_exit q) h = hctx_at q h.
Proof.
  unfold blk_queue_exit. now destruct (percpu_ref_is_zero _).
Qed.

Lemma blk_queue_exit_ref_count (q : request_queue) :
  ref_count (q_usage_counter (blk_queue_exit q)) = ref_count (q_usage_counter q) - 1.
Proof.
  unfold blk_queue_exit. now destruct (percpu_ref_is_zero _).
Qed.

(** X24: finishing a request gives back all it holds.  For a request with
    a scheduler tag and no driver tag, [blk_mq_get_driver_tag] followed by
    [blk_mq_finish_request] leaves the request neither STARTED nor counted
    as in flight, the driver tag pool with the busy tags it had and the
    count of active requests as before, whether or not a driver tag was
    obtained; the scheduler tag of the request is free and the other
    scheduler tags are as before; the usage counter of the queue is one
    lower, and the other hardware queues are not touched. *)
Theorem blk_mq_finish_request_releases (q : request_queue) (rq : request)
    (pool spool : blk_mq_tags) :
  let h := blk_mq_map_queue q (mq_ctx rq) in
  (h < length (queue_hw_ctx q))%nat ->
  tags (hctx_at q h) = Some pool -> sched_tags (hctx_at q h) = Some spool ->
  pool_wf pool ->
  tag rq = -1 -> 0 <= internal_tag rq -> req_mq_inflight rq = false ->
  let '(_, rq1, q1) := blk_mq_get_driver_tag q rq in
  let '(q2, rq2, _) := blk_mq_finish_request q1 rq1 in
  test_bit REQ_ATOM_STARTED (atomic_flags rq2) = false /\
  req_mq_inflight rq2 = false /\
  nr_active (hctx_at q2 h) = nr_active (hctx_at q h) /\
  (exists pool2, tags (hctx_at q2 h) = Some pool2 /\ bitmap pool2 = bitmap pool) /\
  (exists spool2,
     sched_tags (hctx_at q2 h) = Some spool2 /\
     test_bit (internal_tag rq) (bitmap spool2) = false /\
     forall b, b <> internal_tag rq ->
               test_bit b (bitmap spool2) = test_bit b (bitmap spool)) /\
  ref_count (q_usage_counter q2) = ref_count (q_usage_counter q) - 1 /\
  (forall h', h' <> h -> hctx_at q2 h' = hctx_at q h').
Proof.
  intros h Hh Hpool Hspool (Hr & Hn & Ha) Ht Hi Hfl.
  assert (Hstart : forall f, test_bit REQ_ATOM_STARTED (clear_bit REQ_ATOM_STARTED f)
                             = false)
    by (intros f; apply test_bit_clear_bit_eq; discriminate).
  assert (Hsched : forall sp : blk_mq_tags,
            test_bit (internal_tag rq) (bitmap (blk_mq_put_tag (internal_tag rq) sp))
            = false /\
            forall b, b <> internal_tag rq ->
              test_bit b (bitmap (blk_mq_put_tag (internal_tag rq) sp))
              = test_bit b (bitmap sp)).
  { intros sp. unfold blk_mq_put_tag. cbn [bitmap set_bitmap]. split.
    - now apply test_bit_clear_bit_eq.
    - intros b Hb. apply test_bit_clear_bit_neq; [assumption|congruence]. }
  unfold blk_mq_get_driver_tag. fold h.
  destruct (Z.eqb_spec (tag rq) (-1)) as [_|Hne]; [|contradiction].
  cbn [negb]. unfold hctx_get_tag. rewrite Hpool.
  pose proof (blk_mq_get_tag_spec
                (blk_mq_tag_is_reserved (sched_tags (hctx_at q h))
                                        (internal_tag rq)) pool Hr) as Hg.
  destruct (blk_mq_get_tag _ pool) as [b t'].
  destruct Hg as [[-> ->]|(Hb & Hfree & ->)].
  - rewrite to_int_tag_fail. cbn [tag set_tag Z.leb Z.compare].
    unfold blk_mq_finish_request, __blk_mq_finish_request.
    cbn [tag internal_tag mq_ctx req_mq_inflight atomic_flags set_tag
         set_req_mq_inflight set_atomic_flags Z.eqb Pos.eqb negb].
    change (blk_mq_map_queue (store_hctx h _ q) (mq_ctx rq)) with h.
    rewrite Hfl. rewrite !hctx_at_store_eq by exact Hh.
    destruct (Z.eqb_spec (internal_tag rq) (-1)) as [Hi1|_]; [lia|]. cbn [negb].
    rewrite !hctx_at_blk_queue_exit, blk_queue_exit_ref_count.
    rewrite !hctx_at_store_eq by (rewrite store_hctx_length; exact Hh).
    cbn [tags sched_tags nr_active set_tags set_sched_tags].
    rewrite Hspool. cbn [option_map].
    split_and!.
    + apply Hstart.
    + reflexivity.
    + reflexivity.
    + now exists pool.
    + eexists. split; [reflexivity|]. apply Hsched.
    + reflexivity.
    + intros h' Hne. rewrite hctx_at_blk_queue_exit.
      now rewrite !hctx_at_store_ne by congruence.
  - rewrite to_int_small by lia. cbn [tag set_tag].
    destruct (Z.leb_spec 0 b) as [_|Hneg]; [|lia].
    set (hctx1 := set_tags _ (hctx_at q h)).
    destruct (blk_mq_tag_busy hctx1);
      cbn [tag rq_id set_req_mq_inflight set_tag];
      unfold blk_mq_finish_request, __blk_mq_finish_request;
      cbn [tag internal_tag mq_ctx req_mq_inflight atomic_flags set_tag
           set_req_mq_inflight set_atomic_flags];
      (destruct (Z.eqb_spec b (-1)) as [Hb1|_]; [lia|]);
      (destruct (Z.eqb_spec (internal_tag rq) (-1)) as [Hi1|_]; [lia|]);
      cbn [negb];
      change (blk_mq_map_queue (store_hctx h _ q) (mq_ctx rq)) with h;
      rewrite ?Hfl;
      rewrite !hctx_at_blk_queue_exit, blk_queue_exit_ref_count;
      rewrite !hctx_at_store_eq by (rewrite ?store_hctx_length; exact Hh);
      unfold hctx_set_rqs; subst hctx1;
      cbn [tags sched_tags set_tags set_sched_tags set_nr_active nr_active
           option_map];
      rewrite Hspool; cbn [option_map];
      (split_and!;
       [apply Hstart
       |reflexivity
       |lia
       |eexists; split; [reflexivity|];
        unfold blk_mq_put_tag; cbn [bitmap set_bitmap set_rqs];
        apply clear_bit_set_bit; [lia|exact Hfree]
       |eexists; split; [reflexivity|]; apply Hsched
       |reflexivity
       |intros h' Hne; rewrite hctx_at_blk_queue_exit;
        now rewrite !hctx_at_store_ne by congruence]).
Qed.

Lemma blk_mq_finish_request_releases_witness :
  (blk_mq_map_queue example_sched_queue (mq_ctx example_sched_rq)
   < length (queue_hw_ctx example_sched_queue))%nat /\
  pool_wf (mk_tags 4 0 0 0 [NULL; NULL; NULL; NULL]) /\
  tag example_sched_rq = -1 /\ 0 <= internal_tag example_sched_rq /\
  req_mq_inflight example_sched_rq = false /\
  let '(_, rq1, q1) := blk_mq_get_driver_tag example_sched_queue example_sched_rq in
  let '(q2, rq2, _) := blk_mq_finish_request q1 rq1 in
  test_bit REQ_ATOM_STARTED (atomic_flags rq2) = false /\
  req_mq_inflight rq2 = false /\
  nr_active (hctx_at q2 0) = 0 /\
  (exists pool2, tags (hctx_at q2 0) = Some pool2 /\ bitmap pool2 = 0) /\
  (exists spool2,
     sched_tags (hctx_at q2 0) = Some spool2 /\
     test_bit 0 (bitmap spool2) = false /\
     forall b, b <> 0 -> test_bit b (bitmap spool2) = test_bit b 7) /\
  ref_count (q_usage_counter q2) = 3 - 1 /\
  (forall h', h' <> 0%nat -> hctx_at q2 h' = hctx_at example_sched_queue h').
Proof.
  assert (Hh : (blk_mq_map_queue example_sched_queue (mq_ctx example_sched_rq)
                < length (queue_hw_ctx example_sched_queue))%nat)
    by (vm_compute; lia).
  assert (Hi : 0 <= internal_tag example_sched_rq) by discriminate.
  split; [exact Hh|]. split; [exact example_sched_pool_wf|].
  split; [reflexivity|]. split; [exact Hi|]. split; [reflexivity|].
  exact (blk_mq_finish_request_releases example_sched_queue example_sched_rq
           (mk_tags 4 0 0 0 [NULL; NULL; NULL; NULL])
           (mk_tags 4 0 7 3 [RQ 1; RQ 2; RQ 3; NULL])
           Hh eq_refl eq_refl example_sched_pool_wf eq_refl Hi eq_refl).
Defined.

(** ** Quiescing and unquiescing *)

(** X25: unquiescing undoes quiescing.  On a queue that is not quiesced,
    [blk_mq_quiesce_queue] followed by [blk_mq_unquiesce_queue] gives the
    queue back as it was.  The grace periods waited for are exactly the
    read-side domains that [hctx_lock] enters on the hardware queues of the
    queue.  In between, [blk_mq_run_hw_queues] starts nothing, synchronous or
    not; the run of [blk_mq_unquiesce_queue] schedules the run work, with no
    delay, of exactly the hardware queues that are not stopped, are mapped
    and have something pending. *)
Theorem blk_mq_quiesce_unquiesce_queue (cpu : nat) (q : request_queue) :
  queue_flag_quiesced q = false ->
  let '(q1, waits) := blk_mq_quiesce_queue q in
  let '(q2, tr) := blk_mq_unquiesce_queue q1 cpu in
  q2 = q /\
  (forall dom,
     dom ∈ waits <->
     exists h hctx, queue_hw_ctx q !! h = Some hctx /\ hctx_lock hctx h = dom) /\
  (forall e,
     e ∈ tr <->
     exists h hctx,
       queue_hw_ctx q !! h = Some hctx /\ e = Ev_run_work h 0 /\
       blk_mq_hctx_stopped hctx = false /\ blk_mq_hw_queue_mapped hctx = true /\
       blk_mq_hctx_has_pending hctx = true) /\
  (forall async, blk_mq_run_hw_queues q1 cpu async = []).
Proof.
  intros Hq. unfold blk_mq_quiesce_queue, blk_mq_unquiesce_queue,
    blk_mq_quiesce_queue_nowait.
  cbn [queue_hw_ctx set_queue_flag_quiesced].
  assert (Hq2 : set_queue_flag_quiesced false (set_queue_flag_quiesced true q) = q).
  { destruct q. cbn in *. now subst. }
  rewrite Hq2. split_and!; [reflexivity| | |].
  - intros dom. rewrite elem_of_app, elem_of_concat_imap. split.
    + intros [(h & hctx & Hl & Hx)|Hx].
      * exists h, hctx. split; [exact Hl|]. unfold hctx_lock.
        destruct (flag_blocking hctx); [|now apply elem_of_nil in Hx].
        apply list_elem_of_singleton in Hx. now subst dom.
      * destruct (existsb _ (queue_hw_ctx q)) eqn:He; [|now apply elem_of_nil in Hx].
        apply list_elem_of_singleton in Hx. subst dom.
        apply existsb_exists in He as (hctx & Hin & Hb).
        apply list_elem_of_In, list_elem_of_lookup_1 in Hin as [h Hl].
        exists h, hctx. split; [exact Hl|]. unfold hctx_lock. now rewrite Hb.
    + intros (h & hctx & Hl & <-). unfold hctx_lock.
      destruct (flag_blocking hctx) eqn:Hb; cbn [negb].
      * left. exists h, hctx. split; [exact Hl|]. rewrite Hb.
        now apply list_elem_of_singleton.
      * right.
        assert (He : existsb (fun hctx => negb (flag_blocking hctx)) (queue_hw_ctx q)
                     = true).
        { apply existsb_exists. exists hctx. split; [|now rewrite Hb].
          apply list_elem_of_In. now apply (list_elem_of_lookup_2 _ h). }
        rewrite He. now apply list_elem_of_singleton.
  - intros e. unfold blk_mq_run_hw_queues. rewrite elem_of_concat_imap.
    assert (Hrun : forall h hctx, queue_hw_ctx q !! h = Some hctx ->
              (if blk_mq_hctx_stopped hctx then []
               else snd (blk_mq_run_hw_queue q h cpu true))
              = if negb (blk_mq_hctx_stopped hctx) && blk_mq_hw_queue_mapped hctx
                   && blk_mq_hctx_has_pending hctx
                then [Ev_run_work h 0] else []).
    { intros h hctx Hl. unfold blk_mq_run_hw_queue.
      rewrite (hctx_at_lookup q h hctx Hl), Hq. cbn [negb andb].
      unfold __blk_mq_delay_run_hw_queue.
      destruct (blk_mq_hctx_stopped hctx); [reflexivity|].
      destruct (blk_mq_hctx_has_pending hctx); cbn [negb andb orb snd];
        now destruct (blk_mq_hw_queue_mapped hctx). }
    split.
    + intros (h & hctx & Hl & Hx). rewrite (Hrun h hctx Hl) in Hx.
      exists h, hctx. split; [exact Hl|].
      destruct (blk_mq_hctx_stopped hctx); [now apply elem_of_nil in Hx|].
      destruct (blk_mq_hw_queue_mapped hctx); [|now apply elem_of_nil in Hx].
      destruct (blk_mq_hctx_has_pending hctx); [|now apply elem_of_nil in Hx].
      apply list_elem_of_singleton in Hx. now split_and!.
    + intros (h & hctx & Hl & -> & Hs & Hm & Hp). exists h, hctx.
      split; [exact Hl|]. rewrite (Hrun h hctx Hl), Hs, Hm, Hp.
      now apply list_elem_of_singleton.
  - intros async. apply elem_of_nil_inv. intros e He.
    unfold blk_mq_run_hw_queues in He. apply elem_of_concat_imap in He.
    destruct He as (h & hctx & _ & Hx). unfold blk_mq_run_hw_queue in Hx.
    destruct q; cbn in Hx.
    destruct (blk_mq_hctx_stopped hctx); now apply elem_of_nil in Hx.
Qed.

Lemma blk_mq_quiesce_unquiesce_queue_witness :
  queue_flag_quiesced example_pending_queue = false /\
  let '(q1, waits) := blk_mq_quiesce_queue example_pending_queue in
  let '(q2, tr) := blk_mq_unquiesce_queue q1 0%nat in
  q2 = example_pending_queue /\
  (forall dom,
     dom ∈ waits <->
     exists h hctx, queue_hw_ctx example_pending_queue !! h = Some hctx /\
                    hctx_lock hctx h = dom) /\
  (forall e,
     e ∈ tr <->
     exists h hctx,
       queue_hw_ctx example_pending_queue !! h = Some hctx /\ e = Ev_run_work h 0 /\
       blk_mq_hctx_stopped hctx = false /\ blk_mq_hw_queue_mapped hctx = true /\
       blk_mq_hctx_has_pending hctx = true) /\
  (forall async, blk_mq_run_hw_queues q1 0%nat async = []).
Proof.
  split; [reflexivity|].
  exact (blk_mq_quiesce_unquiesce_queue 0%nat example_pending_queue eq_refl).
Defined.

(** ** The pending-bitmap invariant on the request queue *)

(** X26: on a well-formed request queue, the pending-bitmap invariant (the
    bit of the owning hardware queue at the index of a software queue is set
    if and only if the FIFO of that queue is not empty) is kept by
    [__blk_mq_insert_request] and by [blk_mq_hctx_cpu_offline] applied to the
    hardware queue that owns the software queue, and by
    [blk_mq_flush_busy_ctxs] and [blk_mq_dequeue_from_ctx] on any hardware
    queue.  [blk_mq_hctx_cpu_offline] applied to another hardware queue than
    the one that owns the software queue loses the invariant whenever that
    software queue holds a request. *)
Theorem pending_invariant_preserved (q : request_queue) (h : nat) :
  queue_wf q -> pending_invariant q -> (h < length (queue_hw_ctx q))%nat ->
  (forall rq at_head, queue_owns q h (mq_ctx rq) ->
     let q' := fst (on_hctx q h (fun s => (__blk_mq_insert_request s rq at_head, tt))) in
     queue_wf q' /\ pending_invariant q') /\
  (forall l,
     let q' := fst (on_hctx q h (fun s => blk_mq_flush_busy_ctxs s l)) in
     queue_wf q' /\ pending_invariant q') /\
  (forall start,
     let q' := fst (on_hctx q h (fun s => blk_mq_dequeue_from_ctx s start)) in
     queue_wf q' /\ pending_invariant q') /\
  (forall cpu, queue_owns q h cpu ->
     let q' := fst (on_hctx q h (fun s => blk_mq_hctx_cpu_offline s cpu)) in
     queue_wf q' /\ pending_invariant q') /\
  (forall cpu h' ctx,
     queue_owns q h' cpu -> h' <> h ->
     queue_ctx q !! cpu = Some ctx -> rq_list ctx <> [] ->
     let q' := fst (on_hctx q h (fun s => blk_mq_hctx_cpu_offline s cpu)) in
     ~ pending_invariant q').
Proof.
  intros Hqwf Hinv Hh.
  destruct (lookup_lt_is_Some_2 (queue_hw_ctx q) h Hh) as [hctx Hhctx].
  pose proof (proj1 (Hqwf h hctx Hhctx)) as Hwf.
  pose proof (queue_hw_pending_inv q h hctx Hqwf Hinv Hhctx) as Hhinv.
  assert (Hok : hw_sw_ok (mk_hw_sw hctx (queue_ctx q)) (mk_hw_sw hctx (queue_ctx q))).
  { split; [assumption|]. split; [assumption|apply sw_frame_refl]. }
  split; [|split; [|split; [|split]]].
  - intros rq at_head (hctx' & Hh' & Hown).
    apply (on_hctx_ok q h hctx); try assumption. cbn [fst].
    apply __blk_mq_insert_request_ok; [assumption|congruence].
  - intros l. apply (on_hctx_ok q h hctx); try assumption.
    now apply blk_mq_flush_busy_ctxs_ok.
  - intros start. apply (on_hctx_ok q h hctx); try assumption.
    now apply blk_mq_dequeue_from_ctx_ok.
  - intros cpu (hctx' & Hh' & Hown).
    apply (on_hctx_ok q h hctx); try assumption.
    apply blk_mq_hctx_cpu_offline_ok; [assumption|congruence].
  - intros cpu h' ctx (hctx' & Hh' & ctx0 & Hc0 & Hi0) Hne Hc Hrq.
    cbn [sw_queues hw] in Hc0, Hi0. rewrite Hc in Hc0. injection Hc0 as <-.
    cbv zeta. unfold on_hctx. rewrite (hctx_at_lookup q h hctx Hhctx).
    unfold blk_mq_hctx_cpu_offline. cbn [sw_queues hw]. rewrite Hc.
    destruct (rq_list ctx) as [|r rs] eqn:Hrl; [congruence|].
    cbn [fst sw_queues hw]. intros Hinv'.
    assert (Hcpu : (cpu < length (queue_ctx q))%nat)
      by (eapply lookup_lt_Some; eauto).
    assert (Hbit : sbitmap_test_bit (ctx_map hctx') (index_hw ctx) = true).
    { apply (Hinv h' hctx' (index_hw ctx) cpu ctx); try assumption.
      rewrite Hrl. discriminate. }
    destruct (Hinv' h' hctx' (index_hw ctx) cpu (set_rq_list [] ctx)) as [Hempty _].
    + cbn [queue_hw_ctx set_queue_ctx store_hctx set_queue_hw_ctx].
      now rewrite list_lookup_insert_ne by congruence.
    + exact Hi0.
    + cbn [queue_ctx set_queue_ctx]. now apply list_lookup_insert_eq.
    + now apply Hempty.
Qed.

Lemma pending_invariant_preserved_witness :
  queue_wf example_pending_queue /\ pending_invariant example_pending_queue /\
  (0 < length (queue_hw_ctx example_pending_queue))%nat /\
  pending_invariant
    (fst (on_hctx example_pending_queue 0
                  (fun s => blk_mq_flush_busy_ctxs s []))).
Proof.
  split; [exact example_pending_queue_wf|].
  split; [exact example_pending_queue_inv|].
  split; [simpl; lia|].
  exact (proj2 (proj1 (proj2 (pending_invariant_preserved example_pending_queue
                                0%nat example_pending_queue_wf
                                example_pending_queue_inv
                                (Nat.lt_0_succ 0))) [])).
Defined.
